(* ===== verification/_CoqProject ===== *)
-Q . S2P
Prelude.v
GoStrings.v
Strconv.v
Json.v
JsonCodec.v
Crypto.v
Money.v
Reference.v
Config.v
Ledger.v
Gateway.v
Cedis.v
Http.v
HubtelAdapter.v
PaystackAdapter.v
MoolreAdapter.v
AdaptersSpec.v
Router.v
Worker.v
WorkerFrames.v
Valkey.v
HealthSpec.v
Scenario.v
RelyGuarantee.v
RouterProofs.v
Charges.v
ChargesSpec.v
Payload.v
Signature.v
Webhooks.v
WebhooksSpec.v
LocksSpec.v
WorkerSpec.v
WorkerLiveness.v
Payouts.v
Api.v
ApiWebhooks.v
Client.v
RateLimit.v
Apps.v
Handlers.v
ClientSpec.v
Database.v
DatabaseProofs.v
History.v
PgStore.v
PgSpec.v
PgOutbox.v
PgProps.v
PgTyped.v
ListHandlers.v
ListSpec.v
MemStore.v
MemStoreProofs.v
Observability.v
Build.v
Commands.v
HttpRouter.v
HandlersSpec.v
HttpSpec.v
AppsProofs.v
BuildSpec.v
ObservabilitySpec.v
PayoutsSpec.v
Integrity.v
PgIntegrity.v
Fleet.v
FleetCharges.v
System.v
Wire.v
Platform.v
PgCallbacks.v
PgScenario.v
OutboxRuns.v
Edge.v
Deployment.v
FleetRuns.v
Witnesses.v
