(* ===== verification/Prelude.v ===== *)
(** * A verification development for Orcta Pay (Go)

    Orcta Pay takes payments on behalf of products: a product asks for a
    charge, the service picks a gateway (Hubtel, Paystack, Moolre), the
    customer pays on a phone, and the gateway's callback or a worker's
    question settles the charge and writes the ledger.  Payout batches,
    refunds, application keys and a dashboard stand beside it.  This library
    models the Go code of the repository, the two commands and the Go client
    included, and proves what makes it correct, or shows where it is not.

    ** How a Go program is modelled

    A function that touches nothing but its arguments is a Rocq function.
    Every other body is a [Prog W A] (below): a finite tree of atomic actions
    over a world [W].  An action is one call that nobody can observe half-way:
    a store method under its mutex ([locked]), one SQL statement or
    transaction, one HTTP exchange, one reading of the clock.  [run] executes
    a body alone and [sched] interleaves several.  A Go interface is a Record
    of programs, so that the wiring of a process is a value; what a client
    may rely on is a [Class] over the record and an abstract view of the
    world (a contract), which implementations discharge as instances.  The
    type of worlds is a parameter throughout: a theorem over contracts holds
    in every world that meets them, and concrete worlds serve as witnesses.

    [Guar R p] says that every action of [p] respects [R] and [Preserves view
    p] that none changes [view]; both carry over to every interleaving
    ([sched_Guar]), and the tactic [guar] proves them along the structure of
    a body with the lemmas registered in the database [guar].  RelyGuarantee
    adds [Safe view G P p Q], what a body may assert of its answer while
    others move the same state along [G]; it is sound for every interleaving,
    also one that stops half-way ([sched_Safe]).  Errors are the
    type [error] with [errors_Is]; a Go pair of value and error is [result].
    An int64 is a [Z] with [wrap64] wherever the code computes; an instant is
    a [Z] of nanoseconds; a float is the Standard Library's [spec_float];
    strings are sequences of bytes.  A Go map is a [gmap], ranged over in an
    order the run time picks ([range_map]).

    ** The parts, and where they are

    Language and libraries.  GoStrings, Strconv, Json, JsonCodec, Crypto:
    what the code uses of strings, strconv, fmt, time, encoding/json, SHA-2,
    HMAC, hex and base64, executable, with round trips.  Cedis: amounts
    through a float64.

    Values.  Money (internal/money), Reference (gateway identifiers,
    references and ULIDs of internal/gateway), Config (internal/config),
    Ledger (internal/ledger).

    Gateways (internal/gateway).  Gateway is the seam; Http, HubtelAdapter,
    PaystackAdapter, MoolreAdapter are the adapters as bytes on an abstract
    [Transport], with theorems in AdaptersSpec; Router is the ranking and the
    fallback, with theorems in RouterProofs.  Valkey is
    internal/storage/valkey (health of gateways, locks), with the circuit
    breaker's specification in HealthSpec and the contract of the locks in
    LocksSpec: a lock lapses after its time, a release frees it whoever holds
    it, and any call may fail; [Valkey_locker] meets it over a server whose
    time passes and whose replies may get lost.

    Services.  Charges and ChargesSpec (internal/charges); Payload,
    Signature, Webhooks and WebhooksSpec (internal/webhooks); Worker,
    WorkerFrames, WorkerSpec (the contract of its store, one row) and
    WorkerLiveness (many drains) (internal/worker); Payouts
    and PayoutsSpec (internal/payouts); Apps and AppsProofs (internal/apps).
    Each is written against the seams its package declares ([IntentStore],
    [Store], [OutboxStore], [ReservationStore], [ChargerRouter], [Locker], ...).

    Stores (internal/storage/postgres).  MemStore and MemStoreProofs: the
    in-memory store of store.go.  Database: the tables, the constraints of
    the migrations and every statement of the generated queries and of
    pg_store.go; DatabaseProofs: the schema as an invariant of statements;
    History: what no statement takes back; PgStore: every method of the
    Postgres stores over the statements; PgSpec, PgOutbox, PgProps, PgTyped
    and PgCallbacks: their theorems.
    Both stores meet the contracts the services are proved against, with the
    exceptions the theorems state.

    Services over stores, among others.  Integrity: what every operation of
    the services does to the books while other goroutines work, over
    contracts for the stores; PgIntegrity: the books in Postgres
    ([consistent]) and the Postgres stores as instances of those contracts.

    HTTP API (internal/api).  Api (requests, answers, sessions, the key),
    RateLimit, ApiWebhooks, Handlers, ListHandlers, HttpRouter; theorems also
    in HandlersSpec, ListSpec and HttpSpec.  A handler decodes a request,
    calls a service and maps its outcome to an answer; [NewRouter] puts the
    middlewares before the table of routes.

    Processes.  Observability (internal/observability), Build
    (internal/platform: the composition root), Commands (cmd/api,
    cmd/worker), with theorems in BuildSpec and ObservabilitySpec.  Fleet:
    every handler, middleware, route and worker round over Integrity, up to
    any number of processes on one database; FleetCharges: charges under one
    idempotency key among them.  Client and ClientSpec: the client of
    clients/go/orctapay.

    Concrete worlds.  Scenario (any store, scripted gateways); System (the
    services over one in-memory store); Wire (the adapters over a scripted
    network); Platform (both); PgScenario and OutboxRuns (over Postgres); Edge (a Valkey
    server); Deployment (all of it, end to end); FleetRuns (fleets in it);
    Witnesses.  There the hypotheses of the theorems are discharged and the code runs on inputs.

    ** What the theorems show

    Charges: a valid request is replayed under its idempotency key or offered
    to gateways, with one of four outcomes ([Initiate_correct]); a key
    registered once is answered the same in every later state, whenever its
    lookup is answered ([Initiate_idempotent]).  The fallback makes
    at most one exchange per gateway, in order ([InitiateWithFallback_correct]).
    A charge made with the Go client is the service's own
    ([CreateCharge_is_Initiate]).

    Any number of production processes, interleaved in any way and stopped at
    any point, keep the books ([fleet_keeps_books]), and charges made under
    one key are answered as pending with one reference only
    ([one_key_one_charge]), although two of them may both reach a gateway.  A
    charge is always offered before it is stored, so a process that stops in
    between leaves no record of it ([charge_taken_without_record]).

    Callbacks: [Process] refines the abstract machine [callback] over any
    store that meets its contract ([Process_refines]), so any sequence of
    callbacks books each charge once ([callbacks_book_once]); a callback
    reaches it exactly when it is signed as configured
    ([handleWebhook_correct], [VerifyStandardWebhook_iff]).  The limits of
    this are theorems too: two concurrent callbacks, two workers, or the
    worker after a callback, book a charge again
    ([concurrent_callbacks_book_twice], [two_workers_book_twice],
    [drain_books_again]); Hubtel and Moolre report no amount
    ([collected_amount_is_lost]), which Postgres refuses, so that no callbacks,
    however many and interleaved, settle their charges as paid
    ([pg_callback_never_settles]).

    Worker and payouts, over either store: one outbox row at a time under its
    lock ([processOne_correct]); the outbox empties when gateways and store
    answer and starves behind fifty rows that get no answer
    ([outbox_empties], [outbox_starves]); one dispatch pays a reference again
    only after the thirty seconds of its lock, which a slow gateway can take
    ([slow_gateway_pays_twice]), and gives back what it took
    ([Dispatch_correct]).

    Stores: the Postgres stores meet the contracts ([pg_meets_contracts]),
    write only what the columns admit ([pg_calls_well_typed]), keep the schema
    under any interleaving ([pg_schema_preserved]) and only grow
    ([pg_append_only]); batches read back ([pg_batch_roundtrip]); the
    index of application keys stays consistent ([RotateKey_correct]).  The
    breaker over Valkey is open exactly when its specification says
    ([circuit_open_iff]).

    The edge: sessions and keys ([bearerAuth_correct],
    [login_session_correct], [production_requires_key],
    [strangers_see_no_endpoint]); answers tell what happened
    ([handleCreateCharge_correct], [handleRefundCharge_correct],
    [handleListCharges_correct]); the limiter's bound and its evasion
    ([allowed_at_most_twice_limit], [ip_limit_evaded]).

    Processes: no connection is lost and production settles for nothing less
    than both servers, but an error of [Build] leaves the trace exporter
    running ([Build_correct]); a worker returns after its signal
    ([run_worker_returns]); one that fell back to memory settles nothing
    ([memory_worker_idle]); the line of a request has every field set on it,
    by any goroutine, once ([wide_event_loses_nothing]).

    Numbers and texts: references parse to what built them
    ([ParseReference_correct]), amounts are exact below 2^51 minor units
    ([cedis_exact]), configurations are accepted exactly when usable
    ([Validate_correct]).

    ** Fuel and bounds

    Bodies are finite trees and [run] needs no fuel.  The JSON reader takes
    2n+2 for a text of n bytes, which reads everything [Marshal] writes up to
    Go's nesting limit ([fuel_of_length], [parse_Marshal]); string literals
    take their length plus one, and [encode_body] and [sanitize_go] the
    length.  The inner loop of [encodeCrockford] takes the bits left, of
    which each turn uses five ([enc_drain_inv]); the terms of a duration take
    its length ([duration_terms_fuel]), the search for the shortest digits of
    a float 17 steps.  The loops of the commands,
    which wait on channels, run over the list of what their [select]s
    receive: [run_worker_returns] is for every number of ticks.

    ** Parameters, and what is assumed of them

    [Runtime]: clock, uuid.New, crypto/rand, map order ([RuntimeOrder]: a
    range visits each entry once; [RandBytes]: as many bytes as asked).
    [Transport], [ApiTransport]: the network, which may answer anything.
    [Postgres]: a server that runs a statement or a transaction;
    [PostgresSpec] says that one that answered had its effect and one that
    failed had none, so a commit whose acknowledgement is lost is outside the
    theorems; dates are in UTC.  [Pool] with [PoolSpec]: SELECT texts mean
    what [sel_eval] says, on rows met in any order ([Scans]).  [ValkeyClient]
    with [ValkeySpec]: a reply the client received is the one [exec] gives;
    or, for the locks and the limiter, with the weaker [ValkeyCalls]: time
    passes and replies get lost.  [Chi], [Middlewares] with
    [MiddlewaresSpec] and [RealIPSpec]: how chi matches paths, and what its
    middlewares and go-chi/cors do to a request.  [Infra] with [InfraSpec],
    [Telemetry] with [TelemetrySpec], [Tracing], [GatewayMetrics], [WideEvents]: what the drivers
    do with connections, spans, counters and the fields of an event.
    [uuid_Parse] and the texts of JSON errors.  For the fleets, frames
    ([InfraFrame], [PoolFrame], [FilesFrame], ...: the other servers do not
    write the tables of Postgres), [MiddlewaresPass] (a middleware of chi
    that runs a handler adds nothing to the tables) and [TransportErrors] (no
    error of the network is the adapters' own sentinel).  Each contract has an instance in a concrete
    world, and each property with hypotheses a witness.

    ** Not modelled

    Log lines, and the calls that other packages make of Observability's
    spans, wide events and counters (the functions themselves are modelled):
    nothing reads them back.  Contexts and timeouts: a call that timed out is a call that
    failed.  Panics of the run time and exhaustion of memory.  The bytes of
    the dashboard and of the API description; the execution of migrations
    (their result, the schema, is modelled); the generated interface
    querier.go, which repeats signatures; the TypeScript client and the
    dashboard's source, which are not Go. *)
From Stdlib Require Export ZArith Lia.
From stdpp Require Export base option list gmap strings countable.

#[export] Set Warnings "-clear-no-such-hyp".

(** ** Notations of the development *)
Declare Scope orcta_scope.
Delimit Scope orcta_scope with orcta.
Notation "s1 ^^ s2" := (String.append s1 s2) (at level 60, right associativity) : orcta_scope.
Open Scope orcta_scope.
#[global] Arguments String.append !_ _ / : simpl nomatch.

Create HintDb orcta discriminated.
Create HintDb guar discriminated.
#[global] Hint Constants Opaque : guar.
Create HintDb gostr discriminated.

(** ** Go errors

    A package-level [errors.New] value is identified by its (distinct) text,
    a value made inside a function by [errors.New] or by [fmt.Errorf] without
    [%w] is [Fresh], and [fmt.Errorf] with [%w] wraps. *)
#[warnings="-register-all"]
Inductive error : Type :=
| Sentinel (text : string)
| Fresh (text : string)
| Wrap (text : string) (wrapped : list error).

Definition Error (e : error) : string :=
  match e with
  | Sentinel t => t
  | Fresh t => t
  | Wrap t _ => t
  end.

(** [errors.Is(e, target)] for a sentinel target. *)
Fixpoint errors_Is (e target : error) : bool :=
  match e, target with
  | Sentinel t, Sentinel t' => String.eqb t t'
  | Wrap _ es, Sentinel _ => existsb (fun e' => errors_Is e' target) es
  | _, _ => false
  end.

(** [fmt.Errorf(prefix + "%w", e)] *)
Definition Errorf (prefix : string) (e : error) : error :=
  Wrap (prefix ^^ Error e) [e].

Inductive result (A : Type) : Type :=
| Ok (a : A)
| Err (e : error).
Arguments Ok {A} a.
Arguments Err {A} e.

Definition is_Ok {A} (r : result A) : bool :=
  match r with Ok _ => true | Err _ => false end.

Lemma errors_Is_Errorf p e t : errors_Is (Errorf p e) (Sentinel t) = errors_Is e (Sentinel t).
Proof. simpl. apply orb_false_r. Qed.

Lemma errors_Is_refl t : errors_Is (Sentinel t) (Sentinel t) = true.
Proof. apply String.eqb_refl. Qed.

(** ** Effectful programs

    A [Prog W A] is a Go function body over a world [W]: a finite tree of
    atomic actions.  An action is one call that no other goroutine can
    observe half-way (a store method under its mutex, one HTTP exchange, one
    clock read).  [run] executes a body alone; [sched] interleaves several. *)
Definition M (W A : Type) : Type := W -> A * W.

Inductive Prog (W A : Type) : Type :=
| Ret (a : A)
| Act (B : Type) (m : M W B) (k : B -> Prog W A).
Arguments Ret {W A} a.
Arguments Act {W A B} m k.

Fixpoint prog_bind {W A B} (p : Prog W A) (f : A -> Prog W B) : Prog W B :=
  match p with
  | Ret a => f a
  | Act m k => Act m (fun b => prog_bind (k b) f)
  end.

#[export] Instance Prog_ret {W} : MRet (Prog W) := fun A a => Ret a.
#[export] Instance Prog_bind {W} : MBind (Prog W) := fun A B f p => prog_bind p f.

Definition call {W A} (m : M W A) : Prog W A := Act m Ret.

Fixpoint run {W A} (p : Prog W A) (w : W) : A * W :=
  match p with
  | Ret a => (a, w)
  | Act m k => run (k (m w).1) (m w).2
  end.

Lemma run_bind {W A B} (p : Prog W A) (f : A -> Prog W B) w :
  run (p ≫= f) w = run (f (run p w).1) (run p w).2.
Proof. unfold mbind, Prog_bind. revert w. induction p as [a|C m k IH]; intros w; simpl; auto. Qed.

Lemma run_ret {W A} (a : A) (w : W) : run (mret a : Prog W A) w = (a, w).
Proof. reflexivity. Qed.

Lemma run_call {W A} (m : M W A) (w : W) : run (call m) w = m w.
Proof. simpl. by destruct (m w). Qed.

(** A body run while a mutex is held: one step for the other goroutines. *)
Definition locked {W A} (p : Prog W A) : Prog W A := call (run p).

Lemma run_locked {W A} (p : Prog W A) (w : W) : run (locked p) w = run p w.
Proof. apply run_call. Qed.

(** [for _, x := range l { body(x) }] *)
Fixpoint forM_ {W A} (l : list A) (body : A -> Prog W unit) : Prog W unit :=
  match l with
  | [] => mret tt
  | x :: l' => _ ← body x; forM_ l' body
  end.

(** *** Guarantees: a relation that every atomic action of a body respects *)
Fixpoint Guar {W A} (R : W -> W -> Prop) (p : Prog W A) : Prop :=
  match p with
  | Ret _ => True
  | Act m k => (forall w, R w (m w).2) /\ (forall b, Guar R (k b))
  end.

Abbreviation Preserves view p := (Guar (fun w w' => view w' = view w) p) (only parsing).
#[global] Arguments Guar {W A} R p : simpl never.

Section guarantees.
Context {W : Type} (R : W -> W -> Prop).

Lemma Guar_ret {A} (a : A) : Guar R (mret a : Prog W A).
Proof. exact I. Qed.

Lemma Guar_call {A} (m : M W A) : (forall w, R w (m w).2) -> Guar R (call m).
Proof. intros H. split; [exact H | intros b; exact I]. Qed.

Lemma Guar_bind {A B} (p : Prog W A) (f : A -> Prog W B) :
  Guar R p -> (forall a, Guar R (f a)) -> Guar R (p ≫= f).
Proof.
  unfold mbind, Prog_bind. intros Hp Hf.
  induction p as [a|C m k IH]; cbn in *; [auto|].
  destruct Hp as [Hm Hk]. split; [exact Hm|]. intros b. auto.
Qed.

(** Of a sequence, every continuation that a run reaches. *)
Lemma Guar_bind_inv {A B} (p : Prog W A) (f : A -> Prog W B) :
  Guar R (p ≫= f) -> Guar R p /\ forall w, Guar R (f (run p w).1).
Proof.
  unfold mbind, Prog_bind. induction p as [a|C m k IH]; cbn; [done|].
  intros [Hm Hk]. split; [split; [done|intros b; by apply IH]|]. intros w. by apply IH.
Qed.

Lemma Guar_forM {A} (l : list A) (body : A -> Prog W unit) :
  (forall x, x ∈ l -> Guar R (body x)) -> Guar R (forM_ l body).
Proof.
  induction l as [|x l IH]; intros H; simpl; [exact I|].
  apply Guar_bind; [apply H; left|]. intros _. apply IH. intros y Hy. apply H. by right.
Qed.

Lemma Guar_run `{!PreOrder R} {A} (p : Prog W A) w : Guar R p -> R w (run p w).2.
Proof.
  revert w. induction p as [a|C m k IH]; intros w; simpl; [reflexivity|].
  intros [Hm Hk]. etrans; [apply Hm | apply IH, Hk].
Qed.

Lemma Guar_mono (R' : W -> W -> Prop) {A} (p : Prog W A) :
  (forall w w', R w w' -> R' w w') -> Guar R p -> Guar R' p.
Proof.
  intros HR. induction p as [a|C m k IH]; simpl; [auto|].
  intros [Hm Hk]. split; [intros w; apply HR, Hm|]. intros b. apply IH, Hk.
Qed.
End guarantees.

#[export] Instance view_eq_preorder {W V} (view : W -> V) :
  PreOrder (fun w w' => view w' = view w).
Proof. split; [intros w; reflexivity | intros w1 w2 w3 H1 H2; congruence]. Qed.

Lemma Guar_Ret {W A} (R : W -> W -> Prop) (a : A) : Guar R (Ret a).
Proof. exact I. Qed.

Lemma Preserves_run {W A V} (view : W -> V) (p : Prog W A) w :
  Preserves view p -> view (run p w).2 = view w.
Proof. intros H. exact (Guar_run (fun w w' => view w' = view w) p w H). Qed.

Lemma Guar_locked {W A} (R : W -> W -> Prop) `{!PreOrder R} (p : Prog W A) :
  Guar R p -> Guar R (locked p).
Proof. intros H. apply Guar_call. intros w. by apply Guar_run. Qed.

#[export] Hint Resolve Guar_Ret Guar_ret Guar_call Guar_bind Guar_forM : guar.

(** *** Interleavings: [sched sch ps w] steps thread [i] for each [i] of [sch] *)
Definition step1 {W A} (p : Prog W A) (w : W) : Prog W A * W :=
  match p with
  | Ret a => (Ret a, w)
  | Act m k => (k (m w).1, (m w).2)
  end.

Fixpoint sched {W A} (sch : list nat) (ps : list (Prog W A)) (w : W) : list (Prog W A) * W :=
  match sch with
  | [] => (ps, w)
  | i :: sch' =>
      match ps !! i with
      | None => sched sch' ps w
      | Some p => sched sch' (<[i := (step1 p w).1]> ps) (step1 p w).2
      end
  end.

Definition finished {W A} (p : Prog W A) : option A :=
  match p with Ret a => Some a | Act _ _ => None end.

(** A goroutine can be stopped between any part of its body and the rest. *)
Lemma sched_reaches {W A B} (p : Prog W A) (f : A -> Prog W B) w :
  exists k, sched (replicate k 0) [p ≫= f] w = ([f (run p w).1], (run p w).2).
Proof.
  unfold mbind, Prog_bind. revert w. induction p as [a|C m k IH]; intros w; [by exists 0|].
  destruct (IH (m w).1 (m w).2) as [n Hn]. exists (S n). exact Hn.
Qed.
Lemma sched_later {W A} i j (p q : Prog W A) w w' :
  sched (replicate i 0) [p] w = ([q], w') -> sched (replicate (i + j) 0) [p] w = sched (replicate j 0) [q] w'.
Proof.
  revert p w. induction i as [|i IH]; intros p w H; simpl in *; [by injection H as -> ->|by apply IH].
Qed.

Lemma step1_Guar {W A} (R : W -> W -> Prop) `{!PreOrder R} (p : Prog W A) w :
  Guar R p -> R w (step1 p w).2 /\ Guar R (step1 p w).1.
Proof. destruct p as [a|C m k]; simpl; [split; [reflexivity|exact I]|]. intros [Hm Hk]. auto. Qed.

Lemma sched_Guar {W A} (R : W -> W -> Prop) `{!PreOrder R} sch (ps : list (Prog W A)) w :
  Forall (Guar R) ps -> R w (sched sch ps w).2.
Proof.
  revert ps w. induction sch as [|i sch IH]; intros ps w Hps; simpl; [reflexivity|].
  destruct (ps !! i) as [p|] eqn:Hi; [|by apply IH].
  assert (Hp : Guar R p) by (eapply Forall_lookup_1; eauto).
  destruct (step1_Guar R p w Hp) as [H1 H2].
  etrans; [exact H1|]. apply IH. by apply Forall_insert.
Qed.

(** ** Machine integers *)
Definition int64 (z : Z) : Prop := (-2^63 <= z < 2^63)%Z.
Definition wrap64 (z : Z) : Z := ((z + 2^63) mod 2^64 - 2^63)%Z.

#[export] Instance int64_dec z : Decision (int64 z).
Proof. unfold int64. apply _. Defined.

Lemma wrap64_int64 z : int64 (wrap64 z).
Proof. unfold int64, wrap64. pose proof (Z.mod_pos_bound (z + 2^63) (2^64) ltac:(lia)). lia. Qed.

Lemma wrap64_id z : int64 z -> wrap64 z = z.
Proof. unfold int64, wrap64. intros H. rewrite Z.mod_small; lia. Qed.

Lemma wrap64_eqm z : exists k, wrap64 z = (z + k * 2^64)%Z.
Proof.
  unfold wrap64. exists (- ((z + 2^63) / 2^64))%Z.
  pose proof (Z.div_mod (z + 2^63) (2^64) ltac:(lia)). lia.
Qed.

Lemma wrap64_congr a b : (exists k, a = b + k * 2^64)%Z -> wrap64 a = wrap64 b.
Proof.
  intros [k ->]. unfold wrap64. f_equal.
  replace (b + k * 2^64 + 2^63)%Z with (b + 2^63 + k * 2^64)%Z by lia.
  apply Z.mod_add. lia.
Qed.

#[export] Hint Resolve wrap64_int64 : orcta.

(** ** Time: an instant is a number of nanoseconds since the Unix epoch (UTC) *)
Abbreviation Time := Z (only parsing).
Definition Second : Z := 1000000000.
Definition Minute : Z := 60 * Second.
Definition Hour : Z := 60 * Minute.
(** [time.Time{}], January 1 of year 1. *)
Definition Time_zero : Time := (-62135596800 * Second)%Z.
(** [t.Unix()] *)
Definition Unix (t : Time) : Z := (t / Second)%Z.

(** [time.Unix(sec, 0)]: the seconds since year 1 are an int64 that wraps. *)
Definition time_Unix (sec : Z) : Time :=
  ((wrap64 (sec + 62135596800) - 62135596800) * Second)%Z.
(** [t.Sub(u)]: a duration is an int64 of nanoseconds; [Sub] saturates. *)
Definition time_Sub (t u : Time) : Z := (Z.max (- 2 ^ 63) (Z.min (2 ^ 63 - 1) (t - u)))%Z.

Abbreviation UUID := N (only parsing).

(** ** The run-time services the code reads: clock, [uuid.New], [crypto/rand] *)
Class Runtime (W : Type) := {
  rt_now : M W Time;
  rt_uuid : M W UUID;
  rt_rand : nat -> M W (list Z);
  rt_order : nat -> M W (list nat);
  uuid_String : UUID -> string;
}.

Definition time_Now {W} `{!Runtime W} : Prog W Time := call rt_now.
Definition uuid_New {W} `{!Runtime W} : Prog W UUID := call rt_uuid.
Definition rand_Read {W} `{!Runtime W} (n : nat) : Prog W (list Z) := call (rt_rand n).
(** [for _, x := range m] over a map: the elements in the order the run time picks. *)
Definition range_map {W A} `{!Runtime W} (l : list A) : Prog W (list A) :=
  order ← (call (rt_order (length l)) : Prog W (list nat));
  mret (omap (M:=list) (fun i => l !! i) order).

(** A range visits every entry once. *)
Class RuntimeOrder {W} `{!Runtime W} : Prop :=
  order_perm n w : (rt_order n w).1 ≡ₚ seq 0 n.

Lemma omap_lookup_seq {A} (l : list A) k :
  omap (M:=list) (fun i => l !! (i - k)) (seq k (length l)) = l.
Proof.
  revert k. induction l as [|x l IH]; intros k; [done|]. simpl. rewrite Nat.sub_diag. simpl.
  f_equal. rewrite <- (IH (S k)) at 2. apply list_omap_ext, Forall_Forall2_diag, Forall_seq.
  intros i Hi. by replace (i - k) with (S (i - S k)) by lia.
Qed.

Lemma run_range_map {W A} `{!Runtime W} `{!RuntimeOrder (W:=W)} (l : list A) (w : W) :
  (run (range_map l) w).1 ≡ₚ l.
Proof.
  unfold range_map. rewrite run_bind, run_call, run_ret. cbn [fst snd].
  rewrite (order_perm (length l) w). transitivity (omap (M:=list) (fun i => l !! (i - 0)) (seq 0 (length l))).
  - erewrite list_omap_ext; [done|]. apply Forall_Forall2_diag, Forall_true.
    intros i. by rewrite Nat.sub_0_r.
  - by rewrite omap_lookup_seq.
Qed.

(** A view of the world that the run-time services leave alone. *)
Class RuntimeFrame {W V} `{!Runtime W} (view : W -> V) : Prop := {
  frame_now w : view (rt_now w).2 = view w;
  frame_uuid w : view (rt_uuid w).2 = view w;
  frame_rand n w : view (rt_rand n w).2 = view w;
  frame_order n w : view (rt_order n w).2 = view w;
}.

Section runtime_frame.
Context {W V : Type} `{!Runtime W} (view : W -> V) `{!RuntimeFrame view}.
Lemma Preserves_now : Preserves view time_Now.
Proof. apply Guar_call. intros w. apply frame_now. Qed.
Lemma Preserves_uuid : Preserves view uuid_New.
Proof. apply Guar_call. intros w. apply frame_uuid. Qed.
Lemma Preserves_rand n : Preserves view (rand_Read n).
Proof. apply Guar_call. intros w. apply frame_rand. Qed.
Lemma Preserves_range {A} (l : list A) : Preserves view (range_map l).
Proof. apply Guar_bind; [apply Guar_call; intros w; apply frame_order | intros o; exact I]. Qed.
End runtime_frame.

#[export] Hint Resolve Preserves_now Preserves_uuid Preserves_rand Preserves_range : guar.

(** ** Tactics *)

(** Expand [run] over a whole straight-line body. *)
Ltac run_simpl := repeat (rewrite ?run_bind, ?run_ret, ?run_call, ?run_locked; cbn [fst snd]).

(** Case on the scrutinee of every [match] on the goal. *)
Ltac split_matches :=
  repeat (case_match; simplify_eq/=; try done).

(** Walk a body's structure down to guarantees known to the [guar] database. *)
Ltac guar :=
  repeat first
    [ assumption | solve [eauto with guar]
    | match goal with |- Guar _ (mbind _ _) => apply Guar_bind; [| intros ?] end
    | match goal with |- Guar _ (match ?x with _ => _ end) => destruct x eqn:? end ].
