(* ===== verification/GoStrings.v ===== *)
(** * The Go string functions the code uses

    Go strings and byte slices are Coq [string]s: sequences of bytes.  This
    file models [strings.Split], [Join], [TrimPrefix], [TrimRight],
    [TrimSpace], [Fields], [EqualFold] and [ToLower] (the last two exact for
    comparisons with ASCII constants, the only ones the code makes),
    [strconv.FormatInt]/[ParseInt], [fmt]'s [%d] and zero padding, and the
    lemmas about them the components share. *)
From S2P Require Import Prelude.
From Stdlib Require Import Ascii DecimalString DecimalZ DecimalFacts.

Abbreviation byte_of := nat_of_ascii (only parsing).

(** ** [strings.Split(s, sep)] and [strings.Join] for a one-byte separator *)
Fixpoint Split (s : string) (c : ascii) : list string :=
  match s with
  | "" => [""]
  | String a s' =>
      if Ascii.eqb a c then "" :: Split s' c
      else match Split s' c with
           | [] => [String a ""]
           | p :: ps => String a p :: ps
           end
  end.

Fixpoint Join (parts : list string) (sep : string) : string :=
  match parts with
  | [] => ""
  | [p] => p
  | p :: ps => p ^^ sep ^^ Join ps sep
  end.

(** [strings.ContainsRune] for a byte *)
Fixpoint has_char (c : ascii) (s : string) : bool :=
  match s with
  | "" => false
  | String a s' => Ascii.eqb a c || has_char c s'
  end.

Definition chr (c : ascii) : string := String c "".

Lemma append_assoc (a b c : string) : (a ^^ b) ^^ c = a ^^ b ^^ c.
Proof. induction a as [|x a IH]; simpl; [done|]. by rewrite IH. Qed.

Lemma append_nil_r (a : string) : a ^^ "" = a.
Proof. induction a as [|x a IH]; simpl; [done|]. by rewrite IH. Qed.

Lemma append_inj_l (a b c : string) : a ^^ b = a ^^ c -> b = c.
Proof. induction a as [|x a IH]; simpl; [done|]. intros [= H]. auto. Qed.

Lemma length_append (a b : string) : String.length (a ^^ b) = String.length a + String.length b.
Proof. induction a as [|x a IH]; simpl; [done|]. by rewrite IH. Qed.

Lemma append_inj_len (a b c d : string) :
  String.length a = String.length c -> a ^^ b = c ^^ d -> a = c /\ b = d.
Proof.
  revert c. induction a as [|x a IH]; intros [|y c]; simpl; try done.
  intros [= Hl] [= -> H]. destruct (IH c Hl H) as [-> ->]. done.
Qed.

Lemma has_char_append c a b : has_char c (a ^^ b) = has_char c a || has_char c b.
Proof. induction a as [|x a IH]; simpl; [done|]. by rewrite IH, orb_assoc. Qed.

Lemma Split_not_nil s c : Split s c <> [].
Proof. destruct s as [|a s]; simpl; [done|]. destruct (Ascii.eqb a c); [done|]. by destruct (Split s c). Qed.

Lemma Split_no_char s c : has_char c s = false -> Split s c = [s].
Proof.
  induction s as [|a s IH]; simpl; [done|].
  destruct (Ascii.eqb a c); simpl; [done|]. intros H. by rewrite IH.
Qed.

(** Splitting distributes over a separator. *)
Lemma Split_sep a b c : Split (a ^^ String c b) c = Split a c ++ Split b c.
Proof.
  induction a as [|x a IH]; simpl.
  - by rewrite Ascii.eqb_refl.
  - destruct (Ascii.eqb x c); [by rewrite IH|]. rewrite IH.
    pose proof (Split_not_nil a c). by destruct (Split a c).
Qed.

Lemma Split_pieces s c : Forall (fun p => has_char c p = false) (Split s c).
Proof.
  induction s as [|a s IH]; simpl; [by repeat constructor|].
  destruct (Ascii.eqb a c) eqn:E; [by constructor|].
  destruct (Split s c) as [|p ps]; [by repeat constructor; simpl; rewrite E|].
  inversion_clear IH. constructor; [simpl; by rewrite E|done].
Qed.

Lemma Join_cons p ps sep : ps <> [] -> Join (p :: ps) sep = p ^^ sep ^^ Join ps sep.
Proof. by destruct ps. Qed.

Lemma Join_app ps qs sep :
  ps <> [] -> qs <> [] -> Join (ps ++ qs) sep = Join ps sep ^^ sep ^^ Join qs sep.
Proof.
  intros Hp Hq. induction ps as [|p ps IH]; [done|].
  destruct ps as [|p' ps]; simpl app.
  - by rewrite Join_cons by done.
  - rewrite (Join_cons p (p' :: ps ++ qs)), (Join_cons p (p' :: ps)) by done.
    change (p' :: ps ++ qs) with ((p' :: ps) ++ qs). rewrite IH by done.
    by rewrite !append_assoc.
Qed.

(** [strings.Join(strings.Split(s, c), c) == s] *)
Lemma Join_Split s c : Join (Split s c) (chr c) = s.
Proof.
  induction s as [|a s IH]; simpl; [done|].
  destruct (Ascii.eqb a c) eqn:E.
  - apply Ascii.eqb_eq in E as ->. rewrite Join_cons by apply Split_not_nil. by rewrite IH.
  - pose proof (Split_not_nil s c). destruct (Split s c) as [|p ps]; [done|].
    destruct ps as [|p' ps]; [simpl in *; by rewrite IH|].
    rewrite <- IH. reflexivity.
Qed.

Lemma Split_Join ps c :
  ps <> [] -> Forall (fun p => has_char c p = false) ps -> Split (Join ps (chr c)) c = ps.
Proof.
  intros Hn Hps. induction Hps as [|p ps Hp Hps IH]; [done|].
  destruct ps as [|p' ps]; [by apply Split_no_char|].
  rewrite Join_cons by done. unfold chr at 1.
  change (Split (p ^^ String c (Join (p' :: ps) (chr c))) c = p :: p' :: ps).
  rewrite Split_sep, Split_no_char by done. by rewrite IH.
Qed.

(** ** Prefixes, suffixes, trimming *)

(** [strings.TrimPrefix] *)
Fixpoint strip (p s : string) : option string :=
  match p, s with
  | "", _ => Some s
  | String a p', String b s' => if Ascii.eqb a b then strip p' s' else None
  | _, _ => None
  end.

Definition TrimPrefix (s p : string) : string := default s (strip p s).
Definition HasPrefix (s p : string) : bool := bool_decide (is_Some (strip p s)).

Lemma strip_append p s : strip p (p ^^ s) = Some s.
Proof. induction p as [|a p IH]; simpl; [done|]. by rewrite Ascii.eqb_refl. Qed.

Lemma strip_Some p s r : strip p s = Some r -> s = p ^^ r.
Proof.
  revert s. induction p as [|a p IH]; intros s; simpl; [by intros [= ->]|].
  destruct s as [|b s]; [done|]. destruct (Ascii.eqb a b) eqn:E; [|done].
  apply Ascii.eqb_eq in E as ->. intros H. by rewrite (IH _ H).
Qed.

Lemma TrimPrefix_append p s : TrimPrefix (p ^^ s) p = s.
Proof. unfold TrimPrefix. by rewrite strip_append. Qed.

(** [s[:n]] for a string at least [n] bytes long *)
Fixpoint take_str (n : nat) (s : string) : string :=
  match n, s with
  | O, _ => ""
  | S n', String a s' => String a (take_str n' s')
  | S _, "" => ""
  end.

(** [s[n:]] *)
Fixpoint drop_str (n : nat) (s : string) : string :=
  match n, s with
  | S n', String _ s' => drop_str n' s'
  | _, _ => s
  end.

Lemma take_drop_str n s : take_str n s ^^ drop_str n s = s.
Proof. revert s. induction n as [|n IH]; intros [|a s]; simpl; [done..|]. by rewrite IH. Qed.

Lemma take_str_length n s : n <= String.length s -> String.length (take_str n s) = n.
Proof. revert s. induction n as [|n IH]; intros [|a s]; simpl; try lia. intros H. rewrite IH; lia. Qed.

(** [strings.TrimRight(s, c)] for a one-byte cutset *)
Fixpoint all_char (c : ascii) (s : string) : bool :=
  match s with
  | "" => true
  | String a s' => Ascii.eqb a c && all_char c s'
  end.

Fixpoint TrimRight (s : string) (c : ascii) : string :=
  match s with
  | "" => ""
  | String a s' => if all_char c s then "" else String a (TrimRight s' c)
  end.

(** Number of bytes of the white-space rune at the head of [s], 0 if none:
    the ASCII spaces and the UTF-8 forms of the other [unicode.IsSpace]
    runes (U+0085, U+00A0, U+1680, U+2000-200A, U+2028, U+2029, U+202F,
    U+205F, U+3000). *)
Definition space_len (s : string) : nat :=
  match s with
  | "" => 0
  | String a s1 =>
      let x := byte_of a in
      if (x =? 32) || ((9 <=? x) && (x <=? 13)) then 1
      else match s1 with
      | "" => 0
      | String b s2 =>
          let y := byte_of b in
          if (x =? 194) && ((y =? 133) || (y =? 160)) then 2
          else match s2 with
          | "" => 0
          | String d _ =>
              let z := byte_of d in
              if (x =? 225) && (y =? 154) && (z =? 128) then 3
              else if (x =? 226) && (y =? 128) &&
                      (((128 <=? z) && (z <=? 138)) || (z =? 168) || (z =? 169) || (z =? 175)) then 3
              else if (x =? 226) && (y =? 129) && (z =? 159) then 3
              else if (x =? 227) && (y =? 128) && (z =? 128) then 3
              else 0
          end
      end
  end.

(** [strings.Fields]: maximal runs of non-space bytes.  [skip] counts the
    remaining bytes of a white-space rune being passed over. *)
Fixpoint fields_go (s cur : string) (skip : nat) : list string :=
  match s with
  | "" => if String.eqb cur "" then [] else [cur]
  | String a s' =>
      match skip with
      | S k => fields_go s' cur k
      | O =>
          match space_len s with
          | S k => if String.eqb cur "" then fields_go s' "" k else cur :: fields_go s' "" k
          | O => fields_go s' (cur ^^ chr a) 0
          end
      end
  end.
Definition Fields (s : string) : list string := fields_go s "" 0.

(** Visible ASCII. *)
Definition visible (a : ascii) : bool := (33 <=? byte_of a) && (byte_of a <=? 126).
Fixpoint all_visible (s : string) : bool :=
  match s with "" => true | String a s' => visible a && all_visible s' end.

Lemma all_visible_append s t : all_visible (s ^^ t) = all_visible s && all_visible t.
Proof. induction s as [|a s IH]; simpl; [done|]. by rewrite IH, andb_assoc. Qed.

Lemma visible_not_space a s : visible a = true -> space_len (String a s) = 0.
Proof.
  unfold visible. intros [H1 H2]%andb_true_iff. apply Nat.leb_le in H1, H2.
  unfold space_len. cbv zeta.
  repeat match goal with
  | |- context [byte_of a =? ?n] => replace (byte_of a =? n) with false by (symmetry; apply Nat.eqb_neq; lia)
  end.
  replace ((9 <=? byte_of a) && (byte_of a <=? 13)) with false.
  - simpl. by destruct s as [|b [|c s]].
  - symmetry. apply andb_false_iff. right. apply Nat.leb_gt. lia.
Qed.

Lemma fields_go_visible s cur :
  all_visible s = true -> cur ^^ s <> "" -> fields_go s cur 0 = [cur ^^ s].
Proof.
  revert cur. induction s as [|a s IH]; intros cur Hv Hne; cbn [fields_go].
  - rewrite append_nil_r in *. by apply String.eqb_neq in Hne as ->.
  - simpl in Hv. apply andb_true_iff in Hv as [Ha Hs]. rewrite visible_not_space by done.
    rewrite IH by (done || by rewrite append_assoc). by rewrite append_assoc.
Qed.

Lemma Fields_visible s : all_visible s = true -> s <> "" -> Fields s = [s].
Proof. intros. by apply fields_go_visible. Qed.

(** [strings.TrimSpace] *)
Fixpoint trim_left (s : string) (skip : nat) : string :=
  match s with
  | "" => ""
  | String _ s' =>
      match skip with
      | S k => trim_left s' k
      | O => match space_len s with S k => trim_left s' k | O => s end
      end
  end.

Fixpoint trim_right (s : string) : string :=
  match s with
  | "" => ""
  | String a s' => if String.eqb (trim_left s 0) "" then "" else String a (trim_right s')
  end.
Definition TrimSpace (s : string) : string := trim_right (trim_left s 0).

(** ** Case folding against ASCII constants *)
Definition lower_ascii (a : ascii) : ascii :=
  let x := byte_of a in
  if (65 <=? x) && (x <=? 90) then ascii_of_nat (x + 32) else a.

(** [strings.EqualFold(s, t)] for an ASCII [t].  Besides the ASCII pairs,
    Unicode folds the Kelvin sign (E2 84 AA) onto [k] and the long s (C5 BF)
    onto [s]; every other non-ASCII rune folds onto no ASCII letter. *)
Fixpoint EqualFold (s t : string) : bool :=
  match s, t with
  | "", "" => true
  | String a s1, String b t' =>
      if Ascii.eqb (lower_ascii a) (lower_ascii b) then EqualFold s1 t'
      else match s1 with
      | "" => false
      | String a2 s2 =>
          if (byte_of a =? 197) && (byte_of a2 =? 191) && Ascii.eqb (lower_ascii b) "s"
          then EqualFold s2 t'
          else match s2 with
          | "" => false
          | String a3 s3 =>
              if (byte_of a =? 226) && (byte_of a2 =? 132) && (byte_of a3 =? 170)
                 && Ascii.eqb (lower_ascii b) "k"
              then EqualFold s3 t' else false
          end
      end
  | _, _ => false
  end.

(** [strings.ToLower], as far as a comparison with an ASCII constant sees it:
    ASCII letters, the Kelvin sign (lower case [k]) and the dotted capital I
    (C4 B0, lower case [i]); other non-ASCII bytes are left as they are. *)
Fixpoint ToLower (s : string) : string :=
  match s with
  | "" => ""
  | String a s1 =>
      match s1 with
      | String a2 s2 =>
          if (byte_of a =? 196) && (byte_of a2 =? 176) then String "i" (ToLower s2)
          else match s2 with
          | String a3 s3 =>
              if (byte_of a =? 226) && (byte_of a2 =? 132) && (byte_of a3 =? 170)
              then String "k" (ToLower s3)
              else String (lower_ascii a) (ToLower s1)
          | "" => String (lower_ascii a) (ToLower s1)
          end
      | "" => String (lower_ascii a) ""
      end
  end.

(** ** Decimal integers *)

(** [strconv.FormatInt(z, 10)], [strconv.Itoa], [%d] *)
Definition FormatInt (z : Z) : string := NilZero.string_of_int (Z.to_int z).

(** [strconv.ParseInt(s, 10, 64)] (and [Atoi] on a 64-bit platform): an
    optional sign, at least one digit, no other byte, and the range check. *)
Definition parse_digits (s : string) : option Z :=
  u ← NilZero.uint_of_string s; Some (Z.of_uint u).

Definition parse_signed (s : string) : option Z :=
  match s with
  | String a s' =>
      if Ascii.eqb a "-" then n ← parse_digits s'; Some (- n)%Z
      else if Ascii.eqb a "+" then parse_digits s'
      else parse_digits s
  | "" => None
  end.

Definition ParseInt (s : string) : option Z :=
  z ← parse_signed s;
  if decide (int64 z) then Some z else None.

(** The value of [strconv.Atoi] whatever its error: 0 for a text that is no
    integer, the nearest int64 for one out of range. *)
Definition Atoi_value (s : string) : Z :=
  match parse_signed s with
  | Some z => Z.max (- 2 ^ 63) (Z.min (2 ^ 63 - 1) z)
  | None => 0
  end.

Lemma parse_digits_format z : (0 <= z)%Z -> parse_digits (FormatInt z) = Some z.
Proof.
  intros Hz. unfold parse_digits, FormatInt.
  destruct z as [|p|p]; [done| |lia]. simpl.
  rewrite NilZero.usu by apply DecimalPos.Unsigned.to_uint_nonnil. simpl.
  unfold Z.of_uint. by rewrite DecimalPos.Unsigned.of_to.
Qed.

(** The head byte of a formatted integer is a digit or the minus sign. *)
Definition is_digit (a : ascii) : bool := (48 <=? byte_of a) && (byte_of a <=? 57).

Fixpoint all_digits (s : string) : bool :=
  match s with "" => true | String a s' => is_digit a && all_digits s' end.

Lemma string_of_uint_digits u : all_digits (NilEmpty.string_of_uint u) = true.
Proof. by induction u. Qed.

Lemma FormatInt_nonneg_digits z :
  (0 <= z)%Z -> all_digits (FormatInt z) = true /\ FormatInt z <> "".
Proof.
  intros Hz. unfold FormatInt. destruct z as [|p|p]; [done| |lia]. simpl.
  pose proof (DecimalPos.Unsigned.to_uint_nonnil p) as Hn.
  unfold NilZero.string_of_uint. destruct (Pos.to_uint p) eqn:E; try done;
    split; try apply (string_of_uint_digits _); done.
Qed.

Lemma FormatInt_neg p : FormatInt (Z.neg p) = String "-" (FormatInt (Z.pos p)).
Proof. done. Qed.

(** [strconv.ParseInt(strconv.FormatInt(z, 10), 10, 64) == z] for every int64. *)
Lemma ParseInt_FormatInt z : int64 z -> ParseInt (FormatInt z) = Some z.
Proof.
  intros Hz. unfold ParseInt, parse_signed.
  assert (Hgo : forall o : option Z, o = Some z ->
    (z' ← o; if decide (int64 z') then Some z' else None) = Some z).
  { intros o ->. simpl. by rewrite decide_True. }
  destruct (decide (0 <= z)%Z) as [Hp|Hp].
  - destruct (FormatInt_nonneg_digits z Hp) as [Hd Hne].
    pose proof (parse_digits_format z Hp) as HP.
    destruct (FormatInt z) as [|a s] eqn:E; [done|].
    apply Hgo. simpl in Hd. apply andb_prop in Hd as [Ha _].
    destruct (Ascii.eqb a "-") eqn:E1; [by apply Ascii.eqb_eq in E1 as ->|].
    destruct (Ascii.eqb a "+") eqn:E2; [by apply Ascii.eqb_eq in E2 as ->|]. done.
  - destruct z as [|p|p]; try lia. rewrite FormatInt_neg. apply Hgo. simpl.
    rewrite parse_digits_format by lia. done.
Qed.

Lemma Atoi_value_ParseInt s z : ParseInt s = Some z -> Atoi_value s = z.
Proof.
  unfold ParseInt, Atoi_value. destruct (parse_signed s) as [y|]; simpl; [|done].
  case_decide as H; [|done]. intros [= ->]. unfold int64 in H. lia.
Qed.

#[export] Hint Resolve Split_not_nil Split_pieces : gostr.

(** ** [%q] (only used in error texts)

    ASCII is quoted as [strconv.Quote] does; bytes of multi-byte runes are
    copied, which is what Go does for printable runes. *)
Definition dquote : ascii := Eval cbv in ascii_of_nat 34.
Definition backslash : ascii := Eval cbv in ascii_of_nat 92.

(** Text written with single quotes for double ones. *)
Fixpoint dq (s : string) : string :=
  match s with
  | "" => ""
  | String a r => String (if Ascii.eqb a "'"%char then dquote else a) (dq r)
  end.

Definition hex_digit (n : nat) : ascii :=
  ascii_of_nat (if n <? 10 then 48 + n else 87 + n).

Definition quote_char (a : ascii) : string :=
  let x := byte_of a in
  let esc (c : ascii) := String backslash (chr c) in
  if Ascii.eqb a dquote || Ascii.eqb a backslash then esc a
  else if x =? 7 then esc "a"%char else if x =? 8 then esc "b"%char else if x =? 12 then esc "f"%char
  else if x =? 10 then esc "n"%char else if x =? 13 then esc "r"%char else if x =? 9 then esc "t"%char
  else if x =? 11 then esc "v"%char
  else if (x <? 32) || (x =? 127)
  then String backslash (String "x"%char (String (hex_digit (x / 16)) (chr (hex_digit (x mod 16)))))
  else chr a.

Fixpoint quote_body (s : string) : string :=
  match s with
  | "" => chr dquote
  | String a s' => quote_char a ^^ quote_body s'
  end.

Definition Quote (s : string) : string := String dquote (quote_body s).
