(* ===== verification/Strconv.v ===== *)
(** * strconv and time texts: floats, durations, instants

    [strconv.ParseFloat], the float texts of [fmt] and encoding/json,
    [time.ParseDuration], and the RFC 3339 reading of [time.Time]'s
    [UnmarshalJSON].  A float is a [spec_float], the Standard Library's
    bit-exact binary64; conversions round once, to nearest, ties to even. *)
From S2P Require Import Prelude GoStrings.
From Stdlib Require Import Ascii Floats.SpecFloat.

Abbreviation float64 := spec_float (only parsing).

(** ** Conversions *)
Definition f64_of_Z (z : Z) : float64 := binary_normalize 53 1024 z 0 false.

(** The float nearest to [m * 10^e]. *)
Definition f64_of_decimal (m e : Z) : float64 :=
  match m with
  | Z.pos p =>
      if (0 <=? e)%Z then f64_of_Z (m * 10 ^ e)
      else match (10 ^ (- e))%Z with
           | Z.pos q => SFdiv 53 1024 (S754_finite false p 0) (S754_finite false q 0)
           | _ => S754_nan
           end
  | _ => S754_zero false
  end.

Definition SFopp_if (b : bool) (f : float64) : float64 := if b then SFopp f else f.

(** [int(f)]: truncation. *)
Definition trunc (f : float64) : Z :=
  match f with
  | S754_finite s m e =>
      let n := if (0 <=? e)%Z then (Z.pos m * 2 ^ e)%Z else (Z.pos m / 2 ^ (- e))%Z in
      if s then (- n)%Z else n
  | _ => 0%Z
  end.

(** The integer nearest to [m * 2^e], ties to even. *)
Definition round_half_even (m e : Z) : Z :=
  if (0 <=? e)%Z then (m * 2 ^ e)%Z
  else
    let d := (2 ^ (- e))%Z in
    let q := (m / d)%Z in let r := (m mod d)%Z in
    if (2 * r <? d)%Z then q
    else if (d <? 2 * r)%Z then (q + 1)%Z
    else if Z.even q then q else (q + 1)%Z.

(** [fmt.Sprintf("%.0f", f)] *)
Definition Sprintf_0f (f : float64) : string :=
  match f with
  | S754_zero s => if s then "-0" else "0"
  | S754_infinity s => if s then "-Inf" else "+Inf"
  | S754_nan => "NaN"
  | S754_finite s m e =>
      (if s then "-" else "") ^^ FormatInt (round_half_even (Z.pos m) e)
  end.

(** ** [strconv.ParseFloat(s, 64)]

    Decimal and hexadecimal floating-point literals with optional sign and
    underscores between digits, and the special values. *)
Definition digit_of (hex : bool) (a : ascii) : option Z :=
  let b := byte_of (lower_ascii a) in
  if is_digit a then Some (Z.of_nat (b - 48))
  else if hex && (97 <=? b) && (b <=? 102) then Some (Z.of_nat (b - 87))
  else None.

(** A mantissa on the way: its digits as a number, how many stand after the
    point, whether a point, a digit and an underscore were seen. *)
Record mantissa := { mt_m : Z; mt_frac : Z; mt_dot : bool; mt_digits : bool; mt_under : bool }.
Definition mantissa_0 : mantissa :=
  {| mt_m := 0; mt_frac := 0; mt_dot := false; mt_digits := false; mt_under := false |}.

Fixpoint scan_mantissa (hex : bool) (s : string) (t : mantissa) : mantissa * string :=
  match s with
  | "" => (t, s)
  | String a r =>
      if Ascii.eqb a "_" then
        scan_mantissa hex r {| mt_m := mt_m t; mt_frac := mt_frac t; mt_dot := mt_dot t;
                               mt_digits := mt_digits t; mt_under := true |}
      else if Ascii.eqb a "." then
        if mt_dot t then (t, s)
        else scan_mantissa hex r {| mt_m := mt_m t; mt_frac := mt_frac t; mt_dot := true;
                                    mt_digits := mt_digits t; mt_under := mt_under t |}
      else match digit_of hex a with
           | Some d =>
               scan_mantissa hex r
                 {| mt_m := (mt_m t * (if hex then 16 else 10) + d)%Z;
                    mt_frac := (mt_frac t + (if mt_dot t then 1 else 0))%Z; mt_dot := mt_dot t;
                    mt_digits := true; mt_under := mt_under t |}
           | None => (t, s)
           end
  end.

(** The digits of an exponent: they stop counting beyond 10000. *)
Fixpoint scan_exponent (s : string) (e : Z) (under : bool) : Z * bool * string :=
  match s with
  | "" => (e, under, s)
  | String a r =>
      if Ascii.eqb a "_" then scan_exponent r e true
      else if is_digit a
      then scan_exponent r (if (e <? 10000)%Z then e * 10 + Z.of_nat (byte_of a - 48) else e)%Z under
      else (e, under, s)
  end.

Definition take_sign (s : string) : bool * string :=
  match s with
  | String a r => if Ascii.eqb a "-" then (true, r) else if Ascii.eqb a "+" then (false, r) else (false, s)
  | "" => (false, s)
  end.
Definition is_letter (c : ascii) (s : string) : bool :=
  match s with String a _ => Ascii.eqb (lower_ascii a) c | "" => false end.
Definition starts_digit (s : string) : bool :=
  match s with String a _ => is_digit a | "" => false end.
(** The base prefix of a hexadecimal literal and what follows it, if anything does. *)
Definition hex_prefix (s : string) : option string :=
  match s with
  | String a (String x (String c r)) =>
      if Ascii.eqb a "0" && Ascii.eqb (lower_ascii x) "x" then Some (String c r) else None
  | _ => None
  end.

(** [underscoreOK], on the text after the sign: underscores stand between
    digits, a base prefix counting as one.  [last]: what came before, a digit
    ["0"], an underscore ["_"] or neither ["!"]. *)
Fixpoint underscores_ok (hex : bool) (last : ascii) (s : string) : bool :=
  match s with
  | "" => negb (Ascii.eqb last "_")
  | String a r =>
      match digit_of hex a with
      | Some _ => underscores_ok hex "0" r
      | None =>
          if Ascii.eqb a "_" then Ascii.eqb last "0" && underscores_ok hex "_" r
          else negb (Ascii.eqb last "_") && underscores_ok hex "!" r
      end
  end.
Definition underscoreOK (s : string) : bool :=
  match s with
  | String a (String x r) =>
      let p := lower_ascii x in
      if Ascii.eqb a "0" && (Ascii.eqb p "b" || Ascii.eqb p "o" || Ascii.eqb p "x")
      then underscores_ok (Ascii.eqb p "x") "0" r else underscores_ok false "^" s
  | _ => underscores_ok false "^" s
  end.

(** [readFloat] on the text after the sign: the mantissa, and the exponent of
    ten or of two. *)
Definition readFloat (s : string) : option (bool * Z * Z) :=
  let '(hex, s0) := match hex_prefix s with Some r => (true, r) | None => (false, s) end in
  let '(t, s1) := scan_mantissa hex s0 mantissa_0 in
  if negb (mt_digits t) then None else
  let point := (- (mt_frac t * (if hex then 4 else 1)))%Z in
  if is_letter (if hex then "p" else "e")%char s1 then
    let '(eneg, s2) := take_sign (drop_str 1 s1) in
    if negb (starts_digit s2) then None else
    let '(e, under, s3) := scan_exponent s2 0 (mt_under t) in
    if negb (String.eqb s3 "") || (under && negb (underscoreOK s)) then None
    else Some (hex, mt_m t, point + (if eneg then - e else e))%Z
  else if hex || negb (String.eqb s1 "") || (mt_under t && negb (underscoreOK s)) then None
  else Some (hex, mt_m t, point).

Definition ErrSyntax : error := Sentinel "invalid syntax".
Definition ErrRange : error := Sentinel "value out of range".

(** The value comes with the error: 0 for a syntax error, an infinity for a
    magnitude out of range. *)
Definition ParseFloat (s : string) : float64 * option error :=
  let '(neg, s1) := take_sign s in
  if EqualFold s1 "inf" || EqualFold s1 "infinity" then (S754_infinity neg, None)
  else if EqualFold s "nan" then (S754_nan, None)
  else match readFloat s1 with
       | None => (S754_zero false, Some ErrSyntax)
       | Some (hex, m, e) =>
           let f := if hex then binary_normalize 53 1024 m e false else f64_of_decimal m e in
           match f with
           | S754_infinity _ => (S754_infinity neg, Some ErrRange)
           | _ => (SFopp_if neg f, None)
           end
       end.
Definition value_unless_error {A} (r : A * option error) : option A :=
  match r.2 with None => Some r.1 | Some _ => None end.

(** ** The JSON text of a float64

    The shortest decimal that reads back as the float, the nearest to it of
    that length: [strconv.AppendFloat(f, 'f' or 'e', -1)]. *)
Definition z_length (z : Z) : Z := Z.of_nat (String.length (FormatInt z)).

(** [k] with [10^(k-1) <= n/d < 10^k]. *)
Definition decimal_exponent (n d : Z) : Z :=
  if (d <=? n)%Z then z_length (n / d)
  else let t := z_length (d / n) in if (n * 10 ^ (t - 1) =? d)%Z then (2 - t)%Z else (1 - t)%Z.

(** The significand of [digits] digits to print [n/d = f] with, if one reads
    back as [f]; its unit is [10^(k - digits)]. *)
Definition significand (f : float64) (n d k digits : Z) : option Z :=
  let s := (digits - k)%Z in
  let n' := if (0 <=? s)%Z then (n * 10 ^ s)%Z else n in
  let d' := if (0 <=? s)%Z then d else (d * 10 ^ (- s))%Z in
  let lo := (n' / d')%Z in
  let reads q := SFeqb (f64_of_decimal q (- s)) f in
  match reads lo, reads (lo + 1)%Z with
  | true, false => Some lo
  | false, true => Some (lo + 1)%Z
  | false, false => None
  | true, true => Some (let r := (2 * (n' mod d'))%Z in
                        if (r <? d')%Z then lo else if (d' <? r)%Z then lo + 1
                        else if Z.even lo then lo else lo + 1)%Z
  end.

(** [tries] lengths from [digits] on; 17 always read back. *)
Fixpoint shortest (tries : nat) (f : float64) (n d k digits : Z) : Z * Z :=
  match tries with
  | O => (0, 0)%Z
  | S tries =>
      match significand f n d k digits with
      | Some q => (q, k - digits)%Z
      | None => shortest tries f n d k (digits + 1)
      end
  end.

Fixpoint trim_zeros (s : string) : string :=
  match s with
  | "" => ""
  | String a r => match trim_zeros r with "" => if Ascii.eqb a "0" then "" else chr a | r' => String a r' end
  end.
Fixpoint zeros (n : nat) : string := match n with O => "" | S n => String "0" (zeros n) end.

(** The digits [ds] with the point before digit [dp]. *)
Definition fmt_f (ds : string) (dp : Z) : string :=
  let nd := Z.of_nat (String.length ds) in
  if (dp <=? 0)%Z then "0." ^^ zeros (Z.to_nat (- dp)) ^^ ds
  else if (nd <=? dp)%Z then ds ^^ zeros (Z.to_nat (dp - nd))
  else take_str (Z.to_nat dp) ds ^^ "." ^^ drop_str (Z.to_nat dp) ds.
Definition fmt_e (ds : string) (dp : Z) : string :=
  take_str 1 ds ^^ (if 1 <? String.length ds then "." ^^ drop_str 1 ds else "") ^^ "e"
  ^^ (if (dp - 1 <? 0)%Z then "-" else "+") ^^ FormatInt (Z.abs (dp - 1)).

(** [None] is an [UnsupportedValueError].  The exponent form is only used
    where the exponent's sign makes Go's ["e-09"] an ["e-9"]. *)
Definition float_text (f : float64) : option string :=
  match f with
  | S754_zero s => Some (if s then "-0" else "0")
  | S754_finite s m e =>
      let a := S754_finite false m e in
      let n := if (0 <=? e)%Z then (Z.pos m * 2 ^ e)%Z else Z.pos m in
      let d := if (0 <=? e)%Z then 1%Z else (2 ^ (- e))%Z in
      let k := decimal_exponent n d in
      let '(q, unit) := shortest 17 a n d k 1 in
      let dp := (z_length q + unit)%Z in
      let ds := trim_zeros (FormatInt q) in
      let exp := SFltb a (f64_of_decimal 1 (-6)) || SFleb (f64_of_decimal 1 21) a in
      Some ((if s then "-" else "") ^^ (if exp then fmt_e ds dp else fmt_f ds dp))
  | _ => None
  end.

(** ** [time.ParseDuration] *)
Definition unit_of (u : string) : option Z :=
  if String.eqb u "ns" then Some 1%Z
  else if String.eqb u "us" || String.eqb u "µs" || String.eqb u "μs" then Some 1000%Z
  else if String.eqb u "ms" then Some 1000000%Z
  else if String.eqb u "s" then Some Second
  else if String.eqb u "m" then Some Minute
  else if String.eqb u "h" then Some Hour
  else None.

(** [leadingInt]: [None] when the number exceeds 2^63. *)
Fixpoint leadingInt (s : string) (x : Z) : option (Z * string) :=
  match s with
  | String a r =>
      if is_digit a then
        if (2 ^ 63 / 10 <? x)%Z then None
        else let x := (x * 10 + Z.of_nat (byte_of a - 48))%Z in
             if (2 ^ 63 <? x)%Z then None else leadingInt r x
      else Some (x, s)
  | "" => Some (x, s)
  end.
(** [leadingFraction]: digits that would overflow are skipped. *)
Fixpoint leadingFraction (s : string) (x : Z) (scale : float64) (overflow : bool) : Z * float64 * string :=
  match s with
  | String a r =>
      if is_digit a then
        let y := (x * 10 + Z.of_nat (byte_of a - 48))%Z in
        if overflow || ((2 ^ 63 - 1) / 10 <? x)%Z || (2 ^ 63 <? y)%Z then leadingFraction r x scale true
        else leadingFraction r y (SFmul 53 1024 scale (f64_of_Z 10)) false
      else (x, scale, s)
  | "" => (x, scale, s)
  end.
(** The unit: everything up to a digit or a point. *)
Fixpoint take_unit (s : string) : string * string :=
  match s with
  | String a r =>
      if is_digit a || Ascii.eqb a "." then ("", s) else let '(u, r') := take_unit r in (String a u, r')
  | "" => ("", "")
  end.

(** One number with its unit, in nanoseconds (at most 2^63), and the rest. *)
Definition duration_term (s : string) : option (Z * string) :=
  if negb (starts_digit s || is_letter "." s) then None else
  '(v, s1) ← leadingInt s 0;
  let pre := negb (String.eqb s1 s) in
  let '(f, scale, s2, post) :=
    if is_letter "." s1
    then let r := drop_str 1 s1 in
         let '(f, scale, s2) := leadingFraction r 0 (f64_of_Z 1) false in (f, scale, s2, negb (String.eqb s2 r))
    else (0%Z, f64_of_Z 1, s1, false) in
  if negb pre && negb post then None else
  let '(u, rest) := take_unit s2 in
  unit ← unit_of u;
  if (2 ^ 63 / unit <? v)%Z then None
  else
    let v := (v * unit)%Z in
    let v := if (0 <? f)%Z
             then (v + trunc (SFmul 53 1024 (f64_of_Z f) (SFdiv 53 1024 (f64_of_Z unit) scale)))%Z else v in
    if (2 ^ 63 <? v)%Z then None else Some (v, rest).

(** The sum is a [uint64], checked after each addition; a term takes at least
    one byte, so [fuel] at least the length is enough. *)
Fixpoint duration_terms (fuel : nat) (s : string) (d : Z) : option Z :=
  match fuel with
  | O => if String.eqb s "" then Some d else None
  | S fuel =>
      if String.eqb s "" then Some d
      else '(v, rest) ← duration_term s;
           let d := ((d + v) mod 2 ^ 64)%Z in
           if (2 ^ 63 <? d)%Z then None else duration_terms fuel rest d
  end.

Definition ParseDuration (s : string) : option Z :=
  let '(neg, s) := take_sign s in
  if String.eqb s "0" then Some 0%Z
  else if String.eqb s "" then None
  else d ← duration_terms (String.length s) s 0;
       if neg then Some (- d)%Z else if (2 ^ 63 - 1 <? d)%Z then None else Some d.

(** ** [time.Time.UnmarshalJSON]: [time.Parse(time.RFC3339, s)]

    One digit will do for the hour, a comma for the point of a fraction, and
    offsets run up to 24:60. *)
Definition digits2 (s : string) : option (Z * string) :=
  match s with
  | String a (String b r) =>
      if is_digit a && is_digit b
      then Some (10 * Z.of_nat (byte_of a - 48) + Z.of_nat (byte_of b - 48), r)%Z else None
  | _ => None
  end.
Definition digits_1_or_2 (s : string) : option (Z * string) :=
  match digits2 s, s with
  | Some r, _ => Some r
  | None, String a r => if is_digit a then Some (Z.of_nat (byte_of a - 48), r) else None
  | None, "" => None
  end.
Definition within (lo hi : Z) (r : option (Z * string)) : option (Z * string) :=
  '(z, s) ← r; if (lo <=? z)%Z && (z <=? hi)%Z then Some (z, s) else None.
Definition expect (c : ascii) (s : string) : option string :=
  match s with String a r => if Ascii.eqb a c then Some r else None | "" => None end.

(** The nanoseconds of a fraction, of which nine digits count. *)
Fixpoint take_nanos (s : string) (unit : Z) : Z * string :=
  match s with
  | String a r =>
      if is_digit a
      then let '(n, r') := take_nanos r (unit / 10) in (Z.of_nat (byte_of a - 48) * unit + n, r')%Z
      else (0%Z, s)
  | "" => (0%Z, s)
  end.
Definition fraction (s : string) : Z * string :=
  match s with
  | String c r =>
      if (Ascii.eqb c "." || Ascii.eqb c ",") && starts_digit r then take_nanos r (Second / 10) else (0%Z, s)
  | "" => (0%Z, s)
  end.
(** The zone: its offset in seconds, with nothing behind it. *)
Definition zone (s : string) : option Z :=
  match s with
  | "Z" => Some 0%Z
  | String sign r =>
      '(hr, r) ← within 0 24 (digits2 r);
      r ← expect ":" r;
      '(mm, r) ← within 0 60 (digits2 r);
      let offset := ((hr * 60 + mm) * 60)%Z in
      if negb (String.eqb r "") then None
      else if Ascii.eqb sign "+" then Some offset
      else if Ascii.eqb sign "-" then Some (- offset)%Z else None
  | "" => None
  end.

Definition leap (y : Z) : bool := ((y mod 4 =? 0) && (negb (y mod 100 =? 0) || (y mod 400 =? 0)))%Z.
Definition days_in (m y : Z) : Z :=
  if (m =? 2)%Z then (if leap y then 29 else 28)%Z
  else if ((m =? 4) || (m =? 6) || (m =? 9) || (m =? 11))%Z then 30%Z else 31%Z.
(** Days since 1970-01-01, the year counted from March. *)
Definition days_since_epoch (y m d : Z) : Z :=
  let y' := if (m <=? 2)%Z then (y - 1)%Z else y in
  let m' := ((m + 9) mod 12)%Z in
  (365 * y' + y' / 4 - y' / 100 + y' / 400 + (153 * m' + 2) / 5 + (d - 1) - 719468)%Z.

Definition parse_time (s : string) : option Time :=
  '(y1, s) ← digits2 s; '(y2, s) ← digits2 s; s ← expect "-" s;
  '(month, s) ← within 1 12 (digits2 s); s ← expect "-" s;
  '(day, s) ← digits2 s; s ← expect "T" s;
  '(hour, s) ← within 0 23 (digits_1_or_2 s); s ← expect ":" s;
  '(min, s) ← within 0 59 (digits2 s); s ← expect ":" s;
  '(sec, s) ← within 0 59 (digits2 s);
  let '(nsec, s) := fraction s in
  offset ← zone s;
  let year := (100 * y1 + y2)%Z in
  if (day <? 1)%Z || (days_in month year <? day)%Z then None
  else Some ((days_since_epoch year month day * 86400 + hour * 3600 + min * 60 + sec - offset) * Second + nsec)%Z.

(** ** The fuel is enough, and durations are int64s *)
Section durations.
Local Open Scope Z_scope.

Lemma leadingInt_length s x v r : leadingInt s x = Some (v, r) -> (String.length r <= String.length s)%nat.
Proof.
  revert x. induction s as [|a s IH]; intros x; cbn [leadingInt]; [intros [= -> ->]; auto|].
  repeat case_match; try done; [|intros [= -> ->]; auto]. intros H'. apply IH in H'. simpl. lia.
Qed.

Lemma leadingFraction_length s x scale o :
  (String.length (leadingFraction s x scale o).2 <= String.length s)%nat.
Proof.
  revert x scale o. induction s as [|a s IH]; intros x scale o; cbn [leadingFraction]; [done|].
  repeat case_match; cbn [snd]; try done; etrans; [apply IH | simpl; lia | apply IH | simpl; lia].
Qed.

Lemma take_unit_append s : s = (take_unit s).1 ^^ (take_unit s).2.
Proof.
  induction s as [|a s IH]; cbn [take_unit]; [done|]. case_match; [done|].
  destruct (take_unit s) as [u r]. simpl in *. by rewrite IH at 1.
Qed.

Lemma unit_of_pos u n : unit_of u = Some n -> 0 < n /\ u <> "".
Proof.
  unfold unit_of. intros H. destruct u as [|a u]; [done|]. split; [|done].
  repeat case_match; simplify_eq; vm_compute; done.
Qed.

(** A term takes at least its unit. *)
Lemma duration_term_shrinks s v r : duration_term s = Some (v, r) -> (String.length r < String.length s)%nat.
Proof.
  unfold duration_term. case_match; [done|].
  destruct (leadingInt s 0) as [[n s1]|] eqn:E1; [|done]. apply leadingInt_length in E1. simpl.
  set (q := if is_letter "." s1 then _ else _).
  assert (Hq : (String.length q.1.2 <= String.length s1)%nat).
  { subst q. destruct (is_letter "." s1); [|done].
    pose proof (leadingFraction_length (drop_str 1 s1) 0 (f64_of_Z 1) false) as Hf.
    destruct (leadingFraction _ _ _ _) as [[f sc] s2]. simpl in *. destruct s1; simpl in *; lia. }
  destruct q as [[[f sc] s2] post]. case_match; [done|].
  pose proof (take_unit_append s2) as Hu. destruct (take_unit s2) as [u rest].
  destruct (unit_of u) as [n'|] eqn:E2; [|done]. apply unit_of_pos in E2 as [_ E2]. simpl in *.
  repeat case_match; try done; intros [= _ <-]; subst s2; rewrite length_append in Hq; destruct u; simpl in *; try done; lia.
Qed.

Lemma duration_terms_fuel s fuel d :
  (String.length s <= fuel)%nat -> duration_terms fuel s d = duration_terms (String.length s) s d.
Proof.
  revert s d. induction fuel as [fuel IH] using lt_wf_ind. intros s d Hf.
  destruct s as [|a s]; [by destruct fuel|]. destruct fuel as [|fuel]; [simpl in Hf; lia|].
  cbn [duration_terms String.length]. case_match; [done|].
  destruct (duration_term (String a s)) as [[v r]|] eqn:E; [|done]. simpl.
  apply duration_term_shrinks in E. simpl in *. case_match; [done|].
  rewrite (IH fuel), (IH (String.length s)) by lia. done.
Qed.

Lemma duration_terms_bounds fuel s d n : 0 <= d <= 2 ^ 63 -> duration_terms fuel s d = Some n -> 0 <= n <= 2 ^ 63.
Proof.
  revert s d. induction fuel as [|fuel IH]; intros s d Hd; cbn [duration_terms]; case_match; intros H'; simplify_eq; try done.
  destruct (duration_term s) as [[v r]|]; [|done]. simpl in H'. case_match; [done|].
  apply IH in H'; [done|]. pose proof (Z.mod_pos_bound (d + v) (2 ^ 64) ltac:(lia)). lia.
Qed.

Lemma ParseDuration_int64 s d : ParseDuration s = Some d -> int64 d.
Proof.
  unfold ParseDuration, int64. destruct (take_sign s) as [neg s1].
  repeat case_match; intros H'; simplify_eq; try lia;
  destruct (duration_terms _ _ _) as [n|] eqn:E; try done; apply duration_terms_bounds in E; try lia; simpl in H';
  repeat case_match; simplify_eq; lia.
Qed.
End durations.

(** ** On concrete texts *)
Example ParseFloat_texts :
  map ParseFloat ["0.95"; "1_23.5_0e+1_2"; "0x1p-2"; "-Inf"; "1e400"; "1__0"; "1e"; ".5"; "0x1"]
  = [(SFdiv 53 1024 (f64_of_Z 95) (f64_of_Z 100), None); (f64_of_Z 123500000000000, None);
     (SFdiv 53 1024 (f64_of_Z 1) (f64_of_Z 4), None); (S754_infinity true, None);
     (S754_infinity false, Some ErrRange); (S754_zero false, Some ErrSyntax); (S754_zero false, Some ErrSyntax);
     (SFdiv 53 1024 (f64_of_Z 1) (f64_of_Z 2), None); (S754_zero false, Some ErrSyntax)].
Proof. vm_compute. reflexivity. Qed.

Example float_texts :
  map (fun s => float_text (ParseFloat s).1)
    ["0.95"; "1"; "0.1"; "5e-324"; "1e21"; "123456789012345680000"; "1e-7"; "0.000001"; "-2.5e-10"; "1e23"; "100";
     "1.7976931348623157e308"; "inf"]
  = [Some "0.95"; Some "1"; Some "0.1"; Some "5e-324"; Some "1e+21"; Some "123456789012345680000"; Some "1e-7";
     Some "0.000001"; Some "-2.5e-10"; Some "1e+23"; Some "100"; Some "1.7976931348623157e+308"; None].
Proof. vm_compute. reflexivity. Qed.

Example ParseDuration_texts :
  map ParseDuration ["15m"; "1h30m"; "1.5h"; "-2us"; "0"; ".5s"; "3"; "1x"; "-9223372036854775808ns"; "9223372036854775808ns"]
  = [Some (15 * Minute); Some (90 * Minute); Some (90 * Minute); Some (-2000); Some 0; Some (Second / 2); None; None;
     Some (- 2 ^ 63); None]%Z.
Proof. vm_compute. reflexivity. Qed.

Example parse_time_texts :
  map parse_time ["1970-01-01T00:00:00Z"; "2024-02-29T23:59:59.25+01:00"; "2023-02-29T00:00:00Z"; "0001-01-01T00:00:00Z";
                  "2024-01-01T5:00:00Z"; "2024-01-01 05:00:00Z"]
  = [Some 0; Some ((1709247599 * 1000000000) + 250000000); None; Some Time_zero; Some (1704085200 * 1000000000); None]%Z.
Proof. vm_compute. reflexivity. Qed.
