(* ===== verification/Json.v ===== *)
(** * encoding/json, as far as the code uses it

    [parse] is the syntax [json.Unmarshal] accepts (RFC 8259 with Go's limit
    of 10000 nested values), producing a tree that keeps the order of the
    members and the text of the numbers: what a number means depends on the Go
    type it is decoded into.  Strings are unquoted as Go does, invalid UTF-8
    and lone surrogates turning into U+FFFD. *)
From S2P Require Import Prelude GoStrings Strconv.
From Stdlib Require Import Ascii Floats.SpecFloat.

#[warnings="-register-all"]
Inductive json : Type :=
| JNull
| JBool (b : bool)
| JNum (literal : string)
| JStr (s : string)
| JArr (elements : list json)
| JObj (members : list (string * json)).

(** ** UTF-8 *)
Definition cont (lo hi : nat) (a : ascii) : bool := (lo <=? byte_of a) && (byte_of a <=? hi).

(** What a first byte announces: the length of the encoding ([0]: none starts
    with it) and the range of its second byte. *)
Definition lead (a : ascii) : nat * nat * nat :=
  let x := byte_of a in
  if x <? 128 then (1, 0, 0)
  else if x <? 194 then (0, 0, 0)
  else if x <? 224 then (2, 128, 191)
  else if x =? 224 then (3, 160, 191)
  else if x =? 237 then (3, 128, 159)
  else if x <? 240 then (3, 128, 191)
  else if x =? 240 then (4, 144, 191)
  else if x <? 244 then (4, 128, 191)
  else if x =? 244 then (4, 128, 143)
  else (0, 0, 0).

(** The length of the valid encoding [s] starts with, [0] if there is none. *)
Definition rune_len (s : string) : nat :=
  match s with
  | "" => 0
  | String a r =>
      let '(n, lo, hi) := lead a in
      if n <=? 1 then n
      else match r with
      | "" => 0
      | String b r1 =>
          if negb (cont lo hi b) then 0
          else if n =? 2 then 2
          else match r1 with
          | "" => 0
          | String c r2 =>
              if negb (cont 128 191 c) then 0
              else if n =? 3 then 3
              else match r2 with
              | "" => 0
              | String d _ => if cont 128 191 d then 4 else 0
              end
          end
      end
  end.

Definition byte_chr (n : Z) : ascii := ascii_of_nat (Z.to_nat n).

(** [utf8.AppendRune] for a scalar value. *)
Definition encode_rune (r : Z) : string :=
  let tail sh := byte_chr (128 + Z.land (Z.shiftr r sh) 63)%Z in
  (if r <? 128 then chr (byte_chr r)
   else if r <? 2048 then String (byte_chr (192 + Z.shiftr r 6)) (chr (tail 0))
   else if r <? 65536 then
     String (byte_chr (224 + Z.shiftr r 12)) (String (tail 6) (chr (tail 0)))
   else String (byte_chr (240 + Z.shiftr r 18)) (String (tail 12) (String (tail 6) (chr (tail 0)))))%Z.

Definition RuneError : Z := 65533.

(** ** Strings *)
Definition hex_val (a : ascii) : option Z :=
  let x := Z.of_nat (byte_of a) in
  (if (48 <=? x) && (x <=? 57) then Some (x - 48)
   else if (97 <=? x) && (x <=? 102) then Some (x - 87)
   else if (65 <=? x) && (x <=? 70) then Some (x - 55)
   else None)%Z.

(** The four hex digits of a [\u] escape, and the rest. *)
Definition hex4 (s : string) : option (Z * string) :=
  match s with
  | String a (String b (String c (String d r))) =>
      match hex_val a, hex_val b, hex_val c, hex_val d with
      | Some a, Some b, Some c, Some d => Some ((a * 4096 + b * 256 + c * 16 + d)%Z, r)
      | _, _, _, _ => None
      end
  | _ => None
  end.

(** The second half of a surrogate pair: the rune and the rest after it. *)
Definition low_surrogate (hi : Z) (s : string) : option (Z * string) :=
  match s with
  | String b (String u r) =>
      if Ascii.eqb b backslash && Ascii.eqb u "u" then
        match hex4 r with
        | Some (lo, r') =>
            if ((hi <? 0xDC00) && (0xDC00 <=? lo) && (lo <? 0xE000))%Z
            then Some ((65536 + (hi - 0xD800) * 1024 + (lo - 0xDC00))%Z, r')
            else None
        | None => None
        end
      else None
  | _ => None
  end.

Definition escape_char (a : ascii) : option ascii :=
  if Ascii.eqb a dquote || Ascii.eqb a backslash || Ascii.eqb a "/" then Some a
  else if Ascii.eqb a "b" then Some "008"%char
  else if Ascii.eqb a "f" then Some "012"%char
  else if Ascii.eqb a "n" then Some "010"%char
  else if Ascii.eqb a "r" then Some "013"%char
  else if Ascii.eqb a "t" then Some "009"%char
  else None.

Definition prepend (p : string) (r : option (string * string)) : option (string * string) :=
  match r with Some (v, rest) => Some (p ^^ v, rest) | None => None end.

(** The text after an opening quote: its value and what follows the closing
    quote.  [fuel] above the length is enough. *)
Fixpoint parse_string (fuel : nat) (s : string) : option (string * string) :=
  match fuel, s with
  | S f, String a r =>
      if Ascii.eqb a dquote then Some ("", r)
      else if byte_of a <? 32 then None
      else if Ascii.eqb a backslash then
        match r with
        | "" => None
        | String e r1 =>
            if Ascii.eqb e "u" then
              match hex4 r1 with
              | None => None
              | Some (u, r2) =>
                  if ((0xD800 <=? u) && (u <? 0xE000))%Z then
                    match low_surrogate u r2 with
                    | Some (rune, r3) => prepend (encode_rune rune) (parse_string f r3)
                    | None => prepend (encode_rune RuneError) (parse_string f r2)
                    end
                  else prepend (encode_rune u) (parse_string f r2)
              end
            else match escape_char e with
                 | Some c => prepend (chr c) (parse_string f r1)
                 | None => None
                 end
        end
      else match rune_len s with
           | O => prepend (encode_rune RuneError) (parse_string f r)
           | n => prepend (take_str n s) (parse_string f (drop_str n s))
           end
  | _, _ => None
  end.

(** ** Numbers *)
Definition is_digit_char (a : ascii) : bool := (48 <=? byte_of a) && (byte_of a <=? 57).

Fixpoint take_digits (s : string) : string * string :=
  match s with
  | String a r =>
      if is_digit_char a then let '(d, r') := take_digits r in (String a d, r') else ("", s)
  | "" => ("", "")
  end.

(** [. digits], when there is a dot. *)
Definition take_frac (s : string) : option (string * string) :=
  match s with
  | String "." r =>
      match take_digits r with ("", _) => None | (d, r') => Some (String "." d, r') end
  | _ => Some ("", s)
  end.

Definition take_exp (s : string) : option (string * string) :=
  match s with
  | String e r =>
      if Ascii.eqb e "e" || Ascii.eqb e "E" then
        let '(sign, r1) := match r with
          | String c r' => if Ascii.eqb c "+" || Ascii.eqb c "-" then (chr c, r') else ("", r)
          | "" => ("", r)
          end in
        match take_digits r1 with ("", _) => None | (d, r') => Some (String e (sign ^^ d), r') end
      else Some ("", s)
  | "" => Some ("", s)
  end.

Definition take_int (s : string) : option (string * string) :=
  match s with
  | String "0" r => Some ("0", r)
  | _ => match take_digits s with ("", _) => None | (d, r) => Some (d, r) end
  end.

Definition parse_number (s : string) : option (string * string) :=
  let '(sign, s1) := match s with String "-" r => ("-", r) | _ => ("", s) end in
  '(i, s2) ← take_int s1;
  '(f, s3) ← take_frac s2;
  '(e, s4) ← take_exp s3;
  Some (sign ^^ i ^^ f ^^ e, s4).

(** ** Values *)
Definition is_ws (a : ascii) : bool :=
  Ascii.eqb a " " || Ascii.eqb a "009" || Ascii.eqb a "010" || Ascii.eqb a "013".

Fixpoint skip_ws (s : string) : string :=
  match s with
  | String a r => if is_ws a then skip_ws r else s
  | "" => ""
  end.

Definition maxNestingDepth : N := 10000.

(** [depth] counts the arrays and objects around the value. *)
Fixpoint parse_value (fuel : nat) (depth : N) (s : string) : option (json * string) :=
  match fuel with
  | O => None
  | S f =>
      match skip_ws s with
      | "" => None
      | String a r =>
          if Ascii.eqb a "{" then
            if (maxNestingDepth <=? depth)%N then None
            else match strip "}" (skip_ws r) with
                 | Some r' => Some (JObj [], r')
                 | None => '(ms, rest) ← parse_members f (depth + 1) r; Some (JObj ms, rest)
                 end
          else if Ascii.eqb a "[" then
            if (maxNestingDepth <=? depth)%N then None
            else match strip "]" (skip_ws r) with
                 | Some r' => Some (JArr [], r')
                 | None => '(es, rest) ← parse_elements f (depth + 1) r; Some (JArr es, rest)
                 end
          else if Ascii.eqb a dquote then
            '(v, rest) ← parse_string (S (String.length r)) r; Some (JStr v, rest)
          else match strip "true" (String a r), strip "false" (String a r), strip "null" (String a r) with
               | Some rest, _, _ => Some (JBool true, rest)
               | _, Some rest, _ => Some (JBool false, rest)
               | _, _, Some rest => Some (JNull, rest)
               | _, _, _ => '(lit, rest) ← parse_number (String a r); Some (JNum lit, rest)
               end
      end
  end
with parse_elements (fuel : nat) (depth : N) (s : string) : option (list json * string) :=
  match fuel with
  | O => None
  | S f =>
      '(v, r) ← parse_value f depth s;
      match skip_ws r with
      | String "," r' => '(vs, rest) ← parse_elements f depth r'; Some (v :: vs, rest)
      | String "]" r' => Some ([v], r')
      | _ => None
      end
  end
with parse_members (fuel : nat) (depth : N) (s : string) : option (list (string * json) * string) :=
  match fuel with
  | O => None
  | S f =>
      match skip_ws s with
      | String q r =>
          if negb (Ascii.eqb q dquote) then None
          else
            '(k, r1) ← parse_string (S (String.length r)) r;
            match skip_ws r1 with
            | String ":" r2 =>
                '(v, r3) ← parse_value f depth r2;
                match skip_ws r3 with
                | String "," r' => '(ms, rest) ← parse_members f depth r'; Some ((k, v) :: ms, rest)
                | String "}" r' => Some ([(k, v)], r')
                | _ => None
                end
            | _ => None
            end
      | "" => None
      end
  end.

Definition parse (s : string) : option json :=
  '(v, rest) ← parse_value (2 * String.length s + 2) 0 s;
  match skip_ws rest with "" => Some v | _ => None end.

(** ** Decoding into [map[string]any] *)

(** Every number of the value fits a float64. *)
Fixpoint numbers_ok (v : json) : bool :=
  match v with
  | JNum lit => match (ParseFloat lit).2 with None => true | Some _ => false end
  | JArr es => forallb numbers_ok es
  | JObj ms => forallb (fun kv => numbers_ok kv.2) ms
  | _ => true
  end.

(** A repeated name keeps its last value. *)
Definition object_map (ms : list (string * json)) : gmap string json := list_to_map (rev ms).

(** [var m map[string]any; json.Unmarshal(raw, &m)]: [null] leaves the map
    nil, any other non-object is a type error. *)
Definition Unmarshal_map (raw : string) : result (gmap string json) :=
  match parse raw with
  | None => Err (Fresh "invalid JSON")
  | Some v =>
      if negb (numbers_ok v) then Err (Fresh "json: cannot unmarshal number into Go value of type float64")
      else match v with
           | JNull => Ok ∅
           | JObj ms => Ok (object_map ms)
           | _ => Err (Fresh "json: cannot unmarshal into Go value of type map[string]interface {}")
           end
  end.
