(* ===== verification/JsonCodec.v ===== *)
(** * encoding/json: [Marshal] and decoding into Go types

    [Marshal] prints a value the way [json.Marshal] prints a struct whose
    fields are the members in declaration order.  A decoder of a Go type [A]
    takes the value found and the current content of the variable, as
    [Unmarshal] does ([null] leaves it alone, a repeated member overwrites
    it); [None] is an [UnmarshalTypeError].  The round trip [parse_Marshal]
    says that what an adapter sends is what its peer reads. *)
From S2P Require Import Prelude GoStrings Json.
From Stdlib Require Import Ascii DecimalString DecimalPos DecimalN DecimalZ DecimalFacts.

(** ** [Marshal] *)

(** One byte below 0x80, escaped for HTML as [Marshal] does by default. *)
Definition encode_char (a : ascii) : string :=
  let x := byte_of a in
  let esc (c : ascii) := String backslash (chr c) in
  if Ascii.eqb a dquote || Ascii.eqb a backslash then esc a
  else if x =? 8 then esc "b"%char else if x =? 12 then esc "f"%char
  else if x =? 10 then esc "n"%char else if x =? 13 then esc "r"%char
  else if x =? 9 then esc "t"%char
  else if (x <? 32) || (x =? 60) || (x =? 62) || (x =? 38)
  then String backslash ("u00" ^^ String (hex_digit (x / 16)) (chr (hex_digit (x mod 16))))
  else chr a.

(** U+2028 and U+2029 are escaped too. *)
Definition encode_wide (s : string) : string :=
  if String.eqb s (encode_rune 8232) then String backslash "u2028"
  else if String.eqb s (encode_rune 8233) then String backslash "u2029"
  else s.

(** The body of a string literal; [fuel] at least the length is enough. *)
Fixpoint encode_body (fuel : nat) (s : string) : string :=
  match fuel, s with
  | S f, String a r =>
      match rune_len s with
      | 0 => String backslash "ufffd" ^^ encode_body f r
      | 1 => encode_char a ^^ encode_body f r
      | n => encode_wide (take_str n s) ^^ encode_body f (drop_str n s)
      end
  | _, _ => ""
  end.

Definition encode_string (s : string) : string :=
  String dquote (encode_body (String.length s) s ^^ chr dquote).

(** Bytes that are no UTF-8 become U+FFFD. *)
Fixpoint sanitize_go (fuel : nat) (s : string) : string :=
  match fuel, s with
  | S f, String a r =>
      match rune_len s with
      | 0 => encode_rune RuneError ^^ sanitize_go f r
      | n => take_str n s ^^ sanitize_go f (drop_str n s)
      end
  | _, _ => ""
  end.
Definition sanitize (s : string) : string := sanitize_go (String.length s) s.

Fixpoint Marshal (v : json) : string :=
  match v with
  | JNull => "null"
  | JBool b => if b then "true" else "false"
  | JNum lit => lit
  | JStr s => encode_string s
  | JArr es => "[" ^^ Join (map Marshal es) "," ^^ "]"
  | JObj ms =>
      "{" ^^ Join (map (fun kv => encode_string kv.1 ^^ ":" ^^ Marshal kv.2) ms) "," ^^ "}"
  end.

(** ** Decoders *)
Definition decoder (A : Type) : Type := json -> A -> option A.

Definition dec_string : decoder string := fun v cur =>
  match v with JStr s => Some s | JNull => Some cur | _ => None end.
Definition dec_bool : decoder bool := fun v cur =>
  match v with JBool b => Some b | JNull => Some cur | _ => None end.
(** A Go [int64], or [int] on a 64-bit platform. *)
Definition dec_int64 : decoder Z := fun v cur =>
  match v with JNum lit => ParseInt lit | JNull => Some cur | _ => None end.
(** [any]: every number must fit a float64; [JNull] is [nil]. *)
Definition dec_any : decoder json := fun v _ => if numbers_ok v then Some v else None.
(** [json.RawMessage]: [None] is the empty message. *)
Definition dec_raw : decoder (option json) := fun v _ => Some (Some v).

(** The field a member name selects: an exact match, or else the first field
    equal under case folding. *)
Definition find_field {A} (fields : list (string * decoder A)) (name : string) : option (decoder A) :=
  match list_find (fun f => f.1 = name) fields with
  | Some (_, f) => Some f.2
  | None => snd <$> (snd <$> list_find (fun f => EqualFold name f.1 = true) fields)
  end.

(** [strict] is [DisallowUnknownFields]. *)
Fixpoint dec_members {A} (strict : bool) (fields : list (string * decoder A))
    (ms : list (string * json)) (cur : A) : option A :=
  match ms with
  | [] => Some cur
  | (k, v) :: ms' =>
      match find_field fields k with
      | Some d => cur' ← d v cur; dec_members strict fields ms' cur'
      | None => if strict then None else dec_members strict fields ms' cur
      end
  end.

Definition dec_struct {A} (strict : bool) (fields : list (string * decoder A)) : decoder A :=
  fun v cur =>
    match v with
    | JObj ms => dec_members strict fields ms cur
    | JNull => Some cur
    | _ => None
    end.

(** A slice: elements are decoded over those already there, then over zeros. *)
Fixpoint dec_elements {A} (d : decoder A) (zero : A) (es : list json) (cur : list A)
    : option (list A) :=
  match es with
  | [] => Some []
  | e :: es' =>
      x ← d e (default zero (head cur));
      xs ← dec_elements d zero es' (tail cur);
      Some (x :: xs)
  end.
Definition dec_slice {A} (d : decoder A) (zero : A) : decoder (list A) := fun v cur =>
  match v with JArr es => dec_elements d zero es cur | JNull => Some [] | _ => None end.

(** [f] decodes the field that [get] reads and [set] writes. *)
Definition dec_field {A B} (get : A -> B) (set : B -> A -> A) (d : decoder B) : decoder A :=
  fun v cur => x ← d v (get cur); Some (set x cur).

(** [var x A; err := json.Unmarshal(raw, &x)] *)
Definition Unmarshal {A} (d : decoder A) (zero : A) (raw : string) : result A :=
  match parse raw with
  | None => Err (Fresh "invalid JSON")
  | Some v =>
      match d v zero with
      | Some x => Ok x
      | None => Err (Fresh "json: cannot unmarshal")
      end
  end.

(** [json.Unmarshal] of a [RawMessage] taken out of a larger message. *)
Definition Unmarshal_raw {A} (d : decoder A) (zero : A) (raw : option json) : result A :=
  match raw with
  | None => Err (Fresh "unexpected end of JSON input")
  | Some v =>
      match d v zero with
      | Some x => Ok x
      | None => Err (Fresh "json: cannot unmarshal")
      end
  end.

(** ** The round trip *)

Lemma chr_append a s : chr a ^^ s = String a s.
Proof. done. Qed.

Lemma encode_char_parse a g r :
  byte_of a < 128 -> parse_string (S g) (encode_char a ^^ r) = prepend (chr a) (parse_string g r).
Proof. intros H. destruct a as [[] [] [] [] [] [] [] []]; first [reflexivity | exfalso; vm_compute in H; lia].
Qed.

(** The bytes of a rune decide its length. *)
Lemma rune_len_take s x :
  0 < rune_len s ->
  rune_len (take_str (rune_len s) s ^^ x) = rune_len s /\ rune_len s <= 4 /\ rune_len s <= String.length s.
Proof.
  destruct s as [|a s]; [simpl; lia|]. cbn [rune_len]. destruct (lead a) as [[n lo] hi] eqn:El.
  destruct (n <=? 1) eqn:E1; intros Hn.
  { apply Nat.leb_le in E1. assert (n = 1) as -> by lia. cbn. rewrite El. simpl. lia. }
  destruct s as [|b s]; [simpl in Hn; lia|]. destruct (cont lo hi b) eqn:Eb; [|simpl in Hn; lia]. cbn [negb] in *.
  destruct (n =? 2) eqn:E2. { cbn. rewrite El, E1, Eb. simpl. rewrite E2. lia. }
  destruct s as [|c s]; [simpl in Hn; lia|]. destruct (cont 128 191 c) eqn:Ec; [|simpl in Hn; lia]. cbn [negb] in *.
  destruct (n =? 3) eqn:E3. { cbn. rewrite El, E1, Eb. simpl. rewrite E2, Ec, E3. simpl. lia. }
  destruct s as [|d s]; [simpl in Hn; lia|]. destruct (cont 128 191 d) eqn:Ed; [|simpl in Hn; lia].
  cbn. rewrite El, E1, Eb. simpl. rewrite E2, Ec, E3, Ed. simpl. lia.
Qed.

Lemma lead_wide a : 128 <= byte_of a -> (lead a).1.1 <> 1.
Proof. unfold lead. cbv zeta. intros H. destruct (Nat.ltb_spec (byte_of a) 128); [lia|]. by repeat case_match. Qed.

Lemma rune_len_one a s : rune_len (String a s) = 1 <-> byte_of a < 128.
Proof.
  split.
  - intros H. destruct (Nat.lt_ge_cases (byte_of a) 128) as [|Ha]; [done|].
    apply lead_wide in Ha. cbn [rune_len] in H. destruct (lead a) as [[n lo] hi]. cbn in Ha.
    destruct (n <=? 1) eqn:E1; [lia|]. by repeat case_match.
  - intros H. cbn [rune_len]. unfold lead. by apply Nat.ltb_lt in H as ->.
Qed.

Lemma rune_len_head a s : 1 < rune_len (String a s) -> 128 <= byte_of a.
Proof.
  intros H. destruct (Nat.lt_ge_cases (byte_of a) 128) as [Ha|]; [|done].
  apply (rune_len_one a s) in Ha. lia.
Qed.

(** A byte that starts no ASCII character is none of those the parser singles out. *)
Lemma parse_string_wide a g r :
  128 <= byte_of a ->
  parse_string (S g) (String a r) =
  match rune_len (String a r) with
  | O => prepend (encode_rune RuneError) (parse_string g r)
  | n => prepend (take_str n (String a r)) (parse_string g (drop_str n (String a r)))
  end.
Proof.
  intros Ha. cbn [parse_string].
  assert (Ascii.eqb a dquote = false) as ->.
  { apply Ascii.eqb_neq. intros ->. vm_compute in Ha. lia. }
  assert (Ascii.eqb a backslash = false) as ->.
  { apply Ascii.eqb_neq. intros ->. vm_compute in Ha. lia. }
  destruct (Nat.ltb_spec (byte_of a) 32); [lia | done].
Qed.

Lemma encode_wide_parse a s g x :
  1 < rune_len (String a s) ->
  let t := take_str (rune_len (String a s)) (String a s) in
  parse_string (S g) (encode_wide t ^^ x) = prepend t (parse_string g x).
Proof.
  intros Hn t. destruct (rune_len_take (String a s) x ltac:(lia)) as (Ht & Hb & Hl). fold t in Ht.
  unfold encode_wide.
  destruct (String.eqb_spec t (encode_rune 8232)) as [->|_]; [reflexivity|].
  destruct (String.eqb_spec t (encode_rune 8233)) as [->|_]; [reflexivity|].
  assert (Hlen : String.length t = rune_len (String a s)) by (by apply take_str_length).
  pose proof (rune_len_head a s Hn) as Ha.
  destruct (rune_len (String a s)) as [|n] eqn:En; [lia|].
  assert (t = String a (take_str n s)) as E by done. rewrite E in *. cbn [String.append] in *.
  rewrite parse_string_wide, Ht by done.
  assert (Hsplit : forall p q, take_str (String.length p) (p ^^ q) = p /\ drop_str (String.length p) (p ^^ q) = q).
  { induction p as [|y p IH]; intros q; simpl; [by destruct q|]. destruct (IH q) as [-> ->]. done. }
  destruct (Hsplit (String a (take_str n s)) x) as [H1 H2]. rewrite Hlen in H1, H2. cbn [String.append] in H1, H2.
  cbv zeta. by rewrite H1, H2.
Qed.

Lemma prepend_append p q r : prepend p (prepend q r) = prepend (p ^^ q) r.
Proof. destruct r as [[v w]|]; simpl; [by rewrite append_assoc | done]. Qed.

Lemma drop_str_length n s : String.length (drop_str n s) = String.length s - n.
Proof. revert s. induction n as [|n IH]; intros [|a s]; simpl; done. Qed.

Lemma encode_char_length a : 0 < String.length (encode_char a).
Proof. unfold encode_char. cbv zeta. repeat case_match; simpl; lia. Qed.

Lemma parse_encode_body f s g rest :
  String.length s <= f -> String.length (encode_body f s) < g ->
  parse_string g (encode_body f s ^^ String dquote rest) = Some (sanitize_go f s, rest).
Proof.
  revert s g. induction f as [|f IH]; intros [|a s] g Hf Hg; destruct g as [|g]; try (simpl in *; lia);
    [reflexivity..|].
  cbn [encode_body sanitize_go] in *. destruct (rune_len (String a s)) as [|[|n]] eqn:En.
  - rewrite append_assoc.
    transitivity (prepend (encode_rune RuneError) (parse_string g (encode_body f s ^^ String dquote rest))); [reflexivity|].
    rewrite length_append in Hg. simpl in Hf, Hg. rewrite IH by lia. done.
  - apply rune_len_one in En. rewrite append_assoc, encode_char_parse by done.
    pose proof (encode_char_length a). rewrite length_append in Hg. simpl in Hf.
    rewrite IH by lia. destruct s; done.
  - rewrite append_assoc. pose proof (encode_wide_parse a s g) as Hw. rewrite En in Hw. cbv zeta in Hw.
    rewrite Hw by lia. rewrite length_append in Hg.
    destruct (rune_len_take (String a s) "" ltac:(lia)) as (_ & _ & Hl). rewrite En in Hl.
    assert (Hw0 : 0 < String.length (encode_wide (take_str (S (S n)) (String a s)))).
    { unfold encode_wide. repeat case_match; simpl; lia. }
    rewrite IH; [done | rewrite drop_str_length; simpl in Hf |- *; lia | lia].
Qed.

(** Reading back what [Marshal] wrote: strings are sanitized. *)
Fixpoint Sanitize (v : json) : json :=
  match v with
  | JStr s => JStr (sanitize s)
  | JArr es => JArr (map Sanitize es)
  | JObj ms => JObj (map (fun kv => (sanitize kv.1, Sanitize kv.2)) ms)
  | _ => v
  end.

(** What can follow a value. *)
Definition delimited (s : string) : bool :=
  match s with
  | "" => true
  | String a _ => Ascii.eqb a "," || Ascii.eqb a "]" || Ascii.eqb a "}" || Ascii.eqb a "010"
  end.

(** A literal of the JSON number grammar. *)
Definition number_literal (lit : string) : Prop :=
  forall rest, delimited rest = true -> parse_number (lit ^^ rest) = Some (lit, rest).

Fixpoint literals_ok (v : json) : Prop :=
  match v with
  | JNum lit => number_literal lit
  | JArr es => fold_right (fun e P => literals_ok e /\ P) True es
  | JObj ms => fold_right (fun kv P => literals_ok kv.2 /\ P) True ms
  | _ => True
  end.

Fixpoint height (v : json) : N :=
  match v with
  | JArr es => 1 + fold_right (fun e n => N.max (height e) n) 0 es
  | JObj ms => 1 + fold_right (fun kv n => N.max (height kv.2) n) 0 ms
  | _ => 0
  end%N.

(** Fuel that reads a value. *)
Fixpoint fuel_of (v : json) : nat :=
  match v with
  | JArr es => S (fold_right (fun e n => S (fuel_of e + n)) 0 es)
  | JObj ms => S (fold_right (fun kv n => S (fuel_of kv.2 + n)) 0 ms)
  | _ => 1
  end.

Definition json_nested_ind (P : json -> Prop)
    (Hnull : P JNull) (Hbool : forall b, P (JBool b)) (Hnum : forall l, P (JNum l))
    (Hstr : forall s, P (JStr s)) (Harr : forall es, Forall P es -> P (JArr es))
    (Hobj : forall ms, Forall (fun kv => P kv.2) ms -> P (JObj ms)) : forall v, P v :=
  fix go v :=
    match v with
    | JNull => Hnull | JBool b => Hbool b | JNum l => Hnum l | JStr s => Hstr s
    | JArr es => Harr es ((fix all es : Forall P es := match es with
        | [] => Forall_nil_2 P
        | e :: es' => Forall_cons_2 P e es' (go e) (all es') end) es)
    | JObj ms => Hobj ms ((fix all ms : Forall (fun kv => P kv.2) ms := match ms with
        | [] => Forall_nil_2 _
        | kv :: ms' => Forall_cons_2 (fun kv => P kv.2) kv ms' (go kv.2) (all ms') end) ms)
    end.

Lemma take_digits_delimited lit rest :
  all_digits lit = true -> delimited rest = true -> take_digits (lit ^^ rest) = (lit, rest).
Proof.
  intros Hd Hr. induction lit as [|a lit IH].
  - destruct rest as [|b rest]; [done|]. simpl in *. unfold is_digit_char.
    repeat (apply orb_true_iff in Hr as [Hr|Hr]); apply Ascii.eqb_eq in Hr as ->; done.
  - simpl in *. apply andb_true_iff in Hd as [Ha Hd]. unfold is_digit in Ha.
    unfold is_digit_char. rewrite Ha, IH; done.
Qed.

Lemma take_none rest :
  delimited rest = true -> take_frac rest = Some ("", rest) /\ take_exp rest = Some ("", rest).
Proof.
  destruct rest as [|b rest]; [done|]. simpl. intros Hr.
  repeat (apply orb_true_iff in Hr as [Hr|Hr]); apply Ascii.eqb_eq in Hr as ->; done.
Qed.

Lemma take_int_digits lit rest a t :
  lit = String a t -> (a <> "0"%char \/ t = "") ->
  all_digits lit = true -> delimited rest = true -> take_int (lit ^^ rest) = Some (lit, rest).
Proof.
  intros -> Ha Hd Hr. destruct (decide (a = "0"%char)) as [->|Hne].
  - destruct Ha as [| ->]; [done|]. done.
  - pose proof (take_digits_delimited _ _ Hd Hr) as E. cbn [String.append] in *.
    assert (Hgo : take_int (String a (t ^^ rest)) =
      match take_digits (String a (t ^^ rest)) with ("", _) => None | (d, r) => Some (d, r) end).
    { destruct a as [[] [] [] [] [] [] [] []]; try reflexivity. by destruct Hne. }
    rewrite Hgo, E. done.
Qed.

Lemma to_uint_head p u : Pos.to_uint p = Decimal.D0 u -> u = Decimal.Nil.
Proof.
  intros E. pose proof (DecimalN.Unsigned.to_of (N.to_uint (Npos p))) as H.
  rewrite DecimalN.Unsigned.of_to in H. cbn [N.to_uint] in H. rewrite E in H.
  unfold Decimal.unorm in H. destruct (Decimal.nzhead (Decimal.D0 u)) eqn:En; try discriminate H.
  - by injection H.
  - exfalso. exact (DecimalFacts.nzhead_nonzero _ _ En).
Qed.

Lemma FormatInt_pos p :
  exists a t, FormatInt (Z.pos p) = String a t /\ all_digits (String a t) = true
    /\ (a <> "0"%char \/ t = "").
Proof.
  destruct (FormatInt_nonneg_digits (Z.pos p) ltac:(lia)) as [Hd Hne].
  destruct (FormatInt (Z.pos p)) as [|a t] eqn:E; [done|]. exists a, t. split_and!; [done..|].
  unfold FormatInt in E. simpl in E. unfold NilZero.string_of_uint in E.
  destruct (Pos.to_uint p) as [|u|u|u|u|u|u|u|u|u|u] eqn:Eu; simpl in E; injection E as <- <-; try by left.
  - by right.
  - apply to_uint_head in Eu as ->. by right.
Qed.

Lemma FormatInt_literal z : number_literal (FormatInt z).
Proof.
  intros rest Hr. destruct (take_none rest Hr) as [Hf He].
  assert (Hpos : forall lit, (exists a t, lit = String a t /\ all_digits (String a t) = true
      /\ (a <> "0"%char \/ t = "")) -> forall sign,
    ('(i, s2) ← take_int (lit ^^ rest); '(f, s3) ← take_frac s2; '(e, s4) ← take_exp s3;
      Some (sign ^^ i ^^ f ^^ e, s4)) = Some (sign ^^ lit, rest)).
  { intros lit (a & t & E & Hd & Ha) sign. rewrite (take_int_digits lit rest a t E) by (done || by rewrite E).
    cbn [mbind option_bind]. rewrite Hf. cbn [mbind option_bind]. rewrite He. cbn. by rewrite append_nil_r. }
  destruct z as [|p|p].
  - cbn [FormatInt]. unfold parse_number. apply (Hpos "0"); eauto 10.
  - unfold parse_number. destruct (FormatInt_pos p) as (a & t & E & Hd & Ha).
    rewrite E. cbn [String.append].
    assert (Hm : match String a (t ^^ rest) with String "-" r => ("-", r) | _ => ("", String a (t ^^ rest)) end
                 = ("", String a (t ^^ rest))).
    { destruct a as [[] [] [] [] [] [] [] []]; try reflexivity. by vm_compute in Hd. }
    rewrite Hm. apply (Hpos (String a t)); eauto 10.
  - rewrite FormatInt_neg. cbn [String.append]. unfold parse_number. 
    rewrite (Hpos _ (FormatInt_pos p)). done.
Qed.

(** The first byte of a value: no white space and no closing bracket. *)
Definition opens (a : ascii) : bool :=
  negb (is_ws a) && negb (Ascii.eqb a "]") && negb (Ascii.eqb a "}").

Lemma parse_number_head a r x : parse_number (String a r) = Some x -> a = "-"%char \/ is_digit_char a = true.
Proof.
  destruct a as [[] [] [] [] [] [] [] []]; try (by right); try (by left); intros H; exfalso;
    unfold parse_number in H; cbn in H; discriminate.
Qed.

Lemma literal_head lit : number_literal lit ->
  exists a t, lit = String a t /\ (a = "-"%char \/ is_digit_char a = true).
Proof.
  intros H. specialize (H "" eq_refl). rewrite append_nil_r in H.
  destruct lit as [|a t]; [done|]. exists a, t. split; [done|]. by eapply parse_number_head.
Qed.

Lemma number_opens a : (a = "-"%char \/ is_digit_char a = true) -> opens a = true.
Proof. intros [-> | H]; [done|]. destruct a as [[] [] [] [] [] [] [] []]; try done; by vm_compute in H. Qed.

Lemma Marshal_head v : literals_ok v -> exists a t, Marshal v = String a t /\ opens a = true.
Proof.
  destruct v as [|[]|lit|s|es|ms]; simpl; intros H; try (eexists _, _; split; [reflexivity|done]).
  destruct (literal_head lit H) as (a & t & -> & Ha). eexists _, _. split; [done|]. by apply number_opens.
Qed.

Lemma skip_opens a t : opens a = true -> skip_ws (String a t) = String a t.
Proof. unfold opens. simpl. by destruct (is_ws a). Qed.

Lemma strip_opens a t : opens a = true ->
  strip "]" (String a t) = None /\ strip "}" (String a t) = None.
Proof. destruct a as [[] [] [] [] [] [] [] []]; done. Qed.

Lemma parse_encode_string s rest :
  parse_string (S (String.length (encode_body (String.length s) s ^^ String dquote rest)))
    (encode_body (String.length s) s ^^ String dquote rest) = Some (sanitize s, rest).
Proof. apply parse_encode_body; [done|]. rewrite length_append. simpl. lia. Qed.

Lemma parse_literal f depth a t lit rest :
  (a = "-"%char \/ is_digit_char a = true) ->
  parse_number (String a t) = Some (lit, rest) ->
  parse_value (S f) depth (String a t) = Some (JNum lit, rest).
Proof.
  intros Ha H. cbn [parse_value]. rewrite skip_opens by (by apply number_opens).
  destruct Ha as [-> | Ha]; [cbn -[parse_number]; by rewrite H|].
  destruct a as [[] [] [] [] [] [] [] []]; try (by vm_compute in Ha); cbn -[parse_number]; by rewrite H.
Qed.

Definition Reads (v : json) : Prop := forall fuel depth rest,
  literals_ok v -> delimited rest = true -> (depth + height v <= maxNestingDepth)%N ->
  fuel_of v <= fuel -> parse_value fuel depth (Marshal v ^^ rest) = Some (Sanitize v, rest).

Lemma parse_elements_Marshal es : Forall Reads es -> es <> [] -> forall fuel depth rest,
  fold_right (fun e P => literals_ok e /\ P) True es ->
  (depth + fold_right (fun e n => N.max (height e) n) 0 es <= maxNestingDepth)%N ->
  fold_right (fun e n => S (fuel_of e + n)) 0 es <= fuel ->
  parse_elements fuel depth (Join (map Marshal es) "," ^^ "]" ^^ rest) = Some (map Sanitize es, rest).
Proof.
  induction 1 as [|e es He Hes IH]; [done|]. intros _ fuel depth rest [Hl Hls] Hd Hf.
  destruct fuel as [|fuel]; [simpl in Hf; lia|]. cbn [fold_right] in Hd, Hf. cbn [parse_elements map].
  destruct es as [|e' es].
  - cbn [map Join]. rewrite (He fuel depth ("]" ^^ rest)) by (done || lia). done.
  - change (map Marshal (e :: e' :: es)) with (Marshal e :: map Marshal (e' :: es)).
    rewrite Join_cons, !append_assoc by done.
    assert (HX := IH ltac:(done) fuel depth rest Hls ltac:(cbn [fold_right] in *; lia) ltac:(lia)).
    revert HX. generalize (Join (map Marshal (e' :: es)) "," ^^ "]" ^^ rest). intros X HX.
    cbn [String.append]. rewrite (He fuel depth) by (done || lia). cbn. by rewrite HX.
Qed.

Lemma parse_members_Marshal ms : Forall (fun kv => Reads kv.2) ms -> ms <> [] -> forall fuel depth rest,
  fold_right (fun kv P => literals_ok kv.2 /\ P) True ms ->
  (depth + fold_right (fun kv n => N.max (height kv.2) n) 0 ms <= maxNestingDepth)%N ->
  fold_right (fun kv n => S (fuel_of kv.2 + n)) 0 ms <= fuel ->
  parse_members fuel depth
    (Join (map (fun kv => encode_string kv.1 ^^ ":" ^^ Marshal kv.2) ms) "," ^^ "}" ^^ rest)
  = Some (map (fun kv => (sanitize kv.1, Sanitize kv.2)) ms, rest).
Proof.
  induction 1 as [|[k v] ms He Hes IH]; [done|]. intros _ fuel depth rest [Hl Hls] Hd Hf.
  destruct fuel as [|fuel]; [simpl in Hf; lia|]. cbn [fold_right snd] in Hd, Hf, He, Hl.
  assert (Hone : forall tl, delimited tl = true ->
    parse_members (S fuel) depth ((encode_string k ^^ ":" ^^ Marshal v) ^^ tl) =
    match skip_ws tl with
    | String "," r' => '(ms, rest) ← parse_members fuel depth r'; Some ((sanitize k, Sanitize v) :: ms, rest)
    | String "}" r' => Some ([(sanitize k, Sanitize v)], r')
    | _ => None
    end).
  { intros tl Htl. unfold encode_string. rewrite !append_assoc. cbn [parse_members String.append].
    rewrite (skip_opens dquote) by done. change (negb (Ascii.eqb dquote dquote)) with false. cbn match.
    rewrite append_assoc. cbn [chr String.append].
    rewrite parse_encode_string. cbn [mbind option_bind].
    change (skip_ws (String ":" (Marshal v ^^ tl))) with (String ":" (Marshal v ^^ tl)). cbn match.
    rewrite (He fuel depth tl) by (done || lia). done. }
  destruct ms as [|kv ms].
  - cbn [map Join fst snd]. rewrite Hone by done. done.
  - change (map ?f ((k, v) :: kv :: ms)) with (f (k, v) :: map f (kv :: ms)). cbn [fst snd].
    rewrite Join_cons, append_assoc by done.
    assert (HX := IH ltac:(done) fuel depth rest Hls ltac:(cbn [fold_right] in *; lia) ltac:(lia)).
    rewrite Hone by done. rewrite append_assoc.
    revert HX. generalize (Join (map (fun kv => encode_string kv.1 ^^ ":" ^^ Marshal kv.2) (kv :: ms)) "," ^^ "}" ^^ rest).
    intros X HX. cbn. by rewrite HX.
Qed.

Lemma Marshal_reads v : Reads v.
Proof.
  induction v as [|b|lit|s|es IH|ms IH] using json_nested_ind; intros [|fuel] depth rest Hl Hr Hd Hf;
    try (simpl in Hf; lia).
  - done.
  - by destruct b.
  - destruct (literal_head lit Hl) as (a & t & -> & Ha). by apply parse_literal; [|apply Hl].
  - cbn [Marshal]. unfold encode_string. cbn [String.append]. rewrite append_assoc.
    cbn [parse_value]. rewrite skip_opens by done. cbn -[parse_string encode_body String.length].
    by rewrite parse_encode_string.
  - cbn [Marshal]. rewrite !append_assoc. cbn [String.append parse_value].
    rewrite skip_opens by done. cbn [height literals_ok fuel_of] in *.
    change (Ascii.eqb "[" "{") with false. change (Ascii.eqb "[" "[") with true. cbn match.
    destruct (N.leb_spec maxNestingDepth depth); [lia|].
    destruct es as [|e es]; [done|].
    assert (HX := parse_elements_Marshal _ IH ltac:(done) fuel (depth + 1)%N rest Hl ltac:(lia) ltac:(lia)).
    destruct Hl as [He _]. destruct (Marshal_head e He) as (a & t & Ea & Ha).
    assert (exists t', Join (map Marshal (e :: es)) "," = String a t') as [t' Et].
    { cbn [map]. rewrite Ea. destruct es; cbn; eauto. }
    rewrite Et in *. cbn [String.append] in *. rewrite skip_opens by done. rewrite (proj1 (strip_opens a _ Ha)).
    by rewrite HX.
  - cbn [Marshal]. rewrite !append_assoc. change ("{" ^^ ?x) with (String "{" x). cbn [parse_value].
    rewrite skip_opens by done. cbn [height literals_ok fuel_of] in *.
    change (Ascii.eqb "{" "{") with true. cbn match.
    destruct (N.leb_spec maxNestingDepth depth); [lia|].
    destruct ms as [|kv ms]; [done|].
    assert (HX := parse_members_Marshal _ IH ltac:(done) fuel (depth + 1)%N rest Hl ltac:(lia) ltac:(lia)).
    assert (exists t', Join (map (fun kv => encode_string kv.1 ^^ ":" ^^ Marshal kv.2) (kv :: ms)) ","
      = String dquote t') as [t' Et]. { destruct ms; cbn; eauto. }
    rewrite Et in *. change (String dquote t' ^^ ?x) with (String dquote (t' ^^ x)) in *.
    rewrite skip_opens by done. change (strip "}" (String dquote ?x)) with (@None string). cbn match. by rewrite HX.
Qed.

Lemma Join_length (l : list string) :
  fold_right (fun x n => S (String.length x + n)) 0 l <= S (String.length (Join l ",")).
Proof.
  induction l as [|x [|y l] IH]; [simpl; lia..|]. rewrite Join_cons, !length_append by done.
  cbn [fold_right] in *. change (String.length ",") with 1. lia.
Qed.

Lemma fold_length {A} (f : A -> string) (g : A -> nat) (ok : A -> Prop) (l : list A) :
  Forall (fun x => ok x -> g x <= 2 * String.length (f x)) l ->
  fold_right (fun x P => ok x /\ P) True l ->
  fold_right (fun x n => S (g x + n)) 0 l <= 2 * fold_right (fun x n => S (String.length x + n)) 0 (map f l).
Proof. induction 1 as [|x l Hx Hl IH]; simpl; [lia|]. intros [Hok Hoks]. specialize (IH Hoks). specialize (Hx Hok). lia. Qed.

Lemma fuel_of_length v : literals_ok v -> fuel_of v <= 2 * String.length (Marshal v).
Proof.
  induction v as [|b|lit|s|es IH|ms IH] using json_nested_ind; intros Hl.
  1,4: simpl; lia.
  - destruct b; simpl; lia.
  - destruct (literal_head lit Hl) as (a & t & -> & _). simpl. lia.
  - cbn [fuel_of Marshal]. rewrite !length_append.
    pose proof (fold_length _ _ _ _ IH Hl). pose proof (Join_length (map Marshal es)). change (String.length "[") with 1. change (String.length "]") with 1.
    change (String.length "{") with 1. change (String.length "}") with 1. lia.
  - cbn [fuel_of Marshal]. rewrite !length_append.
    pose proof (fold_length (fun kv => encode_string kv.1 ^^ ":" ^^ Marshal kv.2) (fun kv => fuel_of kv.2)
      (fun kv => literals_ok kv.2) ms) as H.
    pose proof (Join_length (map (fun kv => encode_string kv.1 ^^ ":" ^^ Marshal kv.2) ms)).
    assert (Hm : Forall (fun x => literals_ok x.2 -> fuel_of x.2 <= 2 * String.length (encode_string x.1 ^^ ":" ^^ Marshal x.2)) ms).
    { eapply Forall_impl; [|exact IH]. intros kv Hk Hok. rewrite !length_append. specialize (Hk Hok). lia. }
    specialize (H Hm Hl). cbv beta in H. change (String.length "[") with 1. change (String.length "]") with 1.
    change (String.length "{") with 1. change (String.length "}") with 1. lia.
Qed.

(** Whatever is marshalled is read back, with its strings made valid UTF-8. *)
Theorem parse_Marshal v :
  literals_ok v -> (height v <= maxNestingDepth)%N -> parse (Marshal v) = Some (Sanitize v).
Proof.
  intros Hl Hh. unfold parse. pose proof (fuel_of_length v Hl).
  pose proof (Marshal_reads v (2 * String.length (Marshal v) + 2) 0%N "" Hl eq_refl ltac:(lia) ltac:(lia)) as H'.
  rewrite append_nil_r in H'. by rewrite H'.
Qed.

(** ** Text that [sanitize] leaves alone *)
Fixpoint ascii_only (s : string) : bool :=
  match s with "" => true | String a r => (byte_of a <? 128) && ascii_only r end.

Lemma sanitize_go_ascii f s : String.length s <= f -> ascii_only s = true -> sanitize_go f s = s.
Proof.
  revert f. induction s as [|a s IH]; intros [|f] Hf Ha; simpl in Hf; try done; try lia.
  cbn [ascii_only] in Ha. apply andb_true_iff in Ha as [Ha Hs]. apply Nat.ltb_lt in Ha.
  cbn [sanitize_go]. rewrite (proj2 (rune_len_one a s)) by done. simpl. by rewrite IH by (done || lia).
Qed.

Lemma sanitize_ascii s : ascii_only s = true -> sanitize s = s.
Proof. by apply sanitize_go_ascii. Qed.

Lemma ascii_only_append s t : ascii_only (s ^^ t) = ascii_only s && ascii_only t.
Proof. induction s as [|a s IH]; simpl; [done|]. by rewrite IH, andb_assoc. Qed.

Lemma digits_ascii s : all_digits s = true -> ascii_only s = true.
Proof.
  induction s as [|a s IH]; simpl; [done|]. intros [Ha Hs]%andb_true_iff. rewrite IH by done.
  unfold is_digit in Ha. apply andb_true_iff in Ha as [_ Ha]. apply Nat.leb_le in Ha.
  rewrite andb_true_r. apply Nat.ltb_lt. lia.
Qed.

Lemma FormatInt_ascii z : ascii_only (FormatInt z) = true.
Proof.
  destruct (Z.lt_ge_cases z 0) as [Hz|Hz]; [|by apply digits_ascii, FormatInt_nonneg_digits].
  destruct z as [|p|p]; [lia..|]. rewrite FormatInt_neg. simpl.
  apply digits_ascii, (FormatInt_nonneg_digits (Z.pos p)). lia.
Qed.

(** The first member of that exact name. *)
Fixpoint assoc (name : string) (ms : list (string * json)) : option json :=
  match ms with
  | [] => None
  | (k, v) :: ms' => if String.eqb k name then Some v else assoc name ms'
  end.
Definition member (name : string) (v : json) : option json :=
  match v with JObj ms => assoc name ms | _ => None end.

Lemma member_Sanitize name ms :
  forallb (fun kv => ascii_only kv.1) ms = true ->
  member name (Sanitize (JObj ms)) = Sanitize <$> assoc name ms.
Proof.
  cbn [Sanitize member]. induction ms as [|[k v] ms IH]; simpl; [done|].
  intros [Hk Hms]%andb_true_iff. rewrite sanitize_ascii by done. destruct (String.eqb k name); auto.
Qed.
