(* ===== verification/Crypto.v ===== *)
(** * crypto/sha256, crypto/sha512, crypto/hmac, encoding/hex, encoding/base64

    Executable definitions of the standard-library functions the signature
    checks use: SHA-2 (FIPS 180-4), HMAC (RFC 2104), hexadecimal and base64
    with Go's decoding rules, with the round trips the components rely on. *)
From S2P Require Import Prelude GoStrings.
From Stdlib Require Import Ascii ZifyNat.
From Stdlib Require String.

(** ** Bytes *)
Definition bytes (s : string) : list Z :=
  map (fun a => Z.of_nat (nat_of_ascii a)) (String.list_ascii_of_string s).
Definition of_bytes (l : list Z) : string :=
  String.string_of_list_ascii (map (fun z => ascii_of_nat (Z.to_nat z)) l).

(** ** SHA-2 *)
Record sha2_params := {
  word_bits : Z; H0 : list Z; K : list Z; block_bytes : nat; length_bytes : nat;
  S0 : Z * Z * Z; S1 : Z * Z * Z;      (* rotations of a and of e *)
  s0 : Z * Z * Z; s1 : Z * Z * Z }.    (* rotation, rotation, shift of the schedule *)

Section sha2.
Context (P : sha2_params).
Local Open Scope Z_scope.

Definition word (z : Z) : Z := z mod 2 ^ word_bits P.
Definition rotr (n z : Z) : Z :=
  Z.lor (Z.shiftr z n) (word (Z.shiftl z (word_bits P - n))).
Definition big (r : Z * Z * Z) (z : Z) : Z :=
  let '(a, b, c) := r in Z.lxor (rotr a z) (Z.lxor (rotr b z) (rotr c z)).
Definition small (r : Z * Z * Z) (z : Z) : Z :=
  let '(a, b, c) := r in Z.lxor (rotr a z) (Z.lxor (rotr b z) (Z.shiftr z c)).
Definition not_word (z : Z) : Z := 2 ^ word_bits P - 1 - z.

(** Big-endian words of a byte string. *)
Definition be_word (l : list Z) : Z := fold_left (fun acc b => acc * 256 + b) l 0.
Fixpoint be_bytes (n : nat) (z : Z) : list Z :=
  match n with O => [] | S n' => be_bytes n' (z / 256) ++ [z mod 256] end.
Fixpoint words (n : nat) (l : list Z) : list Z :=
  let k := Z.to_nat (word_bits P / 8) in
  match n with
  | O => []
  | S n' => be_word (take k l) :: words n' (drop k l)
  end.

(** The message schedule, newest word first. *)
Fixpoint extend (n : nat) (w : list Z) : list Z :=
  match n with
  | O => w
  | S n' =>
      let at_ i := nth i w 0 in
      extend n' (word (small (s1 P) (at_ 1%nat) + at_ 6%nat + small (s0 P) (at_ 14%nat) + at_ 15%nat) :: w)
  end.

Definition round (st : list Z) (kw : Z * Z) : list Z :=
  match st with
  | [a; b; c; d; e; f; g; h] =>
      let ch := Z.lxor (Z.land e f) (Z.land (not_word e) g) in
      let maj := Z.lxor (Z.land a b) (Z.lxor (Z.land a c) (Z.land b c)) in
      let t1 := h + big (S1 P) e + ch + kw.1 + kw.2 in
      let t2 := big (S0 P) a + maj in
      [word (t1 + t2); a; b; c; word (d + t1); e; f; g]
  | _ => st
  end.

Definition compress (st block : list Z) : list Z :=
  let w := rev (extend (length (K P) - 16) (rev (words 16 block))) in
  zip_with (fun x y => word (x + y)) st (fold_left round (combine (K P) w) st).

Fixpoint blocks (n : nat) (st l : list Z) : list Z :=
  match n with
  | O => st
  | S n' => blocks n' (compress st (take (block_bytes P) l)) (drop (block_bytes P) l)
  end.

Definition pad (l : list Z) : list Z :=
  let b := block_bytes P in
  let r := (b - (length l + 1 + length_bytes P) mod b)%nat in
  l ++ 128 :: repeat 0 (r mod b) ++ be_bytes (length_bytes P) (8 * Z.of_nat (length l)).

Definition sha2 (l : list Z) : list Z :=
  let p := pad l in
  List.concat (map (be_bytes (Z.to_nat (word_bits P / 8)))
                   (blocks (length p / block_bytes P) (H0 P) p)).

(** [hmac.New(h, key)], [Write(msg)], [Sum(nil)] *)
Definition hmac_bytes (key msg : list Z) : list Z :=
  let k := if (block_bytes P <? length key)%nat then sha2 key else key in
  let k := k ++ repeat 0 (block_bytes P - length k) in
  sha2 (map (Z.lxor 0x5c) k ++ sha2 (map (Z.lxor 0x36) k ++ msg)).

Definition hmac (key msg : string) : string := of_bytes (hmac_bytes (bytes key) (bytes msg)).
Definition digest (s : string) : string := of_bytes (sha2 (bytes s)).
(** *** Lengths *)
Lemma be_bytes_length n z : length (be_bytes n z) = n.
Proof. revert z. induction n as [|n IH]; intros z; [done|]. cbn [be_bytes]. rewrite length_app, IH. simpl. lia. Qed.

Lemma round_length st kw : length (round st kw) = length st.
Proof. unfold round. do 9 (destruct st as [|? st]; try done). Qed.

Lemma rounds_length kws st : length (fold_left round kws st) = length st.
Proof. revert st. induction kws as [|kw kws IH]; intros st; [done|]. cbn [fold_left]. by rewrite IH, round_length. Qed.

Lemma compress_length st block : length (compress st block) = length st.
Proof. unfold compress. rewrite length_zip_with, rounds_length. lia. Qed.

Lemma blocks_length n st l : length (blocks n st l) = length st.
Proof. revert st l. induction n as [|n IH]; intros st l; [done|]. cbn [blocks]. by rewrite IH, compress_length. Qed.

Lemma sha2_length l : length (sha2 l) = (length (H0 P) * Z.to_nat (word_bits P / 8))%nat.
Proof.
  unfold sha2. rewrite <- (blocks_length (length (pad l) / block_bytes P) (H0 P) (pad l)).
  induction (blocks _ _ _) as [|x st IH]; [done|]. cbn [map List.concat length].
  rewrite length_app, be_bytes_length, IH. lia.
Qed.

Lemma hmac_length key msg :
  String.length (hmac key msg) = (length (H0 P) * Z.to_nat (word_bits P / 8))%nat.
Proof.
  assert (Hof : forall l, String.length (of_bytes l) = length l).
  { unfold of_bytes. induction l as [|x l IH]; [done|]. simpl. by rewrite IH. }
  unfold hmac, hmac_bytes. by rewrite Hof, sha2_length.
Qed.
End sha2.

(** The constants of FIPS 180-4 are the first bits of the fractional parts of
    the square and cube roots of the first primes; they are computed here
    rather than listed. *)
Definition is_prime (n : nat) : bool :=
  forallb (fun d => negb (n mod d =? 0)%nat) (seq 2 (n - 2)).
Definition primes (n : nat) : list Z :=
  map Z.of_nat (take n (filter (fun p => Is_true (is_prime p)) (seq 2 500))).

(** The greatest [x < acc + 2^bits] with [x^3 <= n], bit by bit. *)
Fixpoint cube_root (bits : nat) (acc n : Z) : Z :=
  match bits with
  | O => acc
  | S b =>
      let x := (acc + 2 ^ Z.of_nat b)%Z in
      cube_root b (if (x * x * x <=? n)%Z then x else acc) n
  end.

Definition sqrt_fraction (w p : Z) : Z := (Z.sqrt (p * 2 ^ (2 * w)) mod 2 ^ w)%Z.
Definition cbrt_fraction (w p : Z) : Z :=
  (cube_root (Z.to_nat (w + 4)) 0 (p * 2 ^ (3 * w)) mod 2 ^ w)%Z.

Definition sha256_H0 : list Z := Eval vm_compute in map (sqrt_fraction 32) (primes 8).
Definition sha256_K : list Z := Eval vm_compute in map (cbrt_fraction 32) (primes 64).
Definition sha512_H0 : list Z := Eval vm_compute in map (sqrt_fraction 64) (primes 8).
Definition sha512_K : list Z := Eval vm_compute in map (cbrt_fraction 64) (primes 80).

Definition sha256 : sha2_params := {|
  word_bits := 32; block_bytes := 64; length_bytes := 8;
  S0 := (2, 13, 22)%Z; S1 := (6, 11, 25)%Z; s0 := (7, 18, 3)%Z; s1 := (17, 19, 10)%Z;
  H0 := sha256_H0; K := sha256_K |}%Z.

Definition sha512 : sha2_params := {|
  word_bits := 64; block_bytes := 128; length_bytes := 16;
  S0 := (28, 34, 39)%Z; S1 := (14, 18, 41)%Z; s0 := (1, 8, 7)%Z; s1 := (19, 61, 6)%Z;
  H0 := sha512_H0; K := sha512_K |}%Z.

(** ** encoding/hex *)
Definition hex_encode_byte (a : ascii) : string :=
  let x := nat_of_ascii a in String (hex_digit (x / 16)) (chr (hex_digit (x mod 16))).

(** [hex.EncodeToString] *)
Fixpoint hex_EncodeToString (s : string) : string :=
  match s with
  | "" => ""
  | String a r => hex_encode_byte a ^^ hex_EncodeToString r
  end.

Definition hex_nibble (a : ascii) : option nat :=
  let x := nat_of_ascii a in
  if (48 <=? x) && (x <=? 57) then Some (x - 48)
  else if (97 <=? x) && (x <=? 102) then Some (x - 87)
  else if (65 <=? x) && (x <=? 70) then Some (x - 55)
  else None.

(** [hex.DecodeString]; [None] when it errs. *)
Fixpoint hex_DecodeString (s : string) : option string :=
  match s with
  | "" => Some ""
  | String a (String b r) =>
      hi ← hex_nibble a; lo ← hex_nibble b; v ← hex_DecodeString r;
      Some (String (ascii_of_nat (hi * 16 + lo)) v)
  | _ => None
  end.

(** ** base64.StdEncoding *)
Definition b64_alphabet : string :=
  "ABCDEFGHIJKLMNOPQRSTUVWXYZabcdefghijklmnopqrstuvwxyz0123456789+/".
Definition b64_char (n : nat) : ascii := default "="%char (String.get n b64_alphabet).
Definition b64_val (a : ascii) : option nat := String.index 0 (chr a) b64_alphabet.
Definition pad_char : ascii := "=".

(** [EncodeToString] *)
Fixpoint b64_encode (s : string) : string :=
  match s with
  | "" => ""
  | String a "" =>
      let x := nat_of_ascii a in
      String (b64_char (x / 4)) (String (b64_char (x mod 4 * 16)) "==")
  | String a (String b "") =>
      let x := nat_of_ascii a in let y := nat_of_ascii b in
      String (b64_char (x / 4)) (String (b64_char (x mod 4 * 16 + y / 16))
        (String (b64_char (y mod 16 * 4)) "="))
  | String a (String b (String c r)) =>
      let x := nat_of_ascii a in let y := nat_of_ascii b in let z := nat_of_ascii c in
      String (b64_char (x / 4)) (String (b64_char (x mod 4 * 16 + y / 16))
        (String (b64_char (y mod 16 * 4 + z / 64)) (String (b64_char (z mod 64)) (b64_encode r))))
  end.

(** Carriage returns and newlines are skipped anywhere in the input. *)
Fixpoint strip_newlines (s : string) : string :=
  match s with
  | "" => ""
  | String a r => if Ascii.eqb a "010" || Ascii.eqb a "013" then strip_newlines r
                  else String a (strip_newlines r)
  end.

(** Quanta of four; a padded quantum must be the last.  The unused bits of the
    last character are ignored (the decoder is not [Strict]). *)
Fixpoint b64_quanta (s : string) : option string :=
  match s with
  | "" => Some ""
  | String a (String b (String c (String d r))) =>
      w ← b64_val a; x ← b64_val b;
      let first := ascii_of_nat (w * 4 + x / 16) in
      match b64_val c with
      | None =>
          if Ascii.eqb c pad_char && Ascii.eqb d pad_char && String.eqb r ""
          then Some (chr first) else None
      | Some y =>
          let second := ascii_of_nat (x mod 16 * 16 + y / 4) in
          match b64_val d with
          | None =>
              if Ascii.eqb d pad_char && String.eqb r ""
              then Some (String first (chr second)) else None
          | Some z =>
              v ← b64_quanta r;
              Some (String first (String second (String (ascii_of_nat (y mod 4 * 64 + z)) v)))
          end
      end
  | _ => None
  end.

(** [DecodeString]; [None] when it errs. *)
Definition b64_decode (s : string) : option string := b64_quanta (strip_newlines s).

(** ** Round trips *)
Lemma ascii_of_nat_sum n a : nat_of_ascii a = n -> ascii_of_nat n = a.
Proof. intros <-. apply ascii_nat_embedding. Qed.

Lemma byte_bound a : nat_of_ascii a < 256.
Proof. apply nat_ascii_bounded. Qed.

Definition b64_ok (n : nat) : bool :=
  bool_decide (b64_val (b64_char n) = Some n) && visible (b64_char n)
  && negb (Ascii.eqb (b64_char n) "010") && negb (Ascii.eqb (b64_char n) "013").

Lemma b64_table n : n < 64 -> b64_ok n = true.
Proof.
  intros H. assert (Hall : forallb b64_ok (seq 0 64) = true) by (vm_compute; reflexivity).
  rewrite forallb_forall in Hall. apply Hall, in_seq. lia.
Qed.

Lemma b64_val_char n : n < 64 -> b64_val (b64_char n) = Some n.
Proof.
  intros H%b64_table. unfold b64_ok in H. rewrite !andb_true_iff in H.
  destruct H as [[[H _] _] _]. by apply bool_decide_eq_true in H.
Qed.

Lemma b64_char_visible n : n < 64 -> visible (b64_char n) = true.
Proof. intros H%b64_table. unfold b64_ok in H. rewrite !andb_true_iff in H. tauto. Qed.

Lemma visible_newline a : visible a = true -> Ascii.eqb a "010" || Ascii.eqb a "013" = false.
Proof. intros H. apply orb_false_iff. split; apply Ascii.eqb_neq; by intros ->. Qed.

Lemma strip_newlines_visible s : all_visible s = true -> strip_newlines s = s.
Proof.
  induction s as [|a s IH]; [done|]. cbn [all_visible strip_newlines].
  intros [Ha Hs]%andb_true_iff. rewrite visible_newline, IH by done. done.
Qed.

#[local] Ltac Zify.zify_post_hook ::= Z.to_euclidean_division_equations.

(** Induction by groups of three bytes, as the encoder goes. *)
Lemma triple_ind (P : string -> Prop) :
  P "" -> (forall a, P (chr a)) -> (forall a b, P (String a (chr b))) ->
  (forall a b c s, P s -> P (String a (String b (String c s)))) -> forall s, P s.
Proof.
  intros H0 H1 H2 H3 s. remember (String.length s) as n eqn:Hn. revert s Hn.
  induction (lt_wf n) as [n _ IH]. intros [|a [|b [|c s]]] ->; [exact H0|exact (H1 a)|exact (H2 a b)|].
  apply H3. eapply IH; [|reflexivity]. simpl. lia.
Qed.

Lemma b64_encode_visible s : all_visible (b64_encode s) = true.
Proof.
  induction s as [|a|a b|a b c s IH] using triple_ind; [done|..];
    cbn [b64_encode chr all_visible]; rewrite ?andb_true_iff;
    pose proof (byte_bound a); try pose proof (byte_bound b); try pose proof (byte_bound c);
    repeat split; try apply b64_char_visible; try assumption; try reflexivity; lia.
Qed.

Lemma b64_first x y : x < 256 -> x / 4 * 4 + (x mod 4 * 16 + y / 16) / 16 = x + y / 256.
Proof. lia. Qed.

Lemma b64_second x y z : y < 256 ->
  (x mod 4 * 16 + y / 16) mod 16 * 16 + (y mod 16 * 4 + z / 64) / 4 = y + z / 256.
Proof. lia. Qed.

Lemma b64_third y z : z < 256 -> (y mod 16 * 4 + z / 64) mod 4 * 64 + z mod 64 = z.
Proof. lia. Qed.

Lemma b64_quanta_encode s : b64_quanta (b64_encode s) = Some s.
Proof.
  induction s as [|a|a b|a b c s IH] using triple_ind; [done|..]; cbn [b64_encode chr b64_quanta];
    pose proof (byte_bound a); try pose proof (byte_bound b); try pose proof (byte_bound c);
    rewrite !b64_val_char by lia; cbn [mbind option_bind].
  - change (b64_val "=") with (@None nat). cbn [Ascii.eqb pad_char Bool.eqb andb String.eqb].
    rewrite (ascii_of_nat_sum _ a); [done|lia].
  - change (b64_val "=") with (@None nat). cbn [Ascii.eqb pad_char Bool.eqb andb String.eqb].
    rewrite (ascii_of_nat_sum _ a) by lia. rewrite (ascii_of_nat_sum _ b) by lia. done.
  - rewrite IH. cbn [mbind option_bind].
    rewrite b64_first, b64_second, b64_third by done.
    rewrite !Nat.div_small, !Nat.add_0_r, !ascii_nat_embedding by done. done.
Qed.

Lemma b64_decode_encode s : b64_decode (b64_encode s) = Some s.
Proof.
  unfold b64_decode. rewrite strip_newlines_visible by apply b64_encode_visible.
  apply b64_quanta_encode.
Qed.
