(* ===== verification/Money.v ===== *)
(** * internal/money: amounts in integer minor units

    [Money] is the record of [money.go]; [minorUnits] is a Go [int64], so
    [Add], [Sub], [Mul] and the negation in [String] wrap around. *)
From S2P Require Import Prelude GoStrings.

Abbreviation Currency := string (only parsing).
Definition GHS : Currency := "GHS".
Definition minorUnitsPerMajor : Z := 100.
Definition ErrCurrencyMismatch : error := Sentinel "money: currency mismatch".

Record Money := mkMoney { minorUnits : Z; currency : Currency }.

#[export] Instance Money_eq_dec : EqDecision Money.
Proof. solve_decision. Defined.

(** The Go type guarantees that the field is an int64. *)
Definition Money_wf (m : Money) : Prop := int64 (minorUnits m).

Definition New (n : Z) (c : Currency) : Money := mkMoney n c.
Definition Zero (c : Currency) : Money := mkMoney 0 c.
(** The zero value [money.Money{}]. *)
Definition Money_zero : Money := mkMoney 0 "".

Definition combine (m other : Money) : result Currency :=
  if String.eqb (currency m) (currency other) then Ok (currency m)
  else if String.eqb (currency m) "" then Ok (currency other)
  else if String.eqb (currency other) "" then Ok (currency m)
  else Err (Wrap (Error ErrCurrencyMismatch ^^ ": " ^^ currency m ^^ " vs " ^^ currency other)
                 [ErrCurrencyMismatch]).

Definition Add (m other : Money) : result Money :=
  match combine m other with
  | Err e => Err (Errorf "money: add: " e)
  | Ok c => Ok (mkMoney (wrap64 (minorUnits m + minorUnits other)) c)
  end.

Definition Sub (m other : Money) : result Money :=
  match combine m other with
  | Err e => Err (Errorf "money: sub: " e)
  | Ok c => Ok (mkMoney (wrap64 (minorUnits m - minorUnits other)) c)
  end.

Definition Mul (m : Money) (factor : Z) : Money :=
  mkMoney (wrap64 (minorUnits m * factor)) (currency m).

Definition IsZero (m : Money) : bool := (minorUnits m =? 0)%Z.
Definition IsNegative (m : Money) : bool := (minorUnits m <? 0)%Z.

Definition Compare (m other : Money) : result Z :=
  match combine m other with
  | Err e => Err (Errorf "money: compare: " e)
  | Ok _ =>
      if (minorUnits m <? minorUnits other)%Z then Ok (-1)%Z
      else if (minorUnits m >? minorUnits other)%Z then Ok 1%Z
      else Ok 0%Z
  end.

(** Go's [/] and [%] truncate toward zero. *)
Definition render (m : Money) : string :=
  let neg := (minorUnits m <? 0)%Z in
  let sign := if neg then "-" else "" in
  let mu := if neg then wrap64 (- minorUnits m) else minorUnits m in
  let major := FormatInt (Z.quot mu minorUnitsPerMajor) in
  let minor := FormatInt (Z.rem mu minorUnitsPerMajor) in
  let minor := if (String.length minor =? 1)%nat then "0" ^^ minor else minor in
  sign ^^ major ^^ "." ^^ minor ^^ " " ^^ currency m.

(** ** Lemmas *)

(** Two amounts can be combined: same currency, or one has none. *)
Definition compatible (m other : Money) : Prop :=
  currency m = currency other \/ currency m = "" \/ currency other = "".

Ltac case_eqb :=
  repeat match goal with
  | |- context [String.eqb ?a ?b] => destruct (String.eqb_spec a b); simplify_eq
  end.

Lemma combine_ok m o :
  compatible m o ->
  combine m o = Ok (if String.eqb (currency m) "" then currency o else currency m).
Proof.
  unfold compatible, combine. intros H. case_eqb; try done; try congruence.
  by destruct H as [|[|]].
Qed.

Lemma combine_err m o :
  ~ compatible m o -> exists e, combine m o = Err e /\ errors_Is e ErrCurrencyMismatch = true.
Proof.
  unfold compatible, combine. intros H. case_eqb; try (by exfalso; apply H; auto).
  eexists. split; [done|]. done.
Qed.

#[export] Instance compatible_dec m o : Decision (compatible m o).
Proof. unfold compatible. apply _. Defined.

(** ** Properties *)

(** [Add] answers exactly when the currencies are compatible, then with
    the int64 sum in the common currency: the mathematical sum when that fits
    an int64 and the sum modulo 2^64 otherwise; incompatible currencies give
    an error that [errors.Is] recognises as [ErrCurrencyMismatch]. *)
Theorem Add_correct (m o : Money) :
  (compatible m o ->
   exists r, Add m o = Ok r /\ Money_wf r /\
     currency r = (if String.eqb (currency m) "" then currency o else currency m) /\
     (exists k, minorUnits r = minorUnits m + minorUnits o + k * 2^64)%Z /\
     (int64 (minorUnits m + minorUnits o) -> minorUnits r = minorUnits m + minorUnits o)%Z) /\
  (~ compatible m o ->
   exists e, Add m o = Err e /\ errors_Is e ErrCurrencyMismatch = true).
Proof.
  split; intros H; unfold Add.
  - rewrite combine_ok by done. eexists. split; [done|]. simpl.
    split; [apply wrap64_int64|]. split; [done|].
    split; [apply wrap64_eqm | apply wrap64_id].
  - destruct (combine_err m o H) as (e & -> & He). eexists. split; [done|].
    unfold ErrCurrencyMismatch. rewrite errors_Is_Errorf. done.
Qed.

Definition to_option {A} (r : result A) : option A :=
  match r with Ok a => Some a | Err _ => None end.

Definition add_opt (a b : option Money) : option Money :=
  x ← a; y ← b; to_option (Add x y).

Definition cmb (a b : Currency) : option Currency :=
  if String.eqb a b then Some a else if String.eqb a "" then Some b
  else if String.eqb b "" then Some a else None.

Lemma cmb_comm a b : cmb a b = cmb b a.
Proof. unfold cmb. case_eqb; congruence. Qed.

Lemma cmb_assoc a b c : (x ← cmb a b; cmb x c) = (y ← cmb b c; cmb a y).
Proof. unfold cmb. case_eqb; cbn [mbind option_bind]; case_eqb; congruence. Qed.

Lemma add_opt_Some m o :
  add_opt (Some m) (Some o) =
    (c ← cmb (currency m) (currency o); Some (mkMoney (wrap64 (minorUnits m + minorUnits o)) c)).
Proof. unfold add_opt, cmb, Add, combine. simpl. case_eqb; simpl; by rewrite ?e. Qed.

Lemma add_opt_None_r a : add_opt a None = None.
Proof. by destruct a. Qed.

Lemma wrap64_add_assoc x y z : wrap64 (wrap64 (x + y) + z) = wrap64 (x + wrap64 (y + z)).
Proof.
  destruct (wrap64_eqm (x + y)) as [k Hk], (wrap64_eqm (y + z)) as [l Hl].
  apply wrap64_congr. exists (k - l)%Z. lia.
Qed.

(** Money under [Add] is a partial commutative monoid: the order of the
    operands and the grouping of three amounts change neither whether the sum
    exists nor its value, and the zero value is neutral. *)
Theorem Add_monoid (a b c : Money) :
  add_opt (Some a) (Some b) = add_opt (Some b) (Some a) /\
  add_opt (add_opt (Some a) (Some b)) (Some c) = add_opt (Some a) (add_opt (Some b) (Some c)) /\
  (Money_wf a -> add_opt (Some a) (Some Money_zero) = Some a).
Proof.
  split; [|split].
  - rewrite !add_opt_Some, cmb_comm. by rewrite (Z.add_comm (minorUnits a)).
  - rewrite !add_opt_Some. pose proof (cmb_assoc (currency a) (currency b) (currency c)) as H.
    destruct (cmb (currency a) (currency b)) as [x|], (cmb (currency b) (currency c)) as [y|];
      cbn [mbind option_bind] in *; rewrite ?add_opt_Some, ?add_opt_None_r; cbn [currency minorUnits].
    + by rewrite H, wrap64_add_assoc.
    + by rewrite H.
    + by rewrite <- H.
    + done.
  - intros Ha. rewrite add_opt_Some. destruct a as [x cx]. simpl. rewrite Z.add_0_r, wrap64_id by done.
    unfold cmb. case_eqb; done.
Qed.

(** [Compare] is the order of the amounts: for compatible currencies it
    answers the sign of the difference and swapping the operands negates it;
    otherwise both directions fail. *)
Theorem Compare_correct (m o : Money) :
  (compatible m o ->
   Compare m o = Ok (Z.sgn (minorUnits m - minorUnits o)) /\
   Compare o m = Ok (- Z.sgn (minorUnits m - minorUnits o))%Z) /\
  (~ compatible m o -> is_Ok (Compare m o) = false /\ is_Ok (Compare o m) = false).
Proof.
  assert (Hc : compatible m o <-> compatible o m) by (unfold compatible; intuition congruence).
  split; intros H; unfold Compare.
  - rewrite combine_ok, combine_ok by tauto.
    destruct (Z.ltb_spec (minorUnits m) (minorUnits o)), (Z.ltb_spec (minorUnits o) (minorUnits m));
      destruct (Z.gtb_spec (minorUnits m) (minorUnits o)), (Z.gtb_spec (minorUnits o) (minorUnits m));
      try lia; split; f_equal; lia.
  - destruct (combine_err m o H) as (e & -> & _).
    destruct (combine_err o m ltac:(tauto)) as (e' & -> & _). done.
Qed.

(** [f], below 100, printed with exactly two digits. *)
Definition two_digits (f : Z) : string := FormatInt (f / 10) ^^ FormatInt (f mod 10).

Lemma minor_padding (f : Z) :
  (0 <= f < 100)%Z ->
  (if (String.length (FormatInt f) =? 1)%nat then "0" ^^ FormatInt f else FormatInt f) = two_digits f.
Proof.
  intros Hf.
  assert (Hall : forallb (fun n => String.eqb
      (if (String.length (FormatInt (Z.of_nat n)) =? 1)%nat
       then "0" ^^ FormatInt (Z.of_nat n) else FormatInt (Z.of_nat n))
      (two_digits (Z.of_nat n))) (seq 0 100) = true) by (vm_compute; reflexivity).
  rewrite forallb_forall in Hall.
  specialize (Hall (Z.to_nat f) ltac:(apply in_seq; lia)).
  rewrite Z2Nat.id in Hall by lia. by apply String.eqb_eq.
Qed.

(** [String] prints every amount but the smallest int64 as an optional
    minus sign, the whole major units and exactly two decimals of the
    absolute value, a space and the currency. *)
Theorem String_correct (m : Money) :
  Money_wf m -> minorUnits m <> (-2^63)%Z ->
  render m = (if (minorUnits m <? 0)%Z then "-" else "") ^^
             FormatInt (Z.abs (minorUnits m) / 100) ^^ "." ^^
             two_digits (Z.abs (minorUnits m) mod 100) ^^ " " ^^ currency m.
Proof.
  unfold Money_wf, int64, render. intros Hwf Hmin.
  assert (Hmu : (if (minorUnits m <? 0)%Z then wrap64 (- minorUnits m) else minorUnits m)
                = Z.abs (minorUnits m)).
  { destruct (Z.ltb_spec (minorUnits m) 0); [|lia]. rewrite wrap64_id by (unfold int64; lia). lia. }
  rewrite Hmu. unfold minorUnitsPerMajor.
  rewrite Z.quot_div_nonneg, Z.rem_mod_nonneg by lia.
  rewrite minor_padding by (apply Z.mod_pos_bound; lia). done.
Qed.

(** ** Witnesses *)
Lemma String_correct_witness :
  render (New (-1805) GHS) = "-18.05 GHS".
Proof. rewrite (String_correct (New (-1805) GHS)); [reflexivity| |discriminate]. unfold Money_wf, int64; simpl; lia. Defined.

Lemma Add_correct_witness :
  exists r, Add (New 1800 GHS) (New 200 "") = Ok r /\ minorUnits r = 2000%Z.
Proof.
  destruct (Add_correct (New 1800 GHS) (New 200 "")) as [H _].
  destruct H as (r & Hr & _ & _ & _ & Hx); [unfold compatible; simpl; auto|].
  exists r. split; [exact Hr|]. apply Hx. unfold int64; simpl; lia.
Defined.

Lemma Add_monoid_witness : add_opt (Some (New 1800 GHS)) (Some Money_zero) = Some (New 1800 GHS).
Proof. apply (Add_monoid (New 1800 GHS) Money_zero Money_zero). unfold Money_wf, int64; simpl; lia. Defined.

Lemma Compare_correct_witness : Compare (New 5 GHS) (New 7 GHS) = Ok (-1)%Z.
Proof. apply (Compare_correct (New 5 GHS) (New 7 GHS)). unfold compatible; simpl; auto. Defined.

(** The one int64 that [String] does not render as documented: its negation
    overflows, so the sign is printed three times. *)
Example String_min_int64 : render (New (-2^63) GHS) = "--92233720368547758.-8 GHS".
Proof. reflexivity. Qed.
