(* ===== verification/Reference.v ===== *)
(** * internal/gateway: gateways, references, ULIDs

    The [Gateway] identifiers of [gateway.go] and all of [reference.go]:
    [BuildReference], [ParseReference], [NewULID] and [encodeCrockford]. *)
From S2P Require Import Prelude GoStrings.
From Stdlib Require Import Ascii.
From Stdlib Require String.

(** ** Gateways *)
Abbreviation Gateway := string (only parsing).
Definition GatewayHubtel : Gateway := "hubtel".
Definition GatewayPaystack : Gateway := "paystack".
Definition GatewayMoolre : Gateway := "moolre".

Definition Valid (g : Gateway) : bool :=
  String.eqb g GatewayHubtel || String.eqb g GatewayPaystack || String.eqb g GatewayMoolre.

Lemma Valid_cases g : Valid g = true <-> g = GatewayHubtel \/ g = GatewayPaystack \/ g = GatewayMoolre.
Proof. unfold Valid. rewrite !orb_true_iff, !String.eqb_eq. tauto. Qed.

(** ** References *)
Definition ReferencePrefix : string := "optd".
Definition dash : ascii := "-".

Definition BuildReference (product : string) (g : Gateway) (ulid : string) : string :=
  ReferencePrefix ^^ "-" ^^ product ^^ "-" ^^ g ^^ "-" ^^ ulid.

Definition ParseReference (ref : string) : option (string * Gateway * string) :=
  let parts := Split ref dash in
  let n := length parts in
  if (n <? 4)%nat || negb (String.eqb (default "" (parts !! 0)) ReferencePrefix) then None
  else
    let ulid := default "" (parts !! (n - 1)) in
    let g := default "" (parts !! (n - 2)) in
    if negb (Valid g) then None
    else
      let product := Join (drop 1 (take (n - 2) parts)) (chr dash) in
      if String.eqb product "" then None
      else Some (product, g, ulid).

(** ** ULIDs *)
Definition crockford : string := "0123456789ABCDEFGHJKMNPQRSTVWXYZ".
Definition crockford_at (d : Z) : ascii := default "000"%char (String.get (Z.to_nat d) crockford).

(** The state of the encoding loop: the 26-byte output array, a 16-bit bit
    buffer, the number of bits it still holds and the next output index. *)
Record enc_state := mkEnc { out : list ascii; buffer : Z; bitsLeft : Z; idx : nat }.

Definition uint16 (z : Z) : Z := Z.land z 65535.

(** [for bitsLeft >= 5 && idx < 26 { ... }]; [fuel] bounds the iterations and
    [bitsLeft] itself is enough. *)
Fixpoint enc_drain (fuel : nat) (s : enc_state) : enc_state :=
  match fuel with
  | O => s
  | S fuel' =>
      if ((5 <=? bitsLeft s)%Z && (idx s <? 26)%nat) then
        let bl := (bitsLeft s - 5)%Z in
        enc_drain fuel'
          (mkEnc (<[idx s := crockford_at (Z.land (Z.shiftr (buffer s) bl) 31)]> (out s))
                 (buffer s) bl (S (idx s)))
      else s
  end.

Definition enc_byte (s : enc_state) (by_ : Z) : enc_state :=
  let s := mkEnc (out s) (Z.lor (uint16 (Z.shiftl (buffer s) 8)) by_) (bitsLeft s + 8)%Z (idx s) in
  enc_drain (Z.to_nat (bitsLeft s)) s.

Definition encodeCrockford (b : list Z) : string :=
  let s := fold_left enc_byte b (mkEnc (replicate 26 "000"%char) 0 0 0) in
  let res :=
    if (idx s <? 26)%nat
    then <[idx s := crockford_at (Z.land (uint16 (Z.shiftl (buffer s) (5 - bitsLeft s))) 31)]> (out s)
    else out s in
  String.string_of_list_ascii res.

(** [t.UnixMilli()] *)
Definition UnixMilli (t : Time) : Z := (t / 1000000)%Z.

(** The 16 bytes [NewULID] encodes for the clock reading and entropy it got. *)
Definition ulid_bytes (now : Time) (entropy : list Z) : list Z :=
  let ms := Z.land (UnixMilli now mod 2^64)%Z 0xFFFFFFFFFF in
  let hi := (Z.shiftr ms 32 mod 2^16)%Z in
  let lo := (ms mod 2^32)%Z in
  [ Z.shiftr hi 8; Z.land hi 255;
    Z.shiftr lo 24; Z.land (Z.shiftr lo 16) 255; Z.land (Z.shiftr lo 8) 255; Z.land lo 255 ]%Z
  ++ take 10 entropy.

Definition NewULID {W} `{!Runtime W} : Prog W string :=
  entropy ← rand_Read 10;
  now ← time_Now;
  mret (encodeCrockford (ulid_bytes now entropy)).

Lemma Preserves_NewULID {W V} `{!Runtime W} (view : W -> V) `{!RuntimeFrame view} : Preserves view NewULID.
Proof. unfold NewULID. guar. Qed.
#[export] Hint Resolve Preserves_NewULID : guar.

(** ** Correctness of the reference format *)

(** The last two pieces of a list and the ones between the first and them. *)
Lemma pieces_lookup (p0 g u : string) (ps : list string) :
  let parts := p0 :: ps ++ [g; u] in
  length parts = length ps + 3 /\
  parts !! (length parts - 1) = Some u /\ parts !! (length parts - 2) = Some g /\
  drop 1 (take (length parts - 2) parts) = ps.
Proof.
  cbv zeta. assert (Hl : length (p0 :: ps ++ [g; u]) = length ps + 3)
    by (simpl; rewrite length_app; simpl; lia).
  rewrite Hl. split; [done|].
  replace (length ps + 3 - 1) with (S (length ps + 1)) by lia.
  replace (length ps + 3 - 2) with (S (length ps)) by lia.
  split; [|split].
  - change ((ps ++ [g; u]) !! (length ps + 1) = Some u).
    rewrite lookup_app_r by lia. by replace (length ps + 1 - length ps) with 1 by lia.
  - change ((ps ++ [g; u]) !! length ps = Some g).
    rewrite lookup_app_r by lia. by rewrite Nat.sub_diag.
  - change (drop 0 (take (length ps) (ps ++ [g; u])) = ps).
    by rewrite drop_0, take_app_length.
Qed.

Lemma BuildReference_parts product g ulid :
  has_char dash g = false -> has_char dash ulid = false ->
  Split (BuildReference product g ulid) dash =
    ReferencePrefix :: Split product dash ++ [g; ulid].
Proof.
  intros Hg Hu. unfold BuildReference.
  change ("-" ^^ product ^^ "-" ^^ g ^^ "-" ^^ ulid)
    with (String dash (product ^^ String dash (g ^^ String dash ulid))).
  by rewrite !Split_sep, (Split_no_char ReferencePrefix), (Split_no_char g), (Split_no_char ulid).
Qed.

Lemma Valid_no_dash g : Valid g = true -> has_char dash g = false.
Proof. rewrite Valid_cases. by intros [-> | [-> | ->]]. Qed.

Lemma Parse_Build product g ulid :
  product <> "" -> Valid g = true -> has_char dash ulid = false ->
  ParseReference (BuildReference product g ulid) = Some (product, g, ulid).
Proof.
  intros Hp Hg Hu. unfold ParseReference.
  rewrite BuildReference_parts by auto using Valid_no_dash.
  pose proof (Split_not_nil product dash) as Hne.
  destruct (pieces_lookup ReferencePrefix g ulid (Split product dash)) as (Hl & Hu' & Hg' & Hm).
  cbv zeta in *. rewrite Hu', Hg', Hm, Join_Split, Hl. simpl default.
  replace (length (Split product dash) + 3 <? 4) with false
    by (symmetry; apply Nat.ltb_ge; destruct (Split product dash); simpl; [done|lia]).
  simpl. rewrite Hg. simpl. apply String.eqb_neq in Hp. by rewrite Hp.
Qed.

Lemma Parse_sound ref product g ulid :
  ParseReference ref = Some (product, g, ulid) ->
  ref = BuildReference product g ulid /\ product <> "" /\ Valid g = true /\ has_char dash ulid = false.
Proof.
  unfold ParseReference. pose proof (Join_Split ref dash) as HJ. pose proof (Split_pieces ref dash) as HF.
  destruct (Split ref dash) as [|p0 rest]; simpl length; [done|].
  destruct rest as [|u rest _] using rev_ind; [done|].
  destruct rest as [|g' mid _] using rev_ind; [done|].
  rewrite <- app_assoc in *. simpl app in *.
  destruct (pieces_lookup p0 g' u mid) as (Hl & Hu' & Hg' & Hm). cbv zeta in *.
  change (S (length (mid ++ [g'; u]))) with (length (p0 :: mid ++ [g'; u])).
  rewrite Hu', Hg', Hm, Hl. destruct (Nat.ltb_spec (length mid + 3) 4); [done|].
  cbn [lookup list_lookup default from_option orb id].
  destruct (String.eqb_spec p0 ReferencePrefix) as [->|]; [|done]. simpl negb.
  destruct (Valid g') eqn:Hg; [|done]. simpl.
  destruct (String.eqb_spec (Join mid (chr dash)) ""); [done|]. intros [= <- <- <-].
  split; [|split; [done|split; [done|]]].
  - rewrite <- HJ. rewrite Join_cons by (by destruct mid).
    rewrite Join_app by (try done; intros ->; simpl in *; lia). done.
  - inversion_clear HF as [|?? _ HF']. apply Forall_app in HF' as [_ HF'].
    inversion_clear HF' as [|?? _ HF'']. by inversion_clear HF''.
Qed.

(** C32: [ParseReference] is exactly the inverse of [BuildReference] on
    references with a non-empty product (dashes allowed), a known gateway and
    a dash-free ULID: every such reference parses back to its parts, and a
    string that parses is the reference built from the parts it yields. *)
Theorem ParseReference_correct (ref product g ulid : string) :
  ParseReference ref = Some (product, g, ulid) <->
  ref = BuildReference product g ulid /\ product <> "" /\ Valid g = true /\ has_char dash ulid = false.
Proof.
  split; [apply Parse_sound|]. intros (-> & Hp & Hg & Hu). by apply Parse_Build.
Qed.

(** ** Correctness of the ULID encoding *)

Definition byte (z : Z) : Prop := (0 <= z < 256)%Z.
Definition digit (z : Z) : Prop := (0 <= z < 32)%Z.

(** The number a big-endian digit list denotes in a base. *)
Definition big_endian (base : Z) (ds : list Z) : Z := fold_left (fun a d => a * base + d)%Z ds 0%Z.

Lemma big_endian_snoc base ds d : big_endian base (ds ++ [d]) = (big_endian base ds * base + d)%Z.
Proof. unfold big_endian. by rewrite fold_left_app. Qed.

Lemma big_endian_nonneg base ds :
  (0 <= base)%Z -> Forall (fun d => 0 <= d)%Z ds -> (0 <= big_endian base ds)%Z.
Proof.
  intros Hb. induction ds as [|d ds IH] using rev_ind; intros H; [done|].
  rewrite big_endian_snoc. apply Forall_app in H as [H Hd]. inversion_clear Hd.
  specialize (IH H). nia.
Qed.

(** Equally long digit lists that denote the same number are equal. *)
Lemma big_endian_inj base ds es :
  (0 < base)%Z -> Forall (fun d => 0 <= d < base)%Z ds -> Forall (fun d => 0 <= d < base)%Z es ->
  length ds = length es -> big_endian base ds = big_endian base es -> ds = es.
Proof.
  intros Hb. revert es. induction ds as [|d ds IH] using rev_ind; intros es Hd He Hl H.
  - by destruct es.
  - destruct es as [|e es _] using rev_ind; [rewrite length_app in Hl; simpl in Hl; lia|].
    rewrite !big_endian_snoc in H. rewrite !length_app in Hl. simpl in Hl.
    apply Forall_app in Hd as [Hd Hd']. apply Forall_app in He as [He He'].
    inversion_clear Hd'. inversion_clear He'.
    assert (Hde : big_endian base ds = big_endian base es).
    { apply (f_equal (fun z => z / base)%Z) in H.
      rewrite !Z.div_add_l, !(Z.div_small d), !(Z.div_small e) in H by lia. lia. }
    rewrite Hde in H. assert (d = e) as -> by lia.
    f_equal. apply IH; auto. lia.
Qed.

Lemma insert_after {A} (l r : list A) x y n :
  n = length l -> <[n := y]> (l ++ x :: r) = l ++ y :: r.
Proof. intros ->. induction l as [|z l IH]; simpl; [done|]. by rewrite IH. Qed.

(** What the loop has done after the input prefix [p]: the emitted digits are
    the leading bits of [p]'s value, the buffer its low 16 bits. *)
Record enc_inv (p : list Z) (ds : list Z) (s : enc_state) : Prop := {
  ei_digits : Forall digit ds;
  ei_idx : idx s = length ds;
  ei_out : out s = map crockford_at ds ++ replicate (26 - idx s) "000"%char;
  ei_buf : buffer s = (big_endian 256 p mod 2^16)%Z;
  ei_bits : (0 <= bitsLeft s < 13)%Z;
  ei_len : (8 * Z.of_nat (length p) = 5 * Z.of_nat (length ds) + bitsLeft s)%Z;
  ei_val : big_endian 32 ds = (big_endian 256 p / 2 ^ bitsLeft s)%Z;
}.

Lemma land_31 z : Z.land z 31 = (z mod 32)%Z.
Proof. change 31%Z with (Z.ones 5). by rewrite Z.land_ones by lia. Qed.
Lemma uint16_mod z : uint16 z = (z mod 2^16)%Z.
Proof. unfold uint16. change 65535%Z with (Z.ones 16). by rewrite Z.land_ones by lia. Qed.

Lemma mod_div_mod_pow v bl :
  (0 <= bl <= 11)%Z -> ((v mod 2^16) / 2^bl mod 32 = (v / 2^bl) mod 32)%Z.
Proof.
  intros Hbl.
  assert (Hs : (2^16 = 2^bl * (32 * 2^(11 - bl)))%Z).
  { change 32%Z with (2^5)%Z. rewrite <- !Z.pow_add_r by lia. f_equal. lia. }
  rewrite Hs.
  assert (0 < 2^bl)%Z by (apply Z.pow_pos_nonneg; lia).
  assert (0 < 2^(11 - bl))%Z by (apply Z.pow_pos_nonneg; lia).
  rewrite Z.rem_mul_r, Z.add_comm, Z.mul_comm, Z.div_add_l by lia.
  rewrite (Z.div_small (v mod 2 ^ bl)) by (apply Z.mod_pos_bound; lia). rewrite Z.add_0_r.
  rewrite Z.rem_mul_r by lia. rewrite (Z.mul_comm 32), Z.mod_add by lia. by rewrite Z.mod_mod by lia.
Qed.

Lemma div_pow_step v bl :
  (0 <= bl)%Z -> (v / 2^(bl + 5) * 32 + (v / 2^bl) mod 32 = v / 2^bl)%Z.
Proof.
  intros Hbl. rewrite Z.pow_add_r by lia. change (2^5)%Z with 32%Z.
  assert (0 < 2^bl)%Z by (apply Z.pow_pos_nonneg; lia).
  rewrite <- Z.div_div by lia. pose proof (Z.div_mod (v / 2^bl) 32 ltac:(lia)). lia.
Qed.

Lemma enc_drain_inv p fuel ds s :
  length p <= 16 -> enc_inv p ds s -> (bitsLeft s <= Z.of_nat fuel)%Z ->
  exists ds', enc_inv p ds' (enc_drain fuel s) /\ (bitsLeft (enc_drain fuel s) < 5)%Z.
Proof.
  intros Hp. revert ds s. induction fuel as [|fuel IH]; intros ds s Hs Hf; simpl.
  - exists ds. split; [done|]. destruct Hs. lia.
  - destruct (Z.leb_spec 5 (bitsLeft s)); simpl; [|exists ds; split; [done|lia]].
    destruct Hs as [Hd Hi Ho Hb Hbits Hl Hv].
    destruct (Nat.ltb_spec (idx s) 26); [|lia].
    set (bl := (bitsLeft s - 5)%Z).
    set (d := Z.land (Z.shiftr (buffer s) bl) 31).
    assert (Hdv : d = ((big_endian 256 p / 2^bl) mod 32)%Z).
    { unfold d. rewrite land_31, Z.shiftr_div_pow2, Hb by lia. apply mod_div_mod_pow. lia. }
    apply (IH (ds ++ [d])); [|simpl; lia]. split; simpl.
    + apply Forall_app. split; [done|]. constructor; [|constructor]. unfold digit. rewrite Hdv.
      apply Z.mod_pos_bound. lia.
    + rewrite length_app. simpl. lia.
    + rewrite Ho. replace (26 - idx s) with (S (26 - S (idx s))) by lia. simpl replicate.
      rewrite insert_after by (by rewrite length_map). rewrite map_app, <- app_assoc. done.
    + done.
    + lia.
    + rewrite length_app. simpl. lia.
    + rewrite big_endian_snoc, Hv, Hdv. replace (bitsLeft s) with (bl + 5)%Z by lia.
      apply div_pow_step. lia.
Qed.

Lemma land_shift_byte r x : byte x -> Z.land (Z.shiftl r 8) x = 0%Z.
Proof.
  intros Hx. apply Z.bits_inj'. intros n Hn. rewrite Z.land_spec, Z.bits_0, Z.shiftl_spec by lia.
  destruct (Z.lt_ge_cases n 8); [by rewrite Z.testbit_neg_r by lia|].
  replace x with (x mod 2^8)%Z by (apply Z.mod_small; unfold byte in Hx; lia).
  rewrite Z.mod_pow2_bits_high by lia. apply andb_false_r.
Qed.

Lemma lor_shift_byte r x : byte x -> Z.lor (Z.shiftl r 8) x = (256 * r + x)%Z.
Proof.
  intros Hx. pose proof (land_shift_byte r x Hx) as H.
  rewrite <- Z.lxor_lor, <- Z.add_nocarry_lxor by done. rewrite Z.shiftl_mul_pow2 by lia. lia.
Qed.

Lemma enc_byte_inv p ds s x :
  length p < 16 -> byte x -> enc_inv p ds s -> (bitsLeft s < 5)%Z ->
  exists ds', enc_inv (p ++ [x]) ds' (enc_byte s x) /\ (bitsLeft (enc_byte s x) < 5)%Z.
Proof.
  unfold byte. intros Hp Hx [Hd Hi Ho Hb Hbits Hl Hv] Hlt. unfold enc_byte. simpl.
  eapply (enc_drain_inv (p ++ [x]) _ ds); [rewrite length_app; simpl; lia| |simpl; lia].
  split; simpl; try done; try lia.
  - rewrite big_endian_snoc, uint16_mod, Z.shiftl_mul_pow2, Hb by lia.
    change (2^8)%Z with 256%Z.
    rewrite Z.mul_mod_idemp_l by lia.
    set (v := (big_endian 256 p * 256)%Z).
    assert (Hm : (v mod 2^16 = 256 * ((big_endian 256 p) mod 256))%Z).
    { unfold v. rewrite Z.mul_comm. change (2^16)%Z with (256*256)%Z. by rewrite Z.mul_mod_distr_l by lia. }
    rewrite <- (Z.add_mod_idemp_l v x) by lia. rewrite Hm.
    pose proof (Z.mod_pos_bound (big_endian 256 p) 256 ltac:(lia)) as Hr.
    set (r := (big_endian 256 p mod 256)%Z) in *. rewrite (Z.mod_small (256 * r + x)) by lia.
    rewrite <- lor_shift_byte, Z.shiftl_mul_pow2 by (unfold byte; lia). f_equal. lia.
  - rewrite length_app. simpl. lia.
  - rewrite big_endian_snoc, Hv. rewrite Z.pow_add_r by lia. change (2^8)%Z with 256%Z.
    assert (0 < 2 ^ bitsLeft s)%Z by (apply Z.pow_pos_nonneg; lia).
    rewrite (Z.mul_comm (2 ^ bitsLeft s)), <- Z.div_div by lia.
    rewrite Z.div_add_l by lia. rewrite (Z.div_small x) by lia. by rewrite Z.add_0_r.
Qed.

Lemma enc_fold_inv b : length b <= 16 -> Forall byte b ->
  let s := fold_left enc_byte b (mkEnc (replicate 26 "000"%char) 0 0 0) in
  exists ds, enc_inv b ds s /\ (bitsLeft s < 5)%Z.
Proof.
  induction b as [|x b IH] using rev_ind; intros Hl Hb; cbv zeta.
  - exists []. split; [|simpl; lia]. by split.
  - apply Forall_app in Hb as [Hb Hx]. inversion_clear Hx.
    rewrite length_app in Hl. simpl in Hl. rewrite fold_left_app. simpl.
    destruct (IH ltac:(lia) Hb) as (ds & Hi & Hlt). eapply enc_byte_inv; eauto. lia.
Qed.

(** The 26 base-32 digits of a number below 2^130. *)
Definition digits32 (v : Z) : list Z := map (fun i => (v / 32 ^ (25 - Z.of_nat i)) mod 32)%Z (seq 0 26).

Lemma encode_digits b :
  length b = 16 -> Forall byte b ->
  exists ds, length ds = 26 /\ Forall digit ds /\ big_endian 32 ds = (4 * big_endian 256 b)%Z /\
    encodeCrockford b = String.string_of_list_ascii (map crockford_at ds).
Proof.
  intros Hl Hb. destruct (enc_fold_inv b ltac:(lia) Hb) as (ds & [Hd Hi Ho Hbuf Hbits Hlen Hv] & Hlt).
  cbv zeta in *. unfold encodeCrockford. set (s := fold_left enc_byte b _) in *.
  assert (bitsLeft s = 3%Z /\ length ds = 25) as [H3 Hn] by lia.
  set (d := Z.land (uint16 (Z.shiftl (buffer s) (5 - bitsLeft s))) 31).
  assert (Hdv : d = ((4 * big_endian 256 b) mod 32)%Z).
  { unfold d. rewrite land_31, uint16_mod, H3, Z.shiftl_mul_pow2, Hbuf by lia.
    change (2 ^ (5 - 3))%Z with 4%Z. rewrite Z.mul_mod_idemp_l by lia.
    rewrite (Z.mul_comm _ 4). change (2^16)%Z with (32 * 2048)%Z.
    rewrite Z.rem_mul_r, (Z.mul_comm 32), Z.mod_add, Z.mod_mod by lia. done. }
  exists (ds ++ [d]). split; [rewrite length_app; simpl; lia|]. split; [|split].
  - apply Forall_app. split; [done|]. constructor; [|constructor]. rewrite Hdv.
    apply Z.mod_pos_bound. lia.
  - rewrite big_endian_snoc, Hv, H3, Hdv.
    pose proof (Z.div_mod (4 * big_endian 256 b) 32 ltac:(lia)).
    replace (4 * big_endian 256 b / 32)%Z with (big_endian 256 b / 2^3)%Z in *; [lia|].
    change 32%Z with (4 * 8)%Z. rewrite Z.div_mul_cancel_l by lia. done.
  - destruct (Nat.ltb_spec (idx s) 26); [|lia]. rewrite Ho, Hi, Hn. simpl replicate.
    rewrite insert_after by (by rewrite length_map). by rewrite map_app.
Qed.

Lemma big_endian_app base ds es :
  big_endian base (ds ++ es) = (big_endian base ds * base ^ Z.of_nat (length es) + big_endian base es)%Z.
Proof.
  induction es as [|e es IH] using rev_ind; [rewrite app_nil_r; simpl; unfold big_endian at 3; simpl; lia|].
  rewrite app_assoc, !big_endian_snoc, IH, length_app. simpl length.
  rewrite Nat2Z.inj_add, Z.pow_add_r by lia. change (Z.of_nat 1) with 1%Z. rewrite Z.pow_1_r. lia.
Qed.

Lemma big_endian_bound base ds :
  (0 < base)%Z -> Forall (fun d => 0 <= d < base)%Z ds ->
  (0 <= big_endian base ds < base ^ Z.of_nat (length ds))%Z.
Proof.
  intros Hb. induction ds as [|d ds IH] using rev_ind; intros H; [simpl; unfold big_endian; simpl; lia|].
  apply Forall_app in H as [H Hd]. inversion_clear Hd as [|?? Hd' _]. specialize (IH H).
  rewrite big_endian_snoc, length_app. simpl length.
  rewrite Nat2Z.inj_add, Z.pow_add_r by lia. change (Z.of_nat 1) with 1%Z. rewrite Z.pow_1_r. nia.
Qed.

(** The digits of [digits32] are the digits of any 26-digit representation. *)
Lemma digits32_spec ds : length ds = 26 -> Forall digit ds -> digits32 (big_endian 32 ds) = ds.
Proof.
  intros Hl Hd. apply list_eq. intros i. unfold digits32.
  rewrite list_lookup_fmap.
  destruct (Nat.lt_ge_cases i 26) as [Hi|Hi].
  - rewrite lookup_seq_lt by done. simpl.
    destruct (lookup_lt_is_Some_2 ds i ltac:(lia)) as [d Hdi]. rewrite Hdi. f_equal.
    rewrite <- (take_drop_middle ds i d Hdi) at 1.
    set (l := take i ds). set (r := drop (S i) ds).
    assert (Hr : Z.of_nat (length r) = (25 - Z.of_nat i)%Z) by (unfold r; rewrite length_drop; lia).
    assert (Hrd : Forall digit r) by (by apply Forall_drop).
    assert (digit d) as Hdd by (eapply Forall_lookup_1; [exact Hd|exact Hdi]).
    replace (l ++ d :: r) with ((l ++ [d]) ++ r) by (by rewrite <- app_assoc).
    rewrite big_endian_app, Hr. pose proof (big_endian_bound 32 r ltac:(lia) Hrd) as Hb. rewrite Hr in Hb.
    rewrite Z.div_add_l by lia. rewrite (Z.div_small (big_endian 32 r)) by lia.
    rewrite Z.add_0_r, big_endian_snoc, Z.add_comm, Z.mod_add by lia. by apply Z.mod_small.
  - rewrite !lookup_ge_None_2 by (rewrite ?length_seq; lia). done.
Qed.

(** The bit-buffer loop of [encodeCrockford] computes the base-32
    big-endian digits of the 16 input bytes read as one 128-bit number and
    padded with two zero bits. *)
Theorem encodeCrockford_correct (b : list Z) :
  length b = 16 -> Forall byte b ->
  encodeCrockford b =
    String.string_of_list_ascii (map crockford_at (digits32 (4 * big_endian 256 b))).
Proof.
  intros Hl Hb. destruct (encode_digits b Hl Hb) as (ds & Hn & Hd & Hv & ->).
  by rewrite <- Hv, digits32_spec.
Qed.

Lemma crockford_at_inj d e : digit d -> digit e -> crockford_at d = crockford_at e -> d = e.
Proof.
  unfold digit. intros Hd He H.
  assert (Hall : forallb (fun i => forallb (fun j =>
     negb (Ascii.eqb (crockford_at (Z.of_nat i)) (crockford_at (Z.of_nat j))) || (i =? j))
     (seq 0 32)) (seq 0 32) = true) by (vm_compute; reflexivity).
  rewrite forallb_forall in Hall. specialize (Hall (Z.to_nat d) ltac:(apply in_seq; lia)).
  rewrite forallb_forall in Hall. specialize (Hall (Z.to_nat e) ltac:(apply in_seq; lia)).
  rewrite !Z2Nat.id, H, Ascii.eqb_refl in Hall by lia. simpl in Hall. apply Nat.eqb_eq in Hall. lia.
Qed.

Lemma crockford_no_dash d : digit d -> crockford_at d <> dash.
Proof.
  unfold digit. intros Hd.
  assert (Hall : forallb (fun i => negb (Ascii.eqb (crockford_at (Z.of_nat i)) dash)) (seq 0 32) = true)
    by (vm_compute; reflexivity).
  rewrite forallb_forall in Hall. specialize (Hall (Z.to_nat d) ltac:(apply in_seq; lia)).
  rewrite Z2Nat.id in Hall by lia. apply negb_true_iff, Ascii.eqb_neq in Hall. done.
Qed.

Lemma length_string_of_list l : String.length (String.string_of_list_ascii l) = length l.
Proof. induction l as [|a l IH]; simpl; auto. Qed.

Lemma has_char_string_of_list c l : has_char c (String.string_of_list_ascii l) = true <-> c ∈ l.
Proof.
  induction l as [|a l IH]; simpl; [by rewrite elem_of_nil|].
  rewrite orb_true_iff, Ascii.eqb_eq, IH, elem_of_cons. split; intros [?|?]; auto.
Qed.

Lemma map_inj_digits ds es :
  Forall digit ds -> Forall digit es -> map crockford_at ds = map crockford_at es -> ds = es.
Proof.
  intros Hd. revert es. induction Hd as [|d ds Hd Hds IH]; intros [|e es] He H; simpl in H; try done.
  inversion_clear He. injection H as Hc Ht. f_equal; [by apply crockford_at_inj|by apply IH].
Qed.

Lemma encodeCrockford_shape (a : list Z) :
  length a = 16 -> Forall byte a ->
  String.length (encodeCrockford a) = 26 /\ has_char dash (encodeCrockford a) = false.
Proof.
  intros Ha Hba. destruct (encode_digits a Ha Hba) as (ds & Hn & Hd & Hv & ->).
  split; [by rewrite length_string_of_list, length_map|].
  apply not_true_is_false. rewrite has_char_string_of_list. intros Hin.
  apply list_elem_of_In, in_map_iff in Hin as (d & Hdash & Hin).
  rewrite List.Forall_forall in Hd. by apply (crockford_no_dash d (Hd d Hin)).
Qed.

(** On 16-byte inputs the encoding is injective, 26 characters long and
    free of dashes, so an encoded ULID can close a reference. *)
Theorem encodeCrockford_injective (a b : list Z) :
  length a = 16 -> Forall byte a -> length b = 16 -> Forall byte b ->
  String.length (encodeCrockford a) = 26 /\ has_char dash (encodeCrockford a) = false /\
  (encodeCrockford a = encodeCrockford b -> a = b).
Proof.
  intros Ha Hba Hb Hbb. destruct (encodeCrockford_shape a Ha Hba) as [Hlen Hdash].
  split; [exact Hlen|]. split; [exact Hdash|].
  destruct (encode_digits a Ha Hba) as (ds & Hn & Hd & Hv & ->).
  destruct (encode_digits b Hb Hbb) as (es & Hm & He & Hw & ->).
  intros H. apply (f_equal String.list_ascii_of_string) in H.
  rewrite !String.list_ascii_of_string_of_list_ascii in H.
  apply map_inj_digits in H as ->; [|done|done].
  apply (big_endian_inj 256); try done; [congruence|lia].
Qed.

(** *** The ULIDs [NewULID] makes *)

Lemma ulid_bytes_ok now ent :
  length ent = 10 -> Forall byte ent -> length (ulid_bytes now ent) = 16 /\ Forall byte (ulid_bytes now ent).
Proof.
  intros Hl Hb. unfold ulid_bytes. rewrite length_app, length_take, Hl. split; [done|].
  apply Forall_app. split; [|by apply Forall_take].
  set (ms := Z.land (UnixMilli now mod 2^64)%Z 0xFFFFFFFFFF).
  pose proof (Z.mod_pos_bound (Z.shiftr ms 32) (2^16) ltac:(lia)) as H1.
  pose proof (Z.mod_pos_bound ms (2^32) ltac:(lia)) as H2.
  assert (Hland : forall z, (0 <= Z.land z 255 < 256)%Z).
  { intros z. change 255%Z with (Z.ones 8). rewrite Z.land_ones by lia. apply Z.mod_pos_bound. lia. }
  assert (Hshift : forall z k, (0 <= k)%Z -> (0 <= z < 2^k * 256)%Z -> (0 <= Z.shiftr z k < 256)%Z).
  { intros z k Hk Hz. rewrite Z.shiftr_div_pow2 by lia. assert (0 < 2^k)%Z by (apply Z.pow_pos_nonneg; lia).
    split; [apply Z.div_pos; lia | apply Z.div_lt_upper_bound; lia]. }
  repeat apply Forall_cons; unfold byte; auto; apply Hshift; lia.
Qed.

(** The run-time services give [n] random bytes when asked for [n]. *)
Class RandBytes {W} `{!Runtime W} : Prop :=
  rand_bytes n w : length (rt_rand n w).1 = n /\ Forall byte (rt_rand n w).1.

Lemma NewULID_shape {W} `{!Runtime W, !RandBytes} (w : W) :
  has_char dash (run NewULID w).1 = false /\ String.length (run NewULID w).1 = 26.
Proof.
  unfold NewULID, rand_Read, time_Now. run_simpl.
  destruct (rand_bytes 10 w) as [Hl Hb].
  destruct (ulid_bytes_ok (rt_now (rt_rand 10 w).2).1 _ Hl Hb) as [Hl' Hb'].
  by destruct (encodeCrockford_shape _ Hl' Hb').
Qed.

(** The mask keeps 40 bits of the millisecond clock, not 48: two ULIDs
    made from the same entropy exactly 2^40 milliseconds (34.8 years) apart
    are equal, and the first byte of every ULID is zero. *)
Theorem ULID_clock_wraps_at_40_bits (now : Time) (ent : list Z) :
  (0 <= UnixMilli now)%Z -> (UnixMilli now + 2^40 < 2^64)%Z ->
  ulid_bytes (now + 2^40 * 1000000) ent = ulid_bytes now ent /\
  ulid_bytes now ent !! 0 = Some 0%Z.
Proof.
  intros H0 H1.
  assert (Hm : UnixMilli (now + 2^40 * 1000000) = (UnixMilli now + 2^40)%Z).
  { unfold UnixMilli. apply Z.div_add. lia. }
  unfold ulid_bytes. rewrite Hm. rewrite !(Z.mod_small _ (2^64)) by lia.
  change 0xFFFFFFFFFF%Z with (Z.ones 40). rewrite !Z.land_ones by lia.
  replace (UnixMilli now + 2^40)%Z with (UnixMilli now + 1 * 2^40)%Z by lia.
  rewrite Z.mod_add by lia. split; [done|].
  pose proof (Z.mod_pos_bound (UnixMilli now) (2^40) ltac:(lia)) as Hb.
  set (ms := (UnixMilli now mod 2^40)%Z) in *. simpl. f_equal.
  rewrite !Z.shiftr_div_pow2 by lia. change (2^16)%Z with 65536%Z.
  assert (0 <= ms / 2^32 < 256)%Z
    by (split; [apply Z.div_pos; lia | apply Z.div_lt_upper_bound; lia]).
  rewrite (Z.mod_small (ms / 2^32)) by lia. apply Z.div_small. lia.
Qed.

(** ** Witnesses *)
Lemma ParseReference_correct_witness :
  ParseReference "optd-orcta-go-paystack-01ARZ3NDEKTSV4RRFFQ69G5FAV"
    = Some ("orcta-go", "paystack", "01ARZ3NDEKTSV4RRFFQ69G5FAV").
Proof. apply ParseReference_correct. repeat split; discriminate. Defined.

Definition sample_bytes : list Z := [1;145;171;1;35;69;1;2;3;4;5;6;7;8;9;255]%Z.

Lemma sample_bytes_ok : length sample_bytes = 16 /\ Forall byte sample_bytes.
Proof. split; [done|]. repeat constructor; unfold byte; lia. Qed.

Lemma encodeCrockford_correct_witness :
  encodeCrockford sample_bytes = "068TP0938M0G40R40M30E209ZW".
Proof. rewrite encodeCrockford_correct by apply sample_bytes_ok. vm_compute. reflexivity. Defined.

Lemma encodeCrockford_injective_witness :
  String.length (encodeCrockford sample_bytes) = 26.
Proof. apply (encodeCrockford_injective sample_bytes sample_bytes); apply sample_bytes_ok. Defined.

Lemma ULID_clock_wraps_witness :
  ulid_bytes (1725000000000000000 + 2^40 * 1000000) [1;2;3;4;5;6;7;8;9;10]%Z
    = ulid_bytes 1725000000000000000 [1;2;3;4;5;6;7;8;9;10]%Z.
Proof. apply ULID_clock_wraps_at_40_bits; unfold UnixMilli; vm_compute; (reflexivity || discriminate). Defined.
