(* ===== verification/Config.v ===== *)
(** * internal/config: process configuration

    The configuration records, [Load] and everything it calls, and
    [Validate].  The environment is a function from names to values ([""]
    when unset, as [os.Getenv] answers). *)
From S2P Require Import Prelude GoStrings Strconv Reference.
From Stdlib Require Import Ascii Floats.SpecFloat.

Abbreviation float64 := spec_float (only parsing).

Abbreviation Environment := string (only parsing).
Definition EnvDevelopment : Environment := "development".
Definition EnvStaging : Environment := "staging".
Definition EnvProduction : Environment := "production".

Definition Environment_Valid (e : Environment) : bool :=
  String.eqb e EnvDevelopment || String.eqb e EnvStaging || String.eqb e EnvProduction.

Record AuthConfig := { APIKey : string; VaultAddr : string }.
Record RateLimitConfig := {
  Enabled : bool; RPS : Z; IPPerMinute : Z; APIKeyPerMinute : Z; WebhookPerMinute : Z }.
Record HTTPConfig := {
  Port : Z; ReadTimeout : Z; WriteTimeout : Z; IdleTimeout : Z; ShutdownTimeout : Z; HandlerTimeout : Z }.
Record DatabaseConfig := { DB_URL : string; MaxConns : Z }.
Record ValkeyConfig := { VK_Addr : string; VK_Password : string; VK_DB : Z }.
Record ObservabilityConfig := {
  ServiceName : string; LogLevel : string; OTLPEndpoint : string; TraceSampleRatio : float64 }.
Record WorkerConfig := { JobTimeout : Z }.
Record WebhookSecrets := { WS_Hubtel : string; WS_Paystack : string; WS_Moolre : string }.
Record HubtelConfig := { ClientID : string; ClientSecret : string; MerchantAccount : string; H_BaseURL : string }.
Record PaystackConfig := { SecretKey : string; P_BaseURL : string }.
Record MoolreConfig := {
  APIUser : string; MAPIKey : string; APIPubKey : string; AccountNumber : string; M_BaseURL : string }.
Record PaymentsConfig := {
  Primary : string; PendingTimeout : Z; Hubtel : HubtelConfig; Paystack : PaystackConfig;
  Moolre : MoolreConfig; CallbackBaseURL : string; Secrets : WebhookSecrets }.
Record Config := {
  cfg_Environment : Environment; HTTP : HTTPConfig; Database : DatabaseConfig; Valkey : ValkeyConfig;
  Observ : ObservabilityConfig; Payments : PaymentsConfig; Worker : WorkerConfig; Auth : AuthConfig;
  RateLimit : RateLimitConfig }.

Definition Addr (c : HTTPConfig) : string := ":" ^^ FormatInt (Port c).
Definition TracingEnabled (c : ObservabilityConfig) : bool := negb (String.eqb (OTLPEndpoint c) "").
Definition Hubtel_Disabled (c : HubtelConfig) : bool :=
  String.eqb (ClientID c) "" || String.eqb (ClientSecret c) "".
Definition Paystack_Disabled (c : PaystackConfig) : bool := String.eqb (SecretKey c) "".
Definition Moolre_Disabled (c : MoolreConfig) : bool :=
  String.eqb (MAPIKey c) "" && String.eqb (APIPubKey c) "".

Definition ErrMissingRequired : error := Sentinel "config: required variable not set".

(** [errors.Join]: nil when every error is nil. *)
Definition Join_errors (errs : list (option error)) : option error :=
  match omap id errs with
  | [] => None
  | es => Some (Wrap (Join (map Error es) (chr "010")) es)
  end.

Definition validLogLevel (name : string) : bool :=
  let l := ToLower name in
  String.eqb l "debug" || String.eqb l "info" || String.eqb l "warn" || String.eqb l "error".

Definition f64_0 : float64 := S754_zero false.
Definition f64_1 : float64 := SFone 53 1024.

(** Every check of [Validate], in order: [Some e] is an appended error. *)
Definition validate_checks (c : Config) : list (option error) :=
  let fail (b : bool) (e : error) := if b then Some e else None in
  let prod := String.eqb (cfg_Environment c) EnvProduction in
  let primary := Primary (Payments c) in
  [ fail (negb (Environment_Valid (cfg_Environment c)))
      (Fresh ("config: ORCTA_ENV: unknown environment " ^^ cfg_Environment c));
    fail (String.eqb (DB_URL (Database c)) "")
      (Wrap (Error ErrMissingRequired ^^ ": DATABASE_URL") [ErrMissingRequired]);
    fail ((Port (HTTP c) <? 1)%Z || (Port (HTTP c) >? 65535)%Z)
      (Fresh ("config: HTTP_PORT: " ^^ FormatInt (Port (HTTP c)) ^^ " out of range"));
    fail (MaxConns (Database c) <? 1)%Z
      (Fresh ("config: DATABASE_MAX_CONNS: " ^^ FormatInt (MaxConns (Database c)) ^^ " must be at least 1"));
    fail (String.eqb (VK_Addr (Valkey c)) "")
      (Wrap (Error ErrMissingRequired ^^ ": VALKEY_ADDR") [ErrMissingRequired]);
    fail (negb (validLogLevel (LogLevel (Observ c))))
      (Fresh ("config: LOG_LEVEL: unknown level " ^^ LogLevel (Observ c)));
    fail (SFltb (TraceSampleRatio (Observ c)) f64_0 || SFltb f64_1 (TraceSampleRatio (Observ c)))
      (Fresh "config: OTEL_TRACE_SAMPLE_RATIO: out of range 0-1");
    fail (prod && EqualFold (LogLevel (Observ c)) "debug")
      (Fresh "config: LOG_LEVEL: debug not permitted in production");
    fail (negb (String.eqb primary "") && negb (String.eqb primary "hubtel")
          && negb (String.eqb primary "paystack") && negb (String.eqb primary "moolre"))
      (Fresh "config: PAYMENTS_PRIMARY must be hubtel, paystack, or moolre");
    fail (PendingTimeout (Payments c) <=? 0)%Z
      (Fresh "config: PAYMENT_PENDING_TIMEOUT must be > 0");
    fail (prod && String.eqb (APIKey (Auth c)) "")
      (Fresh "config: ORCTA_PAY_API_KEY is required in production") ].

Definition Validate (c : Config) : option error := Join_errors (validate_checks c).

Section load.
Context (env : string -> string).

Definition stringVar (key fallback : string) : string :=
  if negb (String.eqb (env key) "") then env key else fallback.

(** A variable read through a parser: the fallback when unset, an error and
    the zero value when the text does not parse. *)
Definition parsedVar {A} (parse : string -> option A) (zero : A) (key : string) (fallback : A)
    : A * option error :=
  let raw := env key in
  if String.eqb raw "" then (fallback, None)
  else match parse raw with
       | Some v => (v, None)
       | None => (zero, Some (Wrap ("config: " ^^ key) [Fresh "parse"]))
       end.

(** [strconv.Atoi] agrees with [ParseInt(s, 10, 64)] where [int] has 64 bits. *)
Definition intVar := parsedVar ParseInt 0%Z.
Definition parse_int32 (s : string) : option Z :=
  z ← ParseInt s; if ((-2^31 <=? z) && (z <? 2^31))%Z then Some z else None.
Definition int32Var := parsedVar parse_int32 0%Z.
Definition floatVar := parsedVar (fun s => value_unless_error (ParseFloat s)) f64_0.
Definition durationVar := parsedVar ParseDuration 0%Z.

(** [strconv.ParseBool] *)
Definition ParseBool (s : string) : option bool :=
  if existsb (String.eqb s) ["1"; "t"; "T"; "TRUE"; "true"; "True"] then Some true
  else if existsb (String.eqb s) ["0"; "f"; "F"; "FALSE"; "false"; "False"] then Some false
  else None.
Definition boolVar := parsedVar ParseBool false.

Definition hubtelConfig : HubtelConfig := {|
  ClientID := env "HUBTEL_CLIENT_ID"; ClientSecret := env "HUBTEL_CLIENT_SECRET";
  MerchantAccount := env "HUBTEL_MERCHANT_ACCOUNT";
  H_BaseURL := stringVar "HUBTEL_BASE_URL" "https://payproxyapi.hubtel.com" |}.

Definition paystackConfig : PaystackConfig := {|
  SecretKey := env "PAYSTACK_SECRET_KEY";
  P_BaseURL := stringVar "PAYSTACK_BASE_URL" "https://api.paystack.co" |}.

Definition moolreConfig : MoolreConfig :=
  let user := env "MOOLRE_API_USER" in
  let key := env "MOOLRE_API_KEY" in
  let pub := env "MOOLRE_API_PUBKEY" in
  let acct := env "MOOLRE_ACCOUNT_NUMBER" in
  let user := if String.eqb user "" && negb (String.eqb key "") then key else user in
  let pub := if String.eqb pub "" && negb (String.eqb key "") then key else pub in
  {| APIUser := user; MAPIKey := key; APIPubKey := pub; AccountNumber := acct;
     M_BaseURL := stringVar "MOOLRE_BASE_URL" "https://api.moolre.com" |}.

Definition RateLimitConfig_zero : RateLimitConfig :=
  {| Enabled := false; RPS := 0; IPPerMinute := 0; APIKeyPerMinute := 0; WebhookPerMinute := 0 |}.

Definition rateLimitConfig : RateLimitConfig * option error :=
  let abort key e := (RateLimitConfig_zero, Some (Errorf ("config: " ^^ key ^^ ": ") e)) in
  match boolVar "RATE_LIMIT_ENABLED" true with
  | (_, Some e) => abort "RATE_LIMIT_ENABLED" e
  | (enabled, None) =>
  match intVar "RATE_LIMIT_RPS" 60 with
  | (_, Some e) => abort "RATE_LIMIT_RPS" e
  | (rps, None) =>
  match intVar "RATE_LIMIT_IP_PER_MINUTE" rps with
  | (_, Some e) => abort "RATE_LIMIT_IP_PER_MINUTE" e
  | (ipPerMin, None) =>
  let ipPerMin := if negb (String.eqb (env "RATE_LIMIT_RPS") "") then rps else ipPerMin in
  match intVar "RATE_LIMIT_API_KEY_PER_MINUTE" 300 with
  | (_, Some e) => abort "RATE_LIMIT_API_KEY_PER_MINUTE" e
  | (apiKeyPerMin, None) =>
  match intVar "RATE_LIMIT_WEBHOOK_PER_MINUTE" 600 with
  | (_, Some e) => abort "RATE_LIMIT_WEBHOOK_PER_MINUTE" e
  | (webhookPerMin, None) =>
      ({| Enabled := enabled; RPS := rps;
          IPPerMinute := if (ipPerMin <? 1)%Z then 60 else ipPerMin;
          APIKeyPerMinute := if (apiKeyPerMin <? 1)%Z then 300 else apiKeyPerMin;
          WebhookPerMinute := if (webhookPerMin <? 1)%Z then 600 else webhookPerMin |}, None)
  end end end end end.

Definition Load : result Config :=
  let '(port, e1) := intVar "HTTP_PORT" 8080 in
  let '(readTimeout, e2) := durationVar "HTTP_READ_TIMEOUT" (10 * Second)%Z in
  let '(writeTimeout, e3) := durationVar "HTTP_WRITE_TIMEOUT" (30 * Second)%Z in
  let '(idleTimeout, e4) := durationVar "HTTP_IDLE_TIMEOUT" (120 * Second)%Z in
  let '(shutdownTimeout, e5) := durationVar "HTTP_SHUTDOWN_TIMEOUT" (20 * Second)%Z in
  let '(handlerTimeout, e6) := durationVar "HTTP_HANDLER_TIMEOUT" (15 * Second)%Z in
  let '(jobTimeout, e7) := durationVar "WORKER_JOB_TIMEOUT" (5 * Minute)%Z in
  let '(pendingTimeout, e8) := durationVar "PAYMENT_PENDING_TIMEOUT" (5 * Minute)%Z in
  let '(maxConns, e9) := int32Var "DATABASE_MAX_CONNS" 20 in
  let '(valkeyDB, e10) := intVar "VALKEY_DB" 0 in
  let '(sampleRatio, e11) := floatVar "OTEL_TRACE_SAMPLE_RATIO" f64_1 in
  let apiKey := if String.eqb (env "ORCTA_PAY_API_KEY") "" then env "AUTH_API_KEY"
                else env "ORCTA_PAY_API_KEY" in
  let '(rateLimit, e12) := rateLimitConfig in
  let cfg := {|
    RateLimit := rateLimit;
    cfg_Environment := stringVar "ORCTA_ENV" EnvDevelopment;
    HTTP := {| Port := port; ReadTimeout := readTimeout; WriteTimeout := writeTimeout;
               IdleTimeout := idleTimeout; ShutdownTimeout := shutdownTimeout;
               HandlerTimeout := handlerTimeout |};
    Worker := {| JobTimeout := jobTimeout |};
    Payments := {|
      PendingTimeout := pendingTimeout;
      Primary := stringVar "PAYMENTS_PRIMARY" "paystack";
      Hubtel := hubtelConfig; Paystack := paystackConfig; Moolre := moolreConfig;
      CallbackBaseURL := env "PAYMENTS_CALLBACK_BASE_URL";
      Secrets := {|
        WS_Hubtel := env "HUBTEL_WEBHOOK_SECRET";
        WS_Paystack := stringVar "PAYSTACK_WEBHOOK_SECRET" (env "PAYSTACK_SECRET_KEY");
        WS_Moolre := env "MOOLRE_WEBHOOK_SECRET" |} |};
    Database := {| DB_URL := env "DATABASE_URL"; MaxConns := maxConns |};
    Valkey := {| VK_Addr := stringVar "VALKEY_ADDR" "localhost:6379";
                 VK_Password := env "VALKEY_PASSWORD"; VK_DB := valkeyDB |};
    Observ := {| ServiceName := stringVar "OTEL_SERVICE_NAME" "orcta-pay";
                 LogLevel := stringVar "LOG_LEVEL" "info";
                 OTLPEndpoint := env "OTEL_EXPORTER_OTLP_ENDPOINT";
                 TraceSampleRatio := sampleRatio |};
    Auth := {| APIKey := apiKey; VaultAddr := env "ORCTA_PAY_VAULT_ADDR" |} |} in
  match Join_errors [e1; e2; e3; e4; e5; e6; e7; e8; e9; e10; e11; e12; Validate cfg] with
  | Some e => Err e
  | None => Ok cfg
  end.
End load.
