(* ===== verification/Ledger.v ===== *)
(** * internal/ledger: entries, reservations and the ledger service

    [ledger.go]: the rows, the [Store] seam and [Service]'s two operations.
    The store is an interface in the source and a record of operations here;
    [MemStore] provides one implementation. *)
From S2P Require Import Prelude Money.

Definition ErrNotFound : error := Sentinel "ledger: not found".
Definition ErrConflict : error := Sentinel "ledger: conflict".

Abbreviation EntryKind := string (only parsing).
Definition KindVendorCommission : EntryKind := "platform_commission".
Definition KindVendorPayout : EntryKind := "vendor_payout".
Definition KindCollection : EntryKind := "collection".

Record LedgerEntry := {
  le_ID : UUID; le_Kind : EntryKind; le_Ref : string; le_Amount : Money;
  le_ValueTime : Time; le_BookingTime : Time; le_SettlementTime : option Time;
  le_Product : string; le_CreatedAt : Time }.

#[export] Instance LedgerEntry_eq_dec : EqDecision LedgerEntry.
Proof. solve_decision. Defined.

Record Reservation := {
  rv_ID : UUID; rv_BatchID : UUID; rv_Amount : Money; rv_Status : string; rv_CreatedAt : Time }.

(** [entries[i].SettlementTime = &t] *)
Definition stamp (t : Time) (e : LedgerEntry) : LedgerEntry :=
  {| le_ID := le_ID e; le_Kind := le_Kind e; le_Ref := le_Ref e; le_Amount := le_Amount e;
     le_ValueTime := le_ValueTime e; le_BookingTime := le_BookingTime e;
     le_SettlementTime := Some t; le_Product := le_Product e; le_CreatedAt := le_CreatedAt e |}.

Section ledger.
Context {W : Type} `{!Runtime W}.

Record Store := {
  AppendEntry : LedgerEntry -> Prog W (result unit);
  ListEntries : string -> Prog W (result (list LedgerEntry));
  StampSettlement : string -> Time -> Prog W (result unit);
  CreateReservation : Reservation -> Prog W (result unit);
  SettleReservation : UUID -> Time -> Prog W (result unit);
  ReleaseReservation : UUID -> Prog W (result unit) }.

Definition RecordCollection (s : Store) (ref product : string) (amount : Money)
  : Prog W (result unit) :=
  id ← uuid_New;
  valueTime ← time_Now;
  bookingTime ← time_Now;
  createdAt ← time_Now;
  AppendEntry s
    {| le_ID := id; le_Kind := KindCollection; le_Ref := ref; le_Amount := amount;
       le_ValueTime := valueTime; le_BookingTime := bookingTime; le_SettlementTime := None;
       le_Product := product; le_CreatedAt := createdAt |}.

Definition ConfirmSettlement (s : Store) (ref : string) : Prog W (result unit) :=
  r ← ListEntries s ref;
  match r with
  | Err e => mret (Err e)
  | Ok [] => mret (Err ErrNotFound)
  | Ok (_ :: _) =>
      now ← time_Now;
      StampSettlement s ref now
  end.
End ledger.
Arguments Store W : clear implicits.
