(* ===== verification/Gateway.v ===== *)
(** * internal/gateway/gateway.go: the gateway seam

    The normalised request and response records and [AggregatorClient], the
    interface the Hubtel, Paystack and Moolre adapters implement. *)
From S2P Require Import Prelude Money Reference.

Definition ErrNotConfigured : error := Sentinel "gateway: not configured".
Definition ErrGatewayUnavailable : error := Sentinel "gateway: unavailable".
Definition ErrNotSupported : error := Sentinel "gateway: not supported".

Record InitiateRequest := {
  ir_Reference : string; ir_Amount : Money; ir_Wallet : string; ir_Product : string;
  ir_IdempotencyKey : string }.

Record InitiateResponse := {
  is_ExternalRef : string; is_Status : string; is_AuthorizationURL : string;
  is_RawRequest : string; is_RawResponse : string }.

(** [attemptReq := req; attemptReq.Reference = ref] *)
Definition with_Reference (ref : string) (req : InitiateRequest) : InitiateRequest :=
  {| ir_Reference := ref; ir_Amount := ir_Amount req; ir_Wallet := ir_Wallet req;
     ir_Product := ir_Product req; ir_IdempotencyKey := ir_IdempotencyKey req |}.

Record VerifyResult := {
  vr_Reference : string; vr_Status : string; vr_Amount : Money; vr_VerifiedAt : Time }.

(** The interface [AggregatorClient]: an adapter over the world [W]. *)
Record AggregatorClient (W : Type) := {
  Initiate : InitiateRequest -> Prog W (result InitiateResponse);
  Verify : string -> Prog W (result VerifyResult);
  Refund : string -> Money -> Prog W (result unit);
  Payout : string -> Money -> string -> Prog W (result unit) }.
Arguments Initiate {W} _ _.
Arguments Verify {W} _ _.
Arguments Refund {W} _ _ _.
Arguments Payout {W} _ _ _ _.

(** ** The exchanges with gateways, as an observer of the wire sees them *)
Inductive Exchange :=
| XInitiate (g : Gateway) (req : InitiateRequest) (res : result InitiateResponse)
| XVerify (g : Gateway) (ref : string) (res : result VerifyResult)
| XRefund (g : Gateway) (ref : string) (amount : Money) (res : result unit)
| XPayout (g : Gateway) (recipient : string) (amount : Money) (ref : string) (res : result unit).

(** What a registered adapter promises its clients: one method call is one
    exchange of its own gateway, whatever it answers. *)
Class Traced {W} (ads : gmap string (AggregatorClient W)) (log : W -> list Exchange) : Prop := {
  traced_initiate g a req w : ads !! g = Some a ->
    log (run (Initiate a req) w).2 = log w ++ [XInitiate g req (run (Initiate a req) w).1];
  traced_verify g a ref w : ads !! g = Some a ->
    log (run (Verify a ref) w).2 = log w ++ [XVerify g ref (run (Verify a ref) w).1];
  traced_refund g a ref m w : ads !! g = Some a ->
    log (run (Refund a ref m) w).2 = log w ++ [XRefund g ref m (run (Refund a ref m) w).1];
  traced_payout g a to m ref w : ads !! g = Some a ->
    log (run (Payout a to m ref) w).2
    = log w ++ [XPayout g to m ref (run (Payout a to m ref) w).1] }.

(** The methods of every registered adapter leave a view of the world alone. *)
Class AdaptersFrame {W V} (ads : gmap string (AggregatorClient W)) (view : W -> V) : Prop := {
  frame_initiate g a req : ads !! g = Some a -> Preserves view (Initiate a req);
  frame_verify g a ref : ads !! g = Some a -> Preserves view (Verify a ref);
  frame_refund g a ref m : ads !! g = Some a -> Preserves view (Refund a ref m);
  frame_payout g a to m ref : ads !! g = Some a -> Preserves view (Payout a to m ref) }.
