(* ===== verification/Cedis.v ===== *)
(** * Amounts through a float: [fmt.Sprintf("%.2f", float64(minor)/100)]

    The binary64 arithmetic is the Standard Library's [SpecFloat].  Both
    roundings are bounded crudely (two units of a 54-bit quotient), which is
    enough for exactness up to 2^51 minor units. *)
From S2P Require Import Prelude GoStrings Strconv Json JsonCodec Money.
From Stdlib Require Import Floats.SpecFloat.

(** ** [fmt.Sprintf("%.2f", float64(m.MinorUnits())/100)] *)
(** A number of hundredths with its sign, [%.2f] of a float in hundredths. *)
Definition hundredths (neg : bool) (n : Z) : string :=
  let frac := FormatInt (n mod 100) in
  (if neg then "-" else "") ^^ FormatInt (n / 100) ^^ "." ^^
  (if (n mod 100 <? 10)%Z then "0" ^^ frac else frac).

(** [%.2f]: the exact value rounded to hundredths, ties to even. *)
Definition Sprintf_2f (f : float64) : string :=
  match f with
  | S754_zero s => hundredths s 0
  | S754_infinity s => if s then "-Inf" else "+Inf"
  | S754_nan => "NaN"
  | S754_finite s m e => hundredths s (round_half_even (Z.pos m * 100) e)
  end.

Definition cedis (m : Money) : string :=
  Sprintf_2f (SFdiv 53 1024 (f64_of_Z (minorUnits m)) (f64_of_Z 100)).

(** ** Exactness *)
Local Open Scope Z_scope.

Lemma digits2_pos_bounds p : 2 ^ (Zpos (digits2_pos p) - 1) <= Zpos p < 2 ^ Zpos (digits2_pos p).
Proof.
  induction p as [p IH|p IH|]; cbn [digits2_pos]; [| |cbn; lia];
    rewrite Pos2Z.inj_succ; replace (Z.succ (Zpos (digits2_pos p)) - 1) with (Zpos (digits2_pos p)) by lia;
    replace (Zpos (digits2_pos p)) with (Zpos (digits2_pos p) - 1 + 1) at 1 by lia;
    rewrite Z.pow_succ_r, Z.pow_add_r by lia; lia.
Qed.

Lemma Zdigits2_unique m d : 0 < d -> 2 ^ (d - 1) <= m < 2 ^ d -> Zdigits2 m = d.
Proof.
  intros Hd Hm. pose proof (Z.pow_pos_nonneg 2 (d - 1) ltac:(lia) ltac:(lia)).
  destruct m as [|p|p]; [lia| |lia]. cbn [Zdigits2].
  pose proof (digits2_pos_bounds p) as Hp.
  assert (2 ^ (d - 1) < 2 ^ Zpos (digits2_pos p)) as H1 by lia.
  assert (2 ^ (Zpos (digits2_pos p) - 1) < 2 ^ d) as H2 by lia.
  apply Z.pow_lt_mono_r_iff in H1, H2; lia.
Qed.

Lemma fexp_normal e : (-1000 <= e) -> fexp 53 1024 e = e - 53.
Proof. unfold fexp, emin. lia. Qed.

Lemma shr_fexp_0 m e l : (-900 <= e) -> 2 ^ 52 <= m < 2 ^ 53 ->
  shr_fexp 53 1024 m e l = (shr_record_of_loc m l, e).
Proof.
  intros He Hm. unfold shr_fexp. rewrite (Zdigits2_unique m 53), fexp_normal by lia.
  by replace (53 + e - 53 - e) with 0 by lia.
Qed.

Lemma shr_fexp_1 m e l : (-900 <= e) -> 2 ^ 53 <= m < 2 ^ 54 ->
  shr_fexp 53 1024 m e l = (shr_1 (shr_record_of_loc m l), e + 1).
Proof.
  intros He Hm. unfold shr_fexp. rewrite (Zdigits2_unique m 54), fexp_normal by lia.
  by replace (54 + e - 53 - e) with 1 by lia.
Qed.

Lemma shr_1_m m l : 0 < m -> shr_m (shr_1 (shr_record_of_loc m l)) = m / 2.
Proof.
  intros Hm. destruct m as [|p|p]; [lia| |lia].
  transitivity (Z.div2 (Zpos p)); [|apply Z.div2_div].
  by destruct l as [|[]], p.
Qed.

Lemma rne_bounds m l : m <= round_nearest_even m l <= m + 1.
Proof. unfold round_nearest_even. repeat case_match; lia. Qed.

(** A significand of 53 or 54 bits is rounded by at most two of its units. *)
Lemma round_aux_near s m e l :
  (-900 <= e <= 900) -> 2 ^ 52 <= m < 2 ^ 54 ->
  exists m' e', binary_round_aux 53 1024 s m e l = S754_finite s m' e' /\ e <= e' <= e + 2 /\
    m - 1 <= Zpos m' * 2 ^ (e' - e) <= m + 2.
Proof.
  intros He Hm. unfold binary_round_aux.
  assert (Hstep : exists m1 e1, (let '(mrs', e') := shr_fexp 53 1024 m e l in
      shr_fexp 53 1024 (round_nearest_even (shr_m mrs') (loc_of_shr_record mrs')) e' loc_Exact)
      = shr_fexp 53 1024 m1 e1 loc_Exact /\ e <= e1 <= e + 1 /\ 2 ^ 52 <= m1 <= 2 ^ 53 /\
      m - 1 <= m1 * 2 ^ (e1 - e) <= m + 2).
  { destruct (Z.lt_ge_cases m (2 ^ 53)) as [Hlt|Hge].
    - rewrite shr_fexp_0 by lia. eexists _, e. split; [reflexivity|].
      pose proof (rne_bounds (shr_m (shr_record_of_loc m l)) (loc_of_shr_record (shr_record_of_loc m l))) as Hr.
      assert (shr_m (shr_record_of_loc m l) = m) as Hm' by (by destruct l as [|[]]).
      rewrite Hm' in *. replace (e - e) with 0 by lia. lia.
    - rewrite shr_fexp_1 by lia. eexists _, (e + 1). split; [reflexivity|].
      pose proof (rne_bounds (shr_m (shr_1 (shr_record_of_loc m l)))
                    (loc_of_shr_record (shr_1 (shr_record_of_loc m l)))) as Hr.
      rewrite shr_1_m in * by lia. replace (e + 1 - e) with 1 by lia.
      pose proof (Z.div_mod m 2 ltac:(lia)). pose proof (Z.mod_pos_bound m 2 ltac:(lia)). lia. }
  destruct Hstep as (m1 & e1 & Hs & He1 & Hm1 & Hnear).
  destruct (shr_fexp 53 1024 m e l) as [mrs' e'] eqn:E0. rewrite Hs.
  destruct (Z.eq_dec m1 (2 ^ 53)) as [->|Hne].
  - rewrite shr_fexp_1 by lia. exists 4503599627370496%positive, (e1 + 1).
    change (shr_m (shr_1 (shr_record_of_loc (2 ^ 53) loc_Exact))) with (2 ^ 52). cbn match.
    change (2 ^ 52) with (Zpos 4503599627370496). cbn match.
    destruct (Z.leb_spec (e1 + 1) (1024 - 53)); [|lia]. split_and!; [done|lia|lia| |];
    replace (e1 + 1 - e) with (1 + (e1 - e)) by lia; rewrite Z.pow_add_r by lia; lia.
  - rewrite shr_fexp_0 by lia. destruct m1 as [|m1|m1]; [lia| |lia]. cbn [shr_record_of_loc shr_m].
    destruct (Z.leb_spec e1 (1024 - 53)); [|lia]. exists m1, e1. split_and!; [done|lia..].
Qed.

(** Shifting an odd-bit integer up to 53 bits is exact. *)
Lemma digits_le p d : 0 <= d -> Zpos p < 2 ^ d -> Zpos (digits2_pos p) <= d.
Proof.
  intros Hd Hp. pose proof (digits2_pos_bounds p).
  assert (2 ^ (Zpos (digits2_pos p) - 1) < 2 ^ d) as H1 by lia. apply Z.pow_lt_mono_r_iff in H1; lia.
Qed.

Lemma iter_xO p q : Zpos (Pos.iter xO p q) = Zpos p * 2 ^ Zpos q.
Proof.
  induction q as [|q IH] using Pos.peano_ind; [simpl; lia|].
  rewrite Pos.iter_succ, Pos2Z.inj_xO, IH, Pos2Z.inj_succ, Z.pow_succ_r by lia. lia.
Qed.

Lemma round_exact s p :
  Zpos p < 2 ^ 52 ->
  let d := Zpos (digits2_pos p) in
  exists m, binary_round 53 1024 s p 0 = S754_finite s m (d - 53) /\ Zpos m = Zpos p * 2 ^ (53 - d) /\
    2 ^ 52 <= Zpos m < 2 ^ 53 /\ 1 <= d <= 52.
Proof.
  intros Hp d. pose proof (digits_le p 52 ltac:(lia) Hp) as Hd. fold d in Hd.
  pose proof (digits2_pos_bounds p) as Hb. fold d in Hb.
  unfold binary_round, shl_align. rewrite fexp_normal by lia. fold d.
  replace (d + 0 - 53 - 0) with (- (53 - d)) by lia. replace (d + 0 - 53) with (d - 53) by lia.
  destruct (53 - d) as [|k|k] eqn:Ek; [lia| |lia]. change (- Zpos k) with (Zneg k). cbv iota.
  pose proof (iter_xO p k) as Hm. rewrite <- Ek in Hm.
  assert (Hr : 2 ^ 52 <= Zpos p * 2 ^ (53 - d) < 2 ^ 53).
  { replace (2 ^ 52) with (2 ^ (d - 1) * 2 ^ (53 - d)) by (rewrite <- Z.pow_add_r by lia; f_equal; lia).
    replace (2 ^ 53) with (2 ^ d * 2 ^ (53 - d)) by (rewrite <- Z.pow_add_r by lia; f_equal; lia).
    pose proof (Z.pow_pos_nonneg 2 (53 - d) ltac:(lia) ltac:(lia)). nia. }
  rewrite <- Hm in Hr. exists (Pos.iter xO p k).
  unfold binary_round_aux. rewrite shr_fexp_0 by lia. cbn [shr_record_of_loc shr_m loc_of_shr_record round_nearest_even].
  rewrite shr_fexp_0 by lia. cbn [shr_record_of_loc shr_m].
  destruct (Z.leb_spec (d - 53) (1024 - 53)); [|lia]. split_and!; [done | by rewrite <- Ek | lia..].
Qed.

Lemma f64_100 : f64_of_Z 100 = S754_finite false 7036874417766400 (-46).
Proof. reflexivity. Qed.

Lemma div_100 s m e :
  2 ^ 52 <= Zpos m < 2 ^ 53 -> -60 <= e < 0 ->
  exists m' e', SFdiv 53 1024 (S754_finite s m e) (f64_of_Z 100) = S754_finite s m' e' /\
    e - 7 <= e' <= e - 5 /\ Z.abs (Zpos m' * 2 ^ (e' - (e - 7)) * 100 - Zpos m * 128) <= 200.
Proof.
  intros Hm He. rewrite f64_100. unfold SFdiv, SFdiv_core_binary.
  rewrite (Zdigits2_unique (Zpos m) 53) by lia. change (Zdigits2 7036874417766400) with 53.
  rewrite fexp_normal by lia.
  replace (Z.min (53 + e - (53 + -46) - 53) (e - -46)) with (e - 7) by lia.
  replace (e - -46 - (e - 7)) with 53 by lia. cbv zeta.
  destruct (Z.div_eucl (Z.shiftl (Zpos m) 53) 7036874417766400) as [q r] eqn:Eq.
  pose proof (Z_div_mod (Z.shiftl (Zpos m) 53) 7036874417766400 ltac:(lia)) as Hdm. rewrite Eq in Hdm.
  rewrite Z.shiftl_mul_pow2 in Hdm by lia.
  destruct (round_aux_near s q (e - 7) (new_location 7036874417766400 r)) as (m' & e' & Hr & He' & Hb);
    [lia|lia|].
  exists m', e'. rewrite xorb_false_r, Hr. split_and!; [done|lia..]. 
Qed.

Lemma round_half_even_near n k p :
  0 < k -> 2 * Z.abs (n - p * 2 ^ k) < 2 ^ k -> round_half_even n (- k) = p.
Proof.
  intros Hk H. unfold round_half_even. destruct (Z.leb_spec 0 (- k)); [lia|]. rewrite Z.opp_involutive.
  cbv zeta. set (d := 2 ^ k) in *. assert (Hd : 0 < d) by (by apply Z.pow_pos_nonneg; lia).
  pose proof (Z.div_mod n d ltac:(lia)) as Hdm. pose proof (Z.mod_pos_bound n d Hd) as Hr.
  set (q := n / d) in *. set (r := n mod d) in *. clearbody q r d.
  destruct (Z.ltb_spec (2 * r) d); [|destruct (Z.ltb_spec d (2 * r))].
  all: destruct (Z.lt_trichotomy q p) as [|[|]];
    [assert (d * (p - q) >= d) by nia | subst p | assert (d * (q - p) >= d) by nia]; try lia.
  - assert (q + 1 = p \/ d * (p - q) >= 2 * d) as [|] by nia; lia.
Qed.

(** The amount sent is exact up to 2^51 minor units. *)
Lemma div_100_exact s p :
  Zpos p < 2 ^ 51 ->
  Sprintf_2f (SFdiv 53 1024 (binary_round 53 1024 s p 0) (f64_of_Z 100)) = hundredths s (Zpos p).
Proof.
  intros Hp. pose proof (digits_le p 51 ltac:(lia) Hp) as Hd.
  destruct (round_exact s p ltac:(lia)) as (m & -> & Hm & Hr & Hd').
  set (d := Zpos (digits2_pos p)) in *.
  destruct (div_100 s m (d - 53) Hr ltac:(lia)) as (m' & e' & -> & He & Hb). cbn [Sprintf_2f]. f_equal.
  replace e' with (- (- e')) by lia. apply round_half_even_near; [lia|].
  (* scale the error bound to units of 2^(60 - d) *)
  set (j := e' - (d - 53 - 7)) in *. assert (Hj : 0 <= j <= 2) by lia.
  assert (E : 2 ^ (60 - d) = 2 ^ (- e') * 2 ^ j) by (rewrite <- Z.pow_add_r by lia; f_equal; lia).
  assert (E' : 2 ^ (60 - d) = 128 * 2 ^ (53 - d)) by (change 128 with (2 ^ 7); rewrite <- Z.pow_add_r by lia; f_equal; lia).
  assert (Hbig : 2 ^ 9 <= 2 ^ (60 - d)) by (apply Z.pow_le_mono_r; lia).
  assert (H0 : Zpos m * 128 = Zpos p * (2 ^ (- e') * 2 ^ j)) by (rewrite <- E, E'; lia).
  rewrite H0 in Hb. rewrite E in Hbig. clear H0 E E' Hm.
  assert (0 < 2 ^ j) by (apply Z.pow_pos_nonneg; lia).
  set (x := 2 ^ j) in *. set (y := 2 ^ (- e')) in *. clearbody x y.
  assert (Z.abs ((Zpos m' * 100 - Zpos p * y) * x) <= 200) as Hb' by (replace ((Zpos m' * 100 - Zpos p * y) * x) with (Zpos m' * x * 100 - Zpos p * (y * x)) by lia; lia).
  rewrite Z.abs_mul, (Z.abs_eq x) in Hb' by lia. nia.
Qed.

Lemma cedis_hundredths m :
  Z.abs (minorUnits m) < 2 ^ 51 ->
  cedis m = hundredths (minorUnits m <? 0) (Z.abs (minorUnits m)).
Proof.
  unfold cedis, f64_of_Z at 1, binary_normalize. intros H.
  destruct (minorUnits m) as [|p|p]; [reflexivity| |]; by apply div_100_exact.
Qed.

(** Both paddings of the decimals agree. *)
Lemma paddings_agree f :
  0 <= f < 100 ->
  (if f <? 10 then "0" ^^ FormatInt f else FormatInt f)
  = (if (String.length (FormatInt f) =? 1)%nat then "0" ^^ FormatInt f else FormatInt f).
Proof.
  intros Hf.
  assert (Hall : forallb (fun n => let f := Z.of_nat n in String.eqb
      (if f <? 10 then "0" ^^ FormatInt f else FormatInt f)
      (if (String.length (FormatInt f) =? 1)%nat then "0" ^^ FormatInt f else FormatInt f))
      (seq 0 100) = true) by (vm_compute; reflexivity).
  rewrite forallb_forall in Hall. specialize (Hall (Z.to_nat f) ltac:(apply in_seq; lia)).
  cbv zeta in Hall. rewrite Z2Nat.id in Hall by lia. by apply String.eqb_eq.
Qed.

(** C34: The amount the Hubtel and Moolre adapters print by way of a float
    division is, up to 2^51 minor units either way, exactly the amount that
    [Money.String] prints with integers. *)
Theorem cedis_exact m :
  Z.abs (minorUnits m) < 2 ^ 51 -> cedis m ^^ " " ^^ currency m = render m.
Proof.
  intros H. rewrite cedis_hundredths by done. unfold hundredths, render.
  assert (Hmu : (if minorUnits m <? 0 then wrap64 (- minorUnits m) else minorUnits m) = Z.abs (minorUnits m)).
  { destruct (Z.ltb_spec (minorUnits m) 0); [|lia]. rewrite wrap64_id by (unfold int64; lia). lia. }
  rewrite Hmu. unfold minorUnitsPerMajor. rewrite Z.quot_div_nonneg, Z.rem_mod_nonneg by lia.
  rewrite paddings_agree by (apply Z.mod_pos_bound; lia). by rewrite !append_assoc.
Qed.

Lemma cedis_exact_witness : cedis (New (-1805) GHS) ^^ " GHS" = "-18.05 GHS".
Proof. apply (cedis_exact (New (-1805) GHS)). simpl. lia. Defined.

(** Beyond the bound the float loses the last pesewa. *)
Example cedis_rounds : cedis (New (2 ^ 60 + 1) GHS) = "11529215046068470.00".
Proof. reflexivity. Qed.

Lemma hundredths_ascii s n : 0 <= n -> ascii_only (hundredths s n) = true.
Proof.
  intros Hn. unfold hundredths. rewrite !ascii_only_append, FormatInt_ascii.
  destruct s, (n mod 100 <? 10); simpl; by rewrite ?FormatInt_ascii.
Qed.

Lemma cedis_ascii m : Z.abs (minorUnits m) < 2 ^ 51 -> ascii_only (cedis m) = true.
Proof. intros H. rewrite cedis_hundredths by done. apply hundredths_ascii. lia. Qed.
