(* ===== verification/Http.v ===== *)
(** * The HTTP exchange under the gateway adapters

    Requests and responses as the adapters build and read them, and the parts
    the three adapters share: the amount in decimal cedis, the reason drawn
    from a refusal, the reading of a response's status.  The network and
    [net/url.Parse] are parameters ([Transport]). *)
From S2P Require Import Prelude GoStrings Json JsonCodec Crypto Money Reference Gateway Cedis.
From Stdlib Require Import Ascii.

Record HttpRequest := {
  hq_Method : string; hq_URL : string; hq_Header : list (string * string); hq_Body : string }.
(** [hr_Body] is the whole body, before the adapter's limit. *)
Record HttpResponse := { hr_StatusCode : Z; hr_Body : string }.

(** [client.Do], and the verdict of [http.NewRequestWithContext] on a URL. *)
Class Transport (W : Type) := {
  client_Do : HttpRequest -> M W (result HttpResponse);
  bad_URL : string -> option error }.

Definition POST : string := "POST".
Definition GET : string := "GET".

(** [SetBasicAuth(user, pass)] *)
Definition BasicAuth (user pass : string) : string := "Basic " ^^ b64_encode (user ^^ ":" ^^ pass).

(** [io.ReadAll(io.LimitReader(body, n))] *)
Fixpoint read_limited (n : N) (s : string) : string :=
  match s with
  | "" => ""
  | String a r => if (n =? 0)%N then "" else String a (read_limited (n - 1) r)
  end.
Definition body_limit : N := 1048576.

(** ** Reading a response *)

(** [s[:256]] of a longer string. *)
Definition clip (s : string) : string := take_str 256 s.

(** The tail of every [extract...Reason]: the trimmed body, or the status. *)
Definition body_reason (gw : string) (body : string) (status : Z) : string :=
  let s := clip (TrimSpace body) in
  if negb (String.eqb s "") then s else gw ^^ " status " ^^ FormatInt status.

(** [fmt.Errorf("<gw>: http %d: %w", status, ErrGatewayUnavailable)] *)
Definition http_unavailable (prefix : string) (status : Z) : error :=
  Errorf (prefix ^^ "http " ^^ FormatInt status ^^ ": ") ErrGatewayUnavailable.

Section transport.
Context {W : Type} `{!Transport W}.

(** Building a request and sending it; [%w] errors carry the prefixes of the
    two [fmt.Errorf]s. *)
Definition send (build_prefix do_prefix : string) (req : HttpRequest) : Prog W (result (Z * string)) :=
  match bad_URL (hq_URL req) with
  | Some err => mret (Err (Errorf build_prefix err))
  | None =>
      res ← call (client_Do req);
      mret (match res with
            | Err err => Err (Errorf do_prefix err)
            | Ok resp => Ok (hr_StatusCode resp, read_limited body_limit (hr_Body resp))
            end)
  end.
End transport.

Section verify.
Context {W : Type} `{!Runtime W}.

(** [VerifyResult{Reference, Status, VerifiedAt: time.Now().UTC()}] *)
Definition verified_now (reference status : string) (amount : Money) : Prog W (result VerifyResult) :=
  now ← time_Now;
  mret (Ok {| vr_Reference := reference; vr_Status := status; vr_Amount := amount; vr_VerifiedAt := now |}).
End verify.
