(* ===== verification/HubtelAdapter.v ===== *)
(** * internal/gateway/hubtel.go: the Hubtel adapter

    Every method of [HubtelAdapter].  Logging and tracing are not modelled. *)
From S2P Require Import Prelude GoStrings Json JsonCodec Crypto Money Reference Config Gateway Cedis Http.
From Stdlib Require Import Ascii.

Record HubtelAdapter := { ha_cfg : HubtelConfig; ha_callbackURL : string }.

Definition with_H_BaseURL (u : string) (c : HubtelConfig) : HubtelConfig :=
  {| ClientID := ClientID c; ClientSecret := ClientSecret c; MerchantAccount := MerchantAccount c;
     H_BaseURL := u |}.

Definition WithHubtelBaseURL (u : string) (a : HubtelAdapter) : HubtelAdapter :=
  {| ha_cfg := with_H_BaseURL (TrimRight u "/") (ha_cfg a); ha_callbackURL := ha_callbackURL a |}.
Definition WithHubtelCallbackURL (u : string) (a : HubtelAdapter) : HubtelAdapter :=
  {| ha_cfg := ha_cfg a; ha_callbackURL := u |}.

Definition NewHubtelAdapter (cfg : HubtelConfig) (opts : list (HubtelAdapter -> HubtelAdapter))
    : HubtelAdapter :=
  let cfg := if String.eqb (H_BaseURL cfg) "" then with_H_BaseURL "https://payproxyapi.hubtel.com" cfg else cfg in
  fold_left (fun a opt => opt a) opts {| ha_cfg := cfg; ha_callbackURL := "" |}.

Record hubtelData := {
  hd_TransactionID : string; hd_ClientRef : string; hd_Amount : string; hd_Status : string;
  hd_CheckoutURL : string }.
Record hubtelResponse := {
  hr_ResponseCode : string; hr_ResponseText : string; hr_Message : string; hr_Status : string;
  hr_Data : hubtelData }.

Definition hubtelData_zero : hubtelData :=
  {| hd_TransactionID := ""; hd_ClientRef := ""; hd_Amount := ""; hd_Status := ""; hd_CheckoutURL := "" |}.
Definition hubtelResponse_zero : hubtelResponse :=
  {| hr_ResponseCode := ""; hr_ResponseText := ""; hr_Message := ""; hr_Status := "";
     hr_Data := hubtelData_zero |}.

Definition dec_hubtelData : decoder hubtelData := dec_struct false [
  ("TransactionId", dec_field hd_TransactionID (fun x d => {| hd_TransactionID := x; hd_ClientRef := hd_ClientRef d; hd_Amount := hd_Amount d; hd_Status := hd_Status d; hd_CheckoutURL := hd_CheckoutURL d |}) dec_string);
  ("ClientReference", dec_field hd_ClientRef (fun x d => {| hd_TransactionID := hd_TransactionID d; hd_ClientRef := x; hd_Amount := hd_Amount d; hd_Status := hd_Status d; hd_CheckoutURL := hd_CheckoutURL d |}) dec_string);
  ("Amount", dec_field hd_Amount (fun x d => {| hd_TransactionID := hd_TransactionID d; hd_ClientRef := hd_ClientRef d; hd_Amount := x; hd_Status := hd_Status d; hd_CheckoutURL := hd_CheckoutURL d |}) dec_string);
  ("Status", dec_field hd_Status (fun x d => {| hd_TransactionID := hd_TransactionID d; hd_ClientRef := hd_ClientRef d; hd_Amount := hd_Amount d; hd_Status := x; hd_CheckoutURL := hd_CheckoutURL d |}) dec_string);
  ("CheckoutUrl", dec_field hd_CheckoutURL (fun x d => {| hd_TransactionID := hd_TransactionID d; hd_ClientRef := hd_ClientRef d; hd_Amount := hd_Amount d; hd_Status := hd_Status d; hd_CheckoutURL := x |}) dec_string)].

Definition dec_hubtelResponse : decoder hubtelResponse := dec_struct false [
  ("ResponseCode", dec_field hr_ResponseCode (fun x r => {| hr_ResponseCode := x; hr_ResponseText := hr_ResponseText r; hr_Message := hr_Message r; hr_Status := hr_Status r; hr_Data := hr_Data r |}) dec_string);
  ("ResponseText", dec_field hr_ResponseText (fun x r => {| hr_ResponseCode := hr_ResponseCode r; hr_ResponseText := x; hr_Message := hr_Message r; hr_Status := hr_Status r; hr_Data := hr_Data r |}) dec_string);
  ("Message", dec_field hr_Message (fun x r => {| hr_ResponseCode := hr_ResponseCode r; hr_ResponseText := hr_ResponseText r; hr_Message := x; hr_Status := hr_Status r; hr_Data := hr_Data r |}) dec_string);
  ("Status", dec_field hr_Status (fun x r => {| hr_ResponseCode := hr_ResponseCode r; hr_ResponseText := hr_ResponseText r; hr_Message := hr_Message r; hr_Status := x; hr_Data := hr_Data r |}) dec_string);
  ("Data", dec_field hr_Data (fun x r => {| hr_ResponseCode := hr_ResponseCode r; hr_ResponseText := hr_ResponseText r; hr_Message := hr_Message r; hr_Status := hr_Status r; hr_Data := x |}) dec_hubtelData)].

Definition read_hubtel (body : string) : result hubtelResponse :=
  Unmarshal dec_hubtelResponse hubtelResponse_zero body.

Definition hubtelAmount (m : Money) : string := cedis m.

Definition extractHubtelReason (body : string) (status : Z) : string :=
  match read_hubtel body with
  | Ok hr =>
      if negb (String.eqb (hr_Message hr) "") then clip (hr_Message hr)
      else if negb (String.eqb (hr_ResponseText hr) "") then clip (hr_ResponseText hr)
      else body_reason "hubtel" body status
  | Err _ => body_reason "hubtel" body status
  end.

(** A [ResponseCode] other than these declines the request. *)
Definition code_in (codes : list string) (code : string) : bool := existsb (String.eqb code) codes.
Definition charge_codes : list string := [""; "00"; "0000"; "000"; "01"].
Definition payout_codes : list string := [""; "00"; "0000"].

Definition decline_reason (prefix : string) (hr : hubtelResponse) : string :=
  if negb (String.eqb (hr_ResponseText hr) "") then hr_ResponseText hr
  else if negb (String.eqb (hr_Message hr) "") then hr_Message hr
  else prefix ^^ hr_ResponseCode hr.

Section hubtel.
Context {W : Type} `{!Runtime W} `{!Transport W}.
Implicit Types a : HubtelAdapter.

Definition hubtel_url a (path : string) : string := TrimRight (H_BaseURL (ha_cfg a)) "/" ^^ path.
Definition hubtel_auth a : string * string :=
  ("Authorization", BasicAuth (ClientID (ha_cfg a)) (ClientSecret (ha_cfg a))).
Definition hubtel_post a (path : string) (body : string) : HttpRequest :=
  {| hq_Method := POST; hq_URL := hubtel_url a path;
     hq_Header := [("Content-Type", "application/json"); ("Accept", "application/json"); hubtel_auth a];
     hq_Body := body |}.
Definition hubtel_get a (path : string) : HttpRequest :=
  {| hq_Method := GET; hq_URL := hubtel_url a path;
     hq_Header := [hubtel_auth a; ("Accept", "application/json")]; hq_Body := "" |}.
Definition hubtel_send := send (W:=W) "hubtel: request: " "hubtel: ".
Definition hubtel_disabled : error := Errorf "hubtel: " ErrNotConfigured.

Definition hubtel_callback a : string :=
  if String.eqb (ha_callbackURL a) "" then "https://api.pay.orctatech.com/webhooks/hubtel"
  else ha_callbackURL a.

(** [hubtelReceivePayload]; [CustomerEmail] is never set and is omitted. *)
Definition hubtelReceivePayload a (req : InitiateRequest) : string := Marshal (JObj [
  ("CustomerName", JStr (ir_Product req)); ("CustomerMsisdn", JStr (ir_Wallet req));
  ("Channel", JStr "mtn-gh"); ("Amount", JStr (hubtelAmount (ir_Amount req)));
  ("ClientReference", JStr (ir_Reference req));
  ("Description", JStr ("Orcta order " ^^ ir_Reference req));
  ("PrimaryCallbackUrl", JStr (hubtel_callback a))]).

(** What [Initiate] makes of an answer below 400. *)
Definition hubtel_accepted (req : InitiateRequest) (body respBody : string) : result InitiateResponse :=
  let resp ref status := {| is_ExternalRef := ref; is_Status := status; is_AuthorizationURL := "";
                            is_RawRequest := body; is_RawResponse := respBody |} in
  match read_hubtel respBody with
  | Err _ => Ok (resp (ir_Reference req) "pending")
  | Ok hr =>
      if negb (code_in charge_codes (hr_ResponseCode hr))
      then Err (Fresh ("hubtel: " ^^ decline_reason "hubtel declined: " hr))
      else
        let ref := hd_TransactionID (hr_Data hr) in
        let ref := if String.eqb ref "" then hd_ClientRef (hr_Data hr) else ref in
        let ref := if String.eqb ref "" then ir_Reference req else ref in
        let st := hd_Status (hr_Data hr) in
        Ok (resp ref (if String.eqb st "Success" || String.eqb st "success" then "succeeded" else "pending"))
  end.

Definition hubtel_Initiate a (req : InitiateRequest) : Prog W (result InitiateResponse) :=
  if Hubtel_Disabled (ha_cfg a) then mret (Err hubtel_disabled)
  else
    let body := hubtelReceivePayload a req in
    res ← hubtel_send (hubtel_post a "/receive/initiate" body);
    mret (match res with
          | Err err => Err err
          | Ok (status, respBody) =>
              if (status >=? 500)%Z then Err (http_unavailable "hubtel: " status)
              else if (status >=? 400)%Z then Err (Fresh ("hubtel: " ^^ extractHubtelReason respBody status))
              else hubtel_accepted req body respBody
          end).

(** The status [Verify] reads from a body. *)
Definition hubtel_status (hr : hubtelResponse) : string :=
  let s := ToLower (hr_Status hr) in
  if String.eqb (ToLower (hd_Status (hr_Data hr))) "success" then "succeeded"
  else if String.eqb s "success" || String.eqb s "successful" || String.eqb s "completed" then "succeeded"
  else if String.eqb s "failed" || String.eqb s "fail" then "failed"
  else "pending".

Definition hubtel_Verify a (reference : string) : Prog W (result VerifyResult) :=
  if Hubtel_Disabled (ha_cfg a) then mret (Err hubtel_disabled)
  else
    res ← hubtel_send (hubtel_get a ("/transactions/" ^^ reference));
    match res with
    | Err err => mret (Err err)
    | Ok (status, respBody) =>
        if (status >=? 500)%Z then mret (Err (http_unavailable "hubtel: " status))
        else if (status =? 404)%Z then verified_now reference "pending" Money_zero
        else if (status >=? 400)%Z then mret (Err (Fresh ("hubtel: " ^^ extractHubtelReason respBody status)))
        else match read_hubtel respBody with
             | Err _ => verified_now reference "pending" Money_zero
             | Ok hr => verified_now reference (hubtel_status hr) Money_zero
             end
    end.

(** Members of a Go map are marshalled in the order of their names. *)
Definition hubtelRefundPayload (reference : string) (amount : Money) : string := Marshal (JObj [
  ("Amount", JStr (hubtelAmount amount)); ("ClientReference", JStr reference);
  ("Description", JStr ("Orcta refund " ^^ reference)); ("TransactionId", JStr reference)]).

Definition hubtel_Refund a (reference : string) (amount : Money) : Prog W (result unit) :=
  if Hubtel_Disabled (ha_cfg a) then mret (Err hubtel_disabled)
  else
    res ← hubtel_send (hubtel_post a "/refund" (hubtelRefundPayload reference amount));
    mret (match res with
          | Err err => Err err
          | Ok (status, respBody) =>
              if (status >=? 500)%Z then Err (http_unavailable "hubtel: " status)
              else if (status >=? 400)%Z then Err (Fresh ("hubtel: " ^^ extractHubtelReason respBody status))
              else match read_hubtel respBody with
                   | Ok hr =>
                       if code_in charge_codes (hr_ResponseCode hr) then Ok tt
                       else Err (Fresh ("hubtel: " ^^ decline_reason "hubtel refund declined: " hr))
                   | Err _ => Ok tt
                   end
          end).

Definition hubtelSendPayload a (recipient : string) (amount : Money) (reference : string) : string :=
  Marshal (JObj [
    ("RecipientName", JStr recipient); ("RecipientMsisdn", JStr recipient);
    ("Amount", JStr (hubtelAmount amount)); ("Channel", JStr "mtn-gh");
    ("ClientReference", JStr reference); ("Description", JStr ("Orcta payout " ^^ reference));
    ("CallbackUrl", JStr (hubtel_callback a))]).

Definition hubtel_Payout a (recipient : string) (amount : Money) (reference : string) : Prog W (result unit) :=
  if Hubtel_Disabled (ha_cfg a) then mret (Err hubtel_disabled)
  else
    res ← hubtel_send (hubtel_post a "/send/money" (hubtelSendPayload a recipient amount reference));
    mret (match res with
          | Err err => Err err
          | Ok (status, respBody) =>
              if (status >=? 500)%Z then Err (http_unavailable "hubtel: " status)
              else if (status >=? 400)%Z then Err (Fresh ("hubtel: " ^^ extractHubtelReason respBody status))
              else match read_hubtel respBody with
                   | Ok hr =>
                       if code_in payout_codes (hr_ResponseCode hr) then Ok tt
                       else Err (Fresh ("hubtel: payout failed: " ^^ hr_ResponseText hr))
                   | Err _ => Ok tt
                   end
          end).

Definition Hubtel_client a : AggregatorClient W := {|
  Initiate := hubtel_Initiate a; Verify := hubtel_Verify a;
  Refund := hubtel_Refund a; Payout := hubtel_Payout a |}.
End hubtel.
