(* ===== verification/PaystackAdapter.v ===== *)
(** * internal/gateway/paystack.go: the Paystack adapter

    Every method of [PaystackAdapter].  Logging and tracing are not modelled. *)
From S2P Require Import Prelude GoStrings Json JsonCodec Money Reference Config Gateway Cedis Http.
From Stdlib Require Import Ascii.

Record PaystackAdapter := { pa_cfg : PaystackConfig; pa_callbackURL : string }.

Definition WithPaystackBaseURL (u : string) (a : PaystackAdapter) : PaystackAdapter :=
  {| pa_cfg := {| SecretKey := SecretKey (pa_cfg a); P_BaseURL := TrimRight u "/" |};
     pa_callbackURL := pa_callbackURL a |}.
Definition WithPaystackCallbackURL (u : string) (a : PaystackAdapter) : PaystackAdapter :=
  {| pa_cfg := pa_cfg a; pa_callbackURL := u |}.

Definition NewPaystackAdapter (cfg : PaystackConfig) (opts : list (PaystackAdapter -> PaystackAdapter))
    : PaystackAdapter :=
  let cfg := if String.eqb (P_BaseURL cfg) ""
             then {| SecretKey := SecretKey cfg; P_BaseURL := "https://api.paystack.co" |} else cfg in
  fold_left (fun a opt => opt a) opts {| pa_cfg := cfg; pa_callbackURL := "" |}.

(** ** What Paystack answers *)
Record paystackInitData := { pi_AuthorizationURL : string; pi_AccessCode : string; pi_Reference : string }.
Record paystackInitResponse := { pi_Status : bool; pi_Message : string; pi_Data : paystackInitData }.

Definition paystackInitData_zero : paystackInitData :=
  {| pi_AuthorizationURL := ""; pi_AccessCode := ""; pi_Reference := "" |}.
Definition paystackInitResponse_zero : paystackInitResponse :=
  {| pi_Status := false; pi_Message := ""; pi_Data := paystackInitData_zero |}.

Definition dec_paystackInitData : decoder paystackInitData := dec_struct false [
  ("authorization_url", dec_field pi_AuthorizationURL (fun x d => {| pi_AuthorizationURL := x; pi_AccessCode := pi_AccessCode d; pi_Reference := pi_Reference d |}) dec_string);
  ("access_code", dec_field pi_AccessCode (fun x d => {| pi_AuthorizationURL := pi_AuthorizationURL d; pi_AccessCode := x; pi_Reference := pi_Reference d |}) dec_string);
  ("reference", dec_field pi_Reference (fun x d => {| pi_AuthorizationURL := pi_AuthorizationURL d; pi_AccessCode := pi_AccessCode d; pi_Reference := x |}) dec_string)].

Definition dec_paystackInitResponse : decoder paystackInitResponse := dec_struct false [
  ("status", dec_field pi_Status (fun x r => {| pi_Status := x; pi_Message := pi_Message r; pi_Data := pi_Data r |}) dec_bool);
  ("message", dec_field pi_Message (fun x r => {| pi_Status := pi_Status r; pi_Message := x; pi_Data := pi_Data r |}) dec_string);
  ("data", dec_field pi_Data (fun x r => {| pi_Status := pi_Status r; pi_Message := pi_Message r; pi_Data := x |}) dec_paystackInitData)].

Record paystackVerifyData := {
  pv_Status : string; pv_Reference : string; pv_Amount : Z; pv_Currency : string }.
Record paystackVerifyResponse := { pv_OK : bool; pv_Message : string; pv_Data : paystackVerifyData }.

Definition paystackVerifyData_zero : paystackVerifyData :=
  {| pv_Status := ""; pv_Reference := ""; pv_Amount := 0; pv_Currency := "" |}.
Definition paystackVerifyResponse_zero : paystackVerifyResponse :=
  {| pv_OK := false; pv_Message := ""; pv_Data := paystackVerifyData_zero |}.

Definition dec_paystackVerifyData : decoder paystackVerifyData := dec_struct false [
  ("status", dec_field pv_Status (fun x d => {| pv_Status := x; pv_Reference := pv_Reference d; pv_Amount := pv_Amount d; pv_Currency := pv_Currency d |}) dec_string);
  ("reference", dec_field pv_Reference (fun x d => {| pv_Status := pv_Status d; pv_Reference := x; pv_Amount := pv_Amount d; pv_Currency := pv_Currency d |}) dec_string);
  ("amount", dec_field pv_Amount (fun x d => {| pv_Status := pv_Status d; pv_Reference := pv_Reference d; pv_Amount := x; pv_Currency := pv_Currency d |}) dec_int64);
  ("currency", dec_field pv_Currency (fun x d => {| pv_Status := pv_Status d; pv_Reference := pv_Reference d; pv_Amount := pv_Amount d; pv_Currency := x |}) dec_string)].

Definition dec_paystackVerifyResponse : decoder paystackVerifyResponse := dec_struct false [
  ("status", dec_field pv_OK (fun x r => {| pv_OK := x; pv_Message := pv_Message r; pv_Data := pv_Data r |}) dec_bool);
  ("message", dec_field pv_Message (fun x r => {| pv_OK := pv_OK r; pv_Message := x; pv_Data := pv_Data r |}) dec_string);
  ("data", dec_field pv_Data (fun x r => {| pv_OK := pv_OK r; pv_Message := pv_Message r; pv_Data := x |}) dec_paystackVerifyData)].

(** The answer to a refund: [Status] and [Message] only. *)
Definition dec_paystackRefund : decoder (bool * string) := dec_struct false [
  ("status", dec_field fst (fun x r => (x, r.2)) dec_bool);
  ("message", dec_field snd (fun x r => (r.1, x)) dec_string)].

(** The answer to a recipient creation: [Status], [Data.RecipientCode], [Message]. *)
Definition dec_recipientData : decoder string := dec_struct false [
  ("recipient_code", dec_field id (fun x _ => x) dec_string)].
Definition dec_recipient : decoder (bool * string * string) := dec_struct false [
  ("status", dec_field (fun r => r.1.1) (fun x r => (x, r.1.2, r.2)) dec_bool);
  ("data", dec_field (fun r => r.1.2) (fun x r => (r.1.1, x, r.2)) dec_recipientData);
  ("message", dec_field snd (fun x r => (r.1.1, r.1.2, x)) dec_string)].

Definition extractPaystackReason (body : string) (status : Z) : string :=
  match Unmarshal dec_paystackInitResponse paystackInitResponse_zero body with
  | Ok pr => if negb (String.eqb (pi_Message pr) "") then clip (pi_Message pr)
             else body_reason "paystack" body status
  | Err _ => body_reason "paystack" body status
  end.

Section paystack.
Context {W : Type} `{!Runtime W} `{!Transport W}.
Implicit Types a : PaystackAdapter.

Definition paystack_base a : string := TrimRight (P_BaseURL (pa_cfg a)) "/".
Definition paystack_auth a : string * string := ("Authorization", "Bearer " ^^ SecretKey (pa_cfg a)).
Definition paystack_post a (path body : string) : HttpRequest :=
  {| hq_Method := POST; hq_URL := paystack_base a ^^ path;
     hq_Header := [("Content-Type", "application/json"); ("Accept", "application/json"); paystack_auth a];
     hq_Body := body |}.
Definition paystack_get a (path : string) : HttpRequest :=
  {| hq_Method := GET; hq_URL := paystack_base a ^^ path;
     hq_Header := [paystack_auth a; ("Accept", "application/json")]; hq_Body := "" |}.
Definition paystack_send := send (W:=W) "paystack: request: " "paystack: ".
Definition paystack_disabled : error := Errorf "paystack: " ErrNotConfigured.

(** [paystackInitPayload]; the callback is never empty. *)
Definition paystackInitPayload a (req : InitiateRequest) : string := Marshal (JObj [
  ("email", JStr ("customer+" ^^ ir_Reference req ^^ "@orcta.pay"));
  ("amount", JNum (FormatInt (minorUnits (ir_Amount req))));
  ("reference", JStr (ir_Reference req));
  ("callback_url", JStr (if String.eqb (pa_callbackURL a) ""
                         then "https://api.pay.orctatech.com/webhooks/paystack" else pa_callbackURL a));
  ("currency", JStr "GHS");
  ("channels", JArr [JStr "mobile_money"; JStr "card"])]).

Definition paystack_accepted (req : InitiateRequest) (body respBody : string) : result InitiateResponse :=
  let resp ref url := {| is_ExternalRef := ref; is_Status := "pending"; is_AuthorizationURL := url;
                         is_RawRequest := body; is_RawResponse := respBody |} in
  match Unmarshal dec_paystackInitResponse paystackInitResponse_zero respBody with
  | Err _ => Ok (resp (ir_Reference req) "")
  | Ok pr =>
      if negb (pi_Status pr)
      then Err (Fresh ("paystack: " ^^ (if String.eqb (pi_Message pr) "" then "paystack declined" else pi_Message pr)))
      else
        let ref := pi_Reference (pi_Data pr) in
        Ok (resp (if String.eqb ref "" then ir_Reference req else ref) (pi_AuthorizationURL (pi_Data pr)))
  end.

Definition paystack_Initiate a (req : InitiateRequest) : Prog W (result InitiateResponse) :=
  if Paystack_Disabled (pa_cfg a) then mret (Err paystack_disabled)
  else
    let body := paystackInitPayload a req in
    res ← paystack_send (paystack_post a "/transaction/initialize" body);
    mret (match res with
          | Err err => Err err
          | Ok (status, respBody) =>
              if (status >=? 500)%Z then Err (http_unavailable "paystack: " status)
              else if (status >=? 400)%Z
              then Err (Fresh ("paystack: " ^^ extractPaystackReason respBody status))
              else paystack_accepted req body respBody
          end).

(** The [switch pr.Data.Status]. *)
Definition paystack_status (s : string) : string :=
  if String.eqb s "success" then "succeeded"
  else if String.eqb s "failed" || String.eqb s "abandoned" then "failed"
  else "pending".

Definition paystack_Verify a (reference : string) : Prog W (result VerifyResult) :=
  if Paystack_Disabled (pa_cfg a) then mret (Err paystack_disabled)
  else
    res ← paystack_send (paystack_get a ("/transaction/verify/" ^^ reference));
    match res with
    | Err err => mret (Err err)
    | Ok (status, respBody) =>
        if (status >=? 500)%Z then mret (Err (http_unavailable "paystack: " status))
        else if (status >=? 400)%Z
        then mret (Err (Fresh ("paystack: " ^^ extractPaystackReason respBody status)))
        else match Unmarshal dec_paystackVerifyResponse paystackVerifyResponse_zero respBody with
             | Err _ => verified_now reference "pending" Money_zero
             | Ok pr =>
                 if negb (pv_OK pr) then verified_now reference "failed" Money_zero
                 else verified_now reference (paystack_status (pv_Status (pv_Data pr)))
                                   (New (pv_Amount (pv_Data pr)) GHS)
             end
    end.

Definition paystackRefundPayload (reference : string) (amount : Money) : string := Marshal (JObj [
  ("amount", JNum (FormatInt (minorUnits amount))); ("currency", JStr "GHS");
  ("transaction", JStr reference)]).

Definition paystack_Refund a (reference : string) (amount : Money) : Prog W (result unit) :=
  if Paystack_Disabled (pa_cfg a) then mret (Err paystack_disabled)
  else
    res ← paystack_send (paystack_post a "/refund" (paystackRefundPayload reference amount));
    mret (match res with
          | Err err => Err err
          | Ok (status, respBody) =>
              if (status >=? 500)%Z then Err (http_unavailable "paystack: " status)
              else if (status >=? 400)%Z
              then Err (Fresh ("paystack: " ^^ extractPaystackReason respBody status))
              else match Unmarshal dec_paystackRefund (false, "") respBody with
                   | Ok (false, message) =>
                       Err (Fresh ("paystack: " ^^
                         (if String.eqb message "" then "paystack refund declined" else message)))
                   | _ => Ok tt
                   end
          end).

(** The third header of the transfer calls comes in another order; [Set] on
    distinct names makes no difference of it. *)
Definition paystackRecipientPayload (recipient : string) : string := Marshal (JObj [
  ("type", JStr "mobile_money"); ("name", JStr recipient); ("account_number", JStr recipient);
  ("bank_code", JStr "MTN"); ("currency", JStr "GHS")]).

Definition createRecipient a (recipient : string) : Prog W (result string) :=
  res ← send (W:=W) "paystack: recipient request: " "paystack: "
          (paystack_post a "/transferrecipient" (paystackRecipientPayload recipient));
  mret (match res with
        | Err err => Err err
        | Ok (status, respBody) =>
            if (status >=? 500)%Z then Err (http_unavailable "paystack: recipient " status)
            else if (status >=? 400)%Z
            then Err (Fresh ("paystack: recipient: " ^^ extractPaystackReason respBody status))
            else match Unmarshal dec_recipient (false, "", "") respBody with
                 | Err _ => Ok recipient
                 | Ok (_, code, _) => Ok (if negb (String.eqb code "") then code else recipient)
                 end
        end).

Definition paystackTransferPayload (code : string) (amount : Money) (reference : string) : string :=
  Marshal (JObj [
    ("source", JStr "balance"); ("amount", JNum (FormatInt (minorUnits amount)));
    ("recipient", JStr code); ("reason", JStr reference); ("currency", JStr "GHS");
    ("reference", JStr reference)]).

Definition paystack_Payout a (recipient : string) (amount : Money) (reference : string)
    : Prog W (result unit) :=
  if Paystack_Disabled (pa_cfg a) then mret (Err paystack_disabled)
  else
    rc ← createRecipient a recipient;
    match rc with
    | Err err => mret (Err err)
    | Ok code =>
        res ← paystack_send (paystack_post a "/transfer" (paystackTransferPayload code amount reference));
        mret (match res with
              | Err err => Err err
              | Ok (status, respBody) =>
                  if (status >=? 500)%Z then Err (http_unavailable "paystack: " status)
                  else if (status >=? 400)%Z
                  then Err (Fresh ("paystack: " ^^ extractPaystackReason respBody status))
                  else Ok tt
              end)
    end.

Definition Paystack_client a : AggregatorClient W := {|
  Initiate := paystack_Initiate a; Verify := paystack_Verify a;
  Refund := paystack_Refund a; Payout := paystack_Payout a |}.
End paystack.
