(* ===== verification/MoolreAdapter.v ===== *)
(** * internal/gateway/moolre.go: the Moolre adapter

    Every method of [MoolreAdapter], and [PayoutBulk].  Logging and tracing
    are not modelled. *)
From S2P Require Import Prelude GoStrings Strconv Json JsonCodec Money Reference Config Gateway Cedis Http.
From Stdlib Require Import Ascii Floats.SpecFloat.

Record MoolreAdapter := { ma_cfg : MoolreConfig; ma_callbackURL : string }.

Definition with_M_BaseURL (u : string) (c : MoolreConfig) : MoolreConfig :=
  {| APIUser := APIUser c; MAPIKey := MAPIKey c; APIPubKey := APIPubKey c;
     AccountNumber := AccountNumber c; M_BaseURL := u |}.
Definition WithMoolreBaseURL (u : string) (a : MoolreAdapter) : MoolreAdapter :=
  {| ma_cfg := with_M_BaseURL (TrimRight u "/") (ma_cfg a); ma_callbackURL := ma_callbackURL a |}.

Definition NewMoolreAdapter (cfg : MoolreConfig) (callbackBaseURL : string)
    (opts : list (MoolreAdapter -> MoolreAdapter)) : MoolreAdapter :=
  let cfg := if String.eqb (M_BaseURL cfg) "" then with_M_BaseURL "https://api.moolre.com" cfg else cfg in
  let callbackURL := if negb (String.eqb callbackBaseURL "")
                     then TrimRight callbackBaseURL "/" ^^ "/webhooks/moolre" else "" in
  fold_left (fun a opt => opt a) opts {| ma_cfg := cfg; ma_callbackURL := callbackURL |}.

(** ** What Moolre answers *)
Record moolreEnvelope := {
  env_Status : json; env_Code : string; env_Message : string; env_Data : option json }.
Definition moolreEnvelope_zero : moolreEnvelope :=
  {| env_Status := JNull; env_Code := ""; env_Message := ""; env_Data := None |}.

Definition dec_moolreEnvelope : decoder moolreEnvelope := dec_struct false [
  ("status", dec_field env_Status (fun x e => {| env_Status := x; env_Code := env_Code e; env_Message := env_Message e; env_Data := env_Data e |}) dec_any);
  ("code", dec_field env_Code (fun x e => {| env_Status := env_Status e; env_Code := x; env_Message := env_Message e; env_Data := env_Data e |}) dec_string);
  ("message", dec_field env_Message (fun x e => {| env_Status := env_Status e; env_Code := env_Code e; env_Message := x; env_Data := env_Data e |}) dec_string);
  ("data", dec_field env_Data (fun x e => {| env_Status := env_Status e; env_Code := env_Code e; env_Message := env_Message e; env_Data := x |}) dec_raw)].

Definition read_moolre (body : string) : result moolreEnvelope :=
  Unmarshal dec_moolreEnvelope moolreEnvelope_zero body.

Record moolreLinkData := { ml_AuthorizationURL : string; ml_Reference : string }.
Definition dec_moolreLinkData : decoder moolreLinkData := dec_struct false [
  ("authorization_url", dec_field ml_AuthorizationURL (fun x d => {| ml_AuthorizationURL := x; ml_Reference := ml_Reference d |}) dec_string);
  ("reference", dec_field ml_Reference (fun x d => {| ml_AuthorizationURL := ml_AuthorizationURL d; ml_Reference := x |}) dec_string)].

Record moolreStatusData := {
  ms_TxStatus : Z; ms_TxType : Z; ms_Payer : string; ms_Payee : string; ms_Amount : string;
  ms_TransactionID : string; ms_ExternalRef : string; ms_ThirdPartyRef : string; ms_TS : string }.
Definition moolreStatusData_zero : moolreStatusData :=
  {| ms_TxStatus := 0; ms_TxType := 0; ms_Payer := ""; ms_Payee := ""; ms_Amount := "";
     ms_TransactionID := ""; ms_ExternalRef := ""; ms_ThirdPartyRef := ""; ms_TS := "" |}.

(** Every text field but [TxStatus] and [TxType] is only checked for its type. *)
Definition set_texts (ts : list string) (d : moolreStatusData) : moolreStatusData :=
  match ts with
  | [a; b; c; e; f; g; h] =>
      {| ms_TxStatus := ms_TxStatus d; ms_TxType := ms_TxType d; ms_Payer := a; ms_Payee := b;
         ms_Amount := c; ms_TransactionID := e; ms_ExternalRef := f; ms_ThirdPartyRef := g; ms_TS := h |}
  | _ => d
  end.
Definition texts (d : moolreStatusData) : list string :=
  [ms_Payer d; ms_Payee d; ms_Amount d; ms_TransactionID d; ms_ExternalRef d; ms_ThirdPartyRef d; ms_TS d].
Definition dec_text (i : nat) : decoder moolreStatusData :=
  dec_field (fun d => nth i (texts d) "") (fun x d => set_texts (<[i := x]> (texts d)) d) dec_string.

Definition dec_moolreStatusData : decoder moolreStatusData := dec_struct false [
  ("txstatus", dec_field ms_TxStatus (fun x d => {| ms_TxStatus := x; ms_TxType := ms_TxType d; ms_Payer := ms_Payer d; ms_Payee := ms_Payee d; ms_Amount := ms_Amount d; ms_TransactionID := ms_TransactionID d; ms_ExternalRef := ms_ExternalRef d; ms_ThirdPartyRef := ms_ThirdPartyRef d; ms_TS := ms_TS d |}) dec_int64);
  ("txtype", dec_field ms_TxType (fun x d => {| ms_TxStatus := ms_TxStatus d; ms_TxType := x; ms_Payer := ms_Payer d; ms_Payee := ms_Payee d; ms_Amount := ms_Amount d; ms_TransactionID := ms_TransactionID d; ms_ExternalRef := ms_ExternalRef d; ms_ThirdPartyRef := ms_ThirdPartyRef d; ms_TS := ms_TS d |}) dec_int64);
  ("payer", dec_text 0); ("payee", dec_text 1); ("amount", dec_text 2); ("transactionid", dec_text 3);
  ("externalref", dec_text 4); ("thirdpartyref", dec_text 5); ("ts", dec_text 6)].

(** [v] is what [any] holds: a [float64] for a number. *)
Definition moolreStatusSuccess (v : json) : bool :=
  match v with
  | JNum lit => match ParseFloat lit with (f, None) => SFeqb f (SFone 53 1024) | (_, Some _) => false end
  | JStr s => String.eqb s "1"
  | _ => false
  end.

Definition moolreAmount (m : Money) : string := cedis m.

Definition extractMoolreReason (body : string) (status : Z) : string :=
  match read_moolre body with
  | Ok env => if negb (String.eqb (env_Message env) "") then clip (env_Message env)
              else body_reason "moolre" body status
  | Err _ => body_reason "moolre" body status
  end.

Section moolre.
Context {W : Type} `{!Runtime W} `{!Transport W}.
Implicit Types a : MoolreAdapter.

Definition user a : string :=
  let c := ma_cfg a in
  if negb (String.eqb (APIUser c) "") then APIUser c
  else if negb (String.eqb (MAPIKey c) "") then MAPIKey c else APIPubKey c.
Definition pubKey a : string :=
  let c := ma_cfg a in if negb (String.eqb (APIPubKey c) "") then APIPubKey c else MAPIKey c.
Definition privKey a : string :=
  let c := ma_cfg a in if negb (String.eqb (MAPIKey c) "") then MAPIKey c else APIPubKey c.

Definition moolre_post a (path : string) (keys : list (string * string)) (body : string) : HttpRequest :=
  {| hq_Method := POST; hq_URL := TrimRight (M_BaseURL (ma_cfg a)) "/" ^^ path;
     hq_Header := [("Content-Type", "application/json"); ("Accept", "application/json");
                   ("X-API-USER", user a)] ++ keys;
     hq_Body := body |}.
Definition moolre_send := send (W:=W) "moolre: request: " "moolre: ".
Definition moolre_disabled : error := Errorf "moolre: " ErrNotConfigured.

(** A member tagged [omitempty]. *)
Definition omitempty (name value : string) : list (string * json) :=
  if String.eqb value "" then [] else [(name, JStr value)].

(** [moolrePayPayload]; [Callback] and [Reference] are never set. *)
Definition moolrePayPayload a (req : InitiateRequest) : string := Marshal (JObj ([
  ("type", JNum "1"); ("channel", JStr "13"); ("currency", JStr "GHS");
  ("payer", JStr (if String.eqb (ir_Wallet req) "" then "0240000000" else ir_Wallet req));
  ("amount", JStr (moolreAmount (ir_Amount req))); ("externalref", JStr (ir_Reference req))]
  ++ omitempty "accountnumber" (AccountNumber (ma_cfg a)))).

(** The external reference: the data when it is a string, or its [reference]. *)
Definition moolre_externalRef (req : InitiateRequest) (data : option json) : string :=
  match data with
  | None => ir_Reference req
  | Some _ =>
      let link :=
        match Unmarshal_raw dec_moolreLinkData {| ml_AuthorizationURL := ""; ml_Reference := "" |} data with
        | Ok link => if negb (String.eqb (ml_Reference link) "") then ml_Reference link else ir_Reference req
        | Err _ => ir_Reference req
        end in
      match Unmarshal_raw dec_string "" data with
      | Ok dataStr => if negb (String.eqb dataStr "") then dataStr else link
      | Err _ => link
      end
  end.

Definition moolre_accepted (req : InitiateRequest) (body respBody : string) : result InitiateResponse :=
  let resp ref := {| is_ExternalRef := ref; is_Status := "pending"; is_AuthorizationURL := "";
                     is_RawRequest := body; is_RawResponse := respBody |} in
  match read_moolre respBody with
  | Err _ => Ok (resp (ir_Reference req))
  | Ok env =>
      if negb (moolreStatusSuccess (env_Status env)) then
        let reason := env_Message env in
        let reason := if String.eqb reason "" then env_Code env else reason in
        let reason := if String.eqb reason "" then "moolre declined" else reason in
        Err (Fresh ("moolre: " ^^ reason))
      else Ok (resp (moolre_externalRef req (env_Data env)))
  end.

Definition moolre_Initiate a (req : InitiateRequest) : Prog W (result InitiateResponse) :=
  if Moolre_Disabled (ma_cfg a) then mret (Err moolre_disabled)
  else
    let body := moolrePayPayload a req in
    res ← moolre_send (moolre_post a "/open/transact/payment" [("X-API-PUBKEY", pubKey a)] body);
    mret (match res with
          | Err err => Err err
          | Ok (status, respBody) =>
              if (status >=? 500)%Z then Err (http_unavailable "moolre: " status)
              else if (status >=? 400)%Z then Err (Fresh ("moolre: " ^^ extractMoolreReason respBody status))
              else moolre_accepted req body respBody
          end).

Definition moolreStatusPayload a (reference : string) : string := Marshal (JObj ([
  ("type", JNum "1"); ("idtype", JNum "1"); ("id", JStr reference)]
  ++ omitempty "accountnumber" (AccountNumber (ma_cfg a)))).

(** A header set only when its value is not empty. *)
Definition header_if (name value : string) : list (string * string) :=
  if String.eqb value "" then [] else [(name, value)].

Definition moolre_status a (reference : string) : HttpRequest :=
  moolre_post a "/open/transact/status"
    (header_if "X-API-KEY" (privKey a) ++ header_if "X-API-PUBKEY" (pubKey a))
    (moolreStatusPayload a reference).

Definition moolre_Verify a (reference : string) : Prog W (result VerifyResult) :=
  if Moolre_Disabled (ma_cfg a) then mret (Err moolre_disabled)
  else
    res ← moolre_send (moolre_status a reference);
    match res with
    | Err err => mret (Err err)
    | Ok (status, respBody) =>
        if (status >=? 500)%Z then mret (Err (http_unavailable "moolre: " status))
        else if (status >=? 400)%Z
        then mret (Err (Fresh ("moolre: http " ^^ FormatInt status ^^ ": " ^^ extractMoolreReason respBody status)))
        else match read_moolre respBody with
             | Err _ => verified_now reference "pending" Money_zero
             | Ok env =>
                 if negb (moolreStatusSuccess (env_Status env)) then verified_now reference "failed" Money_zero
                 else match Unmarshal_raw dec_moolreStatusData moolreStatusData_zero (env_Data env) with
                      | Err _ => verified_now reference "pending" Money_zero
                      | Ok data =>
                          verified_now reference
                            (if (ms_TxStatus data =? 1)%Z then "succeeded"
                             else if (ms_TxStatus data =? 2)%Z then "failed" else "pending") Money_zero
                      end
             end
    end.

Definition moolre_Refund a (reference : string) (amount : Money) : Prog W (result unit) :=
  mret (Err (if Moolre_Disabled (ma_cfg a) then moolre_disabled else Errorf "moolre: " ErrNotSupported)).

(** [moolreTransferPayload]; [SubListID] is never set. *)
Definition moolreTransferPayload a (recipient : string) (amount : Money) (reference : string) : string :=
  Marshal (JObj ([
    ("type", JNum "1"); ("channel", JStr "1"); ("currency", JStr "GHS");
    ("amount", JStr (moolreAmount amount)); ("receiver", JStr recipient); ("externalref", JStr reference)]
    ++ omitempty "reference" reference ++ omitempty "accountnumber" (AccountNumber (ma_cfg a)))).

Definition moolre_Payout a (recipient : string) (amount : Money) (reference : string) : Prog W (result unit) :=
  if Moolre_Disabled (ma_cfg a) then mret (Err moolre_disabled)
  else
    res ← moolre_send (moolre_post a "/open/transact/transfer" [("X-API-KEY", privKey a)]
            (moolreTransferPayload a recipient amount reference));
    mret (match res with
          | Err err => Err err
          | Ok (status, respBody) =>
              if (status >=? 500)%Z then Err (http_unavailable "moolre: " status)
              else if (status >=? 400)%Z then Err (Fresh ("moolre: " ^^ extractMoolreReason respBody status))
              else match read_moolre respBody with
                   | Err _ => Ok tt
                   | Ok env => if negb (moolreStatusSuccess (env_Status env))
                               then Err (Fresh ("moolre: payout failed: " ^^ env_Message env)) else Ok tt
                   end
          end).

Definition Moolre_client a : AggregatorClient W := {|
  Initiate := moolre_Initiate a; Verify := moolre_Verify a;
  Refund := moolre_Refund a; Payout := moolre_Payout a |}.

Record BulkPayoutEntry := { be_Recipient : string; be_Amount : Money; be_Reference : string }.
Record BulkPayoutResult := { br_Reference : string; br_Err : option error }.

Definition err_of (r : result unit) : option error := match r with Ok _ => None | Err e => Some e end.

Fixpoint bulk_loop a (entries : list BulkPayoutEntry) : Prog W (list BulkPayoutResult) :=
  match entries with
  | [] => mret []
  | e :: es =>
      err ← moolre_Payout a (be_Recipient e) (be_Amount e) (be_Reference e);
      rs ← bulk_loop a es;
      mret ({| br_Reference := be_Reference e; br_Err := err_of err |} :: rs)
  end.

Definition PayoutBulk a (entries : list BulkPayoutEntry) : Prog W (list BulkPayoutResult) :=
  if Moolre_Disabled (ma_cfg a)
  then mret (map (fun e => {| br_Reference := be_Reference e; br_Err := Some moolre_disabled |}) entries)
  else bulk_loop a entries.
End moolre.
