(* ===== verification/AdaptersSpec.v ===== *)
(** * The adapters on the wire

    What the three adapters put on the wire and what they conclude from the
    answers, over any transport that logs its exchanges ([TransportLog]); and
    the frame that lets the services' theorems be used with them. *)
From S2P Require Import Prelude GoStrings Json JsonCodec Crypto Money Reference Config Gateway Cedis Http.
From S2P Require Import HubtelAdapter PaystackAdapter MoolreAdapter.
From Stdlib Require Import Ascii.

(** One call of the client is one exchange. *)
Class TransportLog {W} `{!Transport W} (sent : W -> list (HttpRequest * result HttpResponse)) : Prop :=
  sent_Do req w : sent (client_Do req w).2 = sent w ++ [(req, (client_Do req w).1)].

(** The client leaves a view of the world alone. *)
Class TransportFrame {W V} `{!Transport W} (view : W -> V) : Prop :=
  frame_Do req w : view (client_Do req w).2 = view w.

Section frames.
Context {W V : Type} `{!Runtime W} `{!Transport W} (view : W -> V).
Context `{!RuntimeFrame view} `{!TransportFrame view}.

Lemma Preserves_send p q req : Preserves view (send (W:=W) p q req).
Proof.
  unfold send. destruct (bad_URL _); [guar|]. apply Guar_bind; [|intros; guar].
  apply Guar_call. intros w. apply frame_Do.
Qed.
#[local] Hint Resolve Preserves_send : guar.

Lemma Preserves_verified ref status m : Preserves view (verified_now (W:=W) ref status m).
Proof. unfold verified_now. guar. Qed.
#[local] Hint Resolve Preserves_verified : guar.

(** The production adapters meet the frame contract of the services. *)
#[export] Instance adapters_frame (ha : HubtelAdapter) (pa : PaystackAdapter) (ma : MoolreAdapter) :
  AdaptersFrame (<[GatewayHubtel := Hubtel_client ha]> (<[GatewayPaystack := Paystack_client pa]>
    (<[GatewayMoolre := Moolre_client ma]> (∅ : gmap string (AggregatorClient W))))) view.
Proof.
  assert (H : forall g a, (<[GatewayHubtel := Hubtel_client ha]> (<[GatewayPaystack := Paystack_client pa]>
      (<[GatewayMoolre := Moolre_client ma]> (∅ : gmap string (AggregatorClient W))))) !! g = Some a ->
    a = Hubtel_client ha \/ a = Paystack_client pa \/ a = Moolre_client ma).
  { intros g a Hg. repeat (apply lookup_insert_Some in Hg as [[_ <-]|[_ Hg]]; [tauto|]). by rewrite lookup_empty in Hg. }
  split; intros * [-> | [-> | ->]]%H; simpl;
    unfold hubtel_Initiate, hubtel_Verify, hubtel_Refund, hubtel_Payout, hubtel_send,
      paystack_Initiate, paystack_Verify, paystack_Refund, paystack_Payout, paystack_send, createRecipient,
      moolre_Initiate, moolre_Verify, moolre_Refund, moolre_Payout, moolre_send; guar.
Qed.
End frames.

(** ** One call, one exchange *)
Section wire.
Context {W : Type} `{!Runtime W} `{!Transport W} (sent : W -> list (HttpRequest * result HttpResponse)).
Context `{!TransportLog sent} `{!RuntimeFrame sent}.

(** [rq], if its URL is one, is sent, once, whatever the state; the call
    succeeds exactly when it is answered below 400 with a body that [takes]
    accepts. *)
Definition Performs {A} (p : Prog W (result A)) (rq : HttpRequest) (takes : string -> bool) : Prop :=
  forall w, bad_URL (W:=W) (hq_URL rq) = None -> exists ans,
    sent (run p w).2 = sent w ++ [(rq, ans)] /\
    (is_Ok (run p w).1 = true <->
     exists resp, ans = Ok resp /\ (hr_StatusCode resp < 400)%Z /\
                  takes (read_limited body_limit (hr_Body resp)) = true).

(** The body is an object with these members. *)
Definition carries (rq : HttpRequest) (fields : list (string * json)) : Prop :=
  exists v, parse (hq_Body rq) = Some v /\ Forall (fun kv => member kv.1 v = Some kv.2) fields.

Lemma run_send p q rq w :
  bad_URL (W:=W) (hq_URL rq) = None -> run (send p q rq) w =
  (match (client_Do rq w).1 with
   | Err err => Err (Errorf q err)
   | Ok resp => Ok (hr_StatusCode resp, read_limited body_limit (hr_Body resp))
   end, (client_Do rq w).2).
Proof. intros Hurl. unfold send. rewrite Hurl. by run_simpl. Qed.

(** A method that sends [rq] and judges the status before the body. *)
Lemma Performs_send {A} p q rq (un : Z -> error) (refuse : Z -> string -> error)
    (judge : string -> result A) takes :
  (forall b, is_Ok (judge b) = takes b) ->
  Performs (res ← send p q rq;
            mret (match res with
                  | Err err => Err err
                  | Ok (status, body) =>
                      if (status >=? 500)%Z then Err (un status)
                      else if (status >=? 400)%Z then Err (refuse status body) else judge body
                  end)) rq takes.
Proof.
  intros Hj w Hurl. exists (client_Do rq w).1. rewrite run_bind, run_send, run_ret by done. cbn [fst snd].
  split; [apply sent_Do|]. destruct (client_Do rq w).1 as [resp|err]; cbn [fst snd].
  - rewrite !Z.geb_leb. destruct (Z.leb_spec 500 (hr_StatusCode resp)).
    { split; [done|]. intros (r & [= <-] & ? & _). lia. }
    destruct (Z.leb_spec 400 (hr_StatusCode resp)).
    { split; [done|]. intros (r & [= <-] & ? & _). lia. }
    rewrite Hj. split; [eauto|]. by intros (r & [= <-] & _ & ?).
  - split; [done|]. by intros (r & ? & _).
Qed.

(** A body that can be read must say yes; one that cannot is taken for a yes. *)
Definition yes_or_unreadable {A} (read : string -> result A) (yes : A -> bool) (body : string) : bool :=
  match read body with Ok v => yes v | Err _ => true end.
Definition hubtel_takes (codes : list string) : string -> bool :=
  yes_or_unreadable read_hubtel (fun hr => code_in codes (hr_ResponseCode hr)).
Definition paystack_takes : string -> bool :=
  yes_or_unreadable (Unmarshal dec_paystackInitResponse paystackInitResponse_zero) pi_Status.
Definition moolre_takes : string -> bool :=
  yes_or_unreadable read_moolre (fun env => moolreStatusSuccess (env_Status env)).

(** A marshalled object with plain names carries its members' values. *)
Lemma carries_obj rq ms fields :
  hq_Body rq = Marshal (JObj ms) -> literals_ok (JObj ms) -> (height (JObj ms) <= maxNestingDepth)%N ->
  forallb (fun kv => ascii_only kv.1) ms = true ->
  Forall (fun kv => Sanitize <$> assoc kv.1 ms = Some kv.2) fields -> carries rq fields.
Proof.
  intros Hb Hl Hh Ha Hf. eexists. split; [rewrite Hb; by apply parse_Marshal|].
  eapply Forall_impl; [|exact Hf]. intros kv Hkv. by rewrite member_Sanitize.
Qed.

Lemma omitempty_cases n v : omitempty n v = [] \/ omitempty n v = [(n, JStr v)].
Proof. unfold omitempty. destruct (String.eqb v ""); auto. Qed.

(** Closes the side conditions of [carries_obj] for a concrete payload. *)
Ltac payload :=
  repeat match goal with |- context [omitempty ?n ?v] => destruct (omitempty_cases n v) as [-> | ->] end;
  (eapply carries_obj;
    [ reflexivity
    | simpl; repeat split; exact (FormatInt_literal _) || exact (FormatInt_literal 1)
    | by vm_compute | reflexivity
    | repeat constructor; simpl; unfold hubtelAmount, moolreAmount; congruence ]).

Lemma hubtel_Initiate_performs ha req :
  Hubtel_Disabled (ha_cfg ha) = false ->
  Performs (hubtel_Initiate ha req) (hubtel_post ha "/receive/initiate" (hubtelReceivePayload ha req))
    (hubtel_takes charge_codes).
Proof.
  intros Hen. unfold hubtel_Initiate. rewrite Hen. apply Performs_send. intros b.
  unfold hubtel_accepted, hubtel_takes, yes_or_unreadable. destruct (read_hubtel b); [|done]. by destruct (code_in _ _).
Qed.

Lemma paystack_Initiate_performs pa req :
  Paystack_Disabled (pa_cfg pa) = false ->
  Performs (paystack_Initiate pa req) (paystack_post pa "/transaction/initialize" (paystackInitPayload pa req))
    paystack_takes.
Proof.
  intros Hen. unfold paystack_Initiate. rewrite Hen. apply Performs_send. intros b.
  unfold paystack_accepted, paystack_takes, yes_or_unreadable. destruct (Unmarshal _ _ b) as [pr|]; [|done]. by destruct (pi_Status pr).
Qed.

Lemma moolre_Initiate_performs ma req :
  Moolre_Disabled (ma_cfg ma) = false ->
  Performs (moolre_Initiate ma req)
    (moolre_post ma "/open/transact/payment" [("X-API-PUBKEY", pubKey ma)] (moolrePayPayload ma req))
    moolre_takes.
Proof.
  intros Hen. unfold moolre_Initiate. rewrite Hen. apply Performs_send. intros b.
  unfold moolre_accepted, moolre_takes, yes_or_unreadable. destruct (read_moolre b) as [env|]; [|done].
  by destruct (moolreStatusSuccess _).
Qed.


(** *** Payouts *)

Lemma Performs_ext {A} (p : Prog W (result A)) rq t t' :
  (forall b, t b = t' b) -> Performs p rq t -> Performs p rq t'.
Proof. intros Ht Hp w Hu. destruct (Hp w Hu) as (ans & Hs & Hi). exists ans. split; [done|]. rewrite Hi. by setoid_rewrite Ht. Qed.

Lemma hubtel_Payout_performs ha to m ref :
  Hubtel_Disabled (ha_cfg ha) = false ->
  Performs (hubtel_Payout ha to m ref) (hubtel_post ha "/send/money" (hubtelSendPayload ha to m ref))
    (hubtel_takes payout_codes).
Proof.
  intros Hen. unfold hubtel_Payout. rewrite Hen. apply Performs_send. intros b. unfold hubtel_takes, yes_or_unreadable.
  destruct (read_hubtel b); [|done]. by destruct (code_in _ _).
Qed.

Lemma moolre_Payout_performs ma to m ref :
  Moolre_Disabled (ma_cfg ma) = false ->
  Performs (moolre_Payout ma to m ref)
    (moolre_post ma "/open/transact/transfer" [("X-API-KEY", privKey ma)] (moolreTransferPayload ma to m ref))
    moolre_takes.
Proof.
  intros Hen. unfold moolre_Payout. rewrite Hen. apply Performs_send. intros b. unfold moolre_takes, yes_or_unreadable.
  destruct (read_moolre b); [|done]. by destruct (moolreStatusSuccess _).
Qed.

Lemma createRecipient_performs pa to :
  Performs (createRecipient pa to) (paystack_post pa "/transferrecipient" (paystackRecipientPayload to))
    (fun _ => true).
Proof.
  unfold createRecipient. apply Performs_send. intros b. by destruct (Unmarshal _ _ b) as [[[] ]|].
Qed.

(** Paystack takes two exchanges: a recipient code, then the transfer.  The
    body of the transfer's answer is not read. *)
Lemma paystack_Payout_exchanges pa to m ref w :
  Paystack_Disabled (pa_cfg pa) = false ->
  bad_URL (W:=W) (paystack_base pa ^^ "/transferrecipient") = None ->
  bad_URL (W:=W) (paystack_base pa ^^ "/transfer") = None ->
  let out := run (paystack_Payout pa to m ref) w in
  let rq1 := paystack_post pa "/transferrecipient" (paystackRecipientPayload to) in
  exists ans1,
    (is_Ok out.1 = false /\ sent out.2 = sent w ++ [(rq1, ans1)]) \/
    (exists code ans2,
       sent out.2 = sent w ++ [(rq1, ans1);
         (paystack_post pa "/transfer" (paystackTransferPayload code m ref), ans2)] /\
       (is_Ok out.1 = true <-> exists resp, ans2 = Ok resp /\ (hr_StatusCode resp < 400)%Z)).
Proof.
  intros Hen Hu1 Hu2 out rq1. subst out. unfold paystack_Payout. rewrite Hen, run_bind.
  destruct (createRecipient_performs pa to w Hu1) as (ans1 & Hs1 & _). exists ans1.
  destruct (run (createRecipient pa to) w) as [[code|err] w1]; cbn [fst snd] in *; [right|left; done].
  assert (Hp : Performs (res ← paystack_send (paystack_post pa "/transfer" (paystackTransferPayload code m ref));
      mret (match res with
            | Err err => Err err
            | Ok (status, respBody) =>
                if (status >=? 500)%Z then Err (http_unavailable "paystack: " status)
                else if (status >=? 400)%Z
                then Err (Fresh ("paystack: " ^^ extractPaystackReason respBody status))
                else Ok tt
            end)) (paystack_post pa "/transfer" (paystackTransferPayload code m ref)) (fun _ => true)).
  { apply (Performs_send "paystack: request: " "paystack: " _ (http_unavailable "paystack: ") _ (fun _ => Ok tt)). done. }
  destruct (Hp w1 Hu2) as (ans2 & Hs2 & Hok). exists code, ans2. rewrite Hs2, Hs1, <- app_assoc. split; [done|].
  rewrite Hok. split; [intros (r & ? & ? & _) | intros (r & ? & ?)]; eauto.
Qed.

(** An enabled adapter's [Payout] carries the recipient, the reference and
    exactly the amount, and reports success for Hubtel and Moolre exactly
    when the one exchange is answered below 400 without declining, for
    Paystack exactly when the transfer that follows the creation of the
    recipient is answered below 400, whatever its body says. *)
Theorem Payout_on_the_wire ha pa ma to m ref :
  Hubtel_Disabled (ha_cfg ha) = false -> Paystack_Disabled (pa_cfg pa) = false ->
  Moolre_Disabled (ma_cfg ma) = false ->
  bad_URL (W:=W) (paystack_base pa ^^ "/transferrecipient") = None ->
  bad_URL (W:=W) (paystack_base pa ^^ "/transfer") = None ->
  sanitize ref = ref -> sanitize to = to -> (Z.abs (minorUnits m) < 2 ^ 51)%Z ->
  (exists rq, Performs (Payout (Hubtel_client ha) to m ref) rq (hubtel_takes payout_codes) /\
     carries rq [("ClientReference", JStr ref); ("RecipientMsisdn", JStr to); ("Amount", JStr (cedis m))]) /\
  (exists rq, Performs (Payout (Moolre_client ma) to m ref) rq moolre_takes /\
     carries rq [("externalref", JStr ref); ("receiver", JStr to); ("amount", JStr (cedis m))]) /\
  (forall w, let out := run (Payout (Paystack_client pa) to m ref) w in
     exists rq1 ans1, carries rq1 [("account_number", JStr to)] /\
       ((is_Ok out.1 = false /\ sent out.2 = sent w ++ [(rq1, ans1)]) \/
        (exists rq2 ans2, sent out.2 = sent w ++ [(rq1, ans1); (rq2, ans2)] /\
           carries rq2 [("reference", JStr ref); ("amount", JNum (FormatInt (minorUnits m)))] /\
           (is_Ok out.1 = true <-> exists resp, ans2 = Ok resp /\ (hr_StatusCode resp < 400)%Z)))).
Proof.
  intros Hh Hp Hm Hu1 Hu2 Href Hto Hamt. assert (Hc := sanitize_ascii _ (cedis_ascii _ Hamt)). split_and!.
  - eexists. split; [by apply hubtel_Payout_performs|]. unfold hubtelSendPayload. payload.
  - eexists. split; [by apply moolre_Payout_performs|]. unfold moolreTransferPayload. payload.
  - intros w. destruct (paystack_Payout_exchanges pa to m ref w Hp Hu1 Hu2) as (ans1 & Hx).
    exists (paystack_post pa "/transferrecipient" (paystackRecipientPayload to)), ans1.
    split; [unfold paystackRecipientPayload; payload|].
    destruct Hx as [Hx|(code & ans2 & Hs & Hok)]; [by left|right].
    eexists _, ans2. split; [exact Hs|]. split; [|exact Hok]. unfold paystackTransferPayload. payload.
Qed.

(** *** Verification *)

(** [rq] is sent, once; the answer is about [ref], and is a success exactly
    when a body answered below 400 has [told] so. *)
Definition Verifies (p : Prog W (result VerifyResult)) (rq : HttpRequest) (ref : string)
    (told : string -> Prop) : Prop :=
  forall w, bad_URL (W:=W) (hq_URL rq) = None -> exists ans,
    sent (run p w).2 = sent w ++ [(rq, ans)] /\
    forall v, (run p w).1 = Ok v ->
      vr_Reference v = ref /\
      (vr_Status v = "succeeded" <->
       exists resp, ans = Ok resp /\ (hr_StatusCode resp < 400)%Z /\
                    told (read_limited body_limit (hr_Body resp))).

Definition hubtel_told (body : string) : Prop :=
  exists hr, read_hubtel body = Ok hr /\
    (ToLower (hd_Status (hr_Data hr)) = "success" \/
     ToLower (hr_Status hr) ∈ ["success"; "successful"; "completed"]).
Definition paystack_told (body : string) : Prop :=
  exists pr, Unmarshal dec_paystackVerifyResponse paystackVerifyResponse_zero body = Ok pr /\
    pv_OK pr = true /\ pv_Status (pv_Data pr) = "success".
Definition moolre_told (body : string) : Prop :=
  exists env d, read_moolre body = Ok env /\ moolreStatusSuccess (env_Status env) = true /\
    Unmarshal_raw dec_moolreStatusData moolreStatusData_zero (env_Data env) = Ok d /\ ms_TxStatus d = 1%Z.

Lemma run_verified ref status m w :
  exists now, run (verified_now (W:=W) ref status m) w
    = (Ok {| vr_Reference := ref; vr_Status := status; vr_Amount := m; vr_VerifiedAt := now |}, (rt_now w).2).
Proof. eexists. unfold verified_now, time_Now. by run_simpl. Qed.

(** A method that sends [rq], refuses answers from 400 up (or calls a 404
    pending), and judges the body of the others. *)
Lemma Verifies_send p q rq ref (pending404 : bool) (un : Z -> error) (refuse : Z -> string -> error)
    (judge : string -> Prog W (result VerifyResult)) (told : string -> Prop) :
  (forall b, exists s m, judge b = verified_now ref s m /\ (s = "succeeded" <-> told b)) ->
  Verifies (res ← send p q rq;
            match res with
            | Err err => mret (Err err)
            | Ok (status, body) =>
                if (status >=? 500)%Z then mret (Err (un status))
                else if pending404 && (status =? 404)%Z then verified_now ref "pending" Money_zero
                else if (status >=? 400)%Z then mret (Err (refuse status body))
                else judge body
            end) rq ref told.
Proof.
  intros Ht w Hurl. exists (client_Do rq w).1. rewrite run_bind, run_send by done. cbn [fst snd].
  pose proof (sent_Do rq w) as Hs. set (w1 := (client_Do rq w).2) in *.
  destruct (client_Do rq w).1 as [resp|err]; cbn [fst snd]; [|by split; [|intros v [=]]].
  assert (Hv : forall status m, sent (run (verified_now ref status m) w1).2 = sent w1)
    by (intros status m; destruct (run_verified ref status m w1) as [now ->]; apply frame_now).
  rewrite !Z.geb_leb. destruct (Z.leb_spec 500 (hr_StatusCode resp)); [by split; [|intros v [=]]|].
  destruct (pending404 && (hr_StatusCode resp =? 404)%Z) eqn:E404.
  { rewrite Hv. split; [done|]. intros v. destruct (run_verified ref "pending" Money_zero w1) as [now ->].
    intros [= <-]. cbn. split; [done|]. split; [done|]. intros (r & [= <-] & ? & _).
    apply andb_true_iff in E404 as [_ E404]. apply Z.eqb_eq in E404. lia. }
  destruct (Z.leb_spec 400 (hr_StatusCode resp)); [by split; [|intros v [=]]|].
  destruct (Ht (read_limited body_limit (hr_Body resp))) as (s & m & -> & Hst).
  rewrite Hv. split; [done|]. intros v. destruct (run_verified ref s m w1) as [now ->].
  intros [= <-]. cbn. split; [done|]. rewrite Hst. split; [eauto|]. by intros (r & [= <-] & _ & ?).
Qed.

Lemma hubtel_status_succeeded hr :
  hubtel_status hr = "succeeded" <->
  (ToLower (hd_Status (hr_Data hr)) = "success" \/ ToLower (hr_Status hr) ∈ ["success"; "successful"; "completed"]).
Proof.
  unfold hubtel_status. rewrite !elem_of_cons, elem_of_nil.
  destruct (String.eqb_spec (ToLower (hd_Status (hr_Data hr))) "success"); [tauto|].
  destruct (String.eqb_spec (ToLower (hr_Status hr)) "success"); [tauto|].
  destruct (String.eqb_spec (ToLower (hr_Status hr)) "successful"); [tauto|].
  destruct (String.eqb_spec (ToLower (hr_Status hr)) "completed"); [tauto|]. simpl.
  split; [by destruct (_ || _) | tauto].
Qed.

Lemma hubtel_Verify_verifies ha ref :
  Hubtel_Disabled (ha_cfg ha) = false -> Verifies (hubtel_Verify ha ref) (hubtel_get ha ("/transactions/" ^^ ref)) ref hubtel_told.
Proof.
  intros Hen. unfold hubtel_Verify. rewrite Hen.
  refine (Verifies_send "hubtel: request: " "hubtel: " _ ref true (http_unavailable "hubtel: ") _
    (fun b => match read_hubtel b with Err _ => verified_now ref "pending" Money_zero
              | Ok hr => verified_now ref (hubtel_status hr) Money_zero end) _ _).
  intros b. unfold hubtel_told. destruct (read_hubtel b) as [hr|err].
  - exists (hubtel_status hr), Money_zero. split; [done|]. rewrite hubtel_status_succeeded. naive_solver.
  - exists "pending", Money_zero. split; [done|]. naive_solver.
Qed.

Lemma paystack_Verify_verifies pa ref :
  Paystack_Disabled (pa_cfg pa) = false -> Verifies (paystack_Verify pa ref) (paystack_get pa ("/transaction/verify/" ^^ ref)) ref paystack_told.
Proof.
  intros Hen. unfold paystack_Verify. rewrite Hen.
  refine (Verifies_send "paystack: request: " "paystack: " _ ref false (http_unavailable "paystack: ") _
    (fun b => match Unmarshal dec_paystackVerifyResponse paystackVerifyResponse_zero b with
              | Err _ => verified_now ref "pending" Money_zero
              | Ok pr => if negb (pv_OK pr) then verified_now ref "failed" Money_zero
                         else verified_now ref (paystack_status (pv_Status (pv_Data pr)))
                                (New (pv_Amount (pv_Data pr)) GHS) end) _ _).
  intros b. unfold paystack_told. destruct (Unmarshal _ _ b) as [pr|err].
  - destruct (pv_OK pr) eqn:Eok; simpl.
    + eexists _, _. split; [reflexivity|]. unfold paystack_status.
      destruct (String.eqb_spec (pv_Status (pv_Data pr)) "success"); [naive_solver|].
      split; [by destruct (_ || _) | naive_solver].
    + exists "failed", Money_zero. split; [done|]. split; [done|]. intros (? & [= <-] & ? & _). congruence.
  - exists "pending", Money_zero. split; [done|]. split; [done|]. by intros (? & ? & _).
Qed.

Lemma moolre_Verify_verifies ma ref :
  Moolre_Disabled (ma_cfg ma) = false -> Verifies (moolre_Verify ma ref) (moolre_status ma ref) ref moolre_told.
Proof.
  intros Hen. unfold moolre_Verify. rewrite Hen.
  refine (Verifies_send "moolre: request: " "moolre: " _ ref false (http_unavailable "moolre: ")
    (fun status b => Fresh ("moolre: http " ^^ FormatInt status ^^ ": " ^^ extractMoolreReason b status))
    (fun b => match read_moolre b with
     | Err _ => verified_now ref "pending" Money_zero
     | Ok env => if negb (moolreStatusSuccess (env_Status env)) then verified_now ref "failed" Money_zero
                 else match Unmarshal_raw dec_moolreStatusData moolreStatusData_zero (env_Data env) with
                      | Err _ => verified_now ref "pending" Money_zero
                      | Ok data =>
                          verified_now ref
                            (if (ms_TxStatus data =? 1)%Z then "succeeded"
                             else if (ms_TxStatus data =? 2)%Z then "failed" else "pending") Money_zero
                      end
     end) _ _).
  intros b. unfold moolre_told. destruct (read_moolre b) as [env|err];
    [|exists "pending", Money_zero; split; [done|]; split; [done|]; by intros (? & ? & ? & _)].
  destruct (moolreStatusSuccess (env_Status env)) eqn:Es; simpl;
    [|exists "failed", Money_zero; split; [done|]; split; [done|]; intros (? & ? & [= <-] & ? & _); congruence].
  destruct (Unmarshal_raw _ _ _) as [d|err] eqn:Ed;
    [|exists "pending", Money_zero; split; [done|]; split; [done|]; intros (? & ? & [= <-] & _ & ? & _); congruence].
  eexists _, _. split; [reflexivity|].
  destruct (Z.eqb_spec (ms_TxStatus d) 1); [split; [eauto 10 | done]|].
  split; [by destruct (_ =? 2)%Z | intros (? & ? & [= <-] & _ & ? & ?); congruence].
Qed.

(** C25: An enabled adapter's [Verify] makes exactly one exchange, which names
    the reference asked, answers about that reference, and reports
    "succeeded" exactly when the gateway answered below 400 with a body that
    says so in that gateway's terms: never for an unreadable body, a transport
    error or a refusal. *)
Theorem Verify_on_the_wire ha pa ma ref :
  Hubtel_Disabled (ha_cfg ha) = false -> Paystack_Disabled (pa_cfg pa) = false ->
  Moolre_Disabled (ma_cfg ma) = false -> sanitize ref = ref ->
  (exists rq, Verifies (Verify (Hubtel_client ha) ref) rq ref hubtel_told /\
     hq_URL rq = TrimRight (H_BaseURL (ha_cfg ha)) "/" ^^ "/transactions/" ^^ ref) /\
  (exists rq, Verifies (Verify (Paystack_client pa) ref) rq ref paystack_told /\
     hq_URL rq = TrimRight (P_BaseURL (pa_cfg pa)) "/" ^^ "/transaction/verify/" ^^ ref) /\
  (exists rq, Verifies (Verify (Moolre_client ma) ref) rq ref moolre_told /\
     carries rq [("id", JStr ref)]).
Proof.
  intros Hh Hp Hm Href. split_and!; eexists.
  - split; [by apply hubtel_Verify_verifies | done].
  - split; [by apply paystack_Verify_verifies | done].
  - split; [by apply moolre_Verify_verifies|]. unfold moolre_status, moolreStatusPayload. payload.
Qed.
End wire.
