(* ===== verification/Router.v ===== *)
(** * internal/gateway/router.go: ranking and fallback

    [ChargerRouter] with [Route], [InitiateWithFallback], [Adapter] and
    [RecordResult].  Metrics ([observability.Observe...]) are not modelled. *)
From S2P Require Import Prelude GoStrings Money Reference Gateway Config.

(** Any Go value implementing [HealthStore]; the two optional fields are the
    type assertions to [ResultRecorder] and [LatencyRecorder]. *)
Record HealthStore (W : Type) := {
  SuccessRate : Gateway -> Prog W (result float64);
  IsCircuitOpen : Gateway -> Prog W (result bool);
  P95Latency : Gateway -> Prog W (result Z);
  as_ResultRecorder : option (Gateway -> bool -> Prog W (result unit));
  as_LatencyRecorder : option (Gateway -> Z -> Prog W (result unit)) }.
Arguments SuccessRate {W} _ _.
Arguments IsCircuitOpen {W} _ _.
Arguments P95Latency {W} _ _.
Arguments as_ResultRecorder {W} _.
Arguments as_LatencyRecorder {W} _.

(** The health store leaves a view of the world alone. *)
Class HealthFrame {W V} (h : HealthStore W) (view : W -> V) : Prop := {
  frame_circuit g : Preserves view (IsCircuitOpen h g);
  frame_result f g ok : as_ResultRecorder h = Some f -> Preserves view (f g ok);
  frame_latency f g d : as_LatencyRecorder h = Some f -> Preserves view (f g d) }.

(** [IsCircuitOpen] answers from a table it does not change. *)
Class CircuitReads {W} (h : HealthStore W) (circuit : W -> Gateway -> result bool) : Prop := {
  circuit_answer g w : (run (IsCircuitOpen h g) w).1 = circuit w g;
  circuit_stable g w : circuit (run (IsCircuitOpen h g) w).2 = circuit w }.

Record ChargerRouter (W : Type) := {
  primary : Gateway;
  adapters : gmap string (AggregatorClient W);
  health : option (HealthStore W) }.
Arguments primary {W} _.
Arguments adapters {W} _.
Arguments health {W} _.

Section router.
Context {W : Type} `{!Runtime W}.
Implicit Types (r : ChargerRouter W) (g : Gateway) (w : W).

Definition NewChargerRouter (cfg : PaymentsConfig) (h : option (HealthStore W))
    (ads : gmap string (AggregatorClient W)) : ChargerRouter W :=
  {| primary := if Valid (Primary cfg) then Primary cfg else GatewayPaystack;
     adapters := ads; health := h |}.

(** The ranking before health is consulted. *)
Definition order r : list Gateway :=
  primary r ::
    filter (fun g => g <> primary r) [GatewayHubtel; GatewayPaystack; GatewayMoolre].

Fixpoint closed_circuits (h : HealthStore W) (gs : list Gateway) : Prog W (list Gateway) :=
  match gs with
  | [] => mret []
  | g :: gs' =>
      open ← IsCircuitOpen h g;
      out ← closed_circuits h gs';
      mret (match open with
            | Err _ | Ok true => out
            | Ok false => g :: out
            end)
  end.

Definition Route r : Prog W (list Gateway) :=
  match health r with
  | None => mret (order r)
  | Some h =>
      out ← closed_circuits h (order r);
      mret (match out with [] => order r | _ => out end)
  end.

Definition Adapter r g : option (AggregatorClient W) := adapters r !! g.

(** [latency] is the variadic argument: [None] when the call passes none. *)
Definition RecordResult r g (success : bool) (latency : option Z) : Prog W unit :=
  match health r with
  | None => mret tt
  | Some h =>
      _ ← match as_ResultRecorder h with
          | Some record => _ ← record g success; mret tt
          | None => mret tt
          end;
      match latency, as_LatencyRecorder h with
      | Some d, Some record =>
          if (d >? 0)%Z then _ ← record g d; mret tt else mret tt
      | _, _ => mret tt
      end
  end.

(** The reference an attempt at [g] carries. *)
Definition attempt_request (req : InitiateRequest) g : InitiateRequest :=
  match ParseReference (ir_Reference req) with
  | Some (product, _, ulid) => with_Reference (BuildReference product g ulid) req
  | None => req
  end.

(** The loop of [InitiateWithFallback]; [lastErr] is its variable. *)
Fixpoint fallback r (req : InitiateRequest) (gs : list Gateway) (lastErr : option error)
  : Prog W (result (InitiateResponse * Gateway)) :=
  match gs with
  | [] => mret (Err (default ErrGatewayUnavailable lastErr))
  | g :: gs' =>
      match adapters r !! g with
      | None => fallback r req gs' lastErr
      | Some adapter =>
          start ← time_Now;
          res ← Initiate adapter (attempt_request req g);
          stop ← time_Now;
          let elapsed := (stop - start)%Z in
          match res with
          | Ok resp =>
              _ ← RecordResult r g true (Some elapsed);
              mret (Ok (resp, g))
          | Err err =>
              if errors_Is err ErrNotConfigured then fallback r req gs' (Some err)
              else
                _ ← RecordResult r g false (Some elapsed);
                fallback r req gs' (Some (Errorf ("gateway " ^^ g ^^ ": ") err))
          end
      end
  end.

Definition InitiateWithFallback r (req : InitiateRequest)
  : Prog W (result (InitiateResponse * Gateway)) :=
  gs ← Route r;
  fallback r req gs None.
End router.
