(* ===== verification/Worker.v ===== *)
(** * internal/worker: draining the outbox

    [DrainOutbox], [processOne], [shouldTryInitiate], [tryInitiate] and
    [Reconcile] over the [OutboxStore], [LedgerReader] and [Locker] seams.
    Logging is not modelled. *)
From S2P Require Import Prelude GoStrings Money Reference Ledger Gateway Router.

Record GatewayEvent := {
  ge_ID : UUID; ge_Ref : string; ge_Gateway : Gateway; ge_Status : string; ge_CreatedAt : Time }.

Record Intent := {
  wi_Ref : string; wi_Product : string; wi_Amount : Money; wi_Gateway : Gateway;
  wi_Status : string; wi_Wallet : string }.

#[export] Instance GatewayEvent_eq_dec : EqDecision GatewayEvent.
Proof. solve_decision. Defined.

(** The interface [Locker] of both [worker] and [payouts]. *)
Record Locker (W : Type) := {
  TryAcquire : string -> Z -> Prog W (result bool);
  Release : string -> Prog W (result unit) }.
Arguments TryAcquire {W} _ _ _.
Arguments Release {W} _ _.

(** [verifyRes.Amount = amount] *)
Definition with_Amount (amount : Money) (v : VerifyResult) : VerifyResult :=
  {| vr_Reference := vr_Reference v; vr_Status := vr_Status v; vr_Amount := amount;
     vr_VerifiedAt := vr_VerifiedAt v |}.

Section worker.
Context {W : Type} `{!Runtime W}.

Record OutboxStore := {
  ClaimPending : Z -> Prog W (result (list GatewayEvent));
  GetIntent : string -> Prog W (result Intent);
  CompleteSucceeded : UUID -> string -> VerifyResult -> Intent -> Prog W (result unit);
  CompleteFailed : UUID -> string -> VerifyResult -> Prog W (result unit);
  MarkPendingRetry : UUID -> Prog W (result unit);
  CountPending : Prog W (result Z) }.

Record Worker := {
  wk_store : OutboxStore;
  wk_ledger : option (string -> Prog W (result (list LedgerEntry)));
  wk_router : ChargerRouter W;
  wk_locker : option (Locker W) }.

(** [worker.New], whose logger is left out. *)
Definition New_Worker (store : OutboxStore) (ledger : option (string -> Prog W (result (list LedgerEntry))))
    (router : ChargerRouter W) (locker : option (Locker W)) : Worker :=
  {| wk_store := store; wk_ledger := ledger; wk_router := router; wk_locker := locker |}.

Definition shouldTryInitiate (err : error) : bool := false.

Definition tryInitiate (wk : Worker) (ev : GatewayEvent) (intent : Intent)
    (adapter : AggregatorClient W) : Prog W (result unit) :=
  res ← Initiate adapter
    {| ir_Reference := ge_Ref ev; ir_Amount := wi_Amount intent; ir_Wallet := wi_Wallet intent;
       ir_Product := wi_Product intent; ir_IdempotencyKey := ge_Ref ev |};
  match res with
  | Err err => mret (Err err)
  | Ok _ => _ ← MarkPendingRetry (wk_store wk) (ge_ID ev); mret (Ok tt)
  end.

(** [gateway.VerifyResult{Reference: ev.Ref, Status: status, VerifiedAt: now}] *)
Definition synthetic_result (ref status : string) (now : Time) : VerifyResult :=
  {| vr_Reference := ref; vr_Status := status; vr_Amount := Money_zero; vr_VerifiedAt := now |}.

(** The [switch verifyRes.Status]. *)
Definition settle (wk : Worker) (ev : GatewayEvent) (intent : Intent) (res : VerifyResult)
  : Prog W (result unit) :=
  if String.eqb (vr_Status res) "succeeded" then
    let res := if IsZero (vr_Amount res) then with_Amount (wi_Amount intent) res else res in
    r ← CompleteSucceeded (wk_store wk) (ge_ID ev) (ge_Ref ev) res intent;
    mret (match r with Err err => Err (Errorf "complete succeeded: " err) | Ok _ => Ok tt end)
  else if String.eqb (vr_Status res) "failed" then
    r ← CompleteFailed (wk_store wk) (ge_ID ev) (ge_Ref ev) res;
    mret (match r with Err err => Err (Errorf "complete failed: " err) | Ok _ => Ok tt end)
  else
    _ ← MarkPendingRetry (wk_store wk) (ge_ID ev);
    mret (Ok tt).

(** [processOne] once the lock is held. *)
Definition process_locked (wk : Worker) (ev : GatewayEvent) : Prog W (result unit) :=
  match Adapter (wk_router wk) (ge_Gateway ev) with
  | None => mret (Ok tt)
  | Some adapter =>
      found ← GetIntent (wk_store wk) (ge_Ref ev);
      match found with
      | Err _ =>
          now ← time_Now;
          _ ← CompleteFailed (wk_store wk) (ge_ID ev) (ge_Ref ev)
                (synthetic_result (ge_Ref ev) "failed" now);
          mret (Ok tt)
      | Ok intent =>
          if String.eqb (wi_Status intent) "succeeded" || String.eqb (wi_Status intent) "failed" then
            now ← time_Now;
            let res := synthetic_result (ge_Ref ev) (wi_Status intent) now in
            _ ← (if String.eqb (wi_Status intent) "succeeded"
                 then CompleteSucceeded (wk_store wk) (ge_ID ev) (ge_Ref ev) res intent
                 else CompleteFailed (wk_store wk) (ge_ID ev) (ge_Ref ev) res);
            mret (Ok tt)
          else
            verified ← Verify adapter (ge_Ref ev);
            match verified with
            | Err err =>
                if shouldTryInitiate err then
                  _ ← tryInitiate wk ev intent adapter;
                  mret (Ok tt)
                else
                  _ ← MarkPendingRetry (wk_store wk) (ge_ID ev);
                  mret (Ok tt)
            | Ok res => settle wk ev intent res
            end
      end
  end.

Definition processOne (wk : Worker) (ev : GatewayEvent) : Prog W (result unit) :=
  let lockKey := "outbox:" ^^ uuid_String (ge_ID ev) in
  match wk_locker wk with
  | None => process_locked wk ev
  | Some l =>
      got ← TryAcquire l lockKey (60 * Second)%Z;
      match got with
      | Err err => mret (Err (Errorf "lock acquire: " err))
      | Ok false => mret (Ok tt)
      | Ok true =>
          r ← process_locked wk ev;
          _ ← Release l lockKey;
          mret r
      end
  end.

(** [for _, ev := range events], counting the ones without error. *)
Fixpoint drain (wk : Worker) (events : list GatewayEvent) (processed : Z) : Prog W Z :=
  match events with
  | [] => mret processed
  | ev :: rest =>
      r ← processOne wk ev;
      drain wk rest (if is_Ok r then processed + 1 else processed)%Z
  end.

Definition DrainOutbox (wk : Worker) : Prog W (result Z) :=
  claimed ← ClaimPending (wk_store wk) 50;
  match claimed with
  | Err err => mret (Err (Errorf "worker: claim pending: " err))
  | Ok [] => mret (Ok 0%Z)
  | Ok events => n ← drain wk events 0; mret (Ok n)
  end.

(** The claimed sample is looked at and dropped. *)
Definition Reconcile (wk : Worker) : Prog W (result unit) :=
  _ ← CountPending (wk_store wk);
  match wk_ledger wk with
  | None => mret (Ok tt)
  | Some _ => _ ← ClaimPending (wk_store wk) 5; mret (Ok tt)
  end.
End worker.
Arguments OutboxStore W : clear implicits.
Arguments Worker W : clear implicits.
