(* ===== verification/WorkerFrames.v ===== *)
(** * What the worker leaves alone

    A view of the world that the outbox store, the adapters, the locker and
    the run-time services leave alone is left alone by the worker. *)
From S2P Require Import Prelude GoStrings Money Reference Ledger Gateway Router Worker.

Class LockerFrame {W V} (l : Locker W) (view : W -> V) : Prop := {
  lf_acquire key ttl : Preserves view (TryAcquire l key ttl);
  lf_release key : Preserves view (Release l key) }.

Class OutboxStoreFrame {W V} (s : OutboxStore W) (view : W -> V) : Prop := {
  of_claim n : Preserves view (ClaimPending s n);
  of_intent ref : Preserves view (GetIntent s ref);
  of_succeeded id ref v i : Preserves view (CompleteSucceeded s id ref v i);
  of_failed id ref v : Preserves view (CompleteFailed s id ref v);
  of_retry id : Preserves view (MarkPendingRetry s id);
  of_count : Preserves view (CountPending s) }.

Section frames.
Context {W V : Type} `{!Runtime W} (view : W -> V) `{!RuntimeFrame view} (wk : Worker W).
Context `{!OutboxStoreFrame (wk_store wk) view} `{!AdaptersFrame (adapters (wk_router wk)) view}.

#[local] Hint Resolve of_claim of_intent of_succeeded of_failed of_retry of_count lf_acquire lf_release : guar.

Lemma Preserves_settle ev intent res : Preserves view (settle wk ev intent res).
Proof. unfold settle. guar. Qed.
#[local] Hint Resolve Preserves_settle : guar.

Lemma Preserves_process_locked ev : Preserves view (process_locked wk ev).
Proof.
  unfold process_locked, Adapter. cbn [shouldTryInitiate].
  destruct (adapters (wk_router wk) !! ge_Gateway ev) as [a|] eqn:Ha; guar. by eapply frame_verify.
Qed.
#[local] Hint Resolve Preserves_process_locked : guar.

Context (Hlock : forall l, wk_locker wk = Some l -> LockerFrame l view).

Lemma Preserves_processOne ev : Preserves view (processOne wk ev).
Proof.
  unfold processOne. destruct (wk_locker wk) as [l|] eqn:El; [|guar]. pose proof (Hlock l eq_refl). guar.
Qed.

Lemma Preserves_drain events n : Preserves view (drain wk events n).
Proof. revert n. induction events as [|ev events IH]; intros n; cbn [drain]; guar. apply Preserves_processOne. Qed.

Lemma Preserves_DrainOutbox : Preserves view (DrainOutbox wk).
Proof. unfold DrainOutbox. guar. apply Preserves_drain. Qed.

Lemma Preserves_Reconcile : Preserves view (Reconcile wk).
Proof. unfold Reconcile. guar. Qed.
End frames.
#[export] Hint Resolve Preserves_DrainOutbox Preserves_Reconcile : guar.
