(* ===== verification/Valkey.v ===== *)
(** * internal/storage/valkey: gateway health and locks

    [HealthStore] and [Locker] over a Valkey client.  The server is a
    parameter ([ValkeyClient]); [exec] states the documented effect of the
    commands the code sends, and [ValkeySpec] that a reply the client received
    is the one [exec] gives. *)
From S2P Require Import Prelude GoStrings Strconv Json Reference Router Worker.
From Stdlib Require Import Ascii Floats.SpecFloat.

(** ** The server *)
Inductive Value := VStr (s : string) | VZSet (members : list (string * float64)).
Record Entry := { ent_val : Value; ent_exp : option Time }.
Abbreviation DB := (gmap string Entry) (only parsing).

Inductive Command :=
| MGET (keys : list string) | EXISTS (key : string) | INCR (key : string)
| EXPIRE (key : string) (seconds : Z) | DEL (key : string) | GET (key : string)
| SET_EX (key value : string) (seconds : Z) | SET_NX_PX (key value : string) (millis : Z)
| ZADD (key : string) (score : float64) (member : string) | ZRANGE (key : string)
| ZREM (key : string) (members : list string) | TTL (key : string).

Inductive Reply :=
| RNil | ROK | RInt (n : Z) | RStr (s : string) | RArr (items : list (option string))
| RScores (members : list (string * float64)).

(** The entry of a key that has not expired. *)
Definition live (now : Time) (db : DB) (key : string) : option Entry :=
  e ← db !! key;
  match ent_exp e with
  | Some t => if (now <? t)%Z then Some e else None
  | None => Some e
  end.

Definition text_of (e : Entry) : option string := match ent_val e with VStr s => Some s | _ => None end.
Definition set_value (v : Value) (old : option Entry) : Entry :=
  {| ent_val := v; ent_exp := e ← old; ent_exp e |}.
Definition wrongtype : error := Fresh "WRONGTYPE".

(** Order of a sorted set: by score, then by member. *)
Definition z_before (x y : string * float64) : bool :=
  SFltb x.2 y.2 || (SFeqb x.2 y.2 && String.ltb x.1 y.1).
Fixpoint z_insert (x : string * float64) (l : list (string * float64)) : list (string * float64) :=
  match l with
  | [] => [x]
  | y :: l' => if z_before x y then x :: l else y :: z_insert x l'
  end.
Definition z_remove (names : list string) (l : list (string * float64)) : list (string * float64) :=
  filter (fun x => x.1 ∉ names) l.

(** The reply to a command at a time, and the data after it. *)
Definition exec (now : Time) (c : Command) (db : DB) : result Reply * DB :=
  match c with
  | MGET keys => (Ok (RArr (map (fun k => e ← live now db k; text_of e) keys)), db)
  | EXISTS k => (Ok (RInt (match live now db k with Some _ => 1 | None => 0 end)), db)
  | GET k =>
      (match live now db k with
       | None => Ok RNil
       | Some e => match text_of e with Some s => Ok (RStr s) | None => Err wrongtype end
       end, db)
  | INCR k =>
      match live now db k with
      | None => (Ok (RInt 1), <[k := {| ent_val := VStr "1"; ent_exp := None |}]> db)
      | Some e =>
          match s ← text_of e; ParseInt s with
          | Some n =>
              if (n =? 2 ^ 63 - 1)%Z then (Err (Fresh "ERR increment or decrement would overflow"), db)
              else (Ok (RInt (n + 1)), <[k := set_value (VStr (FormatInt (n + 1))) (Some e)]> db)
          | None => (Err (Fresh "ERR value is not an integer"), db)
          end
      end
  | EXPIRE k secs =>
      match live now db k with
      | None => (Ok (RInt 0), db)
      | Some e => (Ok (RInt 1), <[k := {| ent_val := ent_val e; ent_exp := Some (now + secs * Second)%Z |}]> db)
      end
  | DEL k => (Ok (RInt (match live now db k with Some _ => 1 | None => 0 end)), delete k db)
  | SET_EX k v secs =>
      (Ok ROK, <[k := {| ent_val := VStr v; ent_exp := Some (now + secs * Second)%Z |}]> db)
  | SET_NX_PX k v ms =>
      match live now db k with
      | Some _ => (Ok RNil, db)
      | None => (Ok ROK, <[k := {| ent_val := VStr v; ent_exp := Some (now + ms * 1000000)%Z |}]> db)
      end
  | ZADD k score member =>
      match live now db k with
      | None => (Ok (RInt 1), <[k := {| ent_val := VZSet [(member, score)]; ent_exp := None |}]> db)
      | Some e =>
          match ent_val e with
          | VZSet l => (Ok (RInt (if bool_decide (member ∈ l.*1) then 0 else 1)),
              <[k := set_value (VZSet (z_insert (member, score) (z_remove [member] l))) (Some e)]> db)
          | VStr _ => (Err wrongtype, db)
          end
      end
  | ZRANGE k =>
      (match live now db k with
       | None => Ok (RScores [])
       | Some e => match ent_val e with VZSet l => Ok (RScores l) | VStr _ => Err wrongtype end
       end, db)
  | ZREM k names =>
      match live now db k with
      | None => (Ok (RInt 0), db)
      | Some e =>
          match ent_val e with
          | VZSet l => (Ok (RInt (Z.of_nat (length l - length (z_remove names l)))),
              match z_remove names l with
              | [] => delete k db
              | l' => <[k := set_value (VZSet l') (Some e)]> db
              end)
          | VStr _ => (Err wrongtype, db)
          end
      end
  | TTL k =>
      (Ok (RInt (match live now db k with
                 | None => -2
                 | Some e => match ent_exp e with
                             | None => -1
                             | Some t => ((t - now) / 1000000 + 500) / 1000
                             end
                 end)), db)
  end%Z.

(** The client, and the process-wide counter [latencySeq]. *)
Class ValkeyClient (W : Type) := {
  vk_Do : Command -> M W (result Reply);
  vk_seq : M W N }.

(** Commands take effect one at a time, at the server's time, and a client
    that gets a reply gets the documented one. *)
Class ValkeySpec {W} `{!ValkeyClient W} (time : W -> Time) (db : W -> DB) : Prop := {
  vk_reply c w : (vk_Do c w).1 = (exec (time w) c (db w)).1;
  vk_effect c w : db (vk_Do c w).2 = (exec (time w) c (db w)).2;
  vk_time c w : time (vk_Do c w).2 = time w }.

(** ** Readings of a reply ([ToString], [AsInt64], [AsBool], ...): [Err] of
    [valkey_nil] is what [IsValkeyNil] recognises. *)
Definition valkey_nil : error := Sentinel "valkey nil message".
Definition IsValkeyNil (e : error) : bool := errors_Is e valkey_nil.
Definition bad_reply : error := Fresh "valkey: unexpected message type".

Definition reply_error (r : result Reply) : option error :=
  match r with Err e => Some e | Ok RNil => Some valkey_nil | Ok _ => None end.
Definition ToString (r : result Reply) : result string :=
  match r with
  | Err e => Err e | Ok RNil => Err valkey_nil
  | Ok (RStr s) => Ok s | Ok ROK => Ok "OK" | Ok _ => Err bad_reply
  end.
Definition AsInt64 (r : result Reply) : result Z :=
  match r with
  | Err e => Err e | Ok RNil => Err valkey_nil
  | Ok (RInt n) => Ok n
  | Ok (RStr s) => match ParseInt s with Some n => Ok n | None => Err bad_reply end
  | Ok _ => Err bad_reply
  end.
Definition AsBool (r : result Reply) : result bool :=
  match r with
  | Err e => Err e | Ok RNil => Err valkey_nil
  | Ok (RInt n) => Ok (negb (n =? 0)%Z) | Ok (RStr s) => Ok (String.eqb s "OK") | Ok ROK => Ok true
  | Ok _ => Err bad_reply
  end.
Definition ToArray (r : result Reply) : result (list (option string)) :=
  match r with
  | Err e => Err e | Ok RNil => Err valkey_nil | Ok (RArr l) => Ok l | Ok _ => Err bad_reply
  end.
Definition AsZScores (r : result Reply) : result (list (string * float64)) :=
  match r with
  | Err e => Err e | Ok RNil => Err valkey_nil | Ok (RScores l) => Ok l | Ok _ => Err bad_reply
  end.

(** ** Tuning *)
Definition healthWindowTTL : Z := (10 * Minute)%Z.
Definition failureThreshold : Z := 5.
Definition circuitOpenTTL : Z := (30 * Second)%Z.
(** [int64(d.Seconds())] of a whole number of seconds *)
Definition seconds (d : Z) : Z := Z.quot d Second.

(** The store: whether it has a client, and its key prefix. *)
Record HealthStore := { hs_connected : bool; hs_prefix : string }.
Definition NewHealthStore (connected : bool) : HealthStore :=
  {| hs_connected := connected; hs_prefix := "orctapay" |}.

Definition key (s : HealthStore) (gw : Gateway) (suffix : string) : string :=
  hs_prefix s ^^ ":health:" ^^ gw ^^ ":" ^^ suffix.
Definition circuitKey (s : HealthStore) (gw : Gateway) : string :=
  hs_prefix s ^^ ":health:" ^^ gw ^^ ":circuit".
Definition latencyKey (s : HealthStore) (gw : Gateway) : string :=
  hs_prefix s ^^ ":health:" ^^ gw ^^ ":lat".

(** [int(math.Round(f))]: half away from zero. *)
Definition round_away (f : float64) : Z :=
  match f with
  | S754_finite s m e =>
      let n := if (0 <=? e)%Z then (Z.pos m * 2 ^ e)%Z
               else ((2 * Z.pos m + 2 ^ (- e)) / (2 * 2 ^ (- e)))%Z in
      if s then (- n)%Z else n
  | _ => 0%Z
  end.

(** [int(math.Ceil(f))] *)
Definition ceil (f : float64) : Z :=
  match f with
  | S754_finite s m e =>
      let n := if s then Z.neg m else Z.pos m in
      if (0 <=? e)%Z then (n * 2 ^ e)%Z else (- ((- n) / 2 ^ (- e)))%Z
  | _ => 0%Z
  end.

Definition f64_0_95 : float64 := Eval vm_compute in SFdiv 53 1024 (f64_of_Z 95) (f64_of_Z 100).

(** The index of the p95 sample among [n]. *)
Definition p95_index (n : Z) : Z :=
  let idx := (ceil (SFmul 53 1024 f64_0_95 (f64_of_Z n)) - 1)%Z in
  let idx := if (idx <? 0)%Z then 0%Z else idx in
  if (idx >=? n)%Z then (n - 1)%Z else idx.

(** The time stamp of a member [<nano>:<seq>:<ms>]; the text before the first
    colon, or all of it. *)
Definition member_time (member : string) : option Z :=
  match Split member ":" with ts :: _ => ParseInt ts | [] => None end.

Definition is_stale (cutoff : Z) (x : string * float64) : bool :=
  match member_time x.1 with Some ts => (ts <? cutoff)%Z | None => false end.

Section valkey.
Context {W : Type} `{!Runtime W} `{!ValkeyClient W}.
Implicit Types (s : HealthStore) (gw : Gateway).

Definition Do (c : Command) : Prog W (result Reply) := call (vk_Do c).

(** [DoMulti]: the commands in order, then the first error among the replies. *)
Fixpoint DoMulti (cs : list Command) : Prog W (option error) :=
  match cs with
  | [] => mret None
  | c :: cs' =>
      r ← Do c;
      rest ← DoMulti cs';
      mret (match reply_error r with Some e => Some e | None => rest end)
  end.

(** The loop over the counters; a missing one stays 0, and an error of
    [ParseFloat] is dropped. *)
Fixpoint counters (items : list (option string)) : list float64 :=
  match items with
  | [] => []
  | Some v :: rest => (ParseFloat v).1 :: counters rest
  | None :: rest => S754_zero false :: counters rest
  end.

Definition SuccessRate s gw : Prog W (result float64) :=
  if negb (hs_connected s) then mret (Ok (SFone 53 1024))
  else
    resp ← Do (MGET [key s gw "s"; key s gw "t"]);
    mret (match ToArray resp with
          | Err err => Err (Errorf "valkey: mget health: " err)
          | Ok arr =>
              let vals := counters arr in
              let successes := nth 0 vals (S754_zero false) in
              let attempts := nth 1 vals (S754_zero false) in
              if SFleb attempts (S754_zero false) then Ok (SFone 53 1024)
              else Ok (SFdiv 53 1024 successes attempts)
          end).

Definition IsCircuitOpen s gw : Prog W (result bool) :=
  if negb (hs_connected s) then mret (Ok false)
  else
    resp ← Do (EXISTS (circuitKey s gw));
    mret (match AsInt64 resp with
          | Err err => Err (Errorf "valkey: exists circuit: " err)
          | Ok n => Ok (n >? 0)%Z
          end).

Definition maybeOpenCircuit s gw : Prog W (result unit) :=
  resp ← Do (GET (key s gw "f"));
  match ToString resp with
  | Err err => mret (if IsValkeyNil err then Ok tt else Err (Errorf "valkey: get failures: " err))
  | Ok v =>
      let fails := Atoi_value v in
      if (fails <? failureThreshold)%Z then mret (Ok tt)
      else
        r ← Do (SET_EX (circuitKey s gw) "open" (seconds circuitOpenTTL));
        mret (match reply_error r with
              | Some err => Err (Errorf "valkey: open circuit: " err)
              | None => Ok tt
              end)
  end.

Definition RecordResult s gw (success : bool) : Prog W (result unit) :=
  if negb (hs_connected s) then mret (Ok tt)
  else
    let window := seconds healthWindowTTL in
    let cmds := [INCR (key s gw "t"); EXPIRE (key s gw "t") window] ++
      (if success then [INCR (key s gw "s"); EXPIRE (key s gw "s") window; DEL (key s gw "f")]
       else [INCR (key s gw "f")]) in
    err ← DoMulti cmds;
    match err with
    | Some e => mret (Err (Errorf "valkey: record result: " e))
    | None => if success then mret (Ok tt) else maybeOpenCircuit s gw
    end.

Definition RecordLatency s gw (latency : Z) : Prog W (result unit) :=
  if negb (hs_connected s) then mret (Ok tt)
  else
    let ms := Z.quot latency 1000000 in
    let ms := if (ms <? 0)%Z then 0%Z else ms in
    let ms := if (ms >? 60000)%Z then 60000%Z else ms in
    seq ← call vk_seq;
    now ← time_Now;
    let member := FormatInt now ^^ ":" ^^ FormatInt (Z.of_N seq) ^^ ":" ^^ FormatInt ms in
    let k := latencyKey s gw in
    err ← DoMulti [ZADD k (f64_of_Z ms) member; EXPIRE k (seconds healthWindowTTL)];
    mret (match err with Some e => Err (Errorf "valkey: record latency: " e) | None => Ok tt end).

Definition P95Latency s gw : Prog W (result Z) :=
  if negb (hs_connected s) then mret (Ok 0%Z)
  else
    let k := latencyKey s gw in
    resp ← Do (ZRANGE k);
    match AsZScores resp with
    | Err err => mret (if IsValkeyNil err then Ok 0%Z else Err (Errorf "valkey: zrange lat: " err))
    | Ok [] => mret (Ok 0%Z)
    | Ok scores =>
        now ← time_Now;
        let cutoff := (now - healthWindowTTL)%Z in
        let stale := map fst (List.filter (is_stale cutoff) scores) in
        let latencies := map (fun x => round_away x.2) (List.filter (fun x => negb (is_stale cutoff x)) scores) in
        _ ← match stale with [] => mret tt | _ => _ ← Do (ZREM k stale); mret tt end;
        mret (match latencies with
              | [] => Ok 0%Z
              | _ => Ok (nth (Z.to_nat (p95_index (Z.of_nat (length latencies)))) latencies 0%Z)
              end)
    end.

(** The store as the router sees it. *)
Definition Valkey_health s : Router.HealthStore W := {|
  Router.SuccessRate := SuccessRate s; Router.IsCircuitOpen := IsCircuitOpen s;
  Router.P95Latency := P95Latency s; as_ResultRecorder := Some (RecordResult s);
  as_LatencyRecorder := Some (RecordLatency s) |}.

(** ** Locks *)
Definition lock_TryAcquire (connected : bool) (key : string) (ttl : Z) : Prog W (result bool) :=
  if negb connected then mret (Ok true)
  else
    resp ← Do (SET_NX_PX key "1" (Z.quot ttl 1000000));
    mret (match reply_error resp with
          | Some err => if IsValkeyNil err then Ok false else Err (Errorf "valkey: set nx: " err)
          | None => match AsBool resp with
                    | Ok ok => Ok ok
                    | Err err => if IsValkeyNil err then Ok false else Err (Errorf "valkey: set nx: " err)
                    end
          end).

Definition lock_Release (connected : bool) (key : string) : Prog W (result unit) :=
  if negb connected then mret (Ok tt)
  else
    r ← Do (DEL key);
    mret (match reply_error r with Some err => Err (Errorf "valkey: del lock: " err) | None => Ok tt end).

Definition Valkey_locker (connected : bool) : Locker W := {|
  TryAcquire := lock_TryAcquire connected; Release := lock_Release connected |}.
End valkey.
