(* ===== verification/HealthSpec.v ===== *)
(** * The circuit breaker refines its specification

    Through any history of recorded results, whatever else happens to the
    server in between, the circuit of a gateway is open exactly while the
    last failure that ended a run of five is less than thirty seconds old. *)
From S2P Require Import Prelude GoStrings Json Reference Router Worker Valkey.
From Stdlib Require Import Ascii Floats.SpecFloat.

(** ** Specification: histories, newest result first *)
Abbreviation History := (list (Time * bool)) (only parsing).

(** The failures since the last success. *)
Fixpoint streak (h : History) : nat :=
  match h with (_, false) :: h' => S (streak h') | _ => 0 end.

(** Some failure that made five or more in a row is younger than 30 seconds. *)
Definition tripped (h : History) (now : Time) : Prop :=
  exists t h' h'', h = h'' ++ (t, false) :: h' /\ 5 <= streak ((t, false) :: h') /\ (now < t + circuitOpenTTL)%Z.

(** When the circuit opened last closes again. *)
Fixpoint open_until (h : History) : option Time :=
  match h with
  | [] => None
  | (t, ok) :: h' => if negb ok && (5 <=? streak h) then Some (t + circuitOpenTTL)%Z else open_until h'
  end.

Definition opened (until : option Time) (now : Time) : bool :=
  match until with Some t => (now <? t)%Z | None => false end.

(** Times never go backwards. *)
Fixpoint ordered (h : History) (now : Time) : Prop :=
  match h with [] => True | (t, _) :: h' => (t <= now)%Z /\ ordered h' t end.

Lemma ordered_mono h t now : ordered h t -> (t <= now)%Z -> ordered h now.
Proof. destruct h as [|[t' ok] h]; simpl; [done|]. intros [? ?] ?. split; [lia | done]. Qed.

Lemma open_until_later h now t : ordered h now -> open_until h = Some t -> (t <= now + circuitOpenTTL)%Z.
Proof.
  revert now. induction h as [|[t0 ok] h IH]; intros now Ho E; [done|]. cbn [ordered open_until] in *.
  destruct Ho as [Ht Ho]. destruct (negb ok && _); [injection E as <-; lia|].
  specialize (IH t0 Ho E). lia.
Qed.

Lemma opened_tripped h now : ordered h now -> opened (open_until h) now = true <-> tripped h now.
Proof.
  revert now. induction h as [|[t0 ok] h IH]; intros now Ho.
  - split; [done|]. intros (t & h' & [|] & [=] & _).
  - destruct Ho as [Ht Ho]. cbn [open_until].
    assert (Hdown : tripped h now -> tripped ((t0, ok) :: h) now).
    { intros (t & h' & h'' & -> & ? & ?). by exists t, h', ((t0, ok) :: h''). }
    assert (Hcases : tripped ((t0, ok) :: h) now ->
      (ok = false /\ 5 <= streak ((t0, false) :: h) /\ (now < t0 + circuitOpenTTL)%Z) \/ tripped h now).
    { intros (t & h' & [|x h''] & E & Hs & Hn); simplify_eq/=; [by left|]. right. by exists t, h', h''. }
    assert (IH' := IH now (ordered_mono _ _ _ Ho Ht)).
    destruct (negb ok && (5 <=? streak ((t0, ok) :: h))) eqn:E.
    + apply andb_true_iff in E as [Hok Hs]. destruct ok; [done|]. apply Nat.leb_le in Hs.
      cbn [opened]. rewrite Z.ltb_lt. split.
      * intros Hn. by exists t0, h, [].
      * intros [(_ & _ & ?)|Ht']%Hcases; [done|]. apply IH' in Ht'.
        destruct (open_until h) as [u|] eqn:Eu; [|done]. cbn in Ht'. apply Z.ltb_lt in Ht'.
        pose proof (open_until_later _ _ _ Ho Eu). lia.
    + rewrite IH'. split; [exact Hdown|]. intros [(-> & Hs & _)|]%Hcases; [|done].
      apply Nat.leb_le in Hs. by rewrite Hs in E.
Qed.

(** ** The keys *)
Lemma key_inj s gw x y : key s gw x = key s gw y -> x = y.
Proof. unfold key. intros H. by do 4 apply append_inj_l in H. Qed.

Definition gateway_keys (s : HealthStore) (gw : Gateway) : list string :=
  [key s gw "s"; key s gw "t"; key s gw "f"; circuitKey s gw].

Lemma circuit_is_key s gw : circuitKey s gw = key s gw "circuit".
Proof. done. Qed.

Ltac keys := rewrite ?circuit_is_key; intros ?%key_inj; discriminate.

(** ** Running commands *)
Fixpoint exec_all (now : Time) (cs : list Command) (db : DB) : option error * DB :=
  match cs with
  | [] => (None, db)
  | c :: cs' =>
      let r := exec now c db in
      let rest := exec_all now cs' r.2 in
      (match reply_error r.1 with Some e => Some e | None => rest.1 end, rest.2)
  end.

Section run.
Context {W : Type} `{!Runtime W} `{!ValkeyClient W} {time : W -> Time} {db : W -> DB} `{!ValkeySpec time db}.

Lemma run_Do c w :
  exists w', run (Do c) w = ((exec (time w) c (db w)).1, w') /\
    db w' = (exec (time w) c (db w)).2 /\ time w' = time w.
Proof.
  exists (vk_Do c w).2. unfold Do. rewrite run_call, <- vk_reply, <- vk_effect, vk_time. by destruct (vk_Do c w).
Qed.

Lemma run_DoMulti cs w :
  exists w', run (DoMulti cs) w = ((exec_all (time w) cs (db w)).1, w') /\
    db w' = (exec_all (time w) cs (db w)).2 /\ time w' = time w.
Proof.
  revert w. induction cs as [|c cs IH]; intros w; [by exists w|]. cbn [DoMulti exec_all].
  destruct (run_Do c w) as (w1 & E1 & Hdb & Ht). destruct (IH w1) as (w2 & E2 & Hdb2 & Ht2).
  exists w2. rewrite run_bind, E1. cbn [fst snd]. rewrite run_bind, E2, run_ret. cbn [fst snd].
  rewrite Hdb, Ht in *. done.
Qed.
End run.

(** ** One gateway's data *)

(** An integer at most [n], if anything is there. *)
Definition count (now : Time) (db : DB) (k : string) (n : nat) : Prop :=
  forall e, live now db k = Some e ->
    exists z, ent_val e = VStr (FormatInt z) /\ (0 <= z <= Z.of_nat n)%Z.

(** The counter of failures, which never expires. *)
Definition failures (db : DB) (k : string) (n : nat) : Prop :=
  match db !! k with
  | None => n = 0
  | Some e => 0 < n /\ e = {| ent_val := VStr (FormatInt (Z.of_nat n)); ent_exp := None |}
  end.

Definition circuit (db : DB) (k : string) (until : option Time) : Prop :=
  match db !! k with
  | None => until = None
  | Some e => exists t, until = Some t /\ e = {| ent_val := VStr "open"; ent_exp := Some t |}
  end.

Record Tracks (s : HealthStore) (gw : Gateway) (now : Time) (db : DB) (h : History) : Prop := {
  tr_total : count now db (key s gw "t") (length h);
  tr_success : count now db (key s gw "s") (length h);
  tr_failures : failures db (key s gw "f") (streak h);
  tr_circuit : circuit db (circuitKey s gw) (open_until h) }.

Lemma live_insert now db k e :
  live now (<[k := e]> db) k =
  match ent_exp e with Some t => if (now <? t)%Z then Some e else None | None => Some e end.
Proof. unfold live. by rewrite lookup_insert_eq. Qed.

Lemma live_ne now db k k' e : k <> k' -> live now (<[k := e]> db) k' = live now db k'.
Proof. intros H. unfold live. by rewrite lookup_insert_ne. Qed.

Lemma count_ne now db k k' e n : k <> k' -> count now db k' n -> count now (<[k := e]> db) k' n.
Proof. unfold count. intros H. by rewrite live_ne. Qed.

Lemma count_mono now db k n m : n <= m -> count now db k n -> count now db k m.
Proof. intros Hnm H e He. destruct (H e He) as (z & ? & ?). exists z. split; [done | lia]. Qed.

(** A later clock sees less. *)
Lemma count_later now now' db db' k n :
  (now <= now')%Z -> db' !! k = db !! k -> count now db k n -> count now' db' k n.
Proof.
  unfold count, live. intros Hn -> H e He. apply H. destruct (db !! k) as [e0|]; [|done]. cbn in *.
  destruct (ent_exp e0) as [t|]; [|done].
  destruct (Z.ltb_spec now' t); [|done]. by destruct (Z.ltb_spec now t); [|lia].
Qed.

(** A value put in place of a live one is live. *)
Lemma live_expiry now db k e : live now db k = Some e -> forall e' : Entry,
  match ent_exp e with Some t => if (now <? t)%Z then Some e' else None | None => Some e' end = Some e'.
Proof.
  unfold live. intros H e'. destruct (db !! k) as [e0|]; [|done]. cbn in H.
  destruct (ent_exp e0) as [t|] eqn:Et; [destruct (now <? t)%Z eqn:El; [|done]|]; injection H as ->;
    rewrite Et; [by rewrite El | done].
Qed.

(** [INCR] then [EXPIRE] of a counter. *)
Lemma incr_expire now db k n secs rest :
  count now db k n -> (Z.of_nat n < 2 ^ 62)%Z ->
  exists e, count now (<[k := e]> db) k (S n) /\
    exec_all now (INCR k :: EXPIRE k secs :: rest) db = exec_all now rest (<[k := e]> db).
Proof.
  intros Hc Hn. unfold count in *. cbn [exec_all exec].
  destruct (live now db k) as [e|] eqn:El.
  - destruct (Hc e eq_refl) as (z & Hv & Hz). unfold text_of. rewrite Hv. cbn [mbind option_bind].
    rewrite ParseInt_FormatInt by (unfold int64; lia).
    destruct (Z.eqb_spec z (2 ^ 63 - 1)); [lia|]. cbn [fst snd reply_error].
    unfold set_value. rewrite live_insert. cbn [ent_exp mbind option_bind].
    exists {| ent_val := VStr (FormatInt (z + 1)); ent_exp := Some (now + secs * Second)%Z |}.
    rewrite (live_expiry _ _ _ _ El). cbn [fst snd reply_error ent_val]. rewrite insert_insert_eq. split.
    + intros e' He'. rewrite live_insert in He'. cbn in He'. destruct (now <? _)%Z; [|done]. injection He' as <-.
      exists (z + 1)%Z. split; [done | lia].
    + by destruct (exec_all _ _ _).
  - cbn [fst snd reply_error]. rewrite live_insert. cbn [ent_exp fst snd reply_error ent_val].
    rewrite insert_insert_eq.
    exists {| ent_val := VStr "1"; ent_exp := Some (now + secs * Second)%Z |}. split.
    + intros e' He'. rewrite live_insert in He'. cbn in He'. destruct (now <? _)%Z; [|done]. injection He' as <-.
      exists 1%Z. split; [done | lia].
    + by destruct (exec_all _ _ _).
Qed.

Lemma failures_live now db k n : failures db k n ->
  live now db k = if n =? 0 then None
                  else Some {| ent_val := VStr (FormatInt (Z.of_nat n)); ent_exp := None |}.
Proof.
  unfold failures, live. destruct (db !! k) as [e|]; [|by intros ->]. intros [Hn ->]. cbn.
  destruct n; [lia | done].
Qed.

(** [INCR] of the failure counter. *)
Lemma incr_failures now db k n :
  failures db k n -> (Z.of_nat n < 2 ^ 62)%Z ->
  exec now (INCR k) db =
  (Ok (RInt (Z.of_nat (S n))),
   <[k := {| ent_val := VStr (FormatInt (Z.of_nat (S n))); ent_exp := None |}]> db).
Proof.
  intros Hf Hn. cbn [exec]. rewrite (failures_live now) with (n := n) by done.
  destruct n as [|n]; [done|]. cbn [Nat.eqb]. unfold text_of. cbn [ent_val mbind option_bind].
  rewrite ParseInt_FormatInt by (unfold int64; lia).
  destruct (Z.eqb_spec (Z.of_nat (S n)) (2 ^ 63 - 1)); [lia|].
  by replace (Z.of_nat (S n) + 1)%Z with (Z.of_nat (S (S n))) by lia.
Qed.

Section breaker.
Context {W : Type} `{!Runtime W} `{!ValkeyClient W} {time : W -> Time} {db : W -> DB} `{!ValkeySpec time db}.
Context (s : HealthStore) (gw : Gateway) (Hon : hs_connected s = true).

Abbreviation Tracked h w := (Tracks s gw (time w) (db w) h) (only parsing).

Lemma record_success w h :
  Tracked h w -> (Z.of_nat (length h) < 2 ^ 62)%Z ->
  exists w', run (RecordResult s gw true) w = (Ok tt, w') /\ time w' = time w /\
    Tracked ((time w, true) :: h) w'.
Proof.
  intros [Ht Hs Hf Hc] Hn. unfold RecordResult. rewrite Hon. cbn [negb app]. rewrite run_bind.
  match goal with |- context [run (DoMulti ?cs) w] => destruct (run_DoMulti cs w) as (w' & E & Hdb & Htime) end.
  rewrite E. cbn [fst snd]. exists w'. rewrite Hdb in *.
  destruct (incr_expire (time w) (db w) (key s gw "t") (length h) (seconds healthWindowTTL)
    [INCR (key s gw "s"); EXPIRE (key s gw "s") (seconds healthWindowTTL); DEL (key s gw "f")] Ht Hn)
    as (et & Ht' & Et). rewrite Et in *.
  destruct (incr_expire (time w) (<[key s gw "t" := et]> (db w)) (key s gw "s") (length h)
    (seconds healthWindowTTL) [DEL (key s gw "f")]) as (es & Hs' & Es); [by apply count_ne; [keys|]|done|].
  rewrite Es in *. cbn [exec_all exec fst snd reply_error] in *. split_and!; [by rewrite run_ret|done|].
  rewrite Htime. constructor.
  - eapply (count_later (time w)); [done| |exact (count_ne _ _ _ _ es _ (ltac:(keys) : key s gw "s" <> key s gw "t") Ht')].
    by rewrite lookup_delete_ne by keys.
  - eapply (count_later (time w)); [done| |exact Hs']. by rewrite lookup_delete_ne by keys.
  - unfold failures. by rewrite lookup_delete_eq.
  - unfold circuit. rewrite lookup_delete_ne, !lookup_insert_ne by keys. exact Hc.
Qed.

(** What a failure leaves before the breaker is looked at. *)
Lemma record_failure w h :
  Tracked h w -> (Z.of_nat (length h) < 2 ^ 62)%Z ->
  exists w', run (RecordResult s gw false) w = (Ok tt, w') /\ time w' = time w /\
    Tracked ((time w, false) :: h) w'.
Proof.
  intros [Ht Hs Hf Hc] Hn. unfold RecordResult. rewrite Hon. cbn [negb app]. rewrite run_bind.
  match goal with |- context [run (DoMulti ?cs) w] => destruct (run_DoMulti cs w) as (w1 & E & Hdb & Htime) end.
  destruct (incr_expire (time w) (db w) (key s gw "t") (length h) (seconds healthWindowTTL)
    [INCR (key s gw "f")] Ht Hn) as (et & Ht' & Et). rewrite Et in E, Hdb. clear Et.
  assert (Hf' : failures (<[key s gw "t" := et]> (db w)) (key s gw "f") (streak h)).
  { unfold failures. by rewrite lookup_insert_ne by keys. }
  assert (Hlen : streak h <= length h) by (clear; induction h as [|[? []] h IH]; simpl; lia).
  cbn [exec_all] in E, Hdb. rewrite (incr_failures _ _ _ _ Hf') in E, Hdb by lia.
  rewrite E. cbn [fst snd reply_error] in E, Hdb |- *. clear E.
  set (n := S (streak h)) in *. set (ef := {| ent_val := VStr (FormatInt (Z.of_nat n)); ent_exp := None |}) in *.
  (* the counters, whatever happens to the circuit *)
  assert (Hrest : forall db', (forall k, k <> circuitKey s gw -> db' !! k = db w1 !! k) ->
    circuit db' (circuitKey s gw) (open_until ((time w, false) :: h)) ->
    Tracks s gw (time w) db' ((time w, false) :: h)).
  { intros db' Hsame Hcirc. rewrite Hdb in Hsame. constructor; [| | |exact Hcirc].
    - eapply count_later; [done | apply Hsame; keys |]. apply count_ne; [keys | exact Ht'].
    - eapply count_later; [done | apply Hsame; keys |]. do 2 (apply count_ne; [keys|]).
      eapply count_mono; [|exact Hs]. simpl. lia.
    - unfold failures. rewrite Hsame by keys. rewrite lookup_insert_eq. split; [simpl; lia | done]. }
  unfold maybeOpenCircuit. rewrite run_bind.
  destruct (run_Do (GET (key s gw "f")) w1) as (w2 & E2 & Hdb2 & Htime2). rewrite E2. cbn [fst snd exec] in Hdb2 |- *. clear E2.
  assert (Hl : live (time w1) (db w1) (key s gw "f") = Some ef).
  { rewrite Hdb. unfold live. by rewrite lookup_insert_eq. }
  cbn [exec fst]. rewrite Hl. cbn [text_of ent_val ef ToString].
  rewrite (Atoi_value_ParseInt _ (Z.of_nat n)) by (apply ParseInt_FormatInt; unfold int64, n; lia).
  assert (Hcirc1 : db w1 !! circuitKey s gw = db w !! circuitKey s gw).
  { by rewrite Hdb, !lookup_insert_ne by keys. }
  destruct (Z.ltb_spec (Z.of_nat n) failureThreshold) as [Hlt|Hge]; unfold failureThreshold in *.
  - rewrite run_ret. exists w2. split_and!; [done | congruence |].
    rewrite Htime2, Htime, Hdb2. apply Hrest; [done|].
    cbn [open_until streak negb andb]. fold n. destruct (Nat.leb_spec 5 n); [lia|].
    unfold circuit. rewrite Hcirc1. exact Hc.
  - rewrite run_bind.
    destruct (run_Do (SET_EX (circuitKey s gw) "open" (seconds circuitOpenTTL)) w2) as (w3 & E3 & Hdb3 & Htime3).
    rewrite E3, run_ret. cbn [fst snd exec reply_error] in *. exists w3. split_and!; [done | congruence |].
    rewrite Htime3, Htime2, Htime, Hdb3, Hdb2. apply Hrest.
    + intros k Hk. by rewrite lookup_insert_ne.
    + cbn [open_until streak negb andb]. fold n. destruct (Nat.leb_spec 5 n); [|lia].
      unfold circuit. rewrite lookup_insert_eq. eexists. split; [reflexivity|].
      rewrite Htime2, Htime. done.
Qed.

(** ** Whole histories *)

(** The worlds the store's results [h] can have led to.  Between two results
    anything may happen that does not touch this gateway's keys: time passes,
    circuits are read, other gateways, locks and rate limits are served. *)
Inductive Served : History -> W -> Prop :=
| served_fresh w : (forall k, k ∈ gateway_keys s gw -> db w !! k = None) -> Served [] w
| served_result h w ok :
    Served h w -> Served ((time w, ok) :: h) (run (RecordResult s gw ok) w).2
| served_other h w w' :
    Served h w -> (time w <= time w')%Z ->
    (forall k, k ∈ gateway_keys s gw -> db w' !! k = db w !! k) -> Served h w'.

Lemma Served_tracked h w :
  Served h w -> (Z.of_nat (length h) < 2 ^ 62)%Z -> Tracked h w /\ ordered h (time w).
Proof.
  induction 1 as [w Hk|h w ok H IH|h w w' H IH Htime Hk]; intros Hn.
  - assert (Hnone : forall k, k ∈ gateway_keys s gw -> live (time w) (db w) k = None)
      by (intros k Hin; unfold live; by rewrite Hk).
    unfold gateway_keys in *. split; [|done].
    constructor; unfold count, failures, circuit; rewrite ?Hnone, ?Hk by set_solver; done.
  - destruct IH as [Htr Ho]; [simpl in Hn; lia|].
    assert (Hlen : (Z.of_nat (length h) < 2 ^ 62)%Z) by (simpl in Hn; lia).
    destruct ok;
      [destruct (record_success w h Htr Hlen) as (w' & -> & Ht & Htr')
      |destruct (record_failure w h Htr Hlen) as (w' & -> & Ht & Htr')];
      cbn [snd]; (split; [done|]); cbn [ordered]; rewrite Ht; (split; [lia | done]).
  - destruct (IH Hn) as [[Ht Hs Hf Hc] Ho]. unfold gateway_keys in Hk. split; [|by eapply ordered_mono].
    constructor; [eapply count_later; [exact Htime| |exact Ht] | eapply count_later; [exact Htime| |exact Hs]
      | unfold failures; rewrite Hk; [exact Hf|] | unfold circuit; rewrite Hk; [exact Hc|]];
      try apply Hk; set_solver.
Qed.

(** C23: Whatever results were recorded and whatever else the server did in
    between, [IsCircuitOpen] answers, and answers true exactly while some
    failure that made five or more in a row is less than thirty seconds old;
    recording never fails and asking changes nothing. *)
Theorem circuit_open_iff h w :
  Served h w -> (Z.of_nat (length h) < 2 ^ 62)%Z ->
  exists b, run (IsCircuitOpen s gw) w = (Ok b, (run (IsCircuitOpen s gw) w).2) /\
    (b = true <-> tripped h (time w)) /\
    db (run (IsCircuitOpen s gw) w).2 = db w /\
    (forall ok, (run (RecordResult s gw ok) w).1 = Ok tt).
Proof.
  intros H Hn. destruct (Served_tracked h w H Hn) as [Htr Ho].
  exists (opened (open_until h) (time w)).
  destruct (run_Do (EXISTS (circuitKey s gw)) w) as (w' & E & Hdb & _). cbn [exec fst snd] in E, Hdb.
  assert (Hrun : run (IsCircuitOpen s gw) w = (Ok (opened (open_until h) (time w)), w')).
  { unfold IsCircuitOpen. rewrite Hon. cbn [negb]. rewrite run_bind, E, run_ret. cbn [fst snd AsInt64].
    assert (Hl : live (time w) (db w) (circuitKey s gw) =
      match open_until h with
      | Some t => if (time w <? t)%Z then Some {| ent_val := VStr "open"; ent_exp := Some t |} else None
      | None => None end).
    { pose proof (tr_circuit _ _ _ _ _ Htr) as Hc. unfold circuit in Hc. unfold live.
      destruct (db w !! circuitKey s gw) as [e|]; [|by rewrite Hc].
      destruct Hc as (t & -> & ->). done. }
    rewrite Hl. unfold opened. destruct (open_until h) as [t|]; [|done]. by destruct (time w <? t)%Z. }
  rewrite Hrun. split; [done|]. split; [by apply opened_tripped|]. split; [done|]. intros [].
  - by destruct (record_success w h Htr Hn) as (? & -> & _).
  - by destruct (record_failure w h Htr Hn) as (? & -> & _).
Qed.
End breaker.
