(* ===== verification/Scenario.v ===== *)
(** * A concrete world

    A scripted environment over an arbitrary store state [S]: a clock that
    advances one millisecond per reading, counters for UUIDs and entropy, and
    gateways that answer from a script and log every exchange.  The theorems
    are about any world; this one instantiates their hypotheses. *)
From S2P Require Import Prelude GoStrings Money Reference Ledger Gateway Router Worker.

Record Script := {
  on_initiate : Gateway -> InitiateRequest -> result InitiateResponse;
  on_verify : Gateway -> string -> result VerifyResult;
  on_refund : Gateway -> string -> result unit;
  on_payout : Gateway -> string -> result unit;
  circuit_of : Gateway -> result bool }.

Record World (S : Type) := mkWorld {
  clock : Time; uuids : N; entropy : Z; script : Script; exchanges : list Exchange;
  results : list (Gateway * bool); locks : gset string; store : S }.
Arguments mkWorld {S} _ _ _ _ _ _ _ _.
Arguments clock {S} _.
Arguments uuids {S} _.
Arguments entropy {S} _.
Arguments script {S} _.
Arguments exchanges {S} _.
Arguments results {S} _.
Arguments locks {S} _.
Arguments store {S} _.

Section scenario.
Context {S : Type}.
Implicit Types w : World S.

Definition tick : M (World S) Time := fun w =>
  (clock w, mkWorld (clock w + 1000000)%Z (uuids w) (entropy w) (script w) (exchanges w)
                    (results w) (locks w) (store w)).
Definition next_uuid : M (World S) UUID := fun w =>
  (uuids w, mkWorld (clock w) (uuids w + 1)%N (entropy w) (script w) (exchanges w)
                    (results w) (locks w) (store w)).
Definition next_bytes (n : nat) : M (World S) (list Z) := fun w =>
  ((fun i => (entropy w + Z.of_nat i) mod 256)%Z <$> seq 0 n,
   mkWorld (clock w) (uuids w) (entropy w + 1)%Z (script w) (exchanges w) (results w) (locks w) (store w)).

#[export] Instance World_runtime : Runtime (World S) := {
  rt_now := tick;
  rt_uuid := next_uuid;
  rt_rand := next_bytes;
  rt_order := fun n w => (seq 0 n, w);
  uuid_String := fun u => "uuid-" ^^ FormatInt (Z.of_N u) }.

Definition exchange {A} (answer : Script -> result A) (x : result A -> Exchange)
  : M (World S) (result A) := fun w =>
  let a := answer (script w) in
  (a, mkWorld (clock w) (uuids w) (entropy w) (script w) (exchanges w ++ [x a])
              (results w) (locks w) (store w)).

Definition scripted (g : Gateway) : AggregatorClient (World S) := {|
  Initiate req := call (exchange (fun s => on_initiate s g req) (XInitiate g req));
  Verify ref := call (exchange (fun s => on_verify s g ref) (XVerify g ref));
  Refund ref m := call (exchange (fun s => on_refund s g ref) (XRefund g ref m));
  Payout to m ref := call (exchange (fun s => on_payout s g ref) (XPayout g to m ref)) |}.

Definition scripted_adapters : gmap string (AggregatorClient (World S)) :=
  <[GatewayHubtel := scripted GatewayHubtel]>
  (<[GatewayPaystack := scripted GatewayPaystack]>
  (<[GatewayMoolre := scripted GatewayMoolre]> ∅)).

Definition scripted_health : HealthStore (World S) := {|
  SuccessRate g := mret (Err ErrGatewayUnavailable);
  IsCircuitOpen g := call (fun w => (circuit_of (script w) g, w));
  P95Latency g := mret (Ok 0%Z);
  as_ResultRecorder := Some (fun g ok => call (fun w =>
    (Ok tt, mkWorld (clock w) (uuids w) (entropy w) (script w) (exchanges w)
                    (results w ++ [(g, ok)]) (locks w) (store w))));
  as_LatencyRecorder := None |}.

(** A lock table without expiry. *)
Definition scripted_locker : Locker (World S) := {|
  TryAcquire key _ := call (fun w =>
    if bool_decide (key ∈ locks w) then (Ok false, w)
    else (Ok true, mkWorld (clock w) (uuids w) (entropy w) (script w) (exchanges w) (results w)
                           ({[key]} ∪ locks w) (store w)));
  Release key := call (fun w =>
    (Ok tt, mkWorld (clock w) (uuids w) (entropy w) (script w) (exchanges w) (results w)
                    (locks w ∖ {[key]}) (store w))) |}.

Definition scripted_router : ChargerRouter (World S) :=
  {| primary := GatewayPaystack; adapters := scripted_adapters;
     health := Some scripted_health |}.

Lemma scripted_adapters_inv g a : scripted_adapters !! g = Some a -> a = scripted g.
Proof.
  unfold scripted_adapters. intros H.
  repeat (apply lookup_insert_Some in H as [[<- <-]|[_ H]]; [done|]). by rewrite lookup_empty in H.
Qed.

#[export] Instance scripted_traced : Traced scripted_adapters (@exchanges S).
Proof. split; by intros * ->%scripted_adapters_inv. Qed.

#[export] Instance scripted_frame_store : AdaptersFrame scripted_adapters (@store S).
Proof. split; intros * ->%scripted_adapters_inv; by apply Guar_call. Qed.

#[export] Instance scripted_health_exchanges : HealthFrame scripted_health (@exchanges S).
Proof. split; intros; simplify_eq/=; by repeat split. Qed.

#[export] Instance scripted_health_store : HealthFrame scripted_health (@store S).
Proof. split; intros; simplify_eq/=; by repeat split. Qed.

#[export] Instance scripted_frame_locks : AdaptersFrame scripted_adapters (@locks S).
Proof. split; intros * ->%scripted_adapters_inv; by apply Guar_call. Qed.

#[export] Instance scripted_health_locks : HealthFrame scripted_health (@locks S).
Proof. split; intros; simplify_eq/=; by repeat split. Qed.

#[export] Instance runtime_frame_locks : RuntimeFrame (@locks S).
Proof. by split. Qed.

#[export] Instance runtime_frame_store : RuntimeFrame (@store S).
Proof. by split. Qed.

#[export] Instance runtime_frame_exchanges : RuntimeFrame (@exchanges S).
Proof. by split. Qed.

#[export] Instance World_order : RuntimeOrder (W:=World S).
Proof. by intros n w. Qed.
End scenario.
