(* ===== verification/RelyGuarantee.v ===== *)
(** * A rely-guarantee logic for interleaved bodies

    [Safe view G P p Q]: started where [P] holds of [view], every action of
    [p] moves the view along [G], and when [p] returns [a], [Q a] holds,
    whatever other goroutines that also move it along [G] do in between.  [G]
    is a preorder, at once what a body guarantees and what it relies on;
    [Guar] is the case of a body about which nothing is asserted.
    [sched_Safe] is the soundness theorem, for every interleaving, also one
    that stops half-way (a process that dies). *)
From S2P Require Import Prelude.

(** ** What a body may return, in any world and among any others *)
Fixpoint Yields {W A} (p : Prog W A) (phi : A -> Prop) : Prop :=
  match p with
  | Ret a => phi a
  | Act m k => forall b, (exists w, (m w).1 = b) -> Yields (k b) phi
  end.

Lemma Yields_bind {W A B} (p : Prog W A) (f : A -> Prog W B) phi psi :
  Yields p phi -> (forall a, phi a -> Yields (f a) psi) -> Yields (p ≫= f) psi.
Proof.
  unfold mbind, Prog_bind. intros Hp Hf. induction p as [a|C m k IH]; cbn in *; [auto|].
  intros b Hb. apply IH, Hp, Hb.
Qed.
Lemma Yields_ret {W A} (a : A) (phi : A -> Prop) : phi a -> Yields (mret a : Prog W A) phi.
Proof. exact (fun H => H). Qed.
Lemma Yields_call {W A} (m : M W A) (phi : A -> Prop) : (forall w, phi (m w).1) -> Yields (call m) phi.
Proof. intros H b [w <-]. apply H. Qed.
Lemma Yields_True {W A} (p : Prog W A) : Yields p (fun _ => True).
Proof. induction p as [a|B m k IH]; cbn; auto. Qed.
Lemma Yields_mono {W A} (p : Prog W A) (phi psi : A -> Prop) :
  (forall a, phi a -> psi a) -> Yields p phi -> Yields p psi.
Proof. intros H. induction p as [a|B m k IH]; cbn; auto. Qed.

Section logic.
Context {W V : Type} (view : W -> V) (G : V -> V -> Prop) `{!PreOrder G}.

(** An assertion that the others cannot invalidate. *)
Definition Stable (P : V -> Prop) : Prop := forall v v', G v v' -> P v -> P v'.

(** What is known once [m] has answered [b] and the others have moved on. *)
Definition after {B} (P : V -> Prop) (m : M W B) (b : B) (v : V) : Prop :=
  exists w, P (view w) /\ (m w).1 = b /\ G (view (m w).2) v.

Fixpoint Safe {A} (P : V -> Prop) (p : Prog W A) (Q : A -> V -> Prop) : Prop :=
  match p with
  | Ret a => forall v, P v -> Q a v
  | Act m k => (forall w, P (view w) -> G (view w) (view (m w).2)) /\ (forall b, Safe (after P m b) (k b) Q)
  end.

Lemma after_stable {B} P (m : M W B) b : Stable (after P m b).
Proof. intros v v' Hv (w & Hw & Hb & Hg). exists w. split; [done|]. split; [done|]. by etrans. Qed.

Lemma after_mono {B} (P P' : V -> Prop) (m : M W B) b v :
  (forall v, P v -> P' v) -> after P m b v -> after P' m b v.
Proof. intros HP (w & Hw & Hb & Hg). exists w. auto. Qed.

(** ** The rules *)
Lemma Safe_weaken {A} (P P' : V -> Prop) (Q Q' : A -> V -> Prop) p :
  (forall v, P v -> P' v) -> (forall a v, Q' a v -> Q a v) -> Safe P' p Q' -> Safe P p Q.
Proof.
  revert P P'. induction p as [a|B m k IH]; intros P P' HP HQ; simpl; [by auto|].
  intros [Hm Hk]. split; [auto|]. intros b. apply (IH b _ (after P' m b)); try done.
  intros v. by apply after_mono.
Qed.

Lemma Safe_pre {A} (P P' : V -> Prop) (Q : A -> V -> Prop) p :
  (forall v, P v -> P' v) -> Safe P' p Q -> Safe P p Q.
Proof. intros HP. by apply Safe_weaken. Qed.
Lemma Safe_post {A} (P : V -> Prop) (Q Q' : A -> V -> Prop) p :
  (forall a v, Q' a v -> Q a v) -> Safe P p Q' -> Safe P p Q.
Proof. intros HQ. by apply Safe_weaken. Qed.

Lemma Safe_ret {A} (P : V -> Prop) (a : A) (Q : A -> V -> Prop) :
  (forall v, P v -> Q a v) -> Safe P (mret a) Q.
Proof. exact (fun H => H). Qed.

Lemma Safe_bind {A B} (P : V -> Prop) (p : Prog W A) (f : A -> Prog W B) R Q :
  Safe P p R -> (forall a, Safe (R a) (f a) Q) -> Safe P (p ≫= f) Q.
Proof.
  intros Hp Hf. unfold mbind, Prog_bind. revert P Hp.
  induction p as [a|C m k IH]; intros P; cbn; [intros HR; by eapply Safe_pre|].
  intros [Hm Hk]. split; [done|]. intros b. by apply IH.
Qed.

(** One action: what it establishes must survive the others. *)
Lemma Safe_call {A} (P : V -> Prop) (m : M W A) (Q : A -> V -> Prop) :
  (forall a, Stable (Q a)) ->
  (forall w, P (view w) -> G (view w) (view (m w).2) /\ Q (m w).1 (view (m w).2)) ->
  Safe P (call m) Q.
Proof.
  intros HQ Hm. split; [apply Hm|]. intros b v (w & Hw & <- & Hg).
  apply (HQ _ _ _ Hg). by apply Hm.
Qed.

(** What is stable and holds before a body holds after it. *)
Lemma Safe_frame {A} (P F : V -> Prop) (p : Prog W A) Q :
  Stable F -> Safe P p Q -> Safe (fun v => P v /\ F v) p (fun a v => Q a v /\ F v).
Proof.
  intros HF. revert P. induction p as [a|B m k IH]; intros P; cbn; [naive_solver|].
  intros [Hm Hk]. split; [intros w [Hw _]; auto|]. intros b.
  eapply Safe_pre, IH, Hk. intros v (w & [Hw Hf] & Hb & Hg). split; [by exists w|].
  apply (HF _ _ Hg), (HF (view w)); auto.
Qed.

Lemma Guar_Safe {A} (P : V -> Prop) (p : Prog W A) :
  Guar (fun w w' => G (view w) (view w')) p -> Stable P -> Safe P p (fun _ => P).
Proof.
  intros Hp HP.
  assert (H : Safe (fun _ => True) p (fun _ _ => True)).
  { assert (Hall : forall P0, Safe P0 p (fun _ _ => True)); [|apply Hall].
    induction p as [a|B m k IH]; intros P0; cbn; [done|]. destruct Hp as [Hm Hk].
    split; [intros w _; apply Hm|]. intros b. by apply IH. }
  apply (Safe_weaken _ (fun v => True /\ P v) _ (fun _ v => True /\ P v)); [by auto|by intros a v []|].
  by apply Safe_frame.
Qed.

(** A fact about no state that the assertion implies. *)
Lemma Safe_pure {A} (phi : Prop) (P : V -> Prop) (p : Prog W A) Q :
  (forall v, P v -> phi) -> (phi -> Safe P p Q) -> Safe P p Q.
Proof.
  revert P. induction p as [a|B m k IH]; intros P HP Hp; cbn in *; [intros v Hv; by apply Hp; [eapply HP|]|].
  split; [intros w Hw; by apply Hp; [eapply HP|]|]. intros b. apply IH; [|intros H; by apply Hp].
  intros v (w & Hw & _). by eapply HP.
Qed.

Lemma Yields_Safe {A} (P : V -> Prop) (p : Prog W A) phi :
  Guar (fun w w' => G (view w) (view w')) p -> Yields p phi -> Stable P -> Safe P p (fun a v => P v /\ phi a).
Proof.
  intros Hp Hy HP.
  assert (H : Safe (fun _ => True) p (fun a _ => phi a)).
  { assert (Hall : forall P0, Safe P0 p (fun a _ => phi a)); [|apply Hall].
    induction p as [a|B m k IH]; intros P0; cbn in *; [done|]. destruct Hp as [Hm Hk].
    split; [intros w _; apply Hm|]. intros b.
    apply (Safe_pure (exists w, (m w).1 = b)); [intros v (w & _ & Hb & _); by exists w|].
    intros Hb. apply IH; auto. }
  apply (Safe_weaken _ (fun v => True /\ P v) _ (fun a v => phi a /\ P v)); [by auto|by intros a v []|].
  by apply Safe_frame.
Qed.

(** ** Steps that leave the view alone, or promise no more than [G] *)
Lemma Moves_quiet {A} (p : Prog W A) : Preserves view p -> Guar (fun w w' => G (view w) (view w')) p.
Proof. apply Guar_mono. intros w w' E. by rewrite E. Qed.

(** A step that says nothing: what was known before it is known after it. *)
Lemma Safe_then {A B} P (p : Prog W A) (f : A -> Prog W B) Q :
  Guar (fun w w' => G (view w) (view w')) p -> Stable P -> (forall a, Safe P (f a) Q) -> Safe P (p ≫= f) Q.
Proof. intros Hp HP Hf. eapply Safe_bind; [by apply Guar_Safe|done]. Qed.
Lemma Safe_quiet {A B} P (p : Prog W A) (f : A -> Prog W B) Q :
  Preserves view p -> Stable P -> (forall a, Safe P (f a) Q) -> Safe P (p ≫= f) Q.
Proof. intros Hp. by apply Safe_then, Moves_quiet. Qed.

(** ** Alone *)
Lemma Safe_run {A} P (p : Prog W A) Q w :
  Safe P p Q -> P (view w) -> G (view w) (view (run p w).2) /\ Q (run p w).1 (view (run p w).2).
Proof.
  revert P w. induction p as [a|B m k IH]; intros P w; cbn; [intros HQ Hw; split; [done|by apply HQ]|].
  intros [Hm Hk] Hw. destruct (IH (m w).1 _ (m w).2 (Hk (m w).1)) as [Hg HQ]; [by exists w|].
  split; [by etrans; [apply Hm|]|done].
Qed.

(** ** Interleaved: threads with what each promises of its answer *)
Definition thread_ok {A} (v : V) (p : Prog W A) (Q : A -> V -> Prop) : Prop :=
  exists P, Stable P /\ P v /\ Safe P p Q.

Lemma thread_ok_step {A} w (p : Prog W A) Q :
  thread_ok (view w) p Q ->
  G (view w) (view (step1 p w).2) /\ thread_ok (view (step1 p w).2) (step1 p w).1 Q.
Proof.
  intros (P & HP & Hw & Hp). destruct p as [a|B m k]; cbn; [split; [done|by exists P]|].
  destruct Hp as [Hm Hk]. split; [by apply Hm|]. exists (after P m (m w).1).
  split; [apply after_stable|]. split; [by exists w|apply Hk].
Qed.
Lemma thread_ok_moved {A} v v' (p : Prog W A) Q : G v v' -> thread_ok v p Q -> thread_ok v' p Q.
Proof. intros Hg (P & HP & Hv & Hp). exists P. split; [done|]. split; [by eapply HP|done]. Qed.

Theorem sched_Safe {A} sch (ps : list (Prog W A)) Qs w :
  Forall2 (thread_ok (view w)) ps Qs ->
  G (view w) (view (sched sch ps w).2)
  /\ Forall2 (thread_ok (view (sched sch ps w).2)) (sched sch ps w).1 Qs.
Proof.
  revert ps w. induction sch as [|i sch IH]; intros ps w Hps; cbn [sched]; [by split|].
  destruct (ps !! i) as [p|] eqn:Hi; [|by apply IH].
  destruct (Forall2_lookup_l _ _ _ _ _ Hps Hi) as (Q & HQ & Hp).
  destruct (thread_ok_step w p Q Hp) as [Hg Hp'].
  assert (Hps' : Forall2 (thread_ok (view (step1 p w).2)) (<[i:=(step1 p w).1]> ps) Qs).
  { rewrite <- (list_insert_id Qs i Q HQ). apply Forall2_insert; [|done].
    eapply Forall2_impl; [|exact Hps]. intros x y. by apply thread_ok_moved. }
  destruct (IH _ _ Hps') as [Hg' Hts]. split; [by etrans|done].
Qed.

(** What a thread that has returned promised holds. *)
Lemma finished_ok {A} v (ps : list (Prog W A)) Qs i a Q :
  Forall2 (thread_ok v) ps Qs -> Qs !! i = Some Q -> (ps !! i) ≫= finished = Some a -> Q a v.
Proof.
  intros Hps HQ Ha. destruct (ps !! i) as [p|] eqn:Hi; [|done].
  destruct (Forall2_lookup_lr _ _ _ _ _ _ Hps Hi HQ) as (P & _ & Hv & Hp).
  destruct p; [|done]. injection Ha as ->. by apply Hp.
Qed.
End logic.
Arguments Stable {V} G P.
#[global] Arguments Safe {W V} view G {A} P p Q : simpl never.
