(* ===== verification/RouterProofs.v ===== *)
(** * Correctness of the gateway router

    The ranking of [Route], and the exchanges and the answer of
    [InitiateWithFallback] for arbitrary adapters and health stores. *)
From S2P Require Import Prelude GoStrings Money Reference Gateway Config Router Scenario.

(** The health store of [r], when there is one, leaves [view] alone. *)
Class RouterFrame {W V} (r : ChargerRouter W) (view : W -> V) : Prop :=
  router_frame h : health r = Some h -> HealthFrame h view.

Section frames.
Context {W V : Type} `{!Runtime W} (r : ChargerRouter W) (view : W -> V).
Context `{!RuntimeFrame view} `{!RouterFrame r view}.

Lemma Preserves_closed_circuits h gs :
  HealthFrame h view -> Preserves view (closed_circuits h gs).
Proof.
  intros Hh. induction gs as [|g gs IH]; cbn [closed_circuits]; guar. apply frame_circuit.
Qed.

Lemma Preserves_Route : Preserves view (Route r).
Proof.
  unfold Route. destruct (health r) as [h|] eqn:Hh; guar.
  by apply Preserves_closed_circuits, router_frame.
Qed.

Lemma Preserves_RecordResult g ok lat : Preserves view (RecordResult r g ok lat).
Proof.
  unfold RecordResult. destruct (health r) as [h|] eqn:Hh; [|exact I].
  pose proof (router_frame h Hh) as HF. guar.
  - by eapply frame_result.
  - by eapply frame_latency.
Qed.

Context `{!AdaptersFrame (adapters r) view}.

Lemma Preserves_fallback req gs e : Preserves view (fallback r req gs e).
Proof.
  revert e. induction gs as [|g gs IH]; intros e; cbn [fallback]; [exact I|].
  destruct (adapters r !! g) as [a|] eqn:Ha; guar; try apply Preserves_RecordResult.
  by eapply frame_initiate.
Qed.

Lemma Preserves_InitiateWithFallback req : Preserves view (InitiateWithFallback r req).
Proof. apply Guar_bind; [apply Preserves_Route | intros; apply Preserves_fallback]. Qed.
End frames.
#[export] Hint Resolve Preserves_Route Preserves_RecordResult Preserves_InitiateWithFallback : guar.

(** ** Ranking *)

(** The circuit is known to be closed. *)
Definition is_closed (answer : result bool) : bool :=
  match answer with Ok open => negb open | Err _ => false end.

Section ranking.
Context {W : Type} `{!Runtime W}.
Implicit Types (r : ChargerRouter W) (h : HealthStore W).

Lemma primary_Valid cfg hs (ads : gmap string (AggregatorClient W)) :
  Valid (primary (NewChargerRouter cfg hs ads)) = true.
Proof. simpl. by destruct (Valid (Primary cfg)) eqn:E. Qed.

Lemma order_perm r :
  Valid (primary r) = true -> order r ≡ₚ [GatewayHubtel; GatewayPaystack; GatewayMoolre].
Proof.
  unfold order. rewrite Valid_cases. intros [-> | [-> | ->]]; vm_compute.
  - done.
  - apply Permutation_swap.
  - etrans; [apply Permutation_swap|]. apply Permutation_skip, Permutation_swap.
Qed.

Lemma closed_circuits_sublist h gs w : sublist (run (closed_circuits h gs) w).1 gs.
Proof.
  revert w. induction gs as [|g gs IH]; intros w; simpl; [constructor|].
  run_simpl. destruct (run (IsCircuitOpen h g) w).1 as [[|]|e]; by constructor.
Qed.

Lemma Route_sublist r w : sublist (run (Route r) w).1 (order r).
Proof.
  unfold Route. destruct (health r) as [h|]; [|done].
  run_simpl. pose proof (closed_circuits_sublist h (order r) w) as Hs.
  by destruct (run (closed_circuits h (order r)) w).1.
Qed.

Lemma Route_not_nil r w : (run (Route r) w).1 <> [].
Proof.
  unfold Route. destruct (health r) as [h|]; [|done].
  run_simpl. by destruct (run (closed_circuits h (order r)) w).1.
Qed.

Lemma Route_valid r w g :
  Valid (primary r) = true -> g ∈ (run (Route r) w).1 -> Valid g = true.
Proof.
  intros Hp Hg. eapply elem_of_sublist in Hg; [|apply Route_sublist].
  rewrite (order_perm r Hp) in Hg. by set_unfold in Hg; destruct Hg as [-> | [-> | [-> | []]]].
Qed.

Lemma Route_NoDup r w : Valid (primary r) = true -> NoDup (run (Route r) w).1.
Proof.
  intros Hp. eapply sublist_NoDup; [|apply Route_sublist].
  rewrite (order_perm r Hp). by apply (bool_decide_unpack _).
Qed.

Lemma closed_circuits_filter h circuit `{!CircuitReads h circuit} gs w :
  (run (closed_circuits h gs) w).1 = filter (fun g => is_closed (circuit w g) = true) gs.
Proof.
  revert w. induction gs as [|g gs IH]; intros w; [done|]. simpl closed_circuits.
  run_simpl. rewrite IH, circuit_answer, circuit_stable, filter_cons.
  by destruct (circuit w g) as [[|]|e].
Qed.
End ranking.

(** ** Fallback *)
Section fallback.
Context {W : Type} `{!Runtime W} (r : ChargerRouter W) (log : W -> list Exchange).
Context `{!Traced (adapters r) log} `{!RuntimeFrame log} `{!RouterFrame r log}.

(** The gateways of [gs] that have an adapter. *)
Definition attemptable (gs : list Gateway) : list Gateway :=
  filter (fun g => is_Some (adapters r !! g)) gs.

Definition attempt_error (a : Gateway * result InitiateResponse) : option error :=
  match a with
  | (g, Ok _) => None
  | (g, Err e) =>
      Some (if errors_Is e ErrNotConfigured then e else Errorf ("gateway " ^^ g ^^ ": ") e)
  end.

Definition attempt_exchange (req : InitiateRequest) (a : Gateway * result InitiateResponse) :=
  XInitiate a.1 (attempt_request req a.1) a.2.

(** The value of [lastErr] after the attempts [att]. *)
Definition last_error (lastErr : option error) (att : list (Gateway * result InitiateResponse)) :=
  fold_left (fun e a => match attempt_error a with Some e' => Some e' | None => e end) att lastErr.

(** What a run of the loop over [gs] that made the attempts [att] answers. *)
Definition fallback_answer (gs : list Gateway) (lastErr : option error)
    (att : list (Gateway * result InitiateResponse))
    (res : result (InitiateResponse * Gateway)) : Prop :=
  match res with
  | Ok (resp, g) =>
      exists failed, att = failed ++ [(g, Ok resp)] /\ Forall (fun a => is_Ok a.2 = false) failed
      /\ exists later, attemptable gs = att.*1 ++ later
  | Err e =>
      Forall (fun a => is_Ok a.2 = false) att /\ att.*1 = attemptable gs
      /\ e = default ErrGatewayUnavailable (last_error lastErr att)
  end.

Lemma log_now w : log (run time_Now w).2 = log w.
Proof. apply Preserves_run. by apply Preserves_now. Qed.

Lemma log_RecordResult g ok lat w : log (run (RecordResult r g ok lat) w).2 = log w.
Proof. apply Preserves_run. by apply Preserves_RecordResult. Qed.

Lemma log_Route w : log (run (Route r) w).2 = log w.
Proof. apply Preserves_run. by apply Preserves_Route. Qed.

Lemma attemptable_cons g a gs :
  adapters r !! g = Some a -> attemptable (g :: gs) = g :: attemptable gs.
Proof. intros H. unfold attemptable. rewrite filter_cons_True; [done|]. by rewrite H. Qed.

Lemma attemptable_skip g gs : adapters r !! g = None -> attemptable (g :: gs) = attemptable gs.
Proof.
  intros H. unfold attemptable. rewrite filter_cons_False; [done|]. rewrite H. by intros [].
Qed.

Lemma fallback_answer_cons g a gs lastErr e att res :
  adapters r !! g = Some a ->
  fallback_answer gs (attempt_error (g, Err e)) att res ->
  fallback_answer (g :: gs) lastErr ((g, Err e) :: att) res.
Proof.
  unfold fallback_answer. intros Ha. rewrite (attemptable_cons g a gs Ha).
  destruct res as [[resp g']|err].
  - intros (failed & -> & Hf & later & Hl). exists ((g, Err e) :: failed).
    split; [done|]. split; [by constructor|]. exists later. simpl. by rewrite Hl.
  - intros (Hf & Hm & ->). split; [by constructor|]. split; [by rewrite fmap_cons, Hm|done].
Qed.

Lemma fallback_spec req gs lastErr w :
  exists att,
    log (run (fallback r req gs lastErr) w).2 = log w ++ map (attempt_exchange req) att
    /\ fallback_answer gs lastErr att (run (fallback r req gs lastErr) w).1.
Proof.
  revert lastErr w. induction gs as [|g gs IH]; intros lastErr w; cbn [fallback].
  { exists []. simpl. by rewrite app_nil_r. }
  destruct (adapters r !! g) as [a|] eqn:Ha.
  2: { destruct (IH lastErr w) as (att & Hl & Hans). exists att. split; [done|].
       unfold fallback_answer. by rewrite attemptable_skip. }
  run_simpl. set (w1 := (run time_Now w).2).
  set (res := (run (Initiate a (attempt_request req g)) w1).1).
  set (w2 := (run (Initiate a (attempt_request req g)) w1).2).
  set (w3 := (run time_Now w2).2).
  assert (Hw3 : log w3 = log w ++ [attempt_exchange req (g, res)]).
  { unfold w3, w2. by rewrite log_now, (traced_initiate (log:=log) g) by done; unfold w1; rewrite log_now. }
  destruct res as [resp|err]; [|destruct (errors_Is err ErrNotConfigured) eqn:HN].
  - run_simpl. rewrite log_RecordResult, Hw3. exists [(g, Ok resp)]. split; [done|].
    exists []. repeat split; [constructor|]. exists (attemptable gs). by apply (attemptable_cons _ a).
  - destruct (IH (Some err) w3) as (att & Hl & Hans). exists ((g, Err err) :: att). split.
    + rewrite Hl, Hw3. by rewrite <- app_assoc.
    + eapply fallback_answer_cons; [done|]. simpl. by rewrite HN.
  - run_simpl. match goal with |- context [run (fallback r req gs ?e) (run ?p w3).2] =>
      destruct (IH e (run p w3).2) as (att & Hl & Hans) end.
    exists ((g, Err err) :: att). split.
    + rewrite Hl, log_RecordResult, Hw3. by rewrite <- app_assoc.
    + eapply fallback_answer_cons; [done|]. simpl. by rewrite HN.
Qed.

Lemma InitiateWithFallback_spec req w :
  Valid (primary r) = true ->
  exists att,
    log (run (InitiateWithFallback r req) w).2 = log w ++ map (attempt_exchange req) att
    /\ NoDup att.*1
    /\ fallback_answer (run (Route r) w).1 None att (run (InitiateWithFallback r req) w).1.
Proof.
  intros Hp. unfold InitiateWithFallback. run_simpl.
  destruct (fallback_spec req (run (Route r) w).1 None (run (Route r) w).2)
    as (att & Hl & Hans).
  exists att. rewrite Hl, log_Route. split; [done|]. split; [|done].
  assert (Hnd : NoDup (attemptable (run (Route r) w).1))
    by (apply list.NoDup_filter, Route_NoDup, Hp).
  destruct (run (fallback r req _ None) _).1 as [[resp g]|e].
  - destruct Hans as (failed & -> & _ & later & Hl'). rewrite Hl' in Hnd.
    by apply list.NoDup_app in Hnd as [? _].
  - destruct Hans as (_ & -> & _). done.
Qed.

(** A failed call is "not configured" exactly when its last attempt was. *)
Definition last_unconfigured (att : list (Gateway * result InitiateResponse)) : bool :=
  match list.last att with Some (_, Err e) => errors_Is e ErrNotConfigured | _ => false end.

Lemma last_error_unconfigured att :
  Forall (fun a => is_Ok a.2 = false) att ->
  errors_Is (default ErrGatewayUnavailable (last_error None att)) ErrNotConfigured
  = last_unconfigured att.
Proof.
  intros Hf. destruct att as [|[g res] att _] using rev_ind; [done|].
  unfold last_unconfigured, last_error. rewrite fold_left_app, list.last_snoc. cbn [fold_left attempt_error].
  apply Forall_app in Hf as [_ Hf]. inversion_clear Hf as [|? ? Hres]. simpl in Hres.
  destruct res as [|e]; [done|]. cbn [default].
  destruct (errors_Is e ErrNotConfigured) eqn:E; [done|].
  etrans; [apply errors_Is_Errorf|exact E].
Qed.

(** A gateway that accepted was ranked. *)
Lemma fallback_answer_ranked gs att resp g :
  fallback_answer gs None att (Ok (resp, g)) -> g ∈ gs.
Proof.
  intros (failed & -> & _ & later & Hl).
  assert (Hg : g ∈ attemptable gs).
  { rewrite Hl, fmap_app. simpl. set_solver. }
  unfold attemptable in Hg. apply list_elem_of_filter in Hg. tauto.
Qed.
End fallback.

(** ** Properties *)

(** [Route], from any router [NewChargerRouter] builds and whatever the
    health store answers, never leaves the caller without a gateway, never
    ranks one twice, keeps the configured primary first among those it keeps
    and the fixed order of the others, and ranks only known gateways. *)
Theorem Route_total {W} `{!Runtime W} cfg hs ads (w : W) :
  let r := NewChargerRouter cfg hs ads in
  let gs := (run (Route r) w).1 in
  gs <> [] /\ NoDup gs /\ sublist gs (order r)
  /\ order r ≡ₚ [GatewayHubtel; GatewayPaystack; GatewayMoolre]
  /\ head (order r) = Some (if Valid (Primary cfg) then Primary cfg else GatewayPaystack)
  /\ (hs = None -> gs = order r).
Proof.
  cbv zeta. pose proof (primary_Valid cfg hs ads) as Hp.
  repeat split; auto using Route_not_nil, Route_NoDup, Route_sublist, order_perm.
  unfold Route. by intros ->.
Qed.

(** With a health store that answers from its table, [Route] ranks
    exactly the gateways whose circuit is known to be closed, in priority
    order; a gateway whose circuit is open or unreadable is left out, unless
    that leaves none, and then all three are ranked. *)
Theorem Route_excludes_open {W} `{!Runtime W} (r : ChargerRouter W) h circuit
    `{!CircuitReads h circuit} (w : W) :
  health r = Some h ->
  let closed := filter (fun g => is_closed (circuit w g) = true) (order r) in
  (run (Route r) w).1 = (if bool_decide (closed = []) then order r else closed).
Proof.
  intros Hh. unfold Route. rewrite Hh. run_simpl.
  rewrite (closed_circuits_filter h circuit). simpl.
  by destruct (filter (fun g => is_closed (circuit w g) = true) (order r)).
Qed.

(** C8: whatever the adapters answer, one call of [InitiateWithFallback]
    makes at most one exchange per gateway, in the order of [Route] and only
    with registered adapters; every exchange but a last successful one
    failed; success is reported for the gateway that gave it, and failure only
    when every registered gateway of the ranking was tried, with the error of
    the last one (or "unavailable" when there was none). *)
Theorem InitiateWithFallback_correct {W} `{!Runtime W} (r : ChargerRouter W)
    (log : W -> list Exchange) `{!Traced (adapters r) log} `{!RuntimeFrame log}
    `{!RouterFrame r log} req w :
  Valid (primary r) = true ->
  let gs := (run (Route r) w).1 in
  exists att,
    log (run (InitiateWithFallback r req) w).2 = log w ++ map (attempt_exchange req) att
    /\ NoDup att.*1
    /\ fallback_answer r gs None att (run (InitiateWithFallback r req) w).1.
Proof.
  intros Hp. exact (InitiateWithFallback_spec r log req w Hp).
Qed.

(** An attempt carries the caller's request with nothing but the gateway
    segment of its reference replaced: a parseable reference is rebuilt with
    the attempted gateway and the same product and ULID, any other is sent as
    it came. *)
Theorem attempt_request_correct req g :
  Valid g = true ->
  (forall p g0 u, ParseReference (ir_Reference req) = Some (p, g0, u) ->
     ParseReference (ir_Reference (attempt_request req g)) = Some (p, g, u))
  /\ (ParseReference (ir_Reference req) = None -> attempt_request req g = req)
  /\ with_Reference (ir_Reference req) (attempt_request req g) = req.
Proof.
  intros Hg. unfold attempt_request.
  destruct (ParseReference (ir_Reference req)) as [[[p g0] u]|] eqn:E.
  - apply Parse_sound in E as (_ & Hp & _ & Hu).
    split; [intros ??? [= <- <- <-]; by apply Parse_Build|]. split; [done|]. by destruct req.
  - split; [done|]. split; [done|]. by destruct req.
Qed.

(** ** The properties at concrete inputs *)
#[export] Instance scripted_circuits {S} :
  CircuitReads (@scripted_health S) (fun w g => circuit_of (script w) g).
Proof. by split. Qed.

#[export] Instance scripted_router_exchanges {S} : RouterFrame (@scripted_router S) (@exchanges S).
Proof. intros h [= <-]. apply _. Qed.

#[export] Instance scripted_router_store {S} : RouterFrame (@scripted_router S) (@store S).
Proof. intros h [= <-]. apply _. Qed.

(** Paystack's circuit is open, Hubtel declines, Moolre accepts. *)
Definition demo_script : Script := {|
  on_initiate g _ := if bool_decide (g = GatewayMoolre)
    then Ok {| is_ExternalRef := "x"; is_Status := "pending"; is_AuthorizationURL := "";
               is_RawRequest := ""; is_RawResponse := "" |}
    else Err (Fresh "declined");
  on_verify g ref := Ok {| vr_Reference := ref; vr_Status := "succeeded";
                           vr_Amount := New 500 GHS; vr_VerifiedAt := 7%Z |};
  on_refund _ _ := Err ErrNotSupported;
  on_payout _ _ := Err ErrNotConfigured;
  circuit_of g := Ok (bool_decide (g = GatewayPaystack)) |}.

Definition demo_world {S} (s : S) : World S := mkWorld 0 0 0 demo_script [] [] ∅ s.

Definition demo_request : InitiateRequest :=
  {| ir_Reference := "optd-shop-paystack-0001"; ir_Amount := New 500 GHS; ir_Wallet := "024";
     ir_Product := "shop"; ir_IdempotencyKey := "" |}.

Lemma Route_excludes_open_witness :
  health (@scripted_router unit) = Some scripted_health
  /\ (run (Route scripted_router) (demo_world tt)).1 = [GatewayHubtel; GatewayMoolre].
Proof.
  split; [reflexivity|].
  rewrite (Route_excludes_open scripted_router scripted_health
             (fun w g => circuit_of (script w) g) (demo_world tt) eq_refl).
  vm_compute. reflexivity.
Defined.

Lemma InitiateWithFallback_correct_witness :
  Valid (primary (@scripted_router unit)) = true
  /\ map (fun x => match x with XInitiate g req _ => (g, ir_Reference req) | _ => ("", "") end)
         (exchanges (run (InitiateWithFallback scripted_router demo_request) (demo_world tt)).2)
     = [(GatewayHubtel, "optd-shop-hubtel-0001"); (GatewayMoolre, "optd-shop-moolre-0001")]
  /\ exists att,
       exchanges (run (InitiateWithFallback scripted_router demo_request) (demo_world tt)).2
       = [] ++ map (attempt_exchange demo_request) att
       /\ NoDup att.*1
       /\ fallback_answer (@scripted_router unit) [GatewayHubtel; GatewayMoolre] None att
           (run (InitiateWithFallback scripted_router demo_request) (demo_world tt)).1.
Proof.
  split; [reflexivity|]. split; [vm_compute; reflexivity|].
  exact (InitiateWithFallback_correct (@scripted_router unit) exchanges demo_request
           (demo_world tt) eq_refl).
Defined.

Lemma attempt_request_correct_witness :
  Valid GatewayMoolre = true
  /\ ParseReference (ir_Reference (attempt_request demo_request GatewayMoolre))
     = Some ("shop", GatewayMoolre, "0001").
Proof.
  split; [reflexivity|].
  apply (attempt_request_correct demo_request GatewayMoolre eq_refl) with (g0 := GatewayPaystack).
  vm_compute. reflexivity.
Defined.
