(* ===== verification/Charges.v ===== *)
(** * internal/charges: the collection lifecycle

    [Service.Initiate], [Service.Status] and [validate].  The store is the
    [IntentStore] seam with the optional [outboxWriter]; tracing and logging
    are not modelled.  [ChargeRequest.Metadata] is dropped: nothing under
    [src/] reads it. *)
From S2P Require Import Prelude GoStrings Money Reference Gateway Router.

Definition ErrInvalidRequest : error := Sentinel "charges: invalid request".
Definition ErrNotFound : error := Sentinel "charges: not found".

Record ChargeRequest := {
  cr_Product : string; cr_Amount : Money; cr_Wallet : string; cr_Phone : string;
  cr_IdempotencyKey : string }.

Record ChargePending := {
  cp_Ref : string; cp_Gateway : Gateway; cp_ExternalRef : string; cp_AuthorizationURL : string }.

Inductive ChargeResult :=
| ChargeSucceeded (Ref : string) (g : Gateway) (ExternalRef : string) (SettledAt : Time)
| Pending (p : ChargePending)
| ChargeFailed (Reason : string).

Definition validate (req : ChargeRequest) : option error :=
  if String.eqb (cr_Product req) "" then Some (Fresh "product is required")
  else if IsNegative (cr_Amount req) || IsZero (cr_Amount req)
  then Some (Fresh "amount must be positive")
  else if String.eqb (cr_Wallet req) "" && String.eqb (cr_Phone req) ""
  then Some (Fresh "wallet or phone is required")
  else None.

(** [fmt.Errorf("%w: %w", e1, e2)] *)
Definition wrap2 (e1 e2 : error) : error := Wrap (Error e1 ^^ ": " ^^ Error e2) [e1; e2].

Section charges.
Context {W : Type} `{!Runtime W}.

Record IntentStore := {
  CreateIntent : string -> ChargeRequest -> Gateway -> Money -> string -> Prog W (result unit);
  FindByRef : string -> Prog W (result ChargePending);
  FindByIdempotencyKey : string -> string -> Prog W (result (string * bool));
  UpdateStatus : string -> string -> Prog W (result unit);
  (** the type assertion to [outboxWriter] *)
  as_outboxWriter : option (string -> Gateway -> Prog W (result unit)) }.

Record Service := { svc_store : IntentStore; svc_router : ChargerRouter W }.

(** [for _, opt := range opts { opt(s) }] *)
Definition NewService (store : IntentStore) (router : ChargerRouter W) (opts : list (Service -> Service)) : Service :=
  fold_left (fun s opt => opt s) opts {| svc_store := store; svc_router := router |}.

(** [if ow, ok := s.store.(outboxWriter); ok { ow.InsertOutboxEvent(ref, gw) }];
    both call sites of [Initiate] discard or only log the error. *)
Definition insert_outbox (s : IntentStore) (ref : string) (gw : Gateway) : Prog W unit :=
  match as_outboxWriter s with
  | Some InsertOutboxEvent => _ ← InsertOutboxEvent ref gw; mret tt
  | None => mret tt
  end.

(** [if req.IdempotencyKey != "" { ... err == nil && found }] *)
Definition seen (s : IntentStore) (req : ChargeRequest) : Prog W (option string) :=
  if String.eqb (cr_IdempotencyKey req) "" then mret None
  else
    r ← FindByIdempotencyKey s (cr_Product req) (cr_IdempotencyKey req);
    mret (match r with Ok (ref, true) => Some ref | _ => None end).

Definition base_request (req : ChargeRequest) (ref : string) : InitiateRequest :=
  {| ir_Reference := ref; ir_Amount := cr_Amount req;
     ir_Wallet := if String.eqb (cr_Wallet req) "" then cr_Phone req else cr_Wallet req;
     ir_Product := cr_Product req; ir_IdempotencyKey := cr_IdempotencyKey req |}.

(** The reference under which the charge made at [chosen] is stored. *)
Definition actual_ref (baseRef : string) (chosen : Gateway) : string :=
  match ParseReference baseRef with
  | Some (prod, g, ulid) =>
      if String.eqb g chosen then baseRef else BuildReference prod chosen ulid
  | None => baseRef
  end.

(** [Initiate] after the failure of [InitiateWithFallback]. *)
Definition charge_refused (s : Service) (req : ChargeRequest) (first : Gateway) (baseRef : string)
    (err : error) : Prog W (result ChargeResult) :=
  if errors_Is err ErrNotConfigured then
    _ ← CreateIntent (svc_store s) baseRef req first (cr_Amount req) "";
    _ ← insert_outbox (svc_store s) baseRef first;
    mret (Ok (Pending {| cp_Ref := baseRef; cp_Gateway := first; cp_ExternalRef := baseRef;
                         cp_AuthorizationURL := "" |}))
  else mret (Ok (ChargeFailed (Error err))).

(** [Initiate] after a gateway accepted. *)
Definition charge_accepted (s : Service) (req : ChargeRequest) (baseRef : string)
    (resp : InitiateResponse) (chosen : Gateway) : Prog W (result ChargeResult) :=
  let actualRef := actual_ref baseRef chosen in
  created ← CreateIntent (svc_store s) actualRef req chosen (cr_Amount req)
                         (is_AuthorizationURL resp);
  match created with
  | Err err => mret (Err (Errorf "charges: create intent: " err))
  | Ok _ =>
      _ ← insert_outbox (svc_store s) actualRef chosen;
      mret (Ok (Pending {| cp_Ref := actualRef; cp_Gateway := chosen;
                           cp_ExternalRef := is_ExternalRef resp;
                           cp_AuthorizationURL := is_AuthorizationURL resp |}))
  end.

(** [Initiate] past the idempotency check. *)
Definition charge_new (s : Service) (req : ChargeRequest) : Prog W (result ChargeResult) :=
  ordered ← Route (svc_router s);
  match ordered with
  | [] => mret (Err (Errorf "charges: no gateway available: " ErrGatewayUnavailable))
  | first :: _ =>
      ulid ← NewULID;
      let baseRef := BuildReference (cr_Product req) first ulid in
      outcome ← InitiateWithFallback (svc_router s) (base_request req baseRef);
      match outcome with
      | Err err => charge_refused s req first baseRef err
      | Ok (resp, chosen) => charge_accepted s req baseRef resp chosen
      end
  end.

Definition Initiate (s : Service) (req : ChargeRequest) : Prog W (result ChargeResult) :=
  match validate req with
  | Some err => mret (Err (wrap2 ErrInvalidRequest err))
  | None =>
      found ← seen (svc_store s) req;
      match found with
      | Some ref => mret (Ok (Pending {| cp_Ref := ref; cp_Gateway := ""; cp_ExternalRef := "";
                                         cp_AuthorizationURL := "" |}))
      | None => charge_new s req
      end
  end.

Definition Status (s : Service) (ref : string) : Prog W (result VerifyResult) :=
  match ParseReference ref with
  | None => mret (Err (Wrap (Error ErrInvalidRequest ^^ ": malformed reference " ^^ Quote ref)
                            [ErrInvalidRequest]))
  | Some (_, gw, _) =>
      match Adapter (svc_router s) gw with
      | None => mret (Err (Fresh ("charges: no adapter for gateway " ^^ gw)))
      | Some adapter =>
          _ ← time_Now;
          res ← Verify adapter ref;
          _ ← time_Now;
          match res with
          | Err err => mret (Err (Errorf "charges: verify: " err))
          | Ok result => mret (Ok result)
          end
      end
  end.
End charges.
Arguments IntentStore W : clear implicits.
Arguments Service W : clear implicits.
