(* ===== verification/ChargesSpec.v ===== *)
(** * What charge initiation promises

    The register an intent store keeps, its contract [IntentStoreSpec], and
    the theorems about [Initiate] and [Status] over any such store. *)
From S2P Require Import Prelude GoStrings Money Reference Gateway Router RouterProofs Charges.

(** ** The register *)
Record IntentView := { iv_Gateway : Gateway; iv_Status : string; iv_Product : string }.

Record Register (K : Type) `{Countable K} := mkRegister {
  reg_intents : gmap string IntentView;
  reg_keys : gmap K string }.
Arguments mkRegister {K _ _} _ _.
Arguments reg_intents {K _ _} _.
Arguments reg_keys {K _ _} _.

Section contract.
Context {K : Type} `{Countable K}.

(** A pending intent, and its idempotency key when it has one. *)
Definition register_intent (scope : string -> string -> K) (ref : string) (req : ChargeRequest)
    (g : Gateway) (b : Register K) : Register K :=
  mkRegister
    (<[ref := {| iv_Gateway := g; iv_Status := "pending"; iv_Product := cr_Product req |}]>
       (reg_intents b))
    (if String.eqb (cr_IdempotencyKey req) "" then reg_keys b
     else <[scope (cr_Product req) (cr_IdempotencyKey req) := ref]> (reg_keys b)).

(** The contract.  [scope] is the store's own key for a product and an
    idempotency key; the outbox may add an intent it misses but changes none. *)
Class IntentStoreSpec {W} (s : IntentStore W) (scope : string -> string -> K)
    (reg : W -> Register K) : Prop := {
  is_create ref req g amt url w :
    reg (run (CreateIntent s ref req g amt url) w).2
    = match (run (CreateIntent s ref req g amt url) w).1 with
      | Ok _ => register_intent scope ref req g (reg w)
      | Err _ => reg w
      end;
  is_find product key w :
    reg (run (FindByIdempotencyKey s product key) w).2 = reg w
    /\ match (run (FindByIdempotencyKey s product key) w).1 with
       | Ok (ref, found) =>
           reg_keys (reg w) !! scope product key = if found then Some ref else None
       | Err _ => True
       end;
  is_outbox f ref g w :
    as_outboxWriter s = Some f ->
    reg_keys (reg (run (f ref g) w).2) = reg_keys (reg w)
    /\ reg_intents (reg w) ⊆ reg_intents (reg (run (f ref g) w).2)
    /\ (is_Some (reg_intents (reg w) !! ref) -> reg (run (f ref g) w).2 = reg w) }.
End contract.

(** The operations leave a view of the world alone. *)
Class IntentStoreFrame {W V} (s : IntentStore W) (view : W -> V) : Prop := {
  isf_create ref req g amt url : Preserves view (CreateIntent s ref req g amt url);
  isf_find product key : Preserves view (FindByIdempotencyKey s product key);
  isf_outbox f ref g : as_outboxWriter s = Some f -> Preserves view (f ref g) }.

Lemma validate_None req :
  validate req = None <->
  cr_Product req <> "" /\ (0 < minorUnits (cr_Amount req))%Z
  /\ (cr_Wallet req <> "" \/ cr_Phone req <> "").
Proof.
  unfold validate, IsNegative, IsZero.
  destruct (String.eqb_spec (cr_Product req) "") as [Ep|Ep]; [intuition congruence|].
  destruct (Z.ltb_spec (minorUnits (cr_Amount req)) 0), (Z.eqb_spec (minorUnits (cr_Amount req)) 0);
    cbn [orb]; try (split; [done|lia]).
  destruct (String.eqb_spec (cr_Wallet req) ""), (String.eqb_spec (cr_Phone req) ""); cbn [andb];
    intuition (congruence || lia).
Qed.

Section initiate.
Context {W : Type} `{!Runtime W} `{!RandBytes (W:=W)} (s : Service W).
Context {K : Type} `{Countable K} (scope : string -> string -> K).
Context (reg : W -> Register K) (log : W -> list Exchange).
Context `{!IntentStoreSpec (svc_store s) scope reg} `{!IntentStoreFrame (svc_store s) log}.
Context `{!Traced (adapters (svc_router s)) log} `{!AdaptersFrame (adapters (svc_router s)) reg}.
Context `{!RouterFrame (svc_router s) log} `{!RouterFrame (svc_router s) reg}.
Context `{!RuntimeFrame reg} `{!RuntimeFrame log}.

Lemma run_insert_outbox ref g w :
  log (run (insert_outbox (svc_store s) ref g) w).2 = log w
  /\ reg_keys (reg (run (insert_outbox (svc_store s) ref g) w).2) = reg_keys (reg w)
  /\ reg_intents (reg w) ⊆ reg_intents (reg (run (insert_outbox (svc_store s) ref g) w).2)
  /\ (is_Some (reg_intents (reg w) !! ref) ->
      reg (run (insert_outbox (svc_store s) ref g) w).2 = reg w).
Proof.
  unfold insert_outbox. destruct (as_outboxWriter (svc_store s)) as [f|] eqn:E; run_simpl; [|done].
  split; [apply Preserves_run; by eapply isf_outbox|]. by apply is_outbox.
Qed.

(** The store refused the intent of a charge nobody accepted. *)
Definition create_refused (req : ChargeRequest) (first : Gateway) (ulid : string) : Prop :=
  exists w, is_Ok (run (CreateIntent (svc_store s) (BuildReference (cr_Product req) first ulid)
                          req first (cr_Amount req) "") w).1 = false.

(** A ranking the router gave. *)
Definition ranking (gs : list Gateway) : Prop := exists w, (run (Route (svc_router s)) w).1 = gs.
(** The pending charge answered for the gateway [g] and what it said. *)
Definition pending_at (req : ChargeRequest) (g : Gateway) (ulid external url : string) : result ChargeResult :=
  Ok (Pending {| cp_Ref := BuildReference (cr_Product req) g ulid; cp_Gateway := g; cp_ExternalRef := external;
                 cp_AuthorizationURL := url |}).
Definition refused (a : Gateway * result InitiateResponse) : Prop := is_Ok a.2 = false.

(** The outcomes of a charge made with the base reference of [first] and
    [ulid] and offered along the ranking [gs]: its attempts, its answer, the
    register before and after.  Accepted: the gateways with an adapter were
    tried in order up to the first that took the charge, which is registered
    there.  Orphaned: so too, but the store refused the intent, and the answer
    is the store's error.  Unconfigured: all of them were tried, nobody took
    the charge, and the last is not configured; the answer is a pending charge
    at [first], which is registered there unless the store refused.  Failed:
    all were tried and the last refused for another reason, which is the
    answer's. *)
Inductive charged (req : ChargeRequest) (first : Gateway) (ulid : string) (gs : list Gateway) (b : Register K) :
  list (Gateway * result InitiateResponse) -> result ChargeResult -> Register K -> Prop :=
| charged_accepted failed g resp later :
    Forall refused failed -> attemptable (svc_router s) gs = failed.*1 ++ g :: later -> Valid g = true ->
    charged req first ulid gs b (failed ++ [(g, Ok resp)])
      (pending_at req g ulid (is_ExternalRef resp) (is_AuthorizationURL resp))
      (register_intent scope (BuildReference (cr_Product req) g ulid) req g b)
| charged_orphaned failed g resp later e w :
    Forall refused failed -> attemptable (svc_router s) gs = failed.*1 ++ g :: later ->
    (run (CreateIntent (svc_store s) (BuildReference (cr_Product req) g ulid) req g (cr_Amount req)
            (is_AuthorizationURL resp)) w).1 = Err e ->
    charged req first ulid gs b (failed ++ [(g, Ok resp)]) (Err (Errorf "charges: create intent: " e)) b
| charged_unconfigured att b' :
    Forall refused att -> att.*1 = attemptable (svc_router s) gs -> last_unconfigured att = true ->
    b' = register_intent scope (BuildReference (cr_Product req) first ulid) req first b
    \/ (create_refused req first ulid
        /\ reg_intents b ⊆ reg_intents b' /\ reg_keys b' = reg_keys b) ->
    charged req first ulid gs b att
      (pending_at req first ulid (BuildReference (cr_Product req) first ulid) "") b'
| charged_failed att :
    Forall refused att -> att.*1 = attemptable (svc_router s) gs -> last_unconfigured att = false ->
    charged req first ulid gs b att
      (Ok (ChargeFailed (Error (default ErrGatewayUnavailable (last_error None att))))) b.

Lemma register_found req ref g b :
  is_Some (reg_intents (register_intent scope ref req g b) !! ref).
Proof. simpl. rewrite lookup_insert_eq. eauto. Qed.

Lemma actual_ref_base product first chosen ulid :
  product <> "" -> Valid first = true -> has_char dash ulid = false ->
  actual_ref (BuildReference product first ulid) chosen = BuildReference product chosen ulid.
Proof.
  intros Hp Hv Hu. unfold actual_ref. rewrite Parse_Build by done.
  by destruct (String.eqb_spec first chosen) as [->|].
Qed.

Lemma charge_accepted_spec req first ulid gs failed later resp g w :
  cr_Product req <> "" -> Valid first = true -> has_char dash ulid = false ->
  Forall refused failed -> attemptable (svc_router s) gs = failed.*1 ++ g :: later -> Valid g = true ->
  let p := charge_accepted s req (BuildReference (cr_Product req) first ulid) resp g in
  log (run p w).2 = log w
  /\ charged req first ulid gs (reg w) (failed ++ [(g, Ok resp)]) (run p w).1 (reg (run p w).2).
Proof.
  intros Hp Hv Hu Hf Hgs Hg. cbv zeta. unfold charge_accepted. rewrite actual_ref_base by done. run_simpl.
  set (c := CreateIntent _ _ _ _ _ _).
  assert (Hl : log (run c w).2 = log w) by apply Preserves_run, isf_create.
  pose proof (is_create (scope:=scope) (reg:=reg) (BuildReference (cr_Product req) g ulid) req g
                (cr_Amount req) (is_AuthorizationURL resp) w) as Hr. fold c in Hr.
  destruct (run c w) as [[u|e] w1] eqn:Ec; cbn [fst snd] in *; run_simpl.
  - destruct (run_insert_outbox (BuildReference (cr_Product req) g ulid) g w1) as (Hl2 & _ & _ & Hr2).
    split; [congruence|]. rewrite Hr2, Hr by (rewrite Hr; apply register_found). by eapply charged_accepted.
  - split; [done|]. rewrite Hr. eapply (charged_orphaned _ _ _ _ _ _ _ _ _ _ w); [done|done|].
    unfold c in Ec. by rewrite Ec.
Qed.

Lemma charge_refused_spec req first ulid gs att w :
  Forall refused att -> att.*1 = attemptable (svc_router s) gs ->
  let p := charge_refused s req first (BuildReference (cr_Product req) first ulid)
             (default ErrGatewayUnavailable (last_error None att)) in
  log (run p w).2 = log w
  /\ charged req first ulid gs (reg w) att (run p w).1 (reg (run p w).2).
Proof.
  intros Hf Hgs. cbv zeta. unfold charge_refused. rewrite last_error_unconfigured by exact Hf.
  destruct (last_unconfigured att) eqn:Ea; run_simpl; [|by split; [|constructor]].
  set (ref := BuildReference (cr_Product req) first ulid).
  set (c := CreateIntent _ _ _ _ _ _).
  assert (Hl : log (run c w).2 = log w) by apply Preserves_run, isf_create.
  pose proof (is_create (scope:=scope) (reg:=reg) ref req first (cr_Amount req) "" w) as Hr. fold c in Hr.
  set (w1 := (run c w).2) in *.
  destruct (run_insert_outbox ref first w1) as (Hl2 & Hk2 & Hi2 & Hr2).
  assert (Href : is_Ok (run c w).1 = false -> create_refused req first ulid) by (by exists w).
  split; [congruence|]. apply charged_unconfigured; [done..|].
  destruct (run c w).1 as [u|e']; rewrite Hr in *.
  - left. apply Hr2, register_found.
  - right. auto.
Qed.

Lemma Route_first w :
  Valid (primary (svc_router s)) = true ->
  exists first later, (run (Route (svc_router s)) w).1 = first :: later /\ Valid first = true.
Proof.
  intros Hp. pose proof (Route_not_nil (svc_router s) w) as Hne.
  pose proof (fun g => Route_valid (svc_router s) w g Hp) as Hv.
  destruct (run (Route (svc_router s)) w).1 as [|first later]; [done|].
  exists first, later. split; [done|]. apply Hv. set_solver.
Qed.

Lemma charge_new_spec req w :
  Valid (primary (svc_router s)) = true -> cr_Product req <> "" ->
  exists first others gs ulid att,
    ranking (first :: others) /\ ranking gs /\ has_char dash ulid = false /\ NoDup att.*1
    /\ log (run (charge_new s req) w).2
       = log w ++ map (attempt_exchange (base_request req (BuildReference (cr_Product req) first ulid))) att
    /\ charged req first ulid gs (reg w) att
         (run (charge_new s req) w).1 (reg (run (charge_new s req) w).2).
Proof.
  intros Hp Hprod. unfold charge_new. run_simpl.
  assert (Hl0 : log (run (Route (svc_router s)) w).2 = log w)
    by (apply Preserves_run, Preserves_Route; apply _).
  assert (Hr0 : reg (run (Route (svc_router s)) w).2 = reg w)
    by (apply Preserves_run, Preserves_Route; apply _).
  destruct (Route_first w Hp) as (first & later & Hroute & Hfirst). rewrite Hroute.
  set (w0 := (run (Route (svc_router s)) w).2) in *. run_simpl.
  destruct (NewULID_shape w0) as [Hu _].
  assert (Hl1 : log (run NewULID w0).2 = log w0) by apply Preserves_run, Preserves_NewULID, _.
  assert (Hr1 : reg (run NewULID w0).2 = reg w0) by apply Preserves_run, Preserves_NewULID, _.
  set (ulid := (run NewULID w0).1) in *. set (w1 := (run NewULID w0).2) in *.
  set (breq := base_request req (BuildReference (cr_Product req) first ulid)).
  destruct (InitiateWithFallback_spec (svc_router s) log breq w1 Hp) as (att & Hl2 & Hnd & Hans).
  assert (Hr2 : reg (run (InitiateWithFallback (svc_router s) breq) w1).2 = reg w1)
    by (apply Preserves_run, Preserves_InitiateWithFallback; apply _).
  exists first, later, (run (Route (svc_router s)) w1).1, ulid, att.
  split; [by exists w|]. split; [by exists w1|]. split; [done|]. split; [done|]. fold breq.
  rewrite Hl1, Hl0 in Hl2. rewrite Hr1, Hr0 in Hr2.
  destruct (run (InitiateWithFallback (svc_router s) breq) w1) as [[[resp g]|e] w2]; cbn [fst snd] in *.
  - assert (Hg : Valid g = true)
      by (eapply Route_valid, (fallback_answer_ranked (svc_router s) log); [done|exact Hans]).
    destruct Hans as (failed & -> & Hf & rest & Hgs). rewrite fmap_app, <- app_assoc in Hgs.
    destruct (charge_accepted_spec req first ulid (run (Route (svc_router s)) w1).1 failed rest resp g w2) as [Hl3 Hc]; try done.
    rewrite Hl3, Hl2, <- Hr2. done.
  - destruct Hans as (Hf & Hgs & ->).
    destruct (charge_refused_spec req first ulid (run (Route (svc_router s)) w1).1 att w2) as [Hl3 Hc]; [done..|].
    rewrite Hl3, Hl2, <- Hr2. done.
Qed.

(** The key of a request is unknown to the store, or the lookup failed. *)
Definition unseen (req : ChargeRequest) (w : W) : Prop :=
  cr_IdempotencyKey req = "" \/ reg_keys (reg w) !! scope (cr_Product req) (cr_IdempotencyKey req) = None
  \/ is_Ok (run (FindByIdempotencyKey (svc_store s) (cr_Product req) (cr_IdempotencyKey req)) w).1 = false.
Definition replay_of (ref : string) : result ChargeResult :=
  Ok (Pending {| cp_Ref := ref; cp_Gateway := ""; cp_ExternalRef := ""; cp_AuthorizationURL := "" |}).

Lemma seen_spec req w :
  log (run (seen (svc_store s) req) w).2 = log w /\ reg (run (seen (svc_store s) req) w).2 = reg w
  /\ match (run (seen (svc_store s) req) w).1 with
     | Some ref => cr_IdempotencyKey req <> ""
         /\ reg_keys (reg w) !! scope (cr_Product req) (cr_IdempotencyKey req) = Some ref
     | None => unseen req w
     end.
Proof.
  unfold seen, unseen. destruct (String.eqb_spec (cr_IdempotencyKey req) "") as [E|E]; [cbn; by auto|]. run_simpl.
  destruct (is_find (scope:=scope) (reg:=reg) (cr_Product req) (cr_IdempotencyKey req) w) as [Hr Hf].
  split; [apply Preserves_run, isf_find|]. split; [done|].
  destruct (run (FindByIdempotencyKey _ _ _) w).1 as [[r [|]]|e]; auto.
Qed.

Lemma Initiate_spec req w :
  Valid (primary (svc_router s)) = true -> validate req = None ->
  let r := (run (Initiate s req) w).1 in
  let w' := (run (Initiate s req) w).2 in
  (exists ref, cr_IdempotencyKey req <> ""
     /\ reg_keys (reg w) !! scope (cr_Product req) (cr_IdempotencyKey req) = Some ref
     /\ r = replay_of ref /\ reg w' = reg w /\ log w' = log w)
  \/ (unseen req w /\ exists first others gs ulid att,
        ranking (first :: others) /\ ranking gs /\ has_char dash ulid = false /\ NoDup att.*1
        /\ log w' = log w ++ map (attempt_exchange
              (base_request req (BuildReference (cr_Product req) first ulid))) att
        /\ charged req first ulid gs (reg w) att r (reg w')).
Proof.
  intros Hp Hv. cbv zeta. unfold Initiate. rewrite Hv. run_simpl.
  destruct (seen_spec req w) as (Hl & Hr & Hs).
  destruct (run (seen (svc_store s) req) w) as [[ref|] w1]; cbn [fst snd] in *; run_simpl.
  - left. destruct Hs as [Hne Hk]. by exists ref.
  - right. split; [done|]. rewrite <- Hl, <- Hr. apply charge_new_spec; [done|].
    apply validate_None in Hv. tauto.
Qed.

(** A known key whose lookup is answered is replayed. *)
Lemma Initiate_replays req ref w :
  validate req = None -> cr_IdempotencyKey req <> "" ->
  reg_keys (reg w) !! scope (cr_Product req) (cr_IdempotencyKey req) = Some ref ->
  is_Ok (run (FindByIdempotencyKey (svc_store s) (cr_Product req) (cr_IdempotencyKey req)) w).1 = true ->
  let out := run (Initiate s req) w in
  out.1 = replay_of ref /\ reg out.2 = reg w /\ log out.2 = log w.
Proof.
  intros Hv Hne Hk Hok. cbv zeta. unfold Initiate. rewrite Hv. run_simpl.
  destruct (seen_spec req w) as (Hl & Hr & Hs).
  destruct (run (seen (svc_store s) req) w) as [[ref'|] w1]; cbn [fst snd] in *; run_simpl.
  - destruct Hs as [_ Hk']. rewrite Hk in Hk'. by injection Hk' as ->.
  - destruct Hs as [?|[?|?]]; congruence.
Qed.
End initiate.

(** ** Where a charge may be stopped *)
Section stops.
Context {W R V : Type} (reg : W -> R) (sent : W -> V).

(** At some point of a run [sent] is as in the end and [reg] as in the beginning. *)
Definition stops {A} (p : Prog W A) (w : W) : Prop :=
  exists k, let stopped := (sched (replicate k 0) [p] w).2 in
    sent stopped = sent (run p w).2 /\ reg stopped = reg w.
Lemma stops_before {A} (p : Prog W A) w : Preserves sent p -> stops p w.
Proof. intros Hp. exists 0. split; [symmetry; by apply Preserves_run|done]. Qed.
Lemma stops_bind {A B} (p : Prog W A) (f : A -> Prog W B) w :
  reg (run p w).2 = reg w -> stops (f (run p w).1) (run p w).2 -> stops (p ≫= f) w.
Proof.
  intros Hr (j & Hs & Hj). destruct (sched_reaches p f w) as [i Hi]. exists (i + j).
  cbv zeta. rewrite (sched_later _ _ _ _ _ _ Hi), run_bind. split; [exact Hs|congruence].
Qed.
End stops.

Section charge_stops.
Context {W : Type} `{!Runtime W} (s : Service W) {K : Type} `{Countable K} (scope : string -> string -> K).
Context (reg : W -> Register K) {V : Type} (sent : W -> V).
Context `{!IntentStoreSpec (svc_store s) scope reg} `{!IntentStoreFrame (svc_store s) sent}.
Context `{!AdaptersFrame (adapters (svc_router s)) reg} `{!RouterFrame (svc_router s) reg} `{!RuntimeFrame reg}.

Lemma seen_leaves req w : reg (run (seen (svc_store s) req) w).2 = reg w.
Proof.
  unfold seen. destruct (String.eqb (cr_IdempotencyKey req) ""); [done|]. run_simpl.
  apply (is_find (scope:=scope) (reg:=reg) (cr_Product req) (cr_IdempotencyKey req) w).
Qed.

(** What follows the last exchange leaves the exchanges alone. *)
Lemma Preserves_insert_outbox ref g : Preserves sent (insert_outbox (svc_store s) ref g).
Proof. unfold insert_outbox. destruct (as_outboxWriter (svc_store s)) eqn:E; guar. by eapply isf_outbox. Qed.
Lemma Preserves_charge_refused req first base err : Preserves sent (charge_refused s req first base err).
Proof. unfold charge_refused. guar; [apply isf_create|apply Preserves_insert_outbox]. Qed.
Lemma Preserves_charge_accepted req base resp g : Preserves sent (charge_accepted s req base resp g).
Proof. unfold charge_accepted. guar; [apply isf_create|apply Preserves_insert_outbox]. Qed.

Lemma charge_new_stops req w : stops reg sent (charge_new s req) w.
Proof.
  unfold charge_new. apply stops_bind; [apply Preserves_run, Preserves_Route; apply _|].
  destruct (run (Route (svc_router s)) w).1 as [|first gs]; [by apply stops_before|].
  apply stops_bind; [apply Preserves_run, Preserves_NewULID, _|]. cbv zeta.
  apply stops_bind; [apply Preserves_run, Preserves_InitiateWithFallback; apply _|]. apply stops_before.
  destruct (run (InitiateWithFallback _ _) _).1 as [[resp g]|e]; [apply Preserves_charge_accepted|apply Preserves_charge_refused].
Qed.
Lemma Initiate_stops req w : stops reg sent (Initiate s req) w.
Proof.
  unfold Initiate. destruct (validate req); [by apply stops_before|].
  apply stops_bind; [apply seen_leaves|]. destruct (run (seen (svc_store s) req) w).1; [by apply stops_before|].
  apply charge_new_stops.
Qed.
End charge_stops.

(** ** Properties *)

(** A request is rejected exactly when it has no product, no positive
    amount or neither wallet nor phone; a rejection is an [ErrInvalidRequest]
    and happens before the store, the router or any gateway is touched. *)
Theorem Initiate_rejects {W} `{!Runtime W} (s : Service W) req w :
  (cr_Product req <> "" /\ (0 < minorUnits (cr_Amount req))%Z
   /\ (cr_Wallet req <> "" \/ cr_Phone req <> ""))
  \/ exists e, run (Initiate s req) w = (Err e, w) /\ errors_Is e ErrInvalidRequest = true.
Proof.
  rewrite <- validate_None. unfold Initiate. destruct (validate req) as [e|]; [right|by left].
  eexists. split; [reflexivity|]. reflexivity.
Qed.


(** C13: idempotency.  Once a request with an idempotency key has been answered
    with a pending charge, the product and key are registered under its
    reference (but for the charge that nobody accepted and the store refused,
    which is answered as pending and registered nowhere).  From then on, in
    any state that has not lost the registered keys, whatever happened in
    between, a valid request with the same product and key whose lookup is
    answered gets the same reference, whatever its amount or wallet, reaches
    no gateway and changes no intent. *)
Theorem Initiate_idempotent {W} `{!Runtime W} `{!RandBytes (W:=W)} (s : Service W)
    {K} `{Countable K} (scope : string -> string -> K) (reg : W -> Register K)
    (log : W -> list Exchange)
    `{!IntentStoreSpec (svc_store s) scope reg} `{!IntentStoreFrame (svc_store s) log}
    `{!Traced (adapters (svc_router s)) log} `{!AdaptersFrame (adapters (svc_router s)) reg}
    `{!RouterFrame (svc_router s) log} `{!RouterFrame (svc_router s) reg}
    `{!RuntimeFrame reg} `{!RuntimeFrame log} req p w :
  Valid (primary (svc_router s)) = true -> validate req = None -> cr_IdempotencyKey req <> "" ->
  (run (Initiate s req) w).1 = Ok (Pending p) ->
  let w1 := (run (Initiate s req) w).2 in
  (exists first ulid, cp_Ref p = BuildReference (cr_Product req) first ulid
     /\ create_refused s req first ulid /\ reg_keys (reg w1) = reg_keys (reg w))
  \/ (reg_keys (reg w1) !! scope (cr_Product req) (cr_IdempotencyKey req) = Some (cp_Ref p)
      /\ forall req2 w2, validate req2 = None ->
           cr_Product req2 = cr_Product req -> cr_IdempotencyKey req2 = cr_IdempotencyKey req ->
           reg_keys (reg w1) ⊆ reg_keys (reg w2) ->
           is_Ok (run (FindByIdempotencyKey (svc_store s) (cr_Product req) (cr_IdempotencyKey req)) w2).1 = true ->
           let again := run (Initiate s req2) w2 in
           again.1 = replay_of (cp_Ref p) /\ reg again.2 = reg w2 /\ log again.2 = log w2).
Proof.
  intros Hp Hv Hne Hres w1.
  assert (Hk : (exists first ulid, cp_Ref p = BuildReference (cr_Product req) first ulid
       /\ create_refused s req first ulid /\ reg_keys (reg w1) = reg_keys (reg w))
    \/ reg_keys (reg w1) !! scope (cr_Product req) (cr_IdempotencyKey req) = Some (cp_Ref p)).
  { destruct (Initiate_spec s scope reg log req w Hp Hv)
      as [(ref & _ & Hk & Hr & Hreg & _)|(_ & first & others & gs & ulid & att & _ & _ & _ & _ & _ & Hc)].
    - rewrite Hres in Hr. injection Hr as ->. right. unfold w1. by rewrite Hreg.
    - fold w1 in Hc. rewrite Hres in Hc. pose proof (proj2 (String.eqb_neq _ _) Hne) as Hkey.
      inversion Hc as [failed g resp later Hf Hgs Hg| |att' b' Hf Hgs Hu [Hb'|(Hcr & _ & Hkeys)]|]; subst.
      + right. simpl. by rewrite Hkey, lookup_insert_eq.
      + right. rewrite Hb'. simpl. by rewrite Hkey, lookup_insert_eq.
      + left. by exists first, ulid. }
  destruct Hk as [Hk|Hk]; [by left|right]. split; [done|]. intros req2 w2 Hv2 Hprod2 Hkey2 Hsub Hok. cbv zeta.
  apply (Initiate_replays s scope reg log); rewrite ?Hprod2, ?Hkey2; [done..| |done]. by eapply lookup_weaken.
Qed.

(** C37: A charge is offered to the gateways before anything of it is stored.
    Whatever the request, the store and the gateways, there is a point in the
    run of [Initiate] at which every exchange it makes with a gateway is over
    and the store is as the call found it: a process that stops there has had
    the customer charged, when a gateway accepted, and leaves no record of it.
    ([sent]: any view that the store leaves alone, the exchanges so far.) *)
Theorem charge_taken_without_record {W} `{!Runtime W} (s : Service W)
    {K} `{Countable K} (scope : string -> string -> K) (reg : W -> Register K) {V} (sent : W -> V)
    `{!IntentStoreSpec (svc_store s) scope reg} `{!IntentStoreFrame (svc_store s) sent}
    `{!AdaptersFrame (adapters (svc_router s)) reg} `{!RouterFrame (svc_router s) reg} `{!RuntimeFrame reg} req w :
  exists k, let stopped := (sched (replicate k 0) [Initiate s req] w).2 in
    sent stopped = sent (run (Initiate s req) w).2 /\ reg stopped = reg w.
Proof. exact (Initiate_stops s scope reg sent req w). Qed.

(** [Status] asks the gateway named in the reference, once, and passes
    its answer on; a malformed reference, or one whose gateway has no adapter,
    is answered with an error and no exchange. *)
Theorem Status_correct {W} `{!Runtime W} (s : Service W) (log : W -> list Exchange)
    `{!Traced (adapters (svc_router s)) log} `{!RuntimeFrame log} ref w :
  let r := (run (Status s ref) w).1 in
  let w' := (run (Status s ref) w).2 in
  match ParseReference ref with
  | None => w' = w /\ exists e, r = Err e /\ errors_Is e ErrInvalidRequest = true
  | Some (_, gw, _) =>
      match adapters (svc_router s) !! gw with
      | None => w' = w /\ is_Ok r = false
      | Some _ => exists a, log w' = log w ++ [XVerify gw ref a]
          /\ match a with
             | Ok v => r = Ok v
             | Err e => r = Err (Errorf "charges: verify: " e)
             end
      end
  end.
Proof.
  cbv zeta. unfold Status, Adapter. destruct (ParseReference ref) as [[[p gw] u]|].
  2: { split; [done|]. eexists. split; [reflexivity|]. reflexivity. }
  destruct (adapters (svc_router s) !! gw) as [a|] eqn:Ha; [|done]. run_simpl.
  pose proof (traced_verify (log:=log) gw a ref (run time_Now w).2 Ha) as Hl.
  assert (Hnow : forall w0, log (run time_Now w0).2 = log w0)
    by (intros w0; apply Preserves_run, Preserves_now, _).
  destruct (run (Verify a ref) (run time_Now w).2) as [res w2]; cbn [fst snd] in *.
  exists res. destruct res as [v|e]; run_simpl; rewrite Hnow, Hl, Hnow; done.
Qed.
