(* ===== verification/Payload.v ===== *)
(** * internal/webhooks/payload.go: what a callback is about

    [parsePayload] with [lookupString] and [directString].  A Go map is ranged
    over in an order the run time picks ([range_map]), so the lookups are
    programs. *)
From S2P Require Import Prelude GoStrings Strconv Json.

Record event := { EventID : string; ev_Reference : string }.

Section payload.
Context {W : Type} `{!Runtime W}.
Implicit Types m : gmap string json.

(** The loop of [directString] over the entries in range order. *)
Fixpoint first_match (key : string) (entries : list (string * json)) : string :=
  match entries with
  | [] => ""
  | (k, v) :: rest =>
      if EqualFold k key then
        match v with
        | JStr t => t
        | JNum lit =>
            Sprintf_0f (ParseFloat lit).1
        | _ => first_match key rest
        end
      else first_match key rest
  end.

Definition directString m (key : string) : Prog W string :=
  entries ← range_map (map_to_list m);
  mret (first_match key entries).

(** [for _, k := range keys { if v := directString(m, k); v != "" { return v } }] *)
Fixpoint first_key m (keys : list string) : Prog W string :=
  match keys with
  | [] => mret ""
  | k :: ks =>
      v ← directString m k;
      if String.eqb v "" then first_key m ks else mret v
  end.

Fixpoint nested_lookup (entries : list (string * json)) (keys : list string) : Prog W string :=
  match entries with
  | [] => mret ""
  | (_, JObj ms) :: rest =>
      v ← first_key (object_map ms) keys;
      if String.eqb v "" then nested_lookup rest keys else mret v
  | _ :: rest => nested_lookup rest keys
  end.

Definition lookupString m (keys : list string) : Prog W string :=
  v ← first_key m keys;
  if String.eqb v "" then
    entries ← range_map (map_to_list m);
    nested_lookup entries keys
  else mret v.

(** The [switch gatewayName] of [parsePayload]; [None] is its default case. *)
Definition extract (gatewayName : string) m : option (Prog W event) :=
  if String.eqb gatewayName "paystack" then Some (
    id ← lookupString m ["id"];
    ref ← lookupString m ["reference"];
    let id := match m !! "event" with
              | Some (JStr eventType) =>
                  if String.eqb eventType "" || String.eqb id "" then id
                  else eventType ^^ "-" ^^ id
              | _ => id
              end in
    mret {| EventID := id; ev_Reference := ref |})
  else if String.eqb gatewayName "hubtel" then Some (
    id ← lookupString m ["TransactionId"; "transactionid"; "transaction_id"];
    ref ← lookupString m ["ClientReference"; "client_reference"];
    mret {| EventID := id; ev_Reference := ref |})
  else if String.eqb gatewayName "moolre" then Some (
    id ← lookupString m ["transactionid"; "transaction_id"; "TransactionId"];
    ref ← lookupString m ["externalref"; "external_ref"; "reference"; "ClientReference"];
    mret {| EventID := id; ev_Reference := ref |})
  else None.

Definition parsePayload (gatewayName raw : string) : Prog W (result event) :=
  match Unmarshal_map raw with
  | Err err => mret (Err (Errorf "json: " err))
  | Ok m =>
      match extract gatewayName m with
      | None => mret (Err (Fresh ("unknown gateway " ^^ Quote gatewayName)))
      | Some p =>
          ev ← p;
          mret (if String.eqb (EventID ev) "" || String.eqb (ev_Reference ev) ""
                then Err (Fresh "missing event id or reference") else Ok ev)
      end
  end.
End payload.
