(* ===== verification/Signature.v ===== *)
(** * internal/webhooks/signature.go: Standard Webhooks signatures *)
From S2P Require Import Prelude GoStrings Crypto.
From Stdlib Require Import Ascii.

Definition TimestampTolerance : Z := (5 * Minute)%Z.

Definition decodeSecret (secret : string) : string :=
  let s := TrimPrefix secret "whsec_" in
  match b64_decode s with Some b => b | None => s end.

(** [d := now.Sub(time.Unix(ts, 0))] lies in the tolerance window; the
    negation of an int64 wraps. *)
Definition fresh (d : Z) : bool :=
  if (d <? 0)%Z then negb (wrap64 (- d) >? TimestampTolerance)%Z
  else negb (d >? TimestampTolerance)%Z.

(** One space-separated signature: base64, or else hex. *)
Definition decode_signature (sig : string) : option string :=
  let sig := TrimPrefix sig "v1," in
  match b64_decode sig with
  | Some got => Some got
  | None => hex_DecodeString sig
  end.

Definition matches (mac sig : string) : bool :=
  match decode_signature sig with Some got => String.eqb got mac | None => false end.

Definition VerifyStandardWebhook (secret id timestamp signatureHeader payload : string) (now : Time) : bool :=
  if String.eqb secret "" || String.eqb id "" || String.eqb timestamp ""
     || String.eqb signatureHeader "" then false
  else match ParseInt timestamp with
  | None => false
  | Some ts =>
      if negb (fresh (time_Sub now (time_Unix ts))) then false
      else
        let mac := hmac sha256 (decodeSecret secret) (id ^^ "." ^^ timestamp ^^ "." ^^ payload) in
        existsb (matches mac) (Fields signatureHeader)
  end.

Definition SignStandardWebhook (secret id : string) (timestamp : Time) (payload : string) : string :=
  "v1," ^^ b64_encode (hmac sha256 (decodeSecret secret)
             (id ^^ "." ^^ FormatInt (Unix timestamp) ^^ "." ^^ payload)).

(** ** The window *)

(** [-d] is wrong for the smallest duration only. *)
Lemma fresh_spec d :
  int64 d -> fresh d = bool_decide (Z.abs d <= TimestampTolerance \/ d = - 2 ^ 63)%Z.
Proof.
  unfold fresh, int64. intros Hd.
  assert (HT : TimestampTolerance = 300000000000%Z) by reflexivity.
  rewrite !Z.gtb_ltb, bool_decide_decide.
  destruct (Z.ltb_spec d 0) as [Hneg|Hneg].
  - destruct (decide (d = - 2 ^ 63)%Z) as [->|Hne]; [by vm_compute|].
    rewrite wrap64_id by (unfold int64; lia).
    destruct (Z.ltb_spec TimestampTolerance (- d)), (decide _); simpl; lia || done.
  - destruct (Z.ltb_spec TimestampTolerance d), (decide _); simpl; lia || done.
Qed.

Lemma time_Sub_int64 t u : int64 (time_Sub t u).
Proof. unfold time_Sub, int64. lia. Qed.

(** The accepted clock skews between [now] and the claimed second [ts]. *)
Definition in_window (now : Time) (ts : Z) : Prop :=
  (Z.abs (now - time_Unix ts) <= TimestampTolerance \/ now - time_Unix ts <= - 2 ^ 63)%Z.

#[export] Instance in_window_dec now ts : Decision (in_window now ts).
Proof. unfold in_window. apply _. Defined.

Lemma fresh_in_window now ts :
  fresh (time_Sub now (time_Unix ts)) = bool_decide (in_window now ts).
Proof.
  rewrite fresh_spec by apply time_Sub_int64. apply bool_decide_ext.
  unfold in_window, time_Sub. assert (HT : TimestampTolerance = 300000000000%Z) by reflexivity. lia.
Qed.

(** ** Properties *)

(** C19: [VerifyStandardWebhook] accepts exactly the requests whose four
    inputs are present, whose timestamp is a decimal int64 in the window, and
    one of whose space-separated signatures decodes (base64, otherwise hex,
    after an optional [v1,]) to the HMAC-SHA256, under the decoded secret, of
    the id, the timestamp text and the payload joined by dots. *)
Theorem VerifyStandardWebhook_iff secret id timestamp header payload now :
  VerifyStandardWebhook secret id timestamp header payload now = true <->
  secret <> "" /\ id <> "" /\ timestamp <> "" /\ header <> ""
  /\ (exists ts, ParseInt timestamp = Some ts /\ in_window now ts)
  /\ exists sig, In sig (Fields header)
     /\ decode_signature sig
        = Some (hmac sha256 (decodeSecret secret) (id ^^ "." ^^ timestamp ^^ "." ^^ payload)).
Proof.
  unfold VerifyStandardWebhook.
  rewrite <- !String.eqb_neq.
  destruct (String.eqb secret ""), (String.eqb id ""), (String.eqb timestamp ""),
    (String.eqb header ""); simpl orb; cbv match; try (split; [done|intuition congruence]).
  destruct (ParseInt timestamp) as [ts|].
  2: { split; [done|]. by intros (_ & _ & _ & _ & (ts & [=] & _) & _). }
  rewrite fresh_in_window. destruct (decide (in_window now ts)) as [Hw|Hw].
  - rewrite bool_decide_true by done. simpl negb. cbv match. rewrite existsb_exists.
    split.
    + intros (sig & Hin & Hm). repeat split; try done; [by exists ts|]. exists sig. split; [done|].
      unfold matches in Hm. destruct (decode_signature sig); [|done].
      by apply String.eqb_eq in Hm as ->.
    + intros (_ & _ & _ & _ & _ & sig & Hin & Hd). exists sig. split; [done|].
      unfold matches. rewrite Hd. apply String.eqb_refl.
  - rewrite bool_decide_false by done. simpl negb. cbv match. split; [done|].
    by intros (_ & _ & _ & _ & (ts' & [= <-] & Hw') & _).
Qed.

Lemma decode_signature_signed m : decode_signature ("v1," ^^ b64_encode m) = Some m.
Proof. unfold decode_signature. by rewrite TrimPrefix_append, b64_decode_encode. Qed.

Lemma time_Unix_exact ts : (0 <= ts < 2 ^ 62)%Z -> time_Unix ts = (ts * Second)%Z.
Proof. intros H. unfold time_Unix. rewrite wrap64_id by (unfold int64; lia). lia. Qed.

Lemma FormatInt_nonempty z : int64 z -> FormatInt z <> "".
Proof. intros Hz E. pose proof (ParseInt_FormatInt z Hz) as HP. by rewrite E in HP. Qed.

(** A signature made for the second [ts] is accepted exactly in its window. *)
Lemma Verify_signed secret id ts payload now :
  secret <> "" -> id <> "" -> int64 ts ->
  VerifyStandardWebhook secret id (FormatInt ts)
    ("v1," ^^ b64_encode (hmac sha256 (decodeSecret secret) (id ^^ "." ^^ FormatInt ts ^^ "." ^^ payload)))
    payload now = bool_decide (in_window now ts).
Proof.
  intros Hs Hi Hts. unfold VerifyStandardWebhook.
  set (mac := hmac sha256 _ _). set (header := "v1," ^^ b64_encode mac).
  assert (Hh : header <> "") by done.
  rewrite (proj2 (String.eqb_neq _ _) Hs), (proj2 (String.eqb_neq _ _) Hi),
    (proj2 (String.eqb_neq _ _) (FormatInt_nonempty ts Hts)), (proj2 (String.eqb_neq _ _) Hh).
  cbn [orb]. rewrite ParseInt_FormatInt, fresh_in_window by done.
  rewrite Fields_visible; [|unfold header; by rewrite all_visible_append, b64_encode_visible|done].
  cbn [existsb]. unfold matches, header. rewrite decode_signature_signed, String.eqb_refl.
  by destruct (bool_decide (in_window now ts)).
Qed.

(** C20: what [SignStandardWebhook] signs, [VerifyStandardWebhook] accepts,
    whatever the secret, id and payload, for five minutes around the signing
    second and (until the year 2116) at no other time. *)
Theorem Sign_then_Verify secret id ts payload now :
  secret <> "" -> id <> "" ->
  (0 <= Unix ts)%Z -> (Unix ts * Second <= 2 ^ 62)%Z -> (0 <= now <= 2 ^ 62)%Z ->
  VerifyStandardWebhook secret id (FormatInt (Unix ts))
    (SignStandardWebhook secret id ts payload) payload now
  = bool_decide (Z.abs (now - Unix ts * Second) <= TimestampTolerance)%Z.
Proof.
  intros Hs Hi H0 H1 Hn. assert (HS : Second = 1000000000%Z) by reflexivity.
  unfold SignStandardWebhook. rewrite (Verify_signed secret id (Unix ts) payload now Hs Hi) by (unfold int64; lia).
  assert (HT : TimestampTolerance = 300000000000%Z) by reflexivity.
  apply bool_decide_ext. unfold in_window. rewrite time_Unix_exact by lia. lia.
Qed.

(** The window check is not sound at the end of the clock: [Sub]
    saturates at the smallest duration, whose negation is itself, so a correct
    signature over a timestamp more than 292 years ahead is accepted. *)
Theorem far_future_timestamp_accepted secret id ts payload now :
  secret <> "" -> id <> "" -> (0 <= now)%Z -> (now + 2 ^ 63 <= ts * Second)%Z -> (ts < 2 ^ 62)%Z ->
  VerifyStandardWebhook secret id (FormatInt ts)
    (SignStandardWebhook secret id (ts * Second) payload) payload now = true.
Proof.
  intros Hs Hi H0 H1 Hn. assert (HS : Second = 1000000000%Z) by reflexivity.
  assert (HU : Unix (ts * Second) = ts) by (unfold Unix; apply Z.div_mul; lia).
  unfold SignStandardWebhook. rewrite HU, (Verify_signed secret id ts payload now Hs Hi) by (unfold int64; lia).
  apply bool_decide_true. right. rewrite time_Unix_exact by lia. lia.
Qed.

(** ** Witnesses *)
Lemma Sign_then_Verify_witness :
  VerifyStandardWebhook "whsec_c2VjcmV0" "msg_1" "1700000000"
    (SignStandardWebhook "whsec_c2VjcmV0" "msg_1" (1700000000 * Second) "{}") "{}"
    (1700000300 * Second) = true.
Proof.
  change "1700000000" with (FormatInt (Unix (1700000000 * Second))).
  rewrite Sign_then_Verify; try (vm_compute; (reflexivity || discriminate)).
  split; vm_compute; discriminate.
Defined.

Lemma far_future_timestamp_accepted_witness :
  VerifyStandardWebhook "s" "msg_1" (FormatInt 20000000000)
    (SignStandardWebhook "s" "msg_1" (20000000000 * Second) "{}") "{}" (1700000000 * Second) = true.
Proof. apply far_future_timestamp_accepted; (discriminate || (vm_compute; (reflexivity || discriminate))). Defined.
