(* ===== verification/Webhooks.v ===== *)
(** * internal/webhooks/webhooks.go: processing a gateway callback

    [Service.Process] over the webhook [Store] seam: deduplicate, look the
    intent up, ask the gateway for the truth, apply it. *)
From S2P Require Import Prelude GoStrings Money Reference Ledger Gateway Router Json Payload.

Definition ErrDuplicate : error := Sentinel "webhooks: duplicate event".
Definition ErrUnknownRef : error := Sentinel "webhooks: unknown charge reference".
Definition ErrBadPayload : error := Sentinel "webhooks: malformed payload".

Record Intent := { in_Ref : string; in_Gateway : Gateway; in_Status : string; in_Product : string }.

Section webhooks.
Context {W : Type} `{!Runtime W}.

Record Store := {
  InsertWebhookInbox : string -> string -> string -> Prog W (result bool);
  DeleteWebhookInbox : string -> Prog W (result unit);
  FindIntent : string -> Prog W (result Intent);
  ApplyChargeOutcome : string -> string -> list LedgerEntry -> Prog W (result unit) }.

Record Service := { svc_store : Store; svc_router : ChargerRouter W }.
Definition NewService (store : Store) (router : ChargerRouter W) : Service :=
  {| svc_store := store; svc_router := router |}.

(** The [switch verified.Status] that maps the gateway's truth onto the intent. *)
Definition apply_truth (s : Store) (ref product : string) (verified : VerifyResult)
  : Prog W (result unit) :=
  let outcome r := match r with
                   | Err err => Err (Errorf "webhooks: apply outcome: " err)
                   | Ok _ => Ok tt
                   end in
  if String.eqb (vr_Status verified) "succeeded" then
    id ← uuid_New;
    bookingTime ← time_Now;
    r ← ApplyChargeOutcome s ref "succeeded"
          [{| le_ID := id; le_Kind := KindCollection; le_Ref := ref;
              le_Amount := vr_Amount verified; le_ValueTime := vr_VerifiedAt verified;
              le_BookingTime := bookingTime; le_SettlementTime := None;
              le_Product := product; le_CreatedAt := Time_zero |}];
    mret (outcome r)
  else if String.eqb (vr_Status verified) "failed" then
    r ← ApplyChargeOutcome s ref "failed" [];
    mret (outcome r)
  else mret (Ok tt).

(** [Process] from the lookup of the intent on, the event being recorded. *)
Definition process_recorded (s : Service) (ev : event) : Prog W (result unit) :=
  let store := svc_store s in
  found ← FindIntent store (ev_Reference ev);
  match found with
  | Err _ =>
      _ ← DeleteWebhookInbox store (EventID ev);
      mret (Err (Wrap (Error ErrUnknownRef ^^ ": " ^^ ev_Reference ev) [ErrUnknownRef]))
  | Ok intent =>
      if negb (String.eqb (in_Status intent) "pending") then mret (Ok tt)
      else match Adapter (svc_router s) (in_Gateway intent) with
      | None =>
          _ ← DeleteWebhookInbox store (EventID ev);
          mret (Err (Fresh ("webhooks: no adapter for gateway " ^^ in_Gateway intent)))
      | Some adapter =>
          res ← Verify adapter (ev_Reference ev);
          match res with
          | Err err =>
              _ ← DeleteWebhookInbox store (EventID ev);
              mret (Err (Errorf ("webhooks: verify " ^^ ev_Reference ev ^^ ": ") err))
          | Ok verified => apply_truth store (ev_Reference ev) (in_Product intent) verified
          end
      end
  end.

Definition Process (s : Service) (gw : Gateway) (payload : string) : Prog W (result unit) :=
  parsed ← parsePayload gw payload;
  match parsed with
  | Err err => mret (Err (Wrap (Error ErrBadPayload ^^ ": " ^^ Error err) [ErrBadPayload]))
  | Ok ev =>
      inserted ← InsertWebhookInbox (svc_store s) (EventID ev) gw payload;
      match inserted with
      | Err err => mret (Err (Errorf "webhooks: record event: " err))
      | Ok false => mret (Err ErrDuplicate)
      | Ok true => process_recorded s ev
      end
  end.
End webhooks.
Arguments Store W : clear implicits.
Arguments Service W : clear implicits.
