(* ===== verification/WebhooksSpec.v ===== *)
(** * What webhook processing promises

    The books a webhook store keeps, the contract [WebhookStoreSpec] of a
    store, and the abstract machine [callback]: one delivery of one event.
    [Process] refines it over any store that meets the contract. *)
From S2P Require Import Prelude GoStrings Money Reference Ledger Gateway Router RouterProofs.
From S2P Require Import Json Payload Webhooks.

(** ** The abstract books *)
Record Books := mkBooks {
  bk_inbox : gset string;
  bk_intents : gmap string Intent;
  bk_ledger : gmap string (list LedgerEntry) }.

Definition entries_of (b : Books) (ref : string) : list LedgerEntry :=
  default [] (bk_ledger b !! ref).
Definition record_event (id : string) (b : Books) : Books :=
  mkBooks ({[id]} ∪ bk_inbox b) (bk_intents b) (bk_ledger b).
Definition forget_event (id : string) (b : Books) : Books :=
  mkBooks (bk_inbox b ∖ {[id]}) (bk_intents b) (bk_ledger b).

Definition intent_status (status : string) (i : Intent) : Intent :=
  {| in_Ref := in_Ref i; in_Gateway := in_Gateway i; in_Status := status;
     in_Product := in_Product i |}.

(** Status and ledger of one reference, together. *)
Definition book_outcome (ref status : string) (i : Intent) (entries : list LedgerEntry) (b : Books)
  : Books :=
  mkBooks (bk_inbox b) (<[ref := intent_status status i]> (bk_intents b))
          (<[ref := entries_of b ref ++ entries]> (bk_ledger b)).

(** What a store keeps of an entry it is given: everything but its own
    CreatedAt, instants to the microsecond. *)
Definition same_instant (t u : Time) : Prop := (t / 1000 = u / 1000)%Z.
Definition recorded (e kept : LedgerEntry) : Prop :=
  le_ID kept = le_ID e /\ le_Kind kept = le_Kind e /\ le_Ref kept = le_Ref e
  /\ le_Amount kept = le_Amount e /\ le_Product kept = le_Product e
  /\ same_instant (le_ValueTime kept) (le_ValueTime e)
  /\ same_instant (le_BookingTime kept) (le_BookingTime e)
  /\ option_Forall2 same_instant (le_SettlementTime kept) (le_SettlementTime e).

Lemma recorded_refl e : recorded e e.
Proof. repeat split. destruct (le_SettlementTime e); by constructor. Qed.
#[export] Hint Resolve recorded_refl : orcta.

(** ** The contract of a store

    Every operation is all or nothing; [FindIntent] answers from the books. *)
Class WebhookStoreSpec {W} (s : Store W) (books : W -> Books) : Prop := {
  ws_insert id g p w :
    match (run (InsertWebhookInbox s id g p) w).1 with
    | Err _ => books (run (InsertWebhookInbox s id g p) w).2 = books w
    | Ok inserted =>
        inserted = negb (bool_decide (id ∈ bk_inbox (books w)))
        /\ books (run (InsertWebhookInbox s id g p) w).2
           = if inserted then record_event id (books w) else books w
    end;
  ws_delete id w :
    books (run (DeleteWebhookInbox s id) w).2
    = match (run (DeleteWebhookInbox s id) w).1 with
      | Ok _ => forget_event id (books w)
      | Err _ => books w
      end;
  ws_find ref w :
    books (run (FindIntent s ref) w).2 = books w
    /\ match (run (FindIntent s ref) w).1 with
       | Ok i => bk_intents (books w) !! ref = Some i
       | Err _ => True
       end;
  ws_apply ref status entries i w :
    bk_intents (books w) !! ref = Some i -> Forall (fun e => le_Ref e = ref) entries ->
    match (run (ApplyChargeOutcome s ref status entries) w).1 with
    | Ok _ => exists kept, Forall2 recorded entries kept
        /\ books (run (ApplyChargeOutcome s ref status entries) w).2 = book_outcome ref status i kept (books w)
    | Err _ => books (run (ApplyChargeOutcome s ref status entries) w).2 = books w
    end }.

(** The operations of a webhook store leave a view of the world alone. *)
Class WebhookStoreFrame {W V} (s : Store W) (view : W -> V) : Prop := {
  wf_insert id g p : Preserves view (InsertWebhookInbox s id g p);
  wf_delete id : Preserves view (DeleteWebhookInbox s id);
  wf_find ref : Preserves view (FindIntent s ref);
  wf_apply ref status entries : Preserves view (ApplyChargeOutcome s ref status entries) }.

(** ** The abstract machine

    [callback ev b xs r b']: delivering the event [ev] to the books [b] makes
    the gateway exchanges [xs], answers [r] and leaves the books [b']. *)
Definition collection_for (ref : string) (v : VerifyResult) (product : string) (e : LedgerEntry) : Prop :=
  le_Kind e = KindCollection /\ le_Ref e = ref /\ le_Amount e = vr_Amount v
  /\ same_instant (le_ValueTime e) (vr_VerifiedAt v) /\ le_SettlementTime e = None /\ le_Product e = product.

Inductive callback (ev : event) (b : Books) : list Exchange -> result unit -> Books -> Prop :=
| cb_store_error e :
    callback ev b [] (Err e) b
| cb_duplicate :
    EventID ev ∈ bk_inbox b ->
    callback ev b [] (Err ErrDuplicate) b
| cb_rolled_back xs e :
    EventID ev ∉ bk_inbox b -> Forall (fun x => exists g e', x = XVerify g (ev_Reference ev) (Err e')) xs ->
    callback ev b xs (Err e) (forget_event (EventID ev) (record_event (EventID ev) b))
| cb_stuck xs e :
    EventID ev ∉ bk_inbox b -> Forall (fun x => exists g a, x = XVerify g (ev_Reference ev) a) xs ->
    callback ev b xs (Err e) (record_event (EventID ev) b)
| cb_terminal i :
    EventID ev ∉ bk_inbox b ->
    bk_intents b !! ev_Reference ev = Some i -> in_Status i <> "pending" ->
    callback ev b [] (Ok tt) (record_event (EventID ev) b)
| cb_waiting i v :
    EventID ev ∉ bk_inbox b ->
    bk_intents b !! ev_Reference ev = Some i -> in_Status i = "pending" ->
    vr_Status v <> "succeeded" -> vr_Status v <> "failed" ->
    callback ev b [XVerify (in_Gateway i) (ev_Reference ev) (Ok v)] (Ok tt)
             (record_event (EventID ev) b)
| cb_settled i v e :
    EventID ev ∉ bk_inbox b ->
    bk_intents b !! ev_Reference ev = Some i -> in_Status i = "pending" ->
    vr_Status v = "succeeded" -> collection_for (ev_Reference ev) v (in_Product i) e ->
    callback ev b [XVerify (in_Gateway i) (ev_Reference ev) (Ok v)] (Ok tt)
             (book_outcome (ev_Reference ev) "succeeded" i [e] (record_event (EventID ev) b))
| cb_declined i v :
    EventID ev ∉ bk_inbox b ->
    bk_intents b !! ev_Reference ev = Some i -> in_Status i = "pending" ->
    vr_Status v = "failed" ->
    callback ev b [XVerify (in_Gateway i) (ev_Reference ev) (Ok v)] (Ok tt)
             (book_outcome (ev_Reference ev) "failed" i [] (record_event (EventID ev) b)).

(** ** Refinement *)
Section payload_frame.
Context {W V : Type} `{!Runtime W} (view : W -> V) `{!RuntimeFrame view}.

Lemma Preserves_directString m key : Preserves view (directString m key).
Proof. unfold directString. guar. Qed.

Lemma Preserves_first_key m keys : Preserves view (first_key m keys).
Proof.
  induction keys as [|k ks IH]; cbn [first_key]; guar; apply Preserves_directString.
Qed.

Lemma Preserves_nested_lookup es keys : Preserves view (nested_lookup es keys).
Proof.
  induction es as [|[k v] es IH]; cbn [nested_lookup]; guar. apply Preserves_first_key.
Qed.

Lemma Preserves_lookupString m keys : Preserves view (lookupString m keys).
Proof.
  unfold lookupString. guar; [apply Preserves_first_key | apply Preserves_nested_lookup].
Qed.

Lemma Preserves_extract g m :
  match extract g m with Some p => Preserves view p | None => True end.
Proof.
  pose proof (Preserves_lookupString m).
  unfold extract. destruct (String.eqb g "paystack"); [guar|].
  destruct (String.eqb g "hubtel"); [guar|]. destruct (String.eqb g "moolre"); [guar|done].
Qed.

Lemma Preserves_parsePayload g raw : Preserves view (parsePayload g raw).
Proof.
  unfold parsePayload. destruct (Unmarshal_map raw) as [m|e]; [|guar].
  pose proof (Preserves_extract g m). destruct (extract g m) as [p|]; guar.
Qed.
End payload_frame.

Section refinement.
Context {W : Type} `{!Runtime W} (s : Service W).
Context (books : W -> Books) (log : W -> list Exchange).
Context `{!WebhookStoreSpec (svc_store s) books} `{!WebhookStoreFrame (svc_store s) log}.
Context `{!Traced (adapters (svc_router s)) log} `{!AdaptersFrame (adapters (svc_router s)) books}.
Context `{!RuntimeFrame books} `{!RuntimeFrame log}.

Lemma run_DeleteWebhookInbox id w :
  log (run (DeleteWebhookInbox (svc_store s) id) w).2 = log w
  /\ (books (run (DeleteWebhookInbox (svc_store s) id) w).2 = forget_event id (books w)
      \/ books (run (DeleteWebhookInbox (svc_store s) id) w).2 = books w).
Proof.
  split; [apply Preserves_run, wf_delete|]. rewrite ws_delete.
  destruct (run (DeleteWebhookInbox (svc_store s) id) w).1; auto.
Qed.

(** The ends of the error branches that drop the dedup row. *)
Lemma rollback_step ev b xs e w :
  EventID ev ∉ bk_inbox b -> Forall (fun x => exists g e', x = XVerify g (ev_Reference ev) (Err e')) xs ->
  books w = record_event (EventID ev) b ->
  callback ev b xs (Err e) (books (run (DeleteWebhookInbox (svc_store s) (EventID ev)) w).2).
Proof.
  intros Hnew Hxs Hw. destruct (run_DeleteWebhookInbox (EventID ev) w) as [_ [-> | ->]]; rewrite Hw.
  - by constructor.
  - constructor; [done|]. revert Hxs. apply Forall_impl. intros x (g & e' & ->). eauto.
Qed.

Lemma apply_truth_step ev b i v w :
  EventID ev ∉ bk_inbox b -> bk_intents b !! ev_Reference ev = Some i -> in_Status i = "pending" ->
  books w = record_event (EventID ev) b ->
  let p := apply_truth (svc_store s) (ev_Reference ev) (in_Product i) v in
  log (run p w).2 = log w
  /\ callback ev b [XVerify (in_Gateway i) (ev_Reference ev) (Ok v)] (run p w).1 (books (run p w).2).
Proof.
  intros Hnew Hi Hst Hw. cbv zeta. unfold apply_truth.
  assert (Hlook : forall w', books w' = books w -> bk_intents (books w') !! ev_Reference ev = Some i)
    by (intros w' ->; by rewrite Hw).
  destruct (String.eqb (vr_Status v) "succeeded") eqn:Es; [|destruct (String.eqb (vr_Status v) "failed") eqn:Ef].
  - apply String.eqb_eq in Es. run_simpl. set (w1 := (run time_Now _).2).
    assert (Hb1 : books w1 = books w).
    { unfold w1. rewrite (Preserves_run books) by apply Preserves_now, _.
      by rewrite (Preserves_run books) by apply Preserves_uuid, _. }
    assert (Hl1 : log w1 = log w).
    { unfold w1. rewrite (Preserves_run log) by apply Preserves_now, _.
      by rewrite (Preserves_run log) by apply Preserves_uuid, _. }
    match goal with |- context [ApplyChargeOutcome _ _ _ ?es] => set (entries := es) end.
    split; [rewrite (Preserves_run log) by apply wf_apply; done|].
    pose proof (ws_apply (books:=books) (ev_Reference ev) "succeeded" entries i w1) as Hap.
    specialize (Hap ltac:(auto) ltac:(by repeat constructor)). rewrite Hb1, Hw in Hap.
    destruct (run (ApplyChargeOutcome _ _ _ _) w1).1 as [[]|e].
    + destruct Hap as (kept & Hk & ->). apply Forall2_cons_inv_l in Hk as (k & ? & Hk & Hn & ->).
      apply Forall2_nil_inv_l in Hn as ->. destruct Hk as (_ & Hkind & Href & Ham & Hpr & Hvt & _ & Hs).
      simpl in Hs. inversion Hs. by eapply cb_settled.
    + rewrite Hap. apply cb_stuck; [done|]. repeat constructor. eauto.
  - apply String.eqb_eq in Ef. run_simpl.
    split; [rewrite (Preserves_run log) by apply wf_apply; done|].
    pose proof (ws_apply (books:=books) (ev_Reference ev) "failed" [] i w) as Hap.
    specialize (Hap ltac:(auto) ltac:(constructor)). rewrite Hw in Hap.
    destruct (run (ApplyChargeOutcome _ _ _ _) w).1 as [[]|e].
    + destruct Hap as (kept & Hk & ->). apply Forall2_nil_inv_l in Hk as ->. by eapply cb_declined.
    + rewrite Hap. apply cb_stuck; [done|]. repeat constructor. eauto.
  - run_simpl. split; [done|]. rewrite Hw. apply String.eqb_neq in Es, Ef. by eapply cb_waiting.
Qed.

(** [Process] after the inbox row of a new event is written. *)
Lemma Process_recorded ev b w w0 :
  EventID ev ∉ bk_inbox b -> books w = record_event (EventID ev) b -> log w = log w0 ->
  let p := process_recorded s ev in
  exists xs, log (run p w).2 = log w0 ++ xs /\ callback ev b xs (run p w).1 (books (run p w).2).
Proof.
  intros Hnew Hw Hl. cbv zeta. unfold process_recorded. run_simpl.
  destruct (ws_find (books:=books) (ev_Reference ev) w) as [Hb2 Hf].
  assert (Hl2 : log (run (FindIntent (svc_store s) (ev_Reference ev)) w).2 = log w0)
    by (rewrite <- Hl; apply Preserves_run, wf_find).
  rewrite Hw in Hb2, Hf.
  destruct (run (FindIntent (svc_store s) (ev_Reference ev)) w) as [[i|e] w2]; cbn [fst snd] in *; run_simpl.
  2: { exists []. rewrite app_nil_r, (proj1 (run_DeleteWebhookInbox _ w2)).
       split; [done|]. by apply rollback_step. }
  destruct (String.eqb (in_Status i) "pending") eqn:Ep; simpl negb; cbv match.
  2: { apply String.eqb_neq in Ep. exists []. rewrite app_nil_r. split; [done|].
       rewrite run_ret. simpl. rewrite Hb2. by eapply cb_terminal. }
  apply String.eqb_eq in Ep. unfold Adapter.
  destruct (adapters (svc_router s) !! in_Gateway i) as [a|] eqn:Ha; run_simpl.
  2: { exists []. rewrite app_nil_r, (proj1 (run_DeleteWebhookInbox _ w2)).
       split; [done|]. by apply rollback_step. }
  assert (Hb3 : books (run (Verify a (ev_Reference ev)) w2).2 = record_event (EventID ev) b)
    by (rewrite <- Hb2; apply Preserves_run; by eapply frame_verify).
  pose proof (traced_verify (log:=log) _ a (ev_Reference ev) w2 Ha) as Hl3. rewrite Hl2 in Hl3.
  destruct (run (Verify a (ev_Reference ev)) w2) as [[v|e] w3]; cbn [fst snd] in *; run_simpl.
  - eexists. destruct (apply_truth_step ev b i v w3) as [Hl4 Hc]; try done.
    rewrite Hl4. by split.
  - exists [XVerify (in_Gateway i) (ev_Reference ev) (Err e)].
    rewrite (proj1 (run_DeleteWebhookInbox _ w3)). split; [done|].
    apply rollback_step; try done. repeat constructor. eauto.
Qed.

(** What [Process] does after its payload has been read. *)
Lemma Process_spec gw payload w :
  let w1 := (run (parsePayload gw payload) w).2 in
  let r := (run (Process s gw payload) w).1 in
  let w' := (run (Process s gw payload) w).2 in
  match (run (parsePayload gw payload) w).1 with
  | Err _ => (exists e, r = Err e /\ errors_Is e ErrBadPayload = true)
             /\ books w' = books w /\ log w' = log w
  | Ok ev => exists xs, log w' = log w ++ xs /\ callback ev (books w) xs r (books w')
  end.
Proof.
  cbv zeta. unfold Process. run_simpl.
  assert (Hb1 : books (run (parsePayload gw payload) w).2 = books w)
    by apply Preserves_run, Preserves_parsePayload, _.
  assert (Hl1 : log (run (parsePayload gw payload) w).2 = log w)
    by apply Preserves_run, Preserves_parsePayload, _.
  destruct (run (parsePayload gw payload) w) as [[ev|e] w1]; cbn [fst snd] in *; run_simpl.
  2: { split; [|done]. eexists. split; [done|]. reflexivity. }
  pose proof (ws_insert (books:=books) (EventID ev) gw payload w1) as Hins.
  assert (Hl2 : log (run (InsertWebhookInbox (svc_store s) (EventID ev) gw payload) w1).2 = log w1)
    by apply Preserves_run, wf_insert.
  destruct (run (InsertWebhookInbox (svc_store s) (EventID ev) gw payload) w1) as [[ins|e] w2];
    cbn [fst snd] in *; run_simpl.
  2: { exists []. rewrite app_nil_r, Hins, Hb1. split; [congruence|constructor]. }
  destruct Hins as [Hins Hb2]. rewrite Hb1 in Hb2, Hins.
  destruct ins; symmetry in Hins; [apply negb_true_iff, bool_decide_eq_false in Hins
                                  |apply negb_false_iff, bool_decide_eq_true in Hins].
  2: { exists []. rewrite app_nil_r. run_simpl. split; [congruence|]. rewrite Hb2. by constructor. }
  apply Process_recorded; congruence || done.
Qed.
End refinement.

(** ** Invariants of the machine *)
Definition is_collection (e : LedgerEntry) : bool := String.eqb (le_Kind e) KindCollection.
Definition collections (b : Books) (ref : string) : list LedgerEntry :=
  List.filter is_collection (entries_of b ref).

(** A succeeded intent has exactly one collection entry, any other none. *)
Definition settled_once (b : Books) : Prop :=
  forall ref i, bk_intents b !! ref = Some i ->
    length (collections b ref) = if String.eqb (in_Status i) "succeeded" then 1 else 0.

Definition delivery (b b' : Books) : Prop := exists ev xs r, callback ev b xs r b'.

Definition final (i : Intent) : bool := negb (String.eqb (in_Status i) "pending").

Lemma entries_of_outcome ref status i es b ref' :
  entries_of (book_outcome ref status i es b) ref'
  = entries_of b ref' ++ (if String.eqb ref ref' then es else []).
Proof.
  unfold entries_of, book_outcome. simpl. destruct (String.eqb_spec ref ref') as [->|Hne].
  - by rewrite lookup_insert_eq.
  - by rewrite lookup_insert_ne, app_nil_r.
Qed.

Lemma collections_outcome ref status i es b ref' :
  collections (book_outcome ref status i es b) ref'
  = collections b ref' ++ (if String.eqb ref ref' then List.filter is_collection es else []).
Proof.
  unfold collections. rewrite entries_of_outcome, List.filter_app. by destruct (String.eqb ref ref').
Qed.

Lemma settled_once_outcome ref status i es b :
  settled_once b -> bk_intents b !! ref = Some i -> in_Status i = "pending" ->
  length (List.filter is_collection es) = (if String.eqb status "succeeded" then 1 else 0) ->
  settled_once (book_outcome ref status i es b).
Proof.
  intros Hinv Hi Hst Hes ref' i' Hi'. rewrite collections_outcome, length_app.
  pose proof (Hinv ref i Hi) as Hc. rewrite Hst in Hc. simpl in Hc, Hi'.
  destruct (String.eqb_spec ref ref') as [->|Hne].
  - rewrite lookup_insert_eq in Hi'. injection Hi' as <-. by rewrite Hc, Hes.
  - rewrite lookup_insert_ne in Hi' by done. rewrite (Hinv ref' i' Hi'). simpl. lia.
Qed.

Lemma callback_settled_once ev b xs r b' :
  callback ev b xs r b' -> settled_once b -> settled_once b'.
Proof.
  destruct 1 as [| | | | | |i v e Hnew Hi Hst Hv (Hk & _)|]; intros Hinv; try done.
  - apply settled_once_outcome; try done. cbn [List.filter].
    by rewrite (proj2 (String.eqb_eq _ _) Hk : is_collection e = true).
  - by apply settled_once_outcome.
Qed.

Lemma outcome_monotone b b' ref status i0 es :
  bk_intents b !! ref = Some i0 -> in_Status i0 = "pending" ->
  bk_intents b' = bk_intents b -> bk_ledger b' = bk_ledger b ->
  (forall ref' i, bk_intents b !! ref' = Some i -> final i = true ->
     bk_intents (book_outcome ref status i0 es b') !! ref' = Some i)
  /\ (forall ref', entries_of b ref' `prefix_of` entries_of (book_outcome ref status i0 es b') ref').
Proof.
  intros Hi0 Hst Hin Hled. split.
  - intros ref' i Hi Hf. simpl. rewrite Hin. destruct (decide (ref = ref')) as [->|Hne].
    + rewrite Hi0 in Hi. injection Hi as <-. unfold final in Hf. by rewrite Hst in Hf.
    + by rewrite lookup_insert_ne.
  - intros ref'. rewrite entries_of_outcome. unfold entries_of at 2. rewrite Hled.
    by apply prefix_app_r.
Qed.

Lemma callback_monotone ev b xs r b' :
  callback ev b xs r b' ->
  (forall ref i, bk_intents b !! ref = Some i -> final i = true -> bk_intents b' !! ref = Some i)
  /\ (forall ref, entries_of b ref `prefix_of` entries_of b' ref).
Proof. destruct 1; try done; eapply outcome_monotone; done. Qed.

Lemma deliveries_book_once b b' :
  rtc delivery b b' -> settled_once b ->
  settled_once b'
  /\ (forall ref i, bk_intents b !! ref = Some i -> final i = true -> bk_intents b' !! ref = Some i)
  /\ (forall ref, entries_of b ref `prefix_of` entries_of b' ref).
Proof.
  induction 1 as [b|b b1 b' (ev & xs & r & Hcb) _ IH]; intros Hinv; [done|].
  destruct (IH (callback_settled_once _ _ _ _ _ Hcb Hinv)) as (Hinv' & Hfin & Hpre).
  destruct (callback_monotone _ _ _ _ _ Hcb) as [Hf1 Hp1]. repeat split; [done|..].
  - intros ref i Hi Hf. by apply Hfin; [apply Hf1|].
  - intros ref. etrans; [apply Hp1|apply Hpre].
Qed.

Lemma callback_truth ev b xs r b' ref :
  callback ev b xs r b' -> entries_of b' ref <> entries_of b ref ->
  r = Ok tt /\ ref = ev_Reference ev /\ ~ (EventID ev ∈ bk_inbox b)
  /\ exists i v e,
       bk_intents b !! ref = Some i /\ in_Status i = "pending"
       /\ xs = [XVerify (in_Gateway i) ref (Ok v)] /\ vr_Status v = "succeeded"
       /\ collection_for ref v (in_Product i) e /\ entries_of b' ref = entries_of b ref ++ [e].
Proof.
  destruct 1 as [| | | | | |i v e Hnew Hi Hst Hv Hc|i v Hnew Hi Hst Hv]; intros Hne; try done.
  - rewrite entries_of_outcome in *. destruct (String.eqb_spec (ev_Reference ev) ref) as [<-|Hr].
    + repeat split; try done. by exists i, v, e.
    + by rewrite app_nil_r in Hne.
  - rewrite entries_of_outcome in Hne. exfalso. apply Hne.
    destruct (String.eqb (ev_Reference ev) ref); by rewrite app_nil_r.
Qed.

Lemma callback_recorded ev b xs b' : callback ev b xs (Ok tt) b' -> EventID ev ∈ bk_inbox b'.
Proof. inversion 1; subst; simpl; apply elem_of_union_l, elem_of_singleton; done. Qed.

Lemma callback_known ev b xs r b' :
  callback ev b xs r b' -> EventID ev ∈ bk_inbox b -> b' = b /\ xs = [] /\ r <> Ok tt.
Proof. by destruct 1. Qed.

(** ** Properties *)

(** C1: [Process] refines the machine: over any store that meets the
    contract and any adapters, a delivery whose payload cannot be read is
    answered [ErrBadPayload] and touches neither books nor gateways, and any
    other makes exactly one step of [callback], with the exchanges and the
    answer that step allows. *)
Theorem Process_refines {W} `{!Runtime W} (s : Service W) (books : W -> Books)
    (log : W -> list Exchange)
    `{!WebhookStoreSpec (svc_store s) books} `{!WebhookStoreFrame (svc_store s) log}
    `{!Traced (adapters (svc_router s)) log} `{!AdaptersFrame (adapters (svc_router s)) books}
    `{!RuntimeFrame books} `{!RuntimeFrame log} gw payload w :
  let w' := (run (Process s gw payload) w).2 in
  let r := (run (Process s gw payload) w).1 in
  match (run (parsePayload gw payload) w).1 with
  | Err _ => (exists e, r = Err e /\ errors_Is e ErrBadPayload = true)
             /\ books w' = books w /\ log w' = log w
  | Ok ev => exists xs, log w' = log w ++ xs /\ callback ev (books w) xs r (books w')
  end.
Proof. exact (Process_spec s books log gw payload w). Qed.

Section process_properties.
Context {W : Type} `{!Runtime W} (s : Service W) (books : W -> Books) (log : W -> list Exchange).
Context `{!WebhookStoreSpec (svc_store s) books} `{!WebhookStoreFrame (svc_store s) log}.
Context `{!Traced (adapters (svc_router s)) log} `{!AdaptersFrame (adapters (svc_router s)) books}.
Context `{!RuntimeFrame books} `{!RuntimeFrame log}.

(** One request of a gateway to the webhook endpoint. *)
Definition deliver (call : Gateway * string) : Prog W unit :=
  _ ← Process s call.1 call.2; mret tt.

Lemma deliver_step call w :
  books (run (deliver call) w).2 = books w \/ delivery (books w) (books (run (deliver call) w).2).
Proof.
  unfold deliver. run_simpl. pose proof (Process_spec s books log call.1 call.2 w) as Hp.
  cbv zeta in Hp. destruct (run (parsePayload call.1 call.2) w).1 as [ev|e].
  - destruct Hp as (xs & _ & Hc). right. by eexists _, _, _.
  - left. tauto.
Qed.

Lemma deliver_all calls w : rtc delivery (books w) (books (run (forM_ calls deliver) w).2).
Proof.
  revert w. induction calls as [|call calls IH]; intros w; cbn [forM_]; [apply rtc_refl|]. run_simpl.
  destruct (deliver_step call w) as [<-|Hd]; [apply IH|]. by eapply rtc_l, IH.
Qed.

(** C2: through any sequence of callbacks, from any gateways, with any
    payloads (well-formed or not, repeated or not) and whatever the gateways
    answer when asked, every intent keeps exactly one collection entry once
    it has succeeded and none before; a terminal status is never left and no
    ledger entry is ever changed or removed. *)
Theorem callbacks_book_once calls w :
  settled_once (books w) ->
  let b' := books (run (forM_ calls deliver) w).2 in
  settled_once b'
  /\ (forall ref i, bk_intents (books w) !! ref = Some i -> final i = true ->
       bk_intents b' !! ref = Some i)
  /\ (forall ref, entries_of (books w) ref `prefix_of` entries_of b' ref).
Proof. intros Hinv. exact (deliveries_book_once _ _ (deliver_all calls w) Hinv). Qed.

(** Money is booked on the gateway's word only: if [Process] adds to
    the ledger of a reference, that reference is the one its payload names,
    its intent was pending and the event new, the intent's gateway was asked
    in this very call and answered "succeeded", what was added is one
    collection of the amount it verified, and the call is answered without
    error. *)
Theorem Process_books_on_truth gw payload w ref :
  let w' := (run (Process s gw payload) w).2 in
  entries_of (books w') ref <> entries_of (books w) ref ->
  (run (Process s gw payload) w).1 = Ok tt
  /\ (exists id, (run (parsePayload gw payload) w).1 = Ok {| EventID := id; ev_Reference := ref |}
      /\ ~ (id ∈ bk_inbox (books w)))
  /\ exists i v e,
       bk_intents (books w) !! ref = Some i /\ in_Status i = "pending"
       /\ log w' = log w ++ [XVerify (in_Gateway i) ref (Ok v)] /\ vr_Status v = "succeeded"
       /\ collection_for ref v (in_Product i) e
       /\ entries_of (books w') ref = entries_of (books w) ref ++ [e].
Proof.
  intros w' Hne. pose proof (Process_spec s books log gw payload w) as Hp. cbv zeta in Hp.
  fold w' in Hp. destruct (run (parsePayload gw payload) w).1 as [[id ref']|e].
  - destruct Hp as (xs & Hl & Hc).
    destruct (callback_truth _ _ _ _ _ _ Hc Hne) as (Hr & Href & Hnew & i & v & e & Hi & Hst & -> & H).
    simpl in Href. subst ref'. split; [done|]. split; [by exists id|]. by exists i, v, e.
  - destruct Hp as (_ & Hb & _). by rewrite Hb in Hne.
Qed.

(** Redelivery: once an event has been answered without error, any
    later payload with its identifier, from whatever gateway, is answered
    with an error, changes nothing and reaches no gateway. *)
Theorem redelivery_is_inert gw payload gw2 payload2 ev ev2 w :
  (run (parsePayload gw payload) w).1 = Ok ev ->
  (run (Process s gw payload) w).1 = Ok tt ->
  let w1 := (run (Process s gw payload) w).2 in
  (run (parsePayload gw2 payload2) w1).1 = Ok ev2 -> EventID ev2 = EventID ev ->
  let w2 := (run (Process s gw2 payload2) w1).2 in
  books w2 = books w1 /\ log w2 = log w1 /\ (run (Process s gw2 payload2) w1).1 <> Ok tt.
Proof.
  intros Hev Hr w1 Hev2 Hid w2.
  pose proof (Process_spec s books log gw payload w) as Hp.
  pose proof (Process_spec s books log gw2 payload2 w1) as Hp2. cbv zeta in Hp, Hp2.
  rewrite Hev in Hp. rewrite Hev2 in Hp2. destruct Hp as (xs & _ & Hc).
  destruct Hp2 as (xs2 & Hl2 & Hc2). fold w1 in Hc. fold w2 in Hl2, Hc2. rewrite Hr in Hc.
  apply callback_recorded in Hc. rewrite <- Hid in Hc.
  destruct (callback_known _ _ _ _ _ Hc2 Hc) as (Hb & -> & Hr2). by rewrite Hl2, app_nil_r.
Qed.
End process_properties.
