(* ===== verification/LocksSpec.v ===== *)
(** * Locks that expire, and the one over Valkey

    The contract [LockerSpec] that the worker and the payouts rely on: a table
    of the locks with the instants they lapse, on the clock of the server that
    keeps it.  A lock is granted only when nobody holds it, lasts at least as
    long as was asked for, lapses on its own, and is given back by [Release],
    whoever gives it; a call that fails may or may not have had its effect.
    [Valkey_locker] of a connected client meets it over any server that
    documents its commands as [exec] does, even one whose replies get lost;
    the gateways' health, kept in the same server, is no part of the table. *)
From S2P Require Import Prelude GoStrings Money Reference Gateway Router RouterProofs Worker WorkerFrames Valkey HealthSpec Scenario.

(** ** The contract *)

(** Of each lock taken when it lapses, [None] for never. *)
Abbreviation LockTable := (gmap string (option Time)) (only parsing).

(** The names the program gives to locks. *)
Definition lock_name (key : string) : bool := String.prefix "payout:" key || String.prefix "outbox:" key.

Definition held_at (ls : LockTable) (t : Time) (key : string) : Prop :=
  match ls !! key with Some (Some d) => (t < d)%Z | Some None => True | None => False end.

Definition outlasts (d : option Time) (t : Time) : Prop := match d with Some d => (t <= d)%Z | None => True end.

(** Taken at an instant between two, when nobody held it. *)
Definition granted (ls ls' : LockTable) (from to : Time) (key : string) (ttl : Z) : Prop :=
  exists t d, (from <= t <= to)%Z /\ ~ held_at ls t key /\ ls' = <[key := d]> ls /\ outlasts d (t + ttl).

(** The server counts in milliseconds. *)
Definition whole_ms (ttl : Z) : Prop := (Z.quot ttl 1000000 * 1000000 = ttl)%Z.

(** Along a body the server's clock does not go back. *)
Abbreviation Forward time p := (Guar (fun w w' => (time w <= time w')%Z) p) (only parsing).
#[export] Instance forward_preorder {W} (time : W -> Time) : PreOrder (fun w w' => (time w <= time w')%Z).
Proof. split; [intros w; lia | intros w1 w2 w3 H1 H2; lia]. Qed.

Class LockerSpec {W} (l : Locker W) (locks : W -> LockTable) (time : W -> Time) : Prop := {
  lk_acquire key ttl w : lock_name key = true -> whole_ms ttl ->
    let out := run (TryAcquire l key ttl) w in
    match out.1 with
    | Ok true => granted (locks w) (locks out.2) (time w) (time out.2) key ttl
    | Ok false => locks out.2 = locks w /\ exists t, (time w <= t <= time out.2)%Z /\ held_at (locks w) t key
    | Err _ => locks out.2 = locks w \/ granted (locks w) (locks out.2) (time w) (time out.2) key ttl
    end;
  lk_release key w : lock_name key = true ->
    let out := run (Release l key) w in
    match out.1 with
    | Ok _ => locks out.2 = delete key (locks w)
    | Err _ => locks out.2 = locks w \/ locks out.2 = delete key (locks w)
    end }.

(** No call of the locker fails. *)
Definition releasing {W} (l : Locker W) : Prop := forall key w, is_Ok (run (Release l key) w).1 = true.
Definition reliable {W} (l : Locker W) : Prop :=
  (forall key ttl w, is_Ok (run (TryAcquire l key ttl) w).1 = true) /\ releasing l.
(** A lock that is free is granted. *)
Definition granting {W} (l : Locker W) (locks : W -> LockTable) (time : W -> Time) : Prop := forall key ttl w,
  lock_name key = true -> ~ held_at (locks w) (time w) key -> (run (TryAcquire l key ttl) w).1 = Ok true.

(** What is left of a lock that its holder released: nothing, unless the
    release answered an error. *)
Definition given_back {W} (l : Locker W) (key : string) (ls ls' : LockTable) : Prop :=
  ls' = delete key ls
  \/ (exists w, is_Ok (run (Release l key) w).1 = false) /\ exists d, ls' = <[key := d]> ls.

Lemma held_at_delete ls t key k : held_at (delete key ls) t k <-> k <> key /\ held_at ls t k.
Proof.
  unfold held_at. destruct (decide (k = key)) as [->|Hne].
  - rewrite lookup_delete_eq. tauto.
  - rewrite lookup_delete_ne by done. tauto.
Qed.

(** A lock free at an instant stays free until somebody takes it. *)
Lemma held_at_earlier ls t t' key : (t <= t')%Z -> held_at ls t' key -> held_at ls t key.
Proof. unfold held_at. intros Ht. destruct (ls !! key) as [[d|]|]; [lia|done..]. Qed.

(** ** The locks among the keys of a Valkey server *)
Definition lock_view (db : DB) : LockTable := ent_exp <$> filter (fun kv => lock_name kv.1 = true) db.

Lemma lock_view_lookup (db : DB) k : lock_name k = true -> lock_view db !! k = ent_exp <$> db !! k.
Proof.
  intros Hk. unfold lock_view. rewrite lookup_fmap, map_lookup_filter. destruct (db !! k); [|done]. simpl.
  by rewrite option_guard_True.
Qed.
Lemma lock_view_hidden (db : DB) k : lock_name k = false -> lock_view db !! k = None.
Proof.
  intros Hk. unfold lock_view. rewrite lookup_fmap, map_lookup_filter. destruct (db !! k); [|done]. simpl.
  by rewrite option_guard_False by congruence.
Qed.
Lemma lock_view_ext (db db' : DB) :
  (forall k, lock_name k = true -> db' !! k = db !! k) -> lock_view db' = lock_view db.
Proof.
  intros H. apply map_eq. intros k. destruct (lock_name k) eqn:E.
  - by rewrite !lock_view_lookup, H.
  - by rewrite !lock_view_hidden.
Qed.
Lemma lock_view_insert (db : DB) k e : lock_name k = true -> lock_view (<[k := e]> db) = <[k := ent_exp e]> (lock_view db).
Proof.
  intros Hk. apply map_eq. intros j. destruct (lock_name j) eqn:E.
  - destruct (decide (j = k)) as [->|Hne].
    + by rewrite lock_view_lookup, !lookup_insert_eq.
    + by rewrite lookup_insert_ne, !lock_view_lookup, lookup_insert_ne.
  - rewrite lookup_insert_ne by congruence. by rewrite !lock_view_hidden.
Qed.
Lemma lock_view_delete (db : DB) k : lock_name k = true -> lock_view (delete k db) = delete k (lock_view db).
Proof.
  intros Hk. apply map_eq. intros j. destruct (lock_name j) eqn:E.
  - destruct (decide (j = k)) as [->|Hne].
    + by rewrite lock_view_lookup, !lookup_delete_eq.
    + by rewrite lookup_delete_ne, !lock_view_lookup, lookup_delete_ne.
  - rewrite lookup_delete_ne by congruence. by rewrite !lock_view_hidden.
Qed.

Lemma held_live (db : DB) now k : lock_name k = true -> held_at (lock_view db) now k <-> is_Some (live now db k).
Proof.
  intros Hk. unfold held_at, live. rewrite lock_view_lookup by done. destruct (db !! k) as [e|]; simpl; [|by rewrite is_Some_alt].
  destruct (ent_exp e) as [d|]; simpl; [|by split; eauto].
  destruct (Z.ltb_spec now d); split; eauto; [lia|by intros []].
Qed.

(** ** A server whose time passes and whose replies get lost *)
Class ValkeyCalls {W} `{!ValkeyClient W} (time : W -> Time) (db : W -> DB) : Prop :=
  vk_calls c w :
    let out := vk_Do c w in
    exists t, (time w <= t <= time out.2)%Z
      /\ ((out.1 = (exec t c (db w)).1 /\ db out.2 = (exec t c (db w)).2)
          \/ (exists e, out.1 = Err e /\ IsValkeyNil e = false /\ (db out.2 = db w \/ db out.2 = (exec t c (db w)).2))).

#[export] Instance served_calls {W} `{!ValkeyClient W} (time : W -> Time) (db : W -> DB) :
  ValkeySpec time db -> ValkeyCalls time db.
Proof.
  intros H c w. exists (time w). rewrite (vk_time c w). split; [lia|]. left. split; [apply vk_reply | apply vk_effect].
Qed.

(** The keys a command may change. *)
Definition touches (c : Command) : list string :=
  match c with
  | INCR k | EXPIRE k _ | DEL k | SET_EX k _ _ | SET_NX_PX k _ _ | ZADD k _ _ | ZREM k _ => [k]
  | MGET _ | EXISTS _ | GET _ | ZRANGE _ | TTL _ => []
  end.
Lemma exec_elsewhere now c db k : ~ (k ∈ touches c) -> (exec now c db).2 !! k = db !! k.
Proof.
  destruct c; cbn [touches exec]; rewrite ?list_elem_of_singleton; intros Hk;
    repeat match goal with |- context [match ?x with _ => _ end] => destruct x end;
    cbn [snd]; rewrite ?lookup_insert_ne, ?lookup_delete_ne by congruence; done.
Qed.

Section valkey.
Context {W : Type} `{!Runtime W} `{!ValkeyClient W} (time : W -> Time) (db : W -> DB) `{!ValkeyCalls time db}.

Lemma Do_calls c w :
  let out := run (Do c) w in
  exists t, (time w <= t <= time out.2)%Z
    /\ ((out.1 = (exec t c (db w)).1 /\ db out.2 = (exec t c (db w)).2)
        \/ (exists e, out.1 = Err e /\ IsValkeyNil e = false /\ (db out.2 = db w \/ db out.2 = (exec t c (db w)).2))).
Proof. cbv zeta. unfold Do. rewrite run_call. apply vk_calls. Qed.

(** What [SET key value NX PX] answers. *)
Lemma set_nx_spec key ttl t (d : DB) : lock_name key = true -> whole_ms ttl ->
  let out := exec t (SET_NX_PX key "1" (Z.quot ttl 1000000)) d in
  (out = (Ok RNil, d) /\ held_at (lock_view d) t key)
  \/ (out.1 = Ok ROK /\ granted (lock_view d) (lock_view out.2) t t key ttl).
Proof.
  intros Hk Hms. cbv zeta. cbn [exec]. pose proof (held_live d t key Hk) as Hh.
  destruct (live t d key) as [e|]; [left; split; [done|]; by apply Hh|]. right. split; [done|].
  exists t, (Some (t + ttl)%Z). split; [lia|]. split; [intros Hx; by apply Hh in Hx as []|]. cbn [snd].
  rewrite lock_view_insert by done. split; [cbn; by rewrite Hms|]. simpl. lia.
Qed.

Lemma granted_within ls ls' t from to key ttl :
  (from <= t <= to)%Z -> granted ls ls' t t key ttl -> granted ls ls' from to key ttl.
Proof. intros Ht (t' & d & Ht' & H). exists t', d. split; [lia|done]. Qed.

#[export] Instance Valkey_locker_spec : LockerSpec (Valkey_locker true) (fun w => lock_view (db w)) time.
Proof.
  split.
  - intros key ttl w Hk Hms. cbv zeta. cbn [Valkey_locker TryAcquire]. unfold lock_TryAcquire. cbn [negb]. run_simpl.
    destruct (Do_calls (SET_NX_PX key "1" (Z.quot ttl 1000000)) w) as (t & Ht & Hc).
    destruct (run (Do _) w) as [reply w1]; cbn [fst snd] in *.
    destruct (set_nx_spec key ttl t (db w) Hk Hms) as [[E Hheld]|[E Hg]]; revert Hc;
      [rewrite E|]; cbn [fst snd].
    + intros [[-> ->]|(e & -> & He & [->| ->])]; cbn [reply_error fst snd]; [|rewrite He; by left..].
      change (IsValkeyNil valkey_nil) with true. split; [done|]. by exists t.
    + apply (granted_within _ _ _ _ _ _ _ Ht) in Hg.
      intros [[-> ->]|(e & -> & He & [->| ->])]; [rewrite E; exact Hg|cbn [reply_error]; rewrite He; auto..].
  - intros key w Hk. cbv zeta. cbn [Valkey_locker Release]. unfold lock_Release. cbn [negb]. run_simpl.
    destruct (Do_calls (DEL key) w) as (t & Ht & Hc). destruct (run (Do _) w) as [reply w1]; cbn [fst snd exec] in *.
    destruct Hc as [[-> ->]|(e & -> & He & [->| ->])]; cbn [reply_error]; rewrite ?lock_view_delete by done; auto.
Qed.

(** ** The health of the gateways, in the same server *)
Lemma Preserves_elsewhere c :
  (forall k, k ∈ touches c -> lock_name k = false) -> Preserves (fun w => lock_view (db w)) (Do c).
Proof.
  intros Hc. apply Guar_call. intros w. destruct (vk_calls (db:=db) c w) as (t & _ & H).
  assert (He : lock_view (exec t c (db w)).2 = lock_view (db w)).
  { apply lock_view_ext. intros k Hk. apply exec_elsewhere. intros Hin%Hc. congruence. }
  by destruct H as [[_ ->]|(e & _ & _ & [->| ->])].
Qed.
Lemma health_key_name (connected : bool) gw suffix : lock_name (key (NewHealthStore connected) gw suffix) = false.
Proof. reflexivity. Qed.
Lemma circuit_key_name (connected : bool) gw : lock_name (circuitKey (NewHealthStore connected) gw) = false.
Proof. reflexivity. Qed.
Lemma latency_key_name (connected : bool) gw : lock_name (latencyKey (NewHealthStore connected) gw) = false.
Proof. reflexivity. Qed.

Ltac elsewhere :=
  apply Preserves_elsewhere; cbn [touches]; intros k Hin;
  repeat (apply elem_of_cons in Hin as [->|Hin]; [done|]); by apply not_elem_of_nil in Hin.

Lemma Preserves_DoMulti_elsewhere cs :
  Forall (fun c => forall k, k ∈ touches c -> lock_name k = false) cs ->
  Preserves (fun w => lock_view (db w)) (DoMulti cs).
Proof.
  induction 1 as [|c cs Hc Hcs IH]; cbn [DoMulti]; [guar|]. apply Guar_bind; [by apply Preserves_elsewhere|]. guar.
Qed.

#[export] Instance Valkey_health_locks (connected : bool) :
  RuntimeFrame (fun w => lock_view (db w)) -> (forall w, lock_view (db (vk_seq w).2) = lock_view (db w)) ->
  HealthFrame (Valkey_health (NewHealthStore connected)) (fun w => lock_view (db w)).
Proof.
  intros Hrt Hseq. split.
  - intros g. cbn [Valkey_health Router.IsCircuitOpen]. unfold IsCircuitOpen. destruct (negb _); guar. elsewhere.
  - intros f g ok [= <-]. unfold RecordResult. destruct (negb _); [guar|].
    apply Guar_bind.
    + apply Preserves_DoMulti_elsewhere. destruct ok; repeat constructor; cbn [touches];
        intros k ->%list_elem_of_singleton; apply health_key_name.
    + intros [e|]; [guar|]. destruct ok; [guar|]. unfold maybeOpenCircuit.
      apply Guar_bind; [elsewhere|]. intros r. destruct (ToString r); [|destruct (IsValkeyNil _); guar].
      destruct (_ <? _)%Z; [guar|]. apply Guar_bind; [elsewhere|guar].
  - intros f g ok [= <-]. unfold RecordLatency. destruct (negb _); [guar|].
    apply Guar_bind; [apply Guar_call, Hseq|]. intros n. apply Guar_bind; [by apply Preserves_now|]. intros now.
    apply Guar_bind; [|guar]. apply Preserves_DoMulti_elsewhere.
    repeat constructor; cbn [touches]; intros k ->%list_elem_of_singleton; apply latency_key_name.
Qed.
End valkey.

(** ** The lock table of the scripted world: no lock of it lapses *)
Definition lock_table {S} (w : World S) : LockTable := gset_to_gmap None (locks w).

#[export] Instance scripted_locker_spec {S} : LockerSpec scripted_locker (@lock_table S) (@clock S).
Proof.
  split.
  - intros key ttl w _ _. simpl. destruct (bool_decide (key ∈ locks w)) eqn:E; simpl.
    + apply bool_decide_eq_true in E. split; [done|]. exists (clock w). split; [lia|].
      unfold held_at, lock_table. by rewrite (proj2 (lookup_gset_to_gmap_Some _ _ _ _) (conj E eq_refl)).
    + apply bool_decide_eq_false in E. exists (clock w), None. split; [simpl; lia|].
      unfold held_at, lock_table. simpl. rewrite (proj2 (lookup_gset_to_gmap_None _ _ _) E).
      split; [tauto|]. split; [|done]. by rewrite gset_to_gmap_union_singleton.
  - intros key w _. simpl. unfold lock_table. simpl. apply map_eq. intros k.
    destruct (decide (k = key)) as [->|Hne].
    + rewrite lookup_delete_eq. apply lookup_gset_to_gmap_None. set_solver.
    + rewrite lookup_delete_ne, !lookup_gset_to_gmap by done. case_guard; case_guard; set_solver.
Qed.

Lemma lock_table_empty {S} (w : World S) : locks w = ∅ -> lock_table w = ∅.
Proof. unfold lock_table. intros ->. apply gset_to_gmap_empty. Qed.
Lemma lock_table_free {S} (w : World S) t key : ~ (key ∈ locks w) -> ~ held_at (lock_table w) t key.
Proof. intros Hk. unfold held_at, lock_table. rewrite (proj2 (lookup_gset_to_gmap_None _ _ _) Hk). tauto. Qed.

Lemma scripted_grants {S} : granting scripted_locker (@lock_table S) (@clock S).
Proof.
  intros key ttl w _ Hk. simpl. destruct (bool_decide (key ∈ locks w)) eqn:E; [|done]. apply bool_decide_eq_true in E.
  destruct Hk. unfold held_at, lock_table. by rewrite (proj2 (lookup_gset_to_gmap_Some _ _ _ _) (conj E eq_refl)).
Qed.
Lemma scripted_releases {S} : releasing (@scripted_locker S).
Proof. done. Qed.

#[export] Instance scripted_frame_table {S} : AdaptersFrame (@scripted_adapters S) lock_table.
Proof. split; intros * ->%scripted_adapters_inv; by apply Guar_call. Qed.
#[export] Instance scripted_health_table {S} : HealthFrame (@scripted_health S) lock_table.
Proof. split; intros; simplify_eq/=; by repeat split. Qed.
#[export] Instance runtime_frame_table {S} : RuntimeFrame (@lock_table S).
Proof. by split. Qed.
#[export] Instance scripted_router_table {S} : RouterFrame (@scripted_router S) lock_table.
Proof. intros h [= <-]. apply _. Qed.
