(* ===== verification/WorkerSpec.v ===== *)
(** * What draining one outbox row does

    The abstract outbox a store keeps and the contract [OutboxStoreSpec] that
    the worker relies on; [drained] lists the outcomes of [processOne] over
    any store that meets it.  The worker that holds no lock, or another's
    lock, does nothing. *)
From S2P Require Import Prelude GoStrings Money Reference Ledger Gateway Router RouterProofs.
From S2P Require Import Webhooks WebhooksSpec Worker WorkerFrames LocksSpec.
From Stdlib Require Export Sorted.
From stdpp Require Import sorting.

(** ** The abstract outbox

    Its rows, the amount [GetIntent] reports of each charge, and the books of
    the webhooks, which the worker settles too. *)
Record Outbox := mkOutbox {
  ob_rows : gmap UUID GatewayEvent;
  ob_reported : gmap string Money;
  ob_books : Books }.

Definition is_waiting (ev : GatewayEvent) : bool := String.eqb (ge_Status ev) "pending".
Definition waiting_rows (o : Outbox) : list GatewayEvent := List.filter is_waiting (map_to_list (ob_rows o)).*2.
Definition closed_row (status : string) (ev : GatewayEvent) : GatewayEvent :=
  {| ge_ID := ge_ID ev; ge_Ref := ge_Ref ev; ge_Gateway := ge_Gateway ev; ge_Status := status;
     ge_CreatedAt := ge_CreatedAt ev |}.
Definition intent_of (i : Worker.Intent) : Webhooks.Intent :=
  {| in_Ref := wi_Ref i; in_Gateway := wi_Gateway i; in_Status := wi_Status i; in_Product := wi_Product i |}.

Definition earlier (x y : GatewayEvent) : Prop := (ge_CreatedAt x <= ge_CreatedAt y)%Z.
#[export] Instance earlier_trans : Transitive earlier.
Proof. intros x y z. unfold earlier. lia. Qed.

(** The [limit] oldest waiting rows, in the order of their creation. *)
Definition claimed (limit : Z) (o : Outbox) (l : list GatewayEvent) : Prop :=
  StronglySorted earlier l
  /\ length l = Nat.min (Z.to_nat limit) (length (waiting_rows o))
  /\ exists rest, l ++ rest ≡ₚ waiting_rows o /\ forall x y, x ∈ l -> y ∈ rest -> earlier x y.

Lemma sorted_take_drop l n x y :
  StronglySorted earlier l -> x ∈ take n l -> y ∈ drop n l -> earlier x y.
Proof.
  intros Hs Hx Hy. rewrite <- (take_drop n l) in Hs.
  by eapply StronglySorted_app_1_elem_of.
Qed.

Lemma StronglySorted_take {A} (R : A -> A -> Prop) n l : StronglySorted R l -> StronglySorted R (take n l).
Proof.
  intros Hs. revert n. induction Hs as [|x l Hs IH Hx]; intros [|n]; simpl; constructor; auto.
  by apply Forall_take.
Qed.

Lemma Permutation_list_filter {A} (f : A -> bool) l1 l2 :
  l1 ≡ₚ l2 -> List.filter f l1 ≡ₚ List.filter f l2.
Proof.
  induction 1 as [|x l1 l2 _ IH|x y l|l1 l2 l3 _ IH1 _ IH2]; simpl; [done|..|by rewrite IH1].
  - destruct (f x); [by constructor|done].
  - destruct (f x), (f y); try done. apply Permutation_swap.
Qed.

(** The rows of an outbox in the order of creation, cut to the limit. *)
Lemma claimed_take limit o l : l ≡ₚ waiting_rows o -> StronglySorted earlier l -> claimed limit o (take (Z.to_nat limit) l).
Proof.
  intros Hp Hs. split; [by apply StronglySorted_take|].
  split; [by rewrite length_take, (Permutation_length Hp)|].
  exists (drop (Z.to_nat limit) l). split; [by rewrite take_drop|]. intros x y Hx Hy. by eapply sorted_take_drop.
Qed.

(** The row [id] and the charge [ref] failed, together. *)
Definition books_declined (ref : string) (b : Books) : Books :=
  mkBooks (bk_inbox b) (alter (intent_status "failed") ref (bk_intents b)) (bk_ledger b).
Definition closes_failed (id : UUID) (ref : string) (o o' : Outbox) : Prop :=
  ob_rows o' = alter (closed_row "failed") id (ob_rows o) /\ ob_books o' = books_declined ref (ob_books o).

(** The amount a settlement books: the verified one, or else the intent's. *)
Definition due (verified intended : Money) : Money := if IsZero verified then intended else verified.
Definition settlement (ref product : string) (amt : Money) (at_ : Time) (e : LedgerEntry) : Prop :=
  le_Kind e = KindCollection /\ le_Ref e = ref /\ le_Product e = product
  /\ (IsZero amt = false -> le_Amount e = amt) /\ same_instant (le_ValueTime e) at_.
Definition closes_succeeded (id : UUID) (ref product : string) (amt : Money) (at_ : Time)
    (i : Webhooks.Intent) (o o' : Outbox) : Prop :=
  exists e, settlement ref product amt at_ e
    /\ ob_rows o' = alter (closed_row "succeeded") id (ob_rows o)
    /\ ob_books o' = book_outcome ref "succeeded" i [e] (ob_books o).

(** ** The contract of a store

    Every operation is all or nothing.  [bookable] are the amounts the ledger
    takes; [faulty] says whether a call may fail for reasons of the store's
    own (a lost connection), which the worker treats like a missing charge. *)
Definition payable (bookable : Money -> Prop) (o : Outbox) : Prop := map_Forall (fun _ amt => bookable amt) (ob_reported o).

Class OutboxStoreSpec {W} (s : OutboxStore W) (view : W -> Outbox) (bookable : Money -> Prop) (faulty : Prop) : Prop := {
  os_claim limit w : (0 <= limit)%Z ->
    view (run (ClaimPending s limit) w).2 = view w
    /\ match (run (ClaimPending s limit) w).1 with
       | Ok l => (Z.of_nat (length (waiting_rows (view w))) < 2 ^ 31)%Z -> claimed limit (view w) l
       | Err _ => faulty
       end;
  os_intent ref w :
    view (run (GetIntent s ref) w).2 = view w
    /\ match (run (GetIntent s ref) w).1 with
       | Ok i => bk_intents (ob_books (view w)) !! ref = Some (intent_of i)
                 /\ ob_reported (view w) !! ref = Some (wi_Amount i)
       | Err _ => faulty \/ bk_intents (ob_books (view w)) !! ref = None
       end;
  os_succeeded id ref v i j w : bk_intents (ob_books (view w)) !! ref = Some j ->
    let amt := due (vr_Amount v) (wi_Amount i) in
    let w' := (run (CompleteSucceeded s id ref v i) w).2 in
    match (run (CompleteSucceeded s id ref v i) w).1 with
    | Ok _ => closes_succeeded id ref (wi_Product i) amt (vr_VerifiedAt v) j (view w) (view w')
              /\ (payable bookable (view w) -> payable bookable (view w'))
    | Err _ => view w' = view w /\ (faulty \/ ob_rows (view w) !! id = None \/ ~ bookable amt)
    end;
  os_failed id ref v w :
    let w' := (run (CompleteFailed s id ref v) w).2 in
    match (run (CompleteFailed s id ref v) w).1 with
    | Ok _ => closes_failed id ref (view w) (view w') /\ (payable bookable (view w) -> payable bookable (view w'))
    | Err _ => view w' = view w /\ faulty
    end;
  os_retry id w : view (run (MarkPendingRetry s id) w).2 = view w;
  os_count w : view (run (CountPending s) w).2 = view w }.

(** ** The outcomes

    What became of the row [ev], whose gateway's adapter is that of [g]. *)
Inductive drained (bookable : Money -> Prop) (faulty : Prop) (g : option Gateway) (ev : GatewayEvent) (o : Outbox) :
  list Exchange -> Outbox -> Prop :=
| dr_no_adapter : g = None -> drained bookable faulty g ev o [] o
| dr_orphan gw o' :
    g = Some gw -> faulty \/ bk_intents (ob_books o) !! ge_Ref ev = None ->
    closes_failed (ge_ID ev) (ge_Ref ev) o o' \/ (faulty /\ o' = o) ->
    drained bookable faulty g ev o [] o'
| dr_already_failed gw i o' :
    g = Some gw -> bk_intents (ob_books o) !! ge_Ref ev = Some i -> in_Status i = "failed" ->
    closes_failed (ge_ID ev) (ge_Ref ev) o o' \/ (faulty /\ o' = o) ->
    drained bookable faulty g ev o [] o'
| dr_already_succeeded gw i amt at_ o' :
    g = Some gw -> bk_intents (ob_books o) !! ge_Ref ev = Some i -> in_Status i = "succeeded" ->
    ob_reported o !! ge_Ref ev = Some amt ->
    closes_succeeded (ge_ID ev) (ge_Ref ev) (in_Product i) amt at_ i o o' \/ ((faulty \/ ~ bookable amt) /\ o' = o) ->
    drained bookable faulty g ev o [] o'
| dr_unanswered gw i a :
    g = Some gw -> bk_intents (ob_books o) !! ge_Ref ev = Some i ->
    in_Status i <> "succeeded" -> in_Status i <> "failed" ->
    match a with Ok v => vr_Status v <> "succeeded" /\ vr_Status v <> "failed" | Err _ => True end ->
    drained bookable faulty g ev o [XVerify gw (ge_Ref ev) a] o
| dr_failed gw i v o' :
    g = Some gw -> bk_intents (ob_books o) !! ge_Ref ev = Some i ->
    in_Status i <> "succeeded" -> in_Status i <> "failed" -> vr_Status v = "failed" ->
    closes_failed (ge_ID ev) (ge_Ref ev) o o' \/ (faulty /\ o' = o) ->
    drained bookable faulty g ev o [XVerify gw (ge_Ref ev) (Ok v)] o'
| dr_succeeded gw i v reported o' :
    g = Some gw -> bk_intents (ob_books o) !! ge_Ref ev = Some i ->
    in_Status i <> "succeeded" -> in_Status i <> "failed" -> vr_Status v = "succeeded" ->
    ob_reported o !! ge_Ref ev = Some reported ->
    let amt := due (vr_Amount v) reported in
    closes_succeeded (ge_ID ev) (ge_Ref ev) (in_Product i) amt (vr_VerifiedAt v) i o o'
      \/ ((faulty \/ ~ bookable amt) /\ o' = o) ->
    drained bookable faulty g ev o [XVerify gw (ge_Ref ev) (Ok v)] o'.

(** The gateway of the row, when it has an adapter. *)
Definition adapted {W} (r : ChargerRouter W) (g : Gateway) : option Gateway :=
  match adapters r !! g with Some _ => Some g | None => None end.

Lemma due_idem v i : due (if IsZero v then i else v) i = due v i.
Proof. unfold due. destruct (IsZero v) eqn:Ev, (IsZero i) eqn:Ei; by rewrite ?Ev, ?Ei. Qed.

Section worker.
Context {W : Type} `{!Runtime W} (s : OutboxStore W) (view : W -> Outbox) (bookable : Money -> Prop) (faulty : Prop).
Context `{!OutboxStoreSpec s view bookable faulty} `{!RuntimeFrame view}.

Lemma view_now (w : W) : view (run time_Now w).2 = view w.
Proof. apply (Preserves_run view), Preserves_now, _. Qed.

(** The two completions, whether or not their errors are dropped. *)
Lemma failed_step ev v w :
  let w' := (run (CompleteFailed s (ge_ID ev) (ge_Ref ev) v) w).2 in
  (closes_failed (ge_ID ev) (ge_Ref ev) (view w) (view w') \/ (faulty /\ view w' = view w))
  /\ (payable bookable (view w) -> payable bookable (view w')).
Proof.
  cbv zeta. pose proof (os_failed (s:=s) (view:=view) (ge_ID ev) (ge_Ref ev) v w) as H. cbv zeta in H.
  destruct (run _ w).1; [tauto|]. destruct H as [-> Hf]. auto.
Qed.
Lemma succeeded_step ev v i w :
  ob_rows (view w) !! ge_ID ev = Some ev ->
  bk_intents (ob_books (view w)) !! ge_Ref ev = Some (intent_of i) ->
  let w' := (run (CompleteSucceeded s (ge_ID ev) (ge_Ref ev) v i) w).2 in
  let amt := due (vr_Amount v) (wi_Amount i) in
  (closes_succeeded (ge_ID ev) (ge_Ref ev) (wi_Product i) amt (vr_VerifiedAt v) (intent_of i) (view w) (view w')
    \/ ((faulty \/ ~ bookable amt) /\ view w' = view w))
  /\ (payable bookable (view w) -> payable bookable (view w')).
Proof.
  intros Hev Hi. cbv zeta.
  pose proof (os_succeeded (s:=s) (view:=view) (ge_ID ev) (ge_Ref ev) v i _ w Hi) as H. cbv zeta in H.
  destruct (run _ w).1; [tauto|]. destruct H as [-> H]. rewrite Hev in H. split; [right|done]. naive_solver.
Qed.

Context (log : W -> list Exchange) `{!OutboxStoreFrame s log} `{!RuntimeFrame log}.
Context (wk : Worker W).
Context `{!Traced (adapters (wk_router wk)) log} `{!AdaptersFrame (adapters (wk_router wk)) view}.
Hypothesis Hstore : wk_store wk = s.

Lemma log_failed ev v w : log (run (CompleteFailed s (ge_ID ev) (ge_Ref ev) v) w).2 = log w.
Proof. apply (Preserves_run log), of_failed. Qed.
Lemma log_succeeded ev v i w : log (run (CompleteSucceeded s (ge_ID ev) (ge_Ref ev) v i) w).2 = log w.
Proof. apply (Preserves_run log), of_succeeded. Qed.
Lemma exchanges_now (w : W) : log (run time_Now w).2 = log w.
Proof. apply (Preserves_run log), Preserves_now, _. Qed.

Lemma settle_spec ev i v gw (w : W) :
  ob_rows (view w) !! ge_ID ev = Some ev ->
  bk_intents (ob_books (view w)) !! ge_Ref ev = Some (intent_of i) ->
  ob_reported (view w) !! ge_Ref ev = Some (wi_Amount i) ->
  wi_Status i <> "succeeded" -> wi_Status i <> "failed" ->
  let w' := (run (settle wk ev i v) w).2 in
  log w' = log w /\ drained bookable faulty (Some gw) ev (view w) [XVerify gw (ge_Ref ev) (Ok v)] (view w').
Proof.
  intros Hev Hi Ha Hns Hnf. cbv zeta. unfold settle. rewrite Hstore.
  destruct (String.eqb_spec (vr_Status v) "succeeded") as [Es|Es];
    [|destruct (String.eqb_spec (vr_Status v) "failed") as [Ef|Ef]]; run_simpl.
  - set (v' := if IsZero (vr_Amount v) then _ else v).
    destruct (succeeded_step ev v' i w Hev Hi) as [H _].
    assert (Hv : vr_Amount v' = (if IsZero (vr_Amount v) then wi_Amount i else vr_Amount v)
                 /\ vr_VerifiedAt v' = vr_VerifiedAt v) by (unfold v'; by destruct (IsZero (vr_Amount v))).
    destruct Hv as [Hva Hvt]. rewrite Hva, Hvt, due_idem in H. rewrite log_succeeded. split; [done|].
    by eapply (dr_succeeded _ _ _ _ _ gw (intent_of i) v (wi_Amount i)).
  - destruct (failed_step ev v w) as [H _]. rewrite log_failed. split; [done|]. by eapply (dr_failed _ _ _ _ _ gw (intent_of i) v).
  - rewrite (Preserves_run log) by apply of_retry. rewrite os_retry. split; [done|].
    by eapply (dr_unanswered _ _ _ _ _ gw (intent_of i)).
Qed.

Lemma process_locked_spec ev (w : W) :
  ob_rows (view w) !! ge_ID ev = Some ev ->
  exists xs, log (run (process_locked wk ev) w).2 = log w ++ xs
    /\ drained bookable faulty (adapted (wk_router wk) (ge_Gateway ev)) ev (view w) xs
               (view (run (process_locked wk ev) w).2).
Proof.
  intros Hev. unfold process_locked, Adapter, adapted.
  destruct (adapters (wk_router wk) !! ge_Gateway ev) as [a|] eqn:Ha.
  2: { exists []. rewrite app_nil_r. split; [done|]. by constructor. }
  rewrite Hstore. run_simpl.
  destruct (os_intent (s:=s) (ge_Ref ev) w) as [Hv Hi].
  assert (Hl : log (run (GetIntent s (ge_Ref ev)) w).2 = log w) by apply (Preserves_run log), of_intent.
  destruct (run (GetIntent s (ge_Ref ev)) w) as [[i|err] w1]; cbn [fst snd] in *; rewrite <- Hv, <- Hl in *; run_simpl.
  2: { destruct (failed_step ev (synthetic_result (ge_Ref ev) "failed" (run time_Now w1).1) (run time_Now w1).2) as [H _].
       exists []. rewrite app_nil_r, ?log_failed, ?log_succeeded, exchanges_now. split; [done|]. rewrite view_now in H. by eapply dr_orphan. }
  destruct Hi as [Hi Hamt].
  destruct (String.eqb_spec (wi_Status i) "succeeded") as [Es|Es]; cbn [orb]; run_simpl.
  { destruct (succeeded_step ev (synthetic_result (ge_Ref ev) (wi_Status i) (run time_Now w1).1) i (run time_Now w1).2)
      as [H _]; [by rewrite view_now..|]. exists []. rewrite app_nil_r, ?log_failed, ?log_succeeded, exchanges_now. split; [done|].
    rewrite view_now in H. by eapply (dr_already_succeeded _ _ _ _ _ _ (intent_of i) (wi_Amount i)). }
  destruct (String.eqb_spec (wi_Status i) "failed") as [Ef|Ef]; run_simpl.
  { destruct (failed_step ev (synthetic_result (ge_Ref ev) (wi_Status i) (run time_Now w1).1) (run time_Now w1).2) as [H _].
    exists []. rewrite app_nil_r, ?log_failed, ?log_succeeded, exchanges_now. split; [done|]. rewrite view_now in H.
    by eapply (dr_already_failed _ _ _ _ _ _ (intent_of i)). }
  pose proof (traced_verify (log:=log) _ a (ge_Ref ev) w1 Ha) as Hl1.
  assert (Hv1 : view (run (Verify a (ge_Ref ev)) w1).2 = view w1)
    by (apply (Preserves_run view); by eapply frame_verify).
  exists [XVerify (ge_Gateway ev) (ge_Ref ev) (run (Verify a (ge_Ref ev)) w1).1].
  destruct (run (Verify a (ge_Ref ev)) w1) as [[v|e] w2]; cbn [fst snd] in *; rewrite <- Hv1, <- Hl1 in *.
  - apply settle_spec; try done; by rewrite Hv1.
  - cbn [shouldTryInitiate]. run_simpl. rewrite (Preserves_run log) by apply of_retry. rewrite os_retry.
    split; [done|]. by eapply (dr_unanswered _ _ _ _ _ _ (intent_of i)).
Qed.

(** With the row's lock in hand. *)
Context (l : Locker W) (locks : W -> LockTable) (time : W -> Time).
Context `{!LockerSpec l locks time} `{!LockerFrame l view} `{!LockerFrame l log}.
Context `{!AdaptersFrame (adapters (wk_router wk)) locks} `{!OutboxStoreFrame s locks} `{!RuntimeFrame locks}.
Hypothesis Hlocker : wk_locker wk = Some l.
Definition row_lock (ev : GatewayEvent) : string := "outbox:" ^^ uuid_String (ge_ID ev).

Lemma row_lock_name ev : lock_name (row_lock ev) = true.
Proof. unfold row_lock, lock_name. simpl. by destruct (uuid_String _). Qed.

(** Taking the lock and looking at the row do not disturb each other. *)
Lemma acquire_frames key ttl (w : W) :
  view (run (TryAcquire l key ttl) w).2 = view w /\ log (run (TryAcquire l key ttl) w).2 = log w.
Proof. split; [apply (Preserves_run view) | apply (Preserves_run log)]; apply lf_acquire. Qed.
Lemma process_locked_locks ev (w : W) : locks (run (process_locked wk ev) w).2 = locks w.
Proof. apply (Preserves_run locks), Preserves_process_locked; rewrite ?Hstore; apply _. Qed.

Lemma release_back key ls d (w : W) :
  lock_name key = true -> locks w = <[key := d]> ls -> given_back l key ls (locks (run (Release l key) w).2).
Proof.
  intros Hk Hw. pose proof (lk_release (locks:=locks) (time:=time) key w Hk) as H. cbv zeta in H. unfold given_back.
  destruct (run (Release l key) w) as [[u|e] w1] eqn:E; cbn [fst snd] in *; rewrite Hw, ?delete_insert_eq in H; [by left|].
  destruct H as [->|H]; [right|by left]. split; [exists w; by rewrite E | by exists d].
Qed.

Lemma processOne_acquired ev (w : W) :
  ob_rows (view w) !! ge_ID ev = Some ev ->
  let taken := run (TryAcquire l (row_lock ev) (60 * Second)) w in
  taken.1 = Ok true ->
  let w' := (run (processOne wk ev) w).2 in
  (exists t, (time w <= t <= time taken.2)%Z /\ ~ held_at (locks w) t (row_lock ev))
  /\ given_back l (row_lock ev) (locks w) (locks w')
  /\ exists xs, log w' = log w ++ xs
     /\ drained bookable faulty (adapted (wk_router wk) (ge_Gateway ev)) ev (view w) xs (view w').
Proof.
  intros Hev. cbv zeta. intros Hacq. unfold processOne. rewrite Hlocker. run_simpl. fold (row_lock ev).
  pose proof (lk_acquire (locks:=locks) (time:=time) (row_lock ev) (60 * Second) w (row_lock_name ev) eq_refl) as Ha.
  cbv zeta in Ha. rewrite Hacq in Ha |- *. destruct Ha as (t & d & Ht & Hfree & Hheld & _). run_simpl.
  destruct (acquire_frames (row_lock ev) (60 * Second) w) as [Hm Hl].
  set (w1 := (run (TryAcquire l (row_lock ev) (60 * Second)) w).2) in *.
  destruct (process_locked_spec ev w1) as (xs & Hl1 & Hd); [by rewrite Hm|].
  pose proof (process_locked_locks ev w1) as Hh2. set (w2 := (run (process_locked wk ev) w1).2) in *.
  split; [by exists t|]. split; [apply (release_back _ _ d); [apply row_lock_name|by rewrite Hh2, Hheld]|]. exists xs.
  rewrite (Preserves_run log) by apply lf_release. rewrite (Preserves_run view) by apply lf_release.
  by rewrite Hl1, Hl, <- Hm.
Qed.
End worker.

(** ** Properties *)

(** C10: one row of the outbox, over any store and any locker that meet their
    contracts.  The worker asks for the row's lock first.  When it gets it,
    nobody held it then, and it makes one of the [drained] steps (at most one
    question to the row's gateway, a booking only for a charge that
    succeeded, of the verified amount or else the intent's), and the lock is
    given back whatever happened, unless the release itself failed.  When the
    lock is another's it answers without error, and when the locker fails
    with the locker's error; either way the row, the books and the gateways
    are left alone. *)
Theorem processOne_correct {W} `{!Runtime W} (s : OutboxStore W) (view : W -> Outbox) bookable faulty
    `{!OutboxStoreSpec s view bookable faulty} `{!RuntimeFrame view}
    (log : W -> list Exchange) `{!OutboxStoreFrame s log} `{!RuntimeFrame log} (wk : Worker W) (l : Locker W) locks time
    `{!Traced (adapters (wk_router wk)) log} `{!AdaptersFrame (adapters (wk_router wk)) view}
    `{!LockerSpec l locks time} `{!LockerFrame l view} `{!LockerFrame l log}
    `{!AdaptersFrame (adapters (wk_router wk)) locks} `{!OutboxStoreFrame s locks} `{!RuntimeFrame locks}
    ev (w : W) :
  wk_store wk = s -> wk_locker wk = Some l ->
  ob_rows (view w) !! ge_ID ev = Some ev ->
  let taken := run (TryAcquire l (row_lock ev) (60 * Second)) w in
  let out := run (processOne wk ev) w in
  match taken.1 with
  | Ok true =>
      (exists t, (time w <= t <= time taken.2)%Z /\ ~ held_at (locks w) t (row_lock ev))
      /\ given_back l (row_lock ev) (locks w) (locks out.2)
      /\ exists xs, log out.2 = log w ++ xs
         /\ drained bookable faulty (adapted (wk_router wk) (ge_Gateway ev)) ev (view w) xs (view out.2)
  | Ok false =>
      out.1 = Ok tt /\ view out.2 = view w /\ log out.2 = log w /\ locks out.2 = locks w
      /\ exists t, (time w <= t <= time out.2)%Z /\ held_at (locks w) t (row_lock ev)
  | Err e => out.1 = Err (Errorf "lock acquire: " e) /\ view out.2 = view w /\ log out.2 = log w
  end.
Proof.
  intros Hst Hlk Hev. cbv zeta.
  pose proof (processOne_acquired s view bookable faulty log wk Hst l locks time Hlk ev w Hev) as Hacq. cbv zeta in Hacq.
  destruct (acquire_frames view log l (row_lock ev) (60 * Second) w) as [Hm Hl].
  pose proof (lk_acquire (locks:=locks) (time:=time) (row_lock ev) (60 * Second) w (row_lock_name ev) eq_refl) as Ha.
  cbv zeta in Ha. destruct (run (TryAcquire l (row_lock ev) (60 * Second)) w) as [[[|]|e] w1] eqn:E; cbn [fst snd] in *;
    [by apply Hacq|..]; unfold processOne; rewrite Hlk; run_simpl; fold (row_lock ev); rewrite E; run_simpl; tauto.
Qed.
