(* ===== verification/WorkerLiveness.v ===== *)
(** * The outbox empties, or starves

    Over any store that meets the worker's contract and does not fail: when
    the gateways answer, every drain takes up to fifty rows off the outbox,
    so [⌈n/50⌉] drains empty one of [n] rows; when fifty rows at its head get
    no final answer, no drain reaches the rows behind them. *)
From S2P Require Import Prelude GoStrings Money Reference Ledger Gateway Router RouterProofs.
From S2P Require Import Webhooks WebhooksSpec Worker WorkerFrames LocksSpec WorkerSpec.

(** ** Waiting rows *)
Definition keyed (o : Outbox) : Prop := map_Forall (fun id ev => ge_ID ev = id) (ob_rows o).
Definition waits (o : Outbox) (ev : GatewayEvent) : Prop :=
  ob_rows o !! ge_ID ev = Some ev /\ is_waiting ev = true.

Lemma elem_of_waiting o ev :
  ev ∈ waiting_rows o <-> (exists id, ob_rows o !! id = Some ev) /\ is_waiting ev = true.
Proof.
  unfold waiting_rows. rewrite list_elem_of_In, filter_In, <- list_elem_of_In, list_elem_of_fmap. split.
  - intros [([id ev'] & -> & Hin%elem_of_map_to_list) Hp]. eauto.
  - intros [[id Hid%elem_of_map_to_list] Hp]. split; [by exists (id, ev)|done].
Qed.
Lemma waits_waiting o ev : keyed o -> waits o ev <-> ev ∈ waiting_rows o.
Proof.
  intros Hk. rewrite elem_of_waiting. split; [intros [? ?]; eauto|].
  intros [[id Hid] Hp]. split; [|done]. by rewrite (Hk _ _ Hid).
Qed.

Lemma filter_NoDup {A} (f : A -> bool) (l : list A) : NoDup l -> NoDup (List.filter f l).
Proof.
  induction 1 as [|x l Hx Hl IH]; simpl; [constructor|]. destruct (f x); [|done].
  constructor; [|done]. rewrite list_elem_of_In, filter_In, <- list_elem_of_In. tauto.
Qed.

Lemma waiting_NoDup o : keyed o -> NoDup (waiting_rows o).
Proof.
  intros Hk. apply filter_NoDup. apply (NoDup_fmap_1 ge_ID). rewrite <- list_fmap_compose.
  rewrite (list_fmap_ext _ fst (map_to_list (ob_rows o))); [apply NoDup_fst_map_to_list|].
  intros i [id ev] Hi. simpl. apply Hk, elem_of_map_to_list. by eapply list_elem_of_lookup_2.
Qed.

(** [o'] is [o] with the row [ev] no longer waiting. *)
Definition taken_off (ev : GatewayEvent) (o o' : Outbox) : Prop :=
  keyed o' /\ forall e, waits o' e <-> waits o e /\ ge_ID e <> ge_ID ev.

Lemma taken_off_closed status ev o o' :
  status <> "pending" -> keyed o -> ob_rows o' = alter (closed_row status) (ge_ID ev) (ob_rows o) -> taken_off ev o o'.
Proof.
  intros Hst Hk Hr. split.
  - intros id e. rewrite Hr. destruct (decide (ge_ID ev = id)) as [<-|Hne].
    + rewrite lookup_alter_eq. destruct (ob_rows o !! ge_ID ev) as [x|] eqn:E; [|done].
      intros [= <-]. exact (Hk _ _ E).
    + rewrite lookup_alter_ne by done. apply Hk.
  - intros e. unfold waits. rewrite Hr. destruct (decide (ge_ID ev = ge_ID e)) as [Heq|Hne].
    + rewrite Heq, lookup_alter_eq. split; [|naive_solver].
      intros [He Hp]. destruct (ob_rows o !! ge_ID e) as [x|]; [|done]. injection He as <-.
      by apply String.eqb_eq in Hp.
    + rewrite lookup_alter_ne by done. naive_solver.
Qed.

(** ** Drains that make progress *)
Definition is_final (v : VerifyResult) : Prop := vr_Status v = "succeeded" \/ vr_Status v = "failed".

Section progress.
Context {W : Type} `{!Runtime W} (s : OutboxStore W) (view : W -> Outbox) (bookable : Money -> Prop).
Context `{!OutboxStoreSpec s view bookable False} `{!RuntimeFrame view}.
Context (wk : Worker W) `{!AdaptersFrame (adapters (wk_router wk)) view}.
Hypothesis Hstore : wk_store wk = s.

(** Every gateway that is asked answers with a final status, of an amount the
    ledger takes or of none. *)
Definition answering : Prop := forall g a ref w,
  adapters (wk_router wk) !! g = Some a ->
  exists v, (run (Verify a ref) w).1 = Ok v /\ is_final v /\ (IsZero (vr_Amount v) = false -> bookable (vr_Amount v)).
(** Every waiting row is of a gateway with an adapter. *)
Definition served (o : Outbox) : Prop := forall ev, waits o ev -> is_Some (adapters (wk_router wk) !! ge_Gateway ev).

Definition progress (ev : GatewayEvent) (o o' : Outbox) : Prop := taken_off ev o o' /\ payable bookable o'.

Lemma failed_progress ev v w :
  keyed (view w) -> payable bookable (view w) ->
  progress ev (view w) (view (run (CompleteFailed s (ge_ID ev) (ge_Ref ev) v) w).2).
Proof.
  intros Hk Hp. destruct (failed_step s view bookable False ev v w) as [[[Hr _]|[[] _]] Hpay].
  split; [by apply (taken_off_closed "failed")|auto].
Qed.
Lemma succeeded_progress ev v i w :
  keyed (view w) -> payable bookable (view w) -> waits (view w) ev ->
  bk_intents (ob_books (view w)) !! ge_Ref ev = Some (intent_of i) -> bookable (due (vr_Amount v) (wi_Amount i)) ->
  progress ev (view w) (view (run (CompleteSucceeded s (ge_ID ev) (ge_Ref ev) v i) w).2).
Proof.
  intros Hk Hp [Hev _] Hi Hb.
  destruct (succeeded_step s view bookable False ev v i w Hev Hi) as [[(e & _ & Hr & _)|[[[]|Hn] _]] Hpay]; [|done].
  split; [by apply (taken_off_closed "succeeded")|auto].
Qed.

Lemma process_locked_progress ev (w : W) :
  answering -> keyed (view w) -> payable bookable (view w) -> waits (view w) ev ->
  is_Some (adapters (wk_router wk) !! ge_Gateway ev) ->
  progress ev (view w) (view (run (process_locked wk ev) w).2).
Proof.
  intros Hans Hk Hp Hw [a Ha]. unfold process_locked, Adapter. rewrite Ha, Hstore. run_simpl.
  destruct (os_intent (s:=s) (view:=view) (ge_Ref ev) w) as [Hv Hi].
  destruct (run (GetIntent s (ge_Ref ev)) w) as [[i|err] w1]; cbn [fst snd] in *; rewrite <- Hv in *; clear Hv; run_simpl;
    rewrite <- (view_now view w1) in *.
  2: { by apply failed_progress. }
  destruct Hi as [Hi Hrep]; pose proof (Hp _ _ Hrep) as Hdue. simpl in Hdue.
  destruct (String.eqb_spec (wi_Status i) "succeeded") as [Es|Es]; cbn [orb]; run_simpl.
  { by apply succeeded_progress. }
  destruct (String.eqb_spec (wi_Status i) "failed") as [Ef|Ef]; run_simpl.
  { by apply failed_progress. }
  rewrite (view_now view) in *. destruct (Hans _ a (ge_Ref ev) w1 Ha) as (v & Hv & Hfin & Hamt).
  assert (Hm : view (run (Verify a (ge_Ref ev)) w1).2 = view w1)
    by (apply (Preserves_run view); by eapply frame_verify).
  destruct (run (Verify a (ge_Ref ev)) w1) as [r w2]. cbn [fst snd] in *. subst r. rewrite <- Hm in *.
  unfold settle. rewrite Hstore.
  destruct (String.eqb_spec (vr_Status v) "succeeded");
    [|destruct (String.eqb_spec (vr_Status v) "failed"); [|by destruct Hfin]]; run_simpl.
  - apply succeeded_progress; try done. unfold due.
    destruct (IsZero (vr_Amount v)) eqn:E; cbn [vr_Amount with_Amount]; [by destruct (IsZero (wi_Amount i))|].
    rewrite E. auto.
  - by apply failed_progress.
Qed.

(** With a locker that nobody else uses. *)
Context (l : Locker W) (locks : W -> LockTable) (time : W -> Time).
Context `{!LockerSpec l locks time} `{!LockerFrame l view} `{!AdaptersFrame (adapters (wk_router wk)) locks}.
Context `{!OutboxStoreFrame s locks} `{!RuntimeFrame locks}.
Hypothesis Hlocker : wk_locker wk = Some l.
Hypothesis Hgr : granting l locks time.
Hypothesis Hrel : releasing l.

Lemma processOne_progress ev (w : W) :
  answering -> keyed (view w) -> payable bookable (view w) -> locks w = ∅ -> waits (view w) ev ->
  is_Some (adapters (wk_router wk) !! ge_Gateway ev) ->
  progress ev (view w) (view (run (processOne wk ev) w).2) /\ locks (run (processOne wk ev) w).2 = ∅.
Proof.
  intros Hans Hk Hp Hh Hw Ha. unfold processOne. rewrite Hlocker. run_simpl. fold (row_lock ev). set (key := row_lock ev).
  pose proof (lk_acquire (locks:=locks) (time:=time) key (60 * Second) w (row_lock_name ev) eq_refl) as Hacq.
  cbv zeta in Hacq. rewrite (Hgr key (60 * Second)%Z w) in Hacq |- * by (apply row_lock_name || (unfold held_at; rewrite Hh, lookup_empty; tauto)).
  destruct Hacq as (t & d & _ & _ & Hheld & _). run_simpl.
  assert (Hm : view (run (TryAcquire l key (60 * Second)) w).2 = view w)
    by apply (Preserves_run view), lf_acquire.
  set (w1 := (run (TryAcquire l key (60 * Second)) w).2) in *.
  rewrite (Preserves_run view) by apply lf_release. rewrite <- Hm in *. split.
  - by apply process_locked_progress.
  - set (w2 := (run (process_locked wk ev) w1).2).
    pose proof (lk_release (locks:=locks) (time:=time) key w2 (row_lock_name ev)) as Hback. cbv zeta in Hback.
    pose proof (Hrel key w2) as Hok. destruct (run (Release l key) w2) as [[u|e] w3]; [cbn [fst snd] in *|done].
    rewrite Hback. unfold w2. rewrite (Preserves_run locks) by (apply Preserves_process_locked; rewrite ?Hstore; apply _).
    by rewrite Hheld, Hh, delete_insert_eq, delete_empty.
Qed.

(** A state of the world from which drains go on. *)
Definition drainable (w : W) : Prop :=
  keyed (view w) /\ payable bookable (view w) /\ served (view w) /\ locks w = ∅.

Lemma drain_progress events n (w : W) :
  answering -> drainable w -> NoDup (ge_ID <$> events) -> Forall (waits (view w)) events ->
  let w' := (run (drain wk events n) w).2 in
  drainable w' /\ forall e, waits (view w') e <-> waits (view w) e /\ ~ (ge_ID e ∈ (ge_ID <$> events)).
Proof.
  intros Hans. revert n w.
  induction events as [|ev events IH]; intros n w (Hk & Hp & Hsv & Hh) Hnd Hw; cbv zeta.
  { split; [done|]. intros e. simpl. set_solver. }
  cbn [drain]. run_simpl. apply list.NoDup_cons in Hnd as [Hni Hnd]. apply list.Forall_cons in Hw as [Hev Hrest].
  destruct (processOne_progress ev w Hans Hk Hp Hh Hev (Hsv ev Hev)) as [[[Hk1 Hone] Hp1] Hh1].
  set (w1 := (run (processOne wk ev) w).2) in *.
  match goal with |- context [drain wk events ?k] => destruct (IH k w1) as (Hd & Hall) end; try done.
  { split_and!; try done. intros e He. apply Hsv. by apply Hone in He as [He _]. }
  { rewrite list.Forall_forall in Hrest |- *. intros e He. apply Hone. split; [by apply Hrest|].
    intros E. apply Hni. rewrite <- E. apply list_elem_of_fmap. by exists e. }
  split; [done|]. intros e. rewrite Hall, Hone, fmap_cons, elem_of_cons. tauto.
Qed.

(** The rows claimed are gone, those left behind are all there is. *)
Lemma drained_rows evs rest (w : W) :
  answering -> drainable w -> evs ++ rest ≡ₚ waiting_rows (view w) ->
  let w' := match evs with [] => w | _ :: _ => (run (drain wk evs 0) w).2 end in
  drainable w' /\ length (waiting_rows (view w')) <= length rest.
Proof.
  intros Hans Hd Hperm. pose proof Hd as (Hk & _).
  assert (Hnd : NoDup (evs ++ rest)) by (rewrite Hperm; by apply waiting_NoDup).
  assert (Hw : forall e, e ∈ evs ++ rest <-> waits (view w) e)
    by (intros e; rewrite Hperm; symmetry; by apply waits_waiting).
  assert (Hids : NoDup (ge_ID <$> evs)).
  { apply list.NoDup_app in Hnd as [Hnd _]. apply NoDup_fmap_2_strong; [|done].
    intros x y Hx Hy E. assert (Hx' : waits (view w) x) by (apply Hw; set_solver).
    assert (Hy' : waits (view w) y) by (apply Hw; set_solver).
    destruct Hx' as [Hx' _], Hy' as [Hy' _]. rewrite E in Hx'. congruence. }
  assert (Hall : Forall (waits (view w)) evs) by (apply list.Forall_forall; intros e He; apply Hw; set_solver).
  destruct (drain_progress evs 0 w Hans Hd Hids Hall) as (Hd' & Hrows).
  cbv zeta. destruct evs as [|ev evs]; [split; [done|by rewrite <- Hperm]|].
  set (w' := (run (drain wk (ev :: evs) 0) w).2) in *. split; [done|].
  apply submseteq_length, NoDup_submseteq; [apply waiting_NoDup, Hd'|].
  intros e He. apply waits_waiting in He; [|apply Hd']. apply Hrows in He as [He Hni].
  apply Hw, elem_of_app in He as [He|He]; [|done]. exfalso. apply Hni, list_elem_of_fmap. by exists e.
Qed.

Lemma DrainOutbox_progress (w : W) :
  answering -> drainable w -> (Z.of_nat (length (waiting_rows (view w))) < 2 ^ 31)%Z ->
  let w' := (run (DrainOutbox wk) w).2 in
  drainable w' /\ length (waiting_rows (view w')) <= length (waiting_rows (view w)) - 50.
Proof.
  intros Hans (Hk & Hp & Hsv & Hh) Hn. cbv zeta. unfold DrainOutbox. rewrite Hstore. run_simpl.
  destruct (os_claim (s:=s) (view:=view) 50 w ltac:(lia)) as [Hm Hc].
  assert (Hh1 : locks (run (ClaimPending s 50) w).2 = locks w) by apply (Preserves_run locks), of_claim.
  destruct (run (ClaimPending s 50) w) as [[evs|err] w1]; cbn [fst snd] in *; [|done].
  destruct (Hc Hn) as (_ & Hlen & rest & Hperm & _). rewrite <- Hm in *.
  destruct (drained_rows evs rest w1) as [Hd Hle]; try done.
  { split_and!; try done. by rewrite Hh1. }
  apply Permutation_length in Hperm. rewrite length_app in Hperm. change (Z.to_nat 50) with 50 in Hlen.
  destruct evs as [|ev evs]; run_simpl; (split; [done|lia]).
Qed.

Definition drains (n : nat) (w : W) : W := Nat.iter n (fun w => (run (DrainOutbox wk) w).2) w.

Lemma drains_empty n (w : W) :
  answering -> drainable w -> (Z.of_nat (length (waiting_rows (view w))) < 2 ^ 31)%Z ->
  length (waiting_rows (view w)) <= 50 * n -> waiting_rows (view (drains n w)) = [].
Proof.
  intros Hans. unfold drains. revert w. induction n as [|n IH]; intros w Hd Hb Hn.
  { apply nil_length_inv. simpl. lia. }
  rewrite Nat.iter_succ_r. destruct (DrainOutbox_progress w Hans Hd Hb) as (Hd' & Hle).
  apply IH; try done; lia.
Qed.
End progress.

(** ** Drains that make none *)
Section starvation.
Context {W : Type} `{!Runtime W} (s : OutboxStore W) (view : W -> Outbox) (bookable : Money -> Prop).
Context `{!OutboxStoreSpec s view bookable False} (wk : Worker W) `{!AdaptersFrame (adapters (wk_router wk)) view}.
Context (l : Locker W) `{!LockerFrame l view}.
Hypothesis Hstore : wk_store wk = s.
Hypothesis Hlocker : wk_locker wk = Some l.

(** A pending charge whose gateway has no adapter or never gives a final answer. *)
Definition stuck (o : Outbox) (ev : GatewayEvent) : Prop :=
  waits o ev /\ match adapters (wk_router wk) !! ge_Gateway ev with
  | None => True
  | Some a => (exists i, bk_intents (ob_books o) !! ge_Ref ev = Some i /\ in_Status i = "pending")
      /\ forall w, match (run (Verify a (ge_Ref ev)) w).1 with Ok v => ~ is_final v | Err _ => True end
  end.

Lemma process_locked_stuck ev (w : W) : stuck (view w) ev -> view (run (process_locked wk ev) w).2 = view w.
Proof.
  intros [_ Hs]. unfold process_locked, Adapter. destruct (adapters (wk_router wk) !! ge_Gateway ev) as [a|] eqn:Ha; [|done].
  destruct Hs as [(i0 & Hi0 & Hst) Hans]. rewrite Hstore. run_simpl.
  destruct (os_intent (s:=s) (view:=view) (ge_Ref ev) w) as [Hv Hi]. rewrite Hi0 in Hi.
  destruct (run (GetIntent s (ge_Ref ev)) w) as [[i|err] w1]; cbn [fst snd] in *; [|by destruct Hi].
  destruct Hi as [[= ->] _]. simpl in Hst. rewrite Hst. change (String.eqb "pending" "succeeded" || String.eqb "pending" "failed") with false; cbv match. run_simpl. rewrite <- Hv. specialize (Hans w1).
  assert (Hm : view (run (Verify a (ge_Ref ev)) w1).2 = view w1)
    by (apply (Preserves_run view); by eapply frame_verify).
  destruct (run (Verify a (ge_Ref ev)) w1) as [[v|e] w2]; cbn [fst snd] in *; rewrite <- Hm;
    [|cbn [shouldTryInitiate]; run_simpl; by rewrite os_retry].
  unfold settle. rewrite Hstore.
  destruct (String.eqb_spec (vr_Status v) "succeeded"); [by exfalso; apply Hans; left|].
  destruct (String.eqb_spec (vr_Status v) "failed"); [by exfalso; apply Hans; right|]. run_simpl. by rewrite os_retry.
Qed.

Lemma processOne_stuck ev (w : W) : stuck (view w) ev -> view (run (processOne wk ev) w).2 = view w.
Proof.
  intros Hs. unfold processOne. rewrite Hlocker. run_simpl.
  set (key := "outbox:" ^^ uuid_String (ge_ID ev)).
  assert (Hm : view (run (TryAcquire l key (60 * Second)) w).2 = view w)
    by apply (Preserves_run view), lf_acquire.
  destruct (run (TryAcquire l key (60 * Second)) w) as [[[|]|e] w1]; cbn [fst snd] in *; run_simpl; [|done..].
  rewrite (Preserves_run view) by apply lf_release. rewrite process_locked_stuck; by rewrite Hm.
Qed.

Lemma drain_stuck events n (w : W) :
  Forall (stuck (view w)) events -> view (run (drain wk events n) w).2 = view w.
Proof.
  revert n w. induction events as [|ev events IH]; intros n w Hs; [done|].
  apply list.Forall_cons in Hs as [Hev Hs]. cbn [drain]. run_simpl. rewrite IH; by rewrite processOne_stuck.
Qed.

(** A page of stuck rows that is older than every other waiting row. *)
Definition blocked (o : Outbox) (page : list GatewayEvent) : Prop :=
  NoDup page /\ length page = 50 /\ Forall (stuck o) page
  /\ forall ev, waits o ev -> ev ∈ page \/ Forall (fun b => ge_CreatedAt b < ge_CreatedAt ev)%Z page.

Lemma blocked_claim page evs o : keyed o -> blocked o page -> claimed 50 o evs -> Forall (stuck o) evs.
Proof.
  intros Hk (Hnd & Hlen & Hst & Hold) (_ & Hn & rest & Hperm & Hle). change (Z.to_nat 50) with 50 in Hn.
  assert (Hsub : forall b, b ∈ page -> b ∈ evs \/ b ∈ rest).
  { intros b Hb. apply elem_of_app. rewrite Hperm. apply waits_waiting; [done|].
    eapply list.Forall_forall in Hst as [Hw _]; eauto. }
  assert (Hpg : length page <= length (waiting_rows o)).
  { apply submseteq_length, NoDup_submseteq; [done|]. intros b Hb. rewrite <- Hperm. apply elem_of_app. auto. }
  apply list.Forall_forall. intros ev Hev.
  assert (Hw : waits o ev) by (apply waits_waiting; [done|]; rewrite <- Hperm; set_solver).
  destruct (Hold ev Hw) as [Hin|Hlate]; [by eapply list.Forall_forall in Hst|].
  destruct (decide (Forall (fun b => b ∈ evs) page)) as [Hall|Hsome].
  - rewrite list.Forall_forall in Hall.
    assert (Hpe : page ≡ₚ evs) by (apply submseteq_length_Permutation; [by apply NoDup_submseteq|lia]).
    rewrite <- Hpe in Hev. by eapply list.Forall_forall in Hst.
  - apply not_Forall_Exists in Hsome; [|apply _]. apply list.Exists_exists in Hsome as (b & Hb & Hnb).
    destruct (Hsub b Hb) as [?|Hrest]; [done|]. pose proof (Hle ev b Hev Hrest) as Hle'. unfold earlier in Hle'.
    eapply list.Forall_forall in Hlate; [|exact Hb]. simpl in Hlate. lia.
Qed.

Lemma DrainOutbox_blocked page (w : W) :
  keyed (view w) -> blocked (view w) page -> (Z.of_nat (length (waiting_rows (view w))) < 2 ^ 31)%Z ->
  view (run (DrainOutbox wk) w).2 = view w.
Proof.
  intros Hk Hb Hn. unfold DrainOutbox. rewrite Hstore. run_simpl.
  destruct (os_claim (s:=s) (view:=view) 50 w ltac:(lia)) as [Hm Hc].
  destruct (run (ClaimPending s 50) w) as [[evs|err] w1]; cbn [fst snd] in *; [|done].
  pose proof (blocked_claim page evs (view w) Hk Hb (Hc Hn)) as Hst.
  destruct evs as [|ev evs]; run_simpl; [done|]. rewrite drain_stuck; by rewrite Hm.
Qed.
End starvation.

(** ** Properties *)

(** C11: The outbox empties: over a store that does not fail and a locker that
    grants free locks and gives them back, when no lock is taken, every
    gateway answers with a final status and an amount the ledger takes, and
    the waiting rows are less than 2^31 (the limit of [ClaimPending]), [n]
    drains leave no waiting row of up to [50 * n] rows whose gateways have
    adapters. *)
Theorem outbox_empties {W} `{!Runtime W} (s : OutboxStore W) (view : W -> Outbox) bookable
    `{!OutboxStoreSpec s view bookable False} `{!RuntimeFrame view}
    (wk : Worker W) `{!AdaptersFrame (adapters (wk_router wk)) view} (l : Locker W) locks time
    `{!LockerSpec l locks time} `{!LockerFrame l view} `{!AdaptersFrame (adapters (wk_router wk)) locks}
    `{!OutboxStoreFrame s locks} `{!RuntimeFrame locks} n w :
  wk_store wk = s -> wk_locker wk = Some l -> granting l locks time -> releasing l -> answering bookable wk ->
  drainable view bookable wk locks w ->
  (Z.of_nat (length (waiting_rows (view w))) < 2 ^ 31)%Z ->
  length (waiting_rows (view w)) <= 50 * n ->
  waiting_rows (view (drains wk n w)) = [].
Proof. intros Hst Hl Hg Hr Ha Hd. by apply (drains_empty s view bookable wk Hst l locks time Hl Hg Hr). Qed.

(** C12: The outbox starves: over a store that does not fail, fifty waiting
    rows that never get a final answer, older than every other row, are
    claimed by every drain, so however often it is drained nothing changes
    and no row behind them is ever settled. *)
Theorem outbox_starves {W} `{!Runtime W} (s : OutboxStore W) (view : W -> Outbox) bookable
    `{!OutboxStoreSpec s view bookable False}
    (wk : Worker W) `{!AdaptersFrame (adapters (wk_router wk)) view} (l : Locker W) `{!LockerFrame l view} page n w :
  wk_store wk = s -> wk_locker wk = Some l -> keyed (view w) -> blocked wk (view w) page ->
  (Z.of_nat (length (waiting_rows (view w))) < 2 ^ 31)%Z ->
  view (drains wk n w) = view w.
Proof.
  intros Hst Hl Hk Hb Hn. unfold drains. induction n as [|n IH]; [done|]. rewrite Nat.iter_succ.
  rewrite (DrainOutbox_blocked s view bookable wk l Hst Hl page); by rewrite IH.
Qed.

(** C36: The webhook and the worker do not agree on who books a charge: in
    books where every succeeded charge is booked once, which callbacks keep
    ([callbacks_book_once]), draining the row of a charge that a callback has
    settled asks no gateway and books the charge a second time. *)
Theorem drain_books_again {W} `{!Runtime W} (s : OutboxStore W) (view : W -> Outbox) bookable
    `{!OutboxStoreSpec s view bookable False} `{!RuntimeFrame view}
    (log : W -> list Exchange) `{!OutboxStoreFrame s log} `{!RuntimeFrame log} (wk : Worker W) (l : Locker W) locks time
    `{!Traced (adapters (wk_router wk)) log} `{!AdaptersFrame (adapters (wk_router wk)) view}
    `{!LockerSpec l locks time} `{!LockerFrame l view} `{!LockerFrame l log}
    `{!AdaptersFrame (adapters (wk_router wk)) locks} `{!OutboxStoreFrame s locks} `{!RuntimeFrame locks}
    ev i (w : W) :
  wk_store wk = s -> wk_locker wk = Some l -> granting l locks time -> ~ held_at (locks w) (time w) (row_lock ev) ->
  waits (view w) ev -> is_Some (adapters (wk_router wk) !! ge_Gateway ev) -> payable bookable (view w) ->
  bk_intents (ob_books (view w)) !! ge_Ref ev = Some i -> in_Status i = "succeeded" -> settled_once (ob_books (view w)) ->
  let w' := (run (processOne wk ev) w).2 in
  log w' = log w
  /\ exists first again, collections (ob_books (view w)) (ge_Ref ev) = [first]
     /\ collections (ob_books (view w')) (ge_Ref ev) = [first; again].
Proof.
  intros Hst Hlk Hgr Hfree [Hev _] [a Ha] Hpay Hi Hs Honce. cbv zeta.
  destruct (processOne_acquired s view bookable False log wk Hst l locks time Hlk ev w Hev (Hgr _ _ _ (row_lock_name ev) Hfree)) as (_ & _ & xs & Hl & Hd).
  rewrite Hl. unfold adapted in Hd. rewrite Ha in Hd.
  specialize (Honce _ _ Hi). rewrite Hs in Honce. simpl in Honce.
  inversion Hd as [|??? Hno|??? Hi' Hf|??? amt at_ ? Hi' _ Hrep Hend| | |]; simplify_eq; try congruence; [naive_solver|].
  rewrite app_nil_r. split; [done|]. destruct Hend as [(e & (Hk & _) & _ & ->)|[[[]|Hn] _]]; [|by destruct Hn; eapply Hpay].
  destruct (collections (ob_books (view w)) (ge_Ref ev)) as [|first []] eqn:E; try done.
  exists first, e. split; [done|]. rewrite collections_outcome, E, String.eqb_refl. simpl.
  by rewrite (proj2 (String.eqb_eq _ _) Hk : is_collection e = true).
Qed.
