(* ===== verification/Payouts.v ===== *)
(** * internal/payouts: batches of disbursements

    [Create], [Get] and [Dispatch].  The ledger writer, the outbox and the
    locker are optional, as the functional options of [NewService] make them. *)
From S2P Require Import Prelude GoStrings Money Reference Ledger Gateway Router Worker.

Definition ErrInvalidRequest : error := Sentinel "payouts: invalid request".
Definition ErrInsufficientFunds : error := Sentinel "payouts: insufficient funds".

Record Entry := { pe_Recipient : string; pe_Amount : Money; pe_Reference : string; pe_VendorID : string }.

Record PayoutBatch := {
  pb_ID : UUID; pb_Product : string; pb_Entries : list Entry; pb_Status : string;
  pb_Total : Money; pb_CreatedAt : Time; pb_BatchDate : Time; pb_IdempotencyKey : string }.

Record CreateRequest := {
  pc_Product : string; pc_Entries : list Entry; pc_IdempotencyKey : string;
  pc_BatchDate : option Time }.

Definition day : Z := (24 * Hour)%Z.

(** [t.Truncate(24 * time.Hour)] counts from the year 1. *)
Definition Truncate_day (t : Time) : Time := (t - (t - Time_zero) mod day)%Z.

(** The proleptic Gregorian date of an instant (UTC): year, month, day. *)
Definition civil (t : Time) : Z * Z * Z :=
  (let z := t / day + 719468 in
   let era := z / 146097 in
   let doe := z mod 146097 in
   let yoe := (doe - doe / 1460 + doe / 36524 - doe / 146096) / 365 in
   let doy := doe - (365 * yoe + yoe / 4 - yoe / 100) in
   let mp := (5 * doy + 2) / 153 in
   let d := doy - (153 * mp + 2) / 5 + 1 in
   let m := if mp <? 10 then mp + 3 else mp - 9 in
   (yoe + era * 400 + (if m <=? 2 then 1 else 0), m, d))%Z.

Definition pad_left (n : nat) (s : string) : string :=
  String.concat "" (replicate (n - String.length s) "0") ^^ s.

(** [t.Format("2006-01-02")] *)
Definition Format_date (t : Time) : string :=
  let '(y, m, d) := civil t in
  (if (y <? 0)%Z then "-" ^^ pad_left 4 (FormatInt (- y)) else pad_left 4 (FormatInt y))
  ^^ "-" ^^ pad_left 2 (FormatInt m) ^^ "-" ^^ pad_left 2 (FormatInt d).

(** The first loop of [Create]. *)
Fixpoint sum_entries (total : Money) (entries : list Entry) : result Money :=
  match entries with
  | [] => Ok total
  | e :: rest =>
      if IsNegative (pe_Amount e) || IsZero (pe_Amount e)
      then Err (Wrap (Error ErrInvalidRequest ^^ ": amount must be positive") [ErrInvalidRequest])
      else match Add total (pe_Amount e) with
           | Err err => Err err
           | Ok total => sum_entries total rest
           end
  end.

Section payouts.
Context {W : Type} `{!Runtime W}.

Record ReservationStore := {
  CreateBatchWithReservations : PayoutBatch -> Prog W (result unit);
  FindBatch : UUID -> Prog W (result PayoutBatch) }.

(** [InsertOutbox(idempotencyKey, gateway, payload)] *)
Definition OutboxWriter : Type := string -> string -> string -> Prog W (result unit).

Record LedgerWriter := {
  lw_AppendEntry : LedgerEntry -> Prog W (result unit);
  lw_SettleReservation : UUID -> Time -> Prog W (result unit);
  lw_ReleaseReservation : UUID -> Prog W (result unit) }.

Record Service := {
  svc_store : ReservationStore;
  svc_router : ChargerRouter W;
  svc_ledger : option LedgerWriter;
  svc_outbox : option OutboxWriter;
  svc_locker : option (Locker W) }.

(** The three options, and [NewService]. *)
Definition WithLedger (l : LedgerWriter) (s : Service) : Service :=
  {| svc_store := svc_store s; svc_router := svc_router s; svc_ledger := Some l; svc_outbox := svc_outbox s;
     svc_locker := svc_locker s |}.
Definition WithOutbox (o : OutboxWriter) (s : Service) : Service :=
  {| svc_store := svc_store s; svc_router := svc_router s; svc_ledger := svc_ledger s; svc_outbox := Some o;
     svc_locker := svc_locker s |}.
Definition WithLocker (l : Locker W) (s : Service) : Service :=
  {| svc_store := svc_store s; svc_router := svc_router s; svc_ledger := svc_ledger s; svc_outbox := svc_outbox s;
     svc_locker := Some l |}.
Definition NewService (store : ReservationStore) (router : ChargerRouter W) (opts : list (Service -> Service)) : Service :=
  fold_left (fun s opt => opt s) opts
    {| svc_store := store; svc_router := router; svc_ledger := None; svc_outbox := None; svc_locker := None |}.

(** The reference of an entry: the caller's, or a fresh one. *)
Definition assign_reference (product : string) (e : Entry) : Prog W Entry :=
  if String.eqb (pe_Reference e) "" then
    ulid ← NewULID;
    mret {| pe_Recipient := pe_Recipient e; pe_Amount := pe_Amount e;
            pe_Reference := BuildReference product GatewayMoolre ulid;
            pe_VendorID := pe_VendorID e |}
  else mret e.

Fixpoint assign_references (product : string) (entries : list Entry) : Prog W (list Entry) :=
  match entries with
  | [] => mret []
  | e :: rest =>
      e' ← assign_reference product e;
      rest' ← assign_references product rest;
      mret (e' :: rest')
  end.

(** The key of an outbox row, and the guard [key == ":"] before it. *)
Definition outbox_key (idempotencyKey : string) (batchDate : Time) (e : Entry) : string :=
  let key := pe_VendorID e ^^ ":" ^^ Format_date batchDate in
  let key := if String.eqb key ":" then pe_Recipient e ^^ ":" ^^ Format_date batchDate else key in
  if String.eqb idempotencyKey "" then key else idempotencyKey ^^ ":" ^^ key.

Definition write_outbox (o : OutboxWriter) (idempotencyKey : string) (batchDate : Time)
    (entries : list Entry) : Prog W unit :=
  forM_ entries (fun e =>
    _ ← o (outbox_key idempotencyKey batchDate e) GatewayMoolre (pe_Reference e);
    mret tt).

Definition Create (s : Service) (req : CreateRequest) : Prog W (result PayoutBatch) :=
  if String.eqb (pc_Product req) "" || (length (pc_Entries req) =? 0) then
    mret (Err (Wrap (Error ErrInvalidRequest ^^ ": product and entries required") [ErrInvalidRequest]))
  else match sum_entries Money_zero (pc_Entries req) with
  | Err err => mret (Err err)
  | Ok total =>
      now ← time_Now;
      let batchDate := match pc_BatchDate req with
                       | Some d => Truncate_day d
                       | None => Truncate_day now
                       end in
      id ← uuid_New;
      createdAt ← time_Now;
      entries ← assign_references (pc_Product req) (pc_Entries req);
      let batch := {| pb_ID := id; pb_Product := pc_Product req; pb_Entries := entries;
                      pb_Status := "pending"; pb_Total := total; pb_CreatedAt := createdAt;
                      pb_BatchDate := batchDate; pb_IdempotencyKey := pc_IdempotencyKey req |} in
      created ← CreateBatchWithReservations (svc_store s) batch;
      match created with
      | Err err => mret (Err (Errorf "payouts: create batch: " err))
      | Ok _ =>
          _ ← match svc_outbox s with
              | Some o => write_outbox o (pc_IdempotencyKey req) batchDate entries
              | None => mret tt
              end;
          mret (Ok batch)
      end
  end.

Definition Get (s : Service) (id : UUID) : Prog W (result PayoutBatch) :=
  FindBatch (svc_store s) id.

(** The gateway loop of [Dispatch] for one entry; the answer is its variable
    [err] after the loop. *)
Fixpoint pay (s : Service) (batch : PayoutBatch) (e : Entry) (gs : list Gateway)
    (err : option error) : Prog W (option error) :=
  match gs with
  | [] => mret err
  | g :: rest =>
      match Adapter (svc_router s) g with
      | None => pay s batch e rest err
      | Some adapter =>
          _ ← time_Now;
          res ← Payout adapter (pe_Recipient e) (pe_Amount e) (pe_Reference e);
          _ ← time_Now;
          match res with
          | Ok _ =>
              _ ← match svc_ledger s with
                  | Some l =>
                      now ← time_Now;
                      id ← uuid_New;
                      _ ← lw_AppendEntry l
                        {| le_ID := id; le_Kind := KindVendorPayout; le_Ref := pe_Reference e;
                           le_Amount := pe_Amount e; le_ValueTime := pb_BatchDate batch;
                           le_BookingTime := now; le_SettlementTime := Some now;
                           le_Product := pb_Product batch; le_CreatedAt := now |};
                      mret tt
                  | None => mret tt
                  end;
              mret None
          | Err err' =>
              if errors_Is err' ErrNotConfigured then mret None
              else pay s batch e rest (Some err')
          end
      end
  end.

(** One iteration of [Dispatch], the lock (if any) being held. *)
Definition dispatch_entry (s : Service) (batch : PayoutBatch) (e : Entry) : Prog W unit :=
  gs ← Route (svc_router s);
  err ← pay s batch e gs None;
  match err, svc_ledger s with
  | Some _, Some l => _ ← lw_ReleaseReservation l (pb_ID batch); mret tt
  | _, _ => mret tt
  end.

(** The loop of [Dispatch]; the answer lists the lock keys whose release is
    deferred to the return of the function, latest first. *)
Fixpoint dispatch_entries (s : Service) (batch : PayoutBatch) (entries : list Entry)
    (deferred : list string) : Prog W (list string) :=
  match entries with
  | [] => mret deferred
  | e :: rest =>
      let lockKey := "payout:" ^^ pe_Reference e in
      match svc_locker s with
      | None =>
          _ ← dispatch_entry s batch e;
          dispatch_entries s batch rest deferred
      | Some l =>
          got ← TryAcquire l lockKey (30 * Second)%Z;
          match got with
          | Ok true =>
              _ ← dispatch_entry s batch e;
              dispatch_entries s batch rest (lockKey :: deferred)
          | _ => dispatch_entries s batch rest deferred
          end
      end
  end.

Definition Dispatch (s : Service) (batch : PayoutBatch) : Prog W (result unit) :=
  deferred ← dispatch_entries s batch (pb_Entries batch) [];
  _ ← match svc_locker s with
      | Some l => forM_ deferred (fun k => _ ← Release l k; mret tt)
      | None => mret tt
      end;
  mret (Ok tt).
End payouts.
Arguments ReservationStore W : clear implicits.
Arguments OutboxWriter W : clear implicits.
Arguments LedgerWriter W : clear implicits.
Arguments Service W : clear implicits.
