(* ===== verification/Api.v ===== *)
(** * internal/api: requests, responses and operator authentication

    What the handlers read of an [http.Request] and write to a
    [ResponseWriter]; [decodeJSON], [writeJSON], [writeError]
    (handlers.go); and auth.go: sessions, login, logout, [bearerAuth].
    Parsing of the request line, the cookies and the URL is net/http's and
    chi's; so are the texts of JSON errors ([json_error]). *)
From S2P Require Import Prelude GoStrings Json JsonCodec Crypto Reference Config Http Payouts.
From Stdlib Require Import Ascii ZifyNat.

(** [rq_Header] is [Header.Get], [rq_Query] [URL.Query().Get], [rq_Param]
    [chi.URLParam]: the first value, [""] when absent. *)
Record Request := {
  rq_Method : string; rq_Path : string; rq_RemoteAddr : string; rq_Header : string -> string;
  rq_Cookies : list (string * string); rq_Query : string -> string; rq_Param : string -> string;
  rq_Body : string }.

Record Cookie := {
  ck_Name : string; ck_Value : string; ck_Path : string; ck_Expires : Time; ck_MaxAge : Z;
  ck_HttpOnly : bool; ck_SameSiteStrict : bool; ck_Secure : bool }.

Record Response := {
  rs_Status : Z; rs_Header : list (string * string); rs_Cookie : option Cookie; rs_Body : string }.

Definition Handler (W : Type) : Type := Request -> Prog W Response.

Definition with_header (name value : string) (r : Response) : Response :=
  {| rs_Status := rs_Status r; rs_Header := (name, value) :: rs_Header r; rs_Cookie := rs_Cookie r;
     rs_Body := rs_Body r |}.
Definition with_cookie (c : Cookie) (r : Response) : Response :=
  {| rs_Status := rs_Status r; rs_Header := rs_Header r; rs_Cookie := Some c; rs_Body := rs_Body r |}.

(** [json.NewEncoder(w).Encode(v)] *)
Definition Encode (v : json) : string := Marshal v ^^ chr "010".

Definition writeJSON (status : Z) (v : json) : Response :=
  {| rs_Status := status; rs_Header := [("Content-Type", "application/json")]; rs_Cookie := None;
     rs_Body := Encode v |}.
Definition writeError (status : Z) (code msg : string) : Response :=
  writeJSON status (JObj [("error", JObj [("code", JStr code); ("message", JStr msg)])]).

Definition maxBodyBytes : N := 1048576.

(** [decodeJSON]: the first value of the body, unknown fields refused; what
    follows the value is not read. *)
Definition decodeJSON {A} (json_error : string -> string) (d : decoder A) (zero : A) (body : string)
    : Response + A :=
  let refuse := inl (writeError 400 "invalid_request" ("invalid JSON: " ^^ json_error body)) in
  let text := read_limited maxBodyBytes body in
  match parse_value (2 * String.length text + 2) 0 text with
  | None => refuse
  | Some (v, _) => match d v zero with Some x => inr x | None => refuse end
  end.

(** [t.MarshalJSON()] for a UTC time: RFC 3339 with the fraction trimmed. *)
Definition fraction (nanos : Z) : string :=
  if (nanos =? 0)%Z then "" else "." ^^ TrimRight (pad_left 9 (FormatInt nanos)) "0".
Definition RFC3339Nano (t : Time) : string :=
  let s := ((t / Second) mod 86400)%Z in
  let two n := pad_left 2 (FormatInt n) in
  Format_date t ^^ "T" ^^ two (s / 3600)%Z ^^ ":" ^^ two (s / 60 mod 60)%Z ^^ ":" ^^ two (s mod 60)%Z
  ^^ fraction (t mod Second) ^^ "Z".

(** ** auth.go *)
Definition operatorCookie : string := "orcta_pay_operator".
Definition sessionLifetime : Z := (12 * Hour)%Z.

(** [subtle.ConstantTimeCompare] and [hmac.Equal] are equality. *)
Definition validSecret (got expected : string) : bool :=
  negb (String.eqb got "") && negb (String.eqb expected "") && String.eqb got expected.

(** [base64.RawURLEncoding.EncodeToString]: no padding, [-] and [_]. *)
Fixpoint raw_url (s : string) : string :=
  match s with
  | "" => ""
  | String a r =>
      if Ascii.eqb a "=" then raw_url r
      else String (if Ascii.eqb a "+" then "-"%char else if Ascii.eqb a "/" then "_"%char else a) (raw_url r)
  end.
Definition b64url_encode (s : string) : string := raw_url (b64_encode s).

(** [expires.Unix()] is an int64. *)
Definition signedSession (secret : string) (expires : Time) : string :=
  let payload := FormatInt (wrap64 (Unix expires)) in
  payload ^^ "." ^^ b64url_encode (hmac sha256 secret payload).

Definition cookie_value (r : Request) (name : string) : option string :=
  snd <$> (snd <$> list_find (fun c => c.1 = name) (rq_Cookies r)).

(** The two parts of a session and the number the first one spells. *)
Definition session_expires (value : string) : option Z :=
  match Split value "." with [first; _] => ParseInt first | _ => None end.

Definition session_ok (secret value : string) (expires : Z) (now : Time) : bool :=
  negb (wrap64 (Unix now) >=? expires)%Z && String.eqb value (signedSession secret (time_Unix expires)).

Section auth.
Context {W : Type} `{!Runtime W} (json_error : string -> string).
Implicit Types (cfg : Config) (r : Request).

Definition hasValidSession r (secret : string) : Prog W bool :=
  match cookie_value r operatorCookie with
  | None => mret false
  | Some value =>
      if String.eqb secret "" then mret false
      else match session_expires value with
           | None => mret false
           | Some expires => now ← time_Now; mret (session_ok secret value expires now)
           end
  end.

Definition sessionCookie cfg (value : string) (expires : Time) : Cookie := {|
  ck_Name := operatorCookie; ck_Value := value; ck_Path := "/"; ck_Expires := expires;
  ck_MaxAge := 43200; ck_HttpOnly := true; ck_SameSiteStrict := true;
  ck_Secure := String.eqb (cfg_Environment cfg) EnvProduction |}.

Definition dec_login : decoder string := dec_struct true [
  ("api_key", dec_field id (fun x _ => x) dec_string)].

Definition handleLogin cfg : Handler W := fun r =>
  match decodeJSON json_error dec_login "" (rq_Body r) with
  | inl refused => mret refused
  | inr body =>
      if negb (validSecret body (APIKey (Auth cfg)))
      then mret (writeError 401 "unauthorized" "invalid access key")
      else
        now ← time_Now;
        let expires := (now + sessionLifetime)%Z in
        mret (with_cookie (sessionCookie cfg (signedSession (APIKey (Auth cfg)) expires) expires)
          (writeJSON 200 (JObj [("authenticated", JBool true); ("expires_at", JStr (RFC3339Nano expires))])))
  end.

Definition handleSession cfg : Handler W := fun r =>
  ok ← hasValidSession r (APIKey (Auth cfg));
  mret (if (negb ok : bool) then writeError 401 "unauthorized" "authentication required"
        else writeJSON 200 (JObj [("authenticated", JBool true)])).

Definition handleLogout cfg : Handler W := fun _ =>
  let c := sessionCookie cfg "" Second in
  mret {| rs_Status := 204; rs_Header := [];
          rs_Cookie := Some {| ck_Name := ck_Name c; ck_Value := ck_Value c; ck_Path := ck_Path c;
            ck_Expires := ck_Expires c; ck_MaxAge := -1; ck_HttpOnly := ck_HttpOnly c;
            ck_SameSiteStrict := ck_SameSiteStrict c; ck_Secure := ck_Secure c |};
          rs_Body := "" |}.

Definition bearerAuth cfg (next : Handler W) : Handler W := fun r =>
  let expected := APIKey (Auth cfg) in
  if String.eqb expected "" then next r
  else
    ok ← hasValidSession r expected;
    if (ok : bool) then next r
    else if negb (validSecret (TrimPrefix (rq_Header r "Authorization") "Bearer ") expected)
    then mret (writeError 401 "unauthorized" "invalid or missing credentials")
    else next r.
End auth.

(** ** Sessions *)
#[local] Ltac Zify.zify_post_hook ::= Z.to_euclidean_division_equations.
Lemma b64_char_nodot n : n < 64 -> Ascii.eqb (b64_char n) "." = false.
Proof.
  intros H. assert (Hall : forallb (fun n => negb (Ascii.eqb (b64_char n) ".")) (seq 0 64) = true)
    by (vm_compute; reflexivity).
  rewrite forallb_forall in Hall. apply negb_true_iff, Hall, in_seq. lia.
Qed.

Lemma b64_encode_nodot s : has_char "." (b64_encode s) = false.
Proof.
  induction s as [|a|a b|a b c s IH] using triple_ind; [done|..]; cbn [b64_encode chr has_char];
    pose proof (byte_bound a); try pose proof (byte_bound b); try pose proof (byte_bound c);
    rewrite ?b64_char_nodot by lia; done.
Qed.

Lemma raw_url_nodot s : has_char "." s = false -> has_char "." (raw_url s) = false.
Proof.
  induction s as [|a s IH]; simpl; [done|]. intros [Ha Hs]%orb_false_iff.
  destruct (Ascii.eqb a "="); [auto|]. cbn [has_char]. rewrite (IH Hs), orb_false_r.
  destruct (Ascii.eqb a "+"); [done|]. by destruct (Ascii.eqb a "/").
Qed.

Lemma FormatInt_nodot z : has_char "." (FormatInt z) = false.
Proof.
  assert (Hd : forall s, all_digits s = true -> has_char "." s = false).
  { induction s as [|a s IH]; simpl; [done|]. intros [Ha Hs]%andb_true_iff. rewrite IH by done.
    rewrite orb_false_r. by destruct a as [[] [] [] [] [] [] [] []]. }
  destruct (Z.lt_ge_cases z 0) as [Hz|Hz]; [|by apply Hd, FormatInt_nonneg_digits].
  destruct z as [|p|p]; [lia..|]. rewrite FormatInt_neg. simpl.
  apply Hd, (FormatInt_nonneg_digits (Z.pos p)). lia.
Qed.

(** The internal second of [time.Unix] wraps there and back. *)
Lemma Unix_time_Unix e : int64 e -> wrap64 (Unix (time_Unix e)) = e.
Proof.
  intros He. unfold Unix, time_Unix. rewrite Z.div_mul by (unfold Second; lia).
  destruct (wrap64_eqm (e + 62135596800)) as [k ->].
  transitivity (wrap64 e); [|by apply wrap64_id]. apply wrap64_congr. exists k. lia.
Qed.

Lemma signedSession_parts secret expires :
  Split (signedSession secret expires) "."
  = [FormatInt (wrap64 (Unix expires));
     b64url_encode (hmac sha256 secret (FormatInt (wrap64 (Unix expires))))].
Proof.
  unfold signedSession. cbn [String.append]. 
  rewrite (Split_sep (FormatInt (wrap64 (Unix expires)))), !Split_no_char; [done|..];
    [apply raw_url_nodot, b64_encode_nodot | apply FormatInt_nodot].
Qed.

Lemma session_iff secret value now :
  (exists e, session_expires value = Some e /\ session_ok secret value e now = true) <->
  exists e, int64 e /\ (wrap64 (Unix now) < e)%Z /\ value = signedSession secret (time_Unix e).
Proof.
  split.
  - intros (e & Ee & [Hnow Hv]%andb_true_iff). apply String.eqb_eq in Hv. rewrite Z.geb_leb in Hnow.
    apply negb_true_iff, Z.leb_gt in Hnow. exists e. split; [|done]. unfold session_expires in Ee.
    destruct (Split value ".") as [|first [|rest [|]]]; try done.
    unfold ParseInt in Ee. destruct (parse_signed first) as [z|]; simpl in Ee; [|done].
    case_decide; [by simplify_eq | done].
  - intros (e & He & Hnow & ->). exists e. unfold session_expires, session_ok.
    rewrite signedSession_parts, Unix_time_Unix, ParseInt_FormatInt by done. split; [done|].
    rewrite String.eqb_refl, Z.geb_leb. by rewrite (proj2 (Z.leb_gt _ _) Hnow).
Qed.

Section auth_correct.
Context {W : Type} `{!Runtime W} (json_error : string -> string).
Implicit Types (cfg : Config) (r : Request).

(** A cookie that the server signed for a second still to come. *)
Definition signed_cookie (secret : string) r (now : Time) : Prop :=
  exists v e, cookie_value r operatorCookie = Some v /\ int64 e /\ (wrap64 (Unix now) < e)%Z /\
    v = signedSession secret (time_Unix e).

(** What lets a request past [bearerAuth] at a time. *)
Definition admitted cfg r (now : Time) : Prop :=
  let secret := APIKey (Auth cfg) in
  secret = "" \/ signed_cookie secret r now \/ TrimPrefix (rq_Header r "Authorization") "Bearer " = secret.

Lemma run_hasValidSession r secret (w : W) :
  secret <> "" ->
  exists b w', run (hasValidSession r secret) w = (b, w') /\ (w' = w \/ w' = (rt_now w).2) /\
    (b = true <-> signed_cookie secret r (rt_now w).1).
Proof.
  intros Hne. unfold hasValidSession, signed_cookie.
  destruct (cookie_value r operatorCookie) as [v|].
  2:{ exists false, w. split_and!; [done | by left | split; [done|]]. by intros (v & e & [=] & _). }
  apply String.eqb_neq in Hne. rewrite Hne.
  destruct (session_iff secret v (rt_now w).1) as [Hto Hfrom].
  destruct (session_expires v) as [e|] eqn:Ee.
  - exists (session_ok secret v e (rt_now w).1), (rt_now w).2.
    unfold time_Now. run_simpl. split_and!; [done | by right |]. split.
    + intros Hok. destruct Hto as (e' & ? & ? & ?); [by exists e|]. by exists v, e'.
    + intros (v' & e' & [= <-] & ? & ? & ?). destruct Hfrom as (e1 & [= <-] & Hok); [by exists e'|]. done.
  - exists false, w. split_and!; [done | by left | split; [done|]].
    intros (v' & e' & [= <-] & ? & ? & ?). destruct Hfrom as (e1 & [=] & _). by exists e'.
Qed.

Lemma validSecret_iff got expected : expected <> "" -> validSecret got expected = true <-> got = expected.
Proof.
  intros Hne. unfold validSecret. rewrite !andb_true_iff, !negb_true_iff, !String.eqb_neq, String.eqb_eq.
  split; [tauto|]. by intros ->.
Qed.

(** C28: [bearerAuth] hands a request on, untouched, exactly when no key is
    configured, or the request carries an unexpired session that the key
    signed, or it presents the key itself; every other request gets a 401 and
    reaches nothing. *)
Theorem bearerAuth_correct cfg (next : Handler W) r (w : W) :
  exists w', (w' = w \/ w' = (rt_now w).2) /\
    ((admitted cfg r (rt_now w).1 /\ run (bearerAuth cfg next r) w = run (next r) w') \/
     (~ admitted cfg r (rt_now w).1 /\
      run (bearerAuth cfg next r) w =
      (writeError 401 "unauthorized" "invalid or missing credentials", w'))).
Proof.
  unfold bearerAuth, admitted. destruct (String.eqb_spec (APIKey (Auth cfg)) "") as [He|Hne].
  - exists w. split; [by left|]. left. split; [by left | done].
  - destruct (run_hasValidSession r _ w Hne) as (b & w' & Er & Hw & Hb). exists w'. split; [done|].
    rewrite run_bind, Er. cbn [fst snd]. destruct b; [left; split; [tauto | done]|].
    assert (Hns : ~ signed_cookie (APIKey (Auth cfg)) r (rt_now w).1) by (rewrite <- Hb; done).
    pose proof (validSecret_iff (TrimPrefix (rq_Header r "Authorization") "Bearer ") _ Hne) as Hv.
    destruct (validSecret _ _); [left | right]; (split; [|done]).
    + right. right. by apply Hv.
    + intros [|[|Ht]]; [done..|]. by apply Hv in Ht.
Qed.

(** C29: Logging in with the configured key answers 200 and sets a cookie; a
    request that presents that cookie has a session exactly until twelve hours
    after the login, in whole seconds.  Any other key is refused and sets no
    cookie. *)
Theorem login_session_correct cfg body key (w : W) :
  APIKey (Auth cfg) <> "" -> decodeJSON json_error dec_login "" body = inr key ->
  int64 (Unix ((rt_now w).1 + sessionLifetime)) ->
  forall r, rq_Body r = body ->
  let out := run (handleLogin json_error cfg r) w in
  if decide (key = APIKey (Auth cfg)) then
    rs_Status out.1 = 200%Z /\
    exists c, rs_Cookie out.1 = Some c /\
      forall r' w', cookie_value r' operatorCookie = Some (ck_Value c) -> int64 (Unix (rt_now w').1) ->
        (run (hasValidSession r' (APIKey (Auth cfg))) w').1
        = bool_decide (Unix (rt_now w').1 < Unix ((rt_now w).1 + sessionLifetime))%Z
  else out = (writeError 401 "unauthorized" "invalid access key", w).
Proof.
  intros Hne Hd Hi r <- out. subst out. unfold handleLogin. rewrite Hd.
  pose proof (validSecret_iff key _ Hne) as Hv. case_decide as Hk.
  - rewrite (proj2 Hv Hk). cbn [negb]. unfold time_Now. run_simpl. split; [done|].
    eexists. split; [reflexivity|]. intros r' w' Hc Hi'. cbn [ck_Value] in Hc.
    set (e := Unix ((rt_now w).1 + sessionLifetime)) in *.
    destruct (run_hasValidSession r' _ w' Hne) as (b & w2 & -> & _ & Hb). cbn [fst].
    apply eq_bool_prop_intro. rewrite bool_decide_spec, Is_true_true, Hb. unfold signed_cookie. rewrite Hc.
    cbn [ck_Value sessionCookie] in *. rewrite !wrap64_id in * by done.
    assert (Ev : signedSession (APIKey (Auth cfg)) ((rt_now w).1 + sessionLifetime) = signedSession (APIKey (Auth cfg)) (time_Unix e)).
    { unfold signedSession. rewrite Unix_time_Unix by done. unfold e. by rewrite wrap64_id by done. }
    split.
    + intros (v & e' & [= <-] & He' & Hlt & Heq). rewrite Ev in Heq.
      assert (e = e') as <-; [|done].
      apply (f_equal session_expires) in Heq. unfold session_expires in Heq.
      rewrite !signedSession_parts, !Unix_time_Unix, !ParseInt_FormatInt in Heq by done. by injection Heq.
    + intros Hlt. eexists _, e. split_and!; [reflexivity | done | done | exact Ev].
  - destruct (validSecret key (APIKey (Auth cfg))); [|done]. by destruct Hk; apply Hv.
Qed.
End auth_correct.
