(* ===== verification/ApiWebhooks.v ===== *)
(** * internal/api/webhooks.go: the webhook endpoints

    Authentication of a callback ([verifyWebhook]), the handler that hands it
    to [Webhooks.Process] and maps the outcome to an answer, and Paystack's
    browser redirect.  Log lines are not modelled. *)
From S2P Require Import Prelude GoStrings Json JsonCodec Crypto Money Reference Ledger Config Gateway Router.
From S2P Require Import Http Payload Signature Webhooks Api.
From Stdlib Require Import Ascii.

(** ** Signatures *)
Definition webhookSecret (cfg : Config) (gateway : string) : string :=
  if String.eqb gateway "hubtel" then WS_Hubtel (Secrets (Payments cfg))
  else if String.eqb gateway "paystack" then WS_Paystack (Secrets (Payments cfg))
  else if String.eqb gateway "moolre" then WS_Moolre (Secrets (Payments cfg))
  else "".

Definition verifyPaystackHMAC (secret body signature : string) : bool :=
  if String.eqb secret "" || String.eqb signature "" then false
  else String.eqb signature (hex_EncodeToString (hmac sha512 secret body)).

Definition verifyHMAC (secret body signature : string) : bool :=
  if String.eqb secret "" || String.eqb signature "" then false
  else
    let expected := hex_EncodeToString (hmac sha256 secret body) in
    let prefix := "sha256=" in
    if String.length signature =? String.length expected then String.eqb signature expected
    else if (String.length prefix <? String.length signature) && HasPrefix signature prefix
    then String.eqb (drop_str (String.length prefix) signature) expected
    else false.

Section webhook_handlers.
Context {W : Type} `{!Runtime W}.

Definition verify_standard (secret id : string) (h : string -> string) (body : string) : Prog W bool :=
  now ← time_Now;
  mret (VerifyStandardWebhook secret id (h "Webhook-Timestamp") (h "Webhook-Signature") body now).

Definition verifyWebhook (cfg : Config) (gatewayName : string) (h : string -> string) (body : string)
    : Prog W bool :=
  let secret := webhookSecret cfg gatewayName in
  if String.eqb secret "" then mret false
  else if String.eqb gatewayName "moolre" then
    let id := h "Webhook-Id" in
    if String.eqb id "" then mret false else verify_standard secret id h body
  else
    let id := h "Webhook-Id" in
    if negb (String.eqb id "") then verify_standard secret id h body
    else
      let sig := if String.eqb gatewayName "paystack" then h "X-Paystack-Signature"
                 else h "X-Hubtel-Signature" in
      if negb (String.eqb sig "") then
        mret (if String.eqb gatewayName "paystack" then verifyPaystackHMAC secret body sig
              else verifyHMAC secret body sig)
      else mret false.

(** ** The handler *)
Definition webhook_answer (outcome : result unit) : Response :=
  match outcome with
  | Ok _ => writeJSON 200 (JObj [("status", JStr "processed")])
  | Err err =>
      if errors_Is err ErrDuplicate then writeJSON 200 (JObj [("status", JStr "duplicate")])
      else if errors_Is err ErrUnknownRef then writeJSON 200 (JObj [("status", JStr "ignored")])
      else if errors_Is err ErrBadPayload then writeError 400 "invalid_request" (Error err)
      else writeError 500 "internal_error" "processing failed"
  end.

Definition handleWebhook (cfg : Config) (s : Webhooks.Service W) (gatewayName : string) : Handler W :=
  fun r =>
  let body := rq_Body r in
  if (maxBodyBytes <? N.of_nat (String.length body))%N
  then mret (writeError 400 "invalid_request" "body too large")
  else
    let process := outcome ← Process s gatewayName body; mret (webhook_answer outcome) in
    let secret := webhookSecret cfg gatewayName in
    if String.eqb gatewayName "moolre" && String.eqb secret "" then
      if String.eqb (cfg_Environment cfg) EnvProduction
      then mret (writeError 401 "unauthorized" "webhook secret not configured")
      else process
    else
      ok ← verifyWebhook cfg gatewayName (rq_Header r) body;
      if negb ok then mret (writeError 401 "unauthorized" "bad signature") else process.
End webhook_handlers.

(** ** Paystack's redirect *)
Definition upper_hex (n : nat) : ascii := default "0"%char (String.get n "0123456789ABCDEF").
Definition url_unreserved (a : ascii) : bool :=
  let n := byte_of a in
  (48 <=? n) && (n <=? 57) || (65 <=? n) && (n <=? 90) || (97 <=? n) && (n <=? 122)
  || existsb (Ascii.eqb a) ["-"; "_"; "."; "~"]%char.

(** [url.QueryEscape] *)
Fixpoint QueryEscape (s : string) : string :=
  match s with
  | "" => ""
  | String a r =>
      (if Ascii.eqb a " " then "+"
       else if url_unreserved a then chr a
       else "%" ^^ chr (upper_hex (byte_of a / 16)) ^^ chr (upper_hex (byte_of a mod 16)))
      ^^ QueryEscape r
  end.

(** The body [http.Redirect] writes for a GET. *)
Fixpoint htmlEscape (s : string) : string :=
  match s with
  | "" => ""
  | String a r =>
      (if Ascii.eqb a "&" then "&amp;" else if Ascii.eqb a "<" then "&lt;"
       else if Ascii.eqb a ">" then "&gt;" else if Ascii.eqb a dquote then "&#34;"
       else if Ascii.eqb a "'" then "&#39;" else chr a) ^^ htmlEscape r
  end.

(** [http.Redirect(w, r, url, http.StatusFound)] for an absolute ASCII [url]. *)
Definition Redirect_found (r : Request) (url : string) : Response :=
  let get := String.eqb (rq_Method r) "GET" in
  {| rs_Status := 302;
     rs_Header := ("Location", url) ::
       (if get || String.eqb (rq_Method r) "HEAD" then [("Content-Type", "text/html; charset=utf-8")] else []);
     rs_Cookie := None;
     rs_Body := if get then "<a href=" ^^ chr dquote ^^ htmlEscape url ^^ chr dquote ^^ ">Found</a>."
                            ^^ chr "010" ^^ chr "010"
                else "" |}.

Definition dashboard_url : string := "https://pay.orctatech.com/".
Definition first_nonempty (l : list string) : string :=
  default "" (snd <$> list_find (fun s => s <> "") l).

Section paystack_callback.
Context {W : Type} `{!Runtime W}.

Definition callback_adapter (rt : ChargerRouter W) (ref : string) : option (AggregatorClient W) :=
  match Adapter rt GatewayPaystack with
  | Some a => Some a
  | None => match ParseReference ref with Some (_, gw, _) => Adapter rt gw | None => None end
  end.

(** [rt] is [app.Router], absent when nil. *)
Definition handlePaystackCallback (rt : option (ChargerRouter W)) : Handler W := fun r =>
  let ref := first_nonempty [rq_Query r "trxref"; rq_Query r "reference"; rq_Query r "ref"] in
  if String.eqb ref "" then mret (Redirect_found r dashboard_url)
  else
    let plain := Redirect_found r (dashboard_url ^^ "?trxref=" ^^ QueryEscape ref) in
    match rt ≫= fun rt => callback_adapter rt ref with
    | None => mret plain
    | Some adapter =>
        res ← Verify adapter ref;
        mret (match res with
              | Ok result =>
                  let status := if String.eqb (vr_Status result) "" then "pending" else vr_Status result in
                  Redirect_found r (dashboard_url ^^ "?trxref=" ^^ QueryEscape ref
                                    ^^ "&status=" ^^ QueryEscape status)
              | Err _ => plain
              end)
    end.
End paystack_callback.

(** ** Which callbacks are authentic *)
Lemma hex_length s : String.length (hex_EncodeToString s) = 2 * String.length s.
Proof. induction s as [|a s IH]; [done|]. simpl. rewrite IH. lia. Qed.

Lemma hex_hmac_length secret body : String.length (hex_EncodeToString (hmac sha256 secret body)) = 64.
Proof. by rewrite hex_length, hmac_length. Qed.

Lemma verifyHMAC_iff secret body signature :
  secret <> "" ->
  let mac := hex_EncodeToString (hmac sha256 secret body) in
  verifyHMAC secret body signature = true <-> signature = mac \/ signature = "sha256=" ^^ mac.
Proof.
  intros Hs mac. pose proof (hex_hmac_length secret body) as Hl. fold mac in Hl. unfold verifyHMAC. fold mac.
  apply String.eqb_neq in Hs. rewrite Hs. destruct (String.eqb_spec signature "") as [->|Hne].
  { cbn [orb]. split; [done|]. intros [E|E]; [rewrite <- E in Hl|]; discriminate. }
  cbn [orb]. rewrite Hl. destruct (Nat.eqb_spec (String.length signature) 64) as [He|He].
  - rewrite String.eqb_eq. split; [by left|]. intros [|E]; [done|].
    rewrite E, length_append, Hl in He. discriminate.
  - split.
    + destruct (_ && _) eqn:E; [|done]. apply andb_true_iff in E as [_ Hp]. intros Hd%String.eqb_eq. right.
      unfold HasPrefix in Hp. apply bool_decide_eq_true in Hp as [rest Hp].
      apply strip_Some in Hp as ->. cbn in Hd |- *. by rewrite Hd.
    + intros [E|E]; [by rewrite E in He|]. subst signature. unfold HasPrefix.
      rewrite strip_append, bool_decide_eq_true_2 by done. rewrite length_append, Hl. cbn. apply String.eqb_refl.
Qed.

Lemma verifyPaystackHMAC_iff secret body signature :
  secret <> "" -> verifyPaystackHMAC secret body signature = true <->
  signature = hex_EncodeToString (hmac sha512 secret body).
Proof.
  intros Hs. unfold verifyPaystackHMAC. apply String.eqb_neq in Hs. rewrite Hs.
  destruct (String.eqb_spec signature "") as [->|Hne]; cbn [orb]; [|apply String.eqb_eq].
  split; [done|]. intros E. apply (f_equal String.length) in E. rewrite hex_length, hmac_length in E. discriminate.
Qed.

Section authentic.
Context (cfg : Config) (gatewayName : string) (r : Request).
Let secret := webhookSecret cfg gatewayName.
Let header := rq_Header r.

(** A Standard Webhooks signature under the gateway's secret, current at [now]. *)
Definition standard_signed (now : Time) : Prop :=
  header "Webhook-Id" <> "" /\
  VerifyStandardWebhook secret (header "Webhook-Id") (header "Webhook-Timestamp") (header "Webhook-Signature")
    (rq_Body r) now = true.

(** The gateway's own header holding the MAC of the body under its secret. *)
Definition legacy_signed : Prop :=
  header "Webhook-Id" = "" /\ gatewayName <> "moolre" /\
  if decide (gatewayName = "paystack")
  then header "X-Paystack-Signature" = hex_EncodeToString (hmac sha512 secret (rq_Body r))
  else let mac := hex_EncodeToString (hmac sha256 secret (rq_Body r)) in
       header "X-Hubtel-Signature" = mac \/ header "X-Hubtel-Signature" = "sha256=" ^^ mac.

(** The one exception: Moolre without a secret, outside production. *)
Definition unsigned_allowed : Prop :=
  gatewayName = "moolre" /\ secret = "" /\ cfg_Environment cfg <> EnvProduction.

Definition authentic (now : Time) : Prop :=
  (secret <> "" /\ (standard_signed now \/ legacy_signed)) \/ unsigned_allowed.

Context {W : Type} `{!Runtime W}.

Lemma run_verify_standard id (w : W) :
  run (verify_standard secret id header (rq_Body r)) w
  = (VerifyStandardWebhook secret id (header "Webhook-Timestamp") (header "Webhook-Signature") (rq_Body r) (rt_now w).1,
     (rt_now w).2).
Proof. unfold verify_standard, time_Now. by run_simpl. Qed.

Lemma legacy_sig_iff sig :
  secret <> "" -> header "Webhook-Id" = "" -> gatewayName <> "moolre" ->
  sig = (if String.eqb gatewayName "paystack" then header "X-Paystack-Signature" else header "X-Hubtel-Signature") ->
  (negb (String.eqb sig "") && (if String.eqb gatewayName "paystack" then verifyPaystackHMAC secret (rq_Body r) sig
                                else verifyHMAC secret (rq_Body r) sig) = true <-> legacy_signed).
Proof.
  intros Hs Hid Hm ->. unfold legacy_signed. pose proof (hex_hmac_length secret (rq_Body r)) as Hl.
  rewrite andb_true_iff, negb_true_iff, String.eqb_neq. destruct (String.eqb_spec gatewayName "paystack") as [Hp|Hp].
  - rewrite decide_True, verifyPaystackHMAC_iff by done. split; [tauto|]. intros (_ & _ & E). split; [|done].
    rewrite E. intros E2. apply (f_equal String.length) in E2. rewrite hex_length, hmac_length in E2. discriminate.
  - rewrite decide_False, verifyHMAC_iff by done. split; [tauto|]. intros (_ & _ & E). split; [|done].
    intros E2. rewrite E2 in E. destruct E as [E|E]; [|discriminate]. by rewrite <- E in Hl.
Qed.

(** [verifyWebhook] decides authenticity, reading at most the clock. *)
Lemma run_verifyWebhook (w : W) :
  exists b w', run (verifyWebhook cfg gatewayName header (rq_Body r)) w = (b, w') /\
    (w' = w \/ w' = (rt_now w).2) /\
    (b = true <-> secret <> "" /\ (standard_signed (rt_now w).1 \/ legacy_signed)).
Proof.
  unfold verifyWebhook. fold secret. destruct (String.eqb_spec secret "") as [Hs|Hs].
  { exists false, w. split_and!; [done | by left | tauto || naive_solver]. }
  destruct (String.eqb_spec (header "Webhook-Id") "") as [Hid|Hid].
  - assert (Hns : ~ standard_signed (rt_now w).1) by (by intros [? _]).
    destruct (String.eqb_spec gatewayName "moolre") as [Hm|Hm].
    { exists false, w. split_and!; [done | by left |]. split; [done|]. intros [_ [|(_ & ? & _)]]; done. }
    cbn [negb]. pose proof (legacy_sig_iff _ Hs Hid Hm eq_refl) as Hi.
    destruct (negb (String.eqb (if String.eqb gatewayName "paystack" then _ else _) "")); cbn [andb] in Hi;
      eexists _, w; rewrite run_ret; (split; [reflexivity|]); (split; [by left|]); rewrite Hi; tauto.
  - assert (Hnl : ~ legacy_signed) by (by intros [? _]).
    assert (Hstd : forall b, b = VerifyStandardWebhook secret (header "Webhook-Id") (header "Webhook-Timestamp")
        (header "Webhook-Signature") (rq_Body r) (rt_now w).1 ->
      b = true <-> secret <> "" /\ (standard_signed (rt_now w).1 \/ legacy_signed)).
    { intros b ->. unfold standard_signed. tauto. }
    eexists _, (rt_now w).2. destruct (String.eqb gatewayName "moolre"); cbn [negb];
      rewrite run_verify_standard; (split; [reflexivity|]); (split; [by right|]); by apply Hstd.
Qed.

(** C15: A callback whose body is over 1 MiB gets 400, signed or not.  A shorter
    one is handed to [Process] exactly when it is authentic, and gets the
    answer of its outcome: signed under the gateway's own secret, by a current
    Standard Webhooks signature or, for Hubtel and Paystack, by the legacy MAC
    of the body; or unsigned, from Moolre, outside production and without a
    secret.  Any other gets 401.  What is refused reaches neither the store
    nor a gateway.  The documents let every unsigned Moolre callback through;
    the code does so only in that one case. *)
Theorem handleWebhook_correct (s : Webhooks.Service W) (w : W) :
  exists w', (w' = w \/ w' = (rt_now w).2) /\
    let out := run (handleWebhook cfg s gatewayName r) w in
    let processed := run (Process s gatewayName (rq_Body r)) w' in
    if decide (maxBodyBytes < N.of_nat (String.length (rq_Body r)))%N
    then out = (writeError 400 "invalid_request" "body too large", w)
    else (authentic (rt_now w).1 /\ out = (webhook_answer processed.1, processed.2)) \/
         (~ authentic (rt_now w).1 /\ exists msg, out = (writeError 401 "unauthorized" msg, w')).
Proof.
  unfold handleWebhook, authentic. fold secret. case_decide as Hlen.
  { exists w. split; [by left|]. by rewrite (proj2 (N.ltb_lt _ _) Hlen). }
  apply N.ltb_nlt in Hlen. rewrite Hlen.
  destruct (String.eqb gatewayName "moolre" && String.eqb secret "") eqn:E.
  - apply andb_true_iff in E as [Hm%String.eqb_eq Hs%String.eqb_eq]. exists w. split; [by left|].
    unfold unsigned_allowed. destruct (String.eqb_spec (cfg_Environment cfg) EnvProduction) as [He|He].
    + right. split; [|eauto]. intros [[? _]|(_ & _ & ?)]; done.
    + left. split; [by right|]. by rewrite run_bind, run_ret.
  - destruct (run_verifyWebhook w) as (b & w' & Eb & Hw & Hb). exists w'. split; [done|].
    change (rq_Header r) with header. rewrite run_bind, Eb. cbn [fst snd].
    assert (Hna : ~ unsigned_allowed).
    { intros (Hm & Hs & _). apply String.eqb_eq in Hm, Hs. by rewrite Hm, Hs in E. }
    destruct b; cbn [negb].
    + left. split; [left; by apply Hb|]. by rewrite run_bind, run_ret.
    + right. split; [|eauto]. intros [H|H]; [|done]. by apply Hb in H.
Qed.
End authentic.
