(* ===== verification/Client.v ===== *)
(** * clients/go/orctapay/client.go: the Go client

    What the client sends and how it reads the answer.  The transport is a
    parameter ([ApiTransport]).  [context] and the raw reply's nil
    (an empty one here) are left out; a metadata map is the JSON value it
    encodes to, or the error of encoding it. *)
From S2P Require Import Prelude GoStrings Strconv Json JsonCodec Reference Http ApiWebhooks.
From Stdlib Require Import Ascii.

Definition DefaultBaseURL : string := "http://localhost:8080".
Definition ErrRequestFailed : error := Sentinel "orctapay: request failed".
Definition ErrUnauthorized : error := Sentinel "orctapay: unauthorized".
Definition ErrNotFound : error := Sentinel "orctapay: not found".
Definition ErrInvalidRequest : error := Sentinel "orctapay: invalid request".
Definition ErrChargeResponseTooLarge : error := Sentinel "orctapay: charge response too large".
Definition MaxChargeResponseBytes : Z := 65536.

Record APIError := { ae_StatusCode : Z; ae_Code : string; ae_Message : string }.
Definition APIError_Error (e : APIError) : string := "orctapay: " ^^ ae_Code e ^^ ": " ^^ ae_Message e.

(** An error that holds no [APIError], or one, joined with a sentinel or not. *)
Inductive ClientError :=
| Plain (e : error)
| Api (joined : option error) (e : APIError).

(** [errors.As(err, &apiErr)] *)
Definition as_APIError (e : ClientError) : option APIError :=
  match e with Plain _ => None | Api _ a => Some a end.
(** [errors.Is(err, sentinel)] *)
Definition client_Is (e : ClientError) (target : error) : bool :=
  match e with
  | Plain e => errors_Is e target
  | Api (Some s) _ => errors_Is s target
  | Api None _ => false
  end.

(** ** The client *)
Record Client := { cl_baseURL : string; cl_apiKey : string }.
Definition WithBaseURL (url : string) (c : Client) : Client :=
  if negb (String.eqb url "") then {| cl_baseURL := TrimRight url "/"; cl_apiKey := cl_apiKey c |} else c.
Definition NewClient (env : string -> string) (baseURL apiKey : string) (opts : list (Client -> Client)) : Client :=
  let baseURL := if String.eqb baseURL "" then env "ORCTA_PAY_URL" else baseURL in
  let baseURL := if String.eqb baseURL "" then DefaultBaseURL else baseURL in
  fold_left (fun c o => o c) opts {| cl_baseURL := TrimRight baseURL "/"; cl_apiKey := apiKey |}.

Record CreateChargeRequest := {
  cc_Product : string; cc_AmountPesewas : Z; cc_Currency : string; cc_Wallet : string; cc_Phone : string;
  cc_IdempotencyKey : string; cc_Metadata : option (result json) }.

Inductive ChargeResult :=
| ChargeSucceeded (ref gateway : string) (amountPesewas : Z) (currency externalRef : string)
| ChargePending (ref gateway externalRef : string)
| ChargeFailed (reason : string).
Record ObservedCharge := { oc_Result : option ChargeResult; oc_Response : string }.

Record ChargeStatus := {
  cs_Ref : string; cs_Status : string; cs_Gateway : string; cs_AmountPesewas : Z; cs_VerifiedAt : Time }.
Record PayoutEntry := { pe_Recipient : string; pe_AmountPesewas : Z; pe_Currency : string }.
Record CreatePayoutRequest := { cp_Product : string; cp_Entries : list PayoutEntry; cp_IdempotencyKey : string }.
Record PayoutResult := {
  pr_BatchID : string; pr_Product : string; pr_Status : string; pr_TotalPesewas : Z; pr_CreatedAt : Time }.
Record CreateAppResponse := {
  car_ID : string; car_Name : string; car_Product : string; car_APIKey : string; car_Prefix : string;
  car_CreatedAt : Time }.
Record App := {
  ca_ID : string; ca_Name : string; ca_Product : string; ca_Prefix : string; ca_CreatedAt : Time;
  ca_LastUsedAt : option Time; ca_RevokedAt : option Time; ca_CreatedBy : string }.
Record RotateAppKeyResponse := { ra_APIKey : string; ra_Prefix : string }.

(** ** Reading answers *)
Record chargeWire := {
  cw_Ref : string; cw_Product : string; cw_Gateway : string; cw_AmountPesewas : Z; cw_Currency : string;
  cw_Status : string; cw_ExternalRef : string; cw_CreatedAt : string }.
Definition chargeWire_zero : chargeWire := {|
  cw_Ref := ""; cw_Product := ""; cw_Gateway := ""; cw_AmountPesewas := 0; cw_Currency := ""; cw_Status := "";
  cw_ExternalRef := ""; cw_CreatedAt := "" |}.
Definition dec_chargeWire : decoder chargeWire := dec_struct false [
  ("ref", dec_field cw_Ref (fun x c => {| cw_Ref := x; cw_Product := cw_Product c; cw_Gateway := cw_Gateway c; cw_AmountPesewas := cw_AmountPesewas c; cw_Currency := cw_Currency c; cw_Status := cw_Status c; cw_ExternalRef := cw_ExternalRef c; cw_CreatedAt := cw_CreatedAt c |}) dec_string);
  ("product", dec_field cw_Product (fun x c => {| cw_Ref := cw_Ref c; cw_Product := x; cw_Gateway := cw_Gateway c; cw_AmountPesewas := cw_AmountPesewas c; cw_Currency := cw_Currency c; cw_Status := cw_Status c; cw_ExternalRef := cw_ExternalRef c; cw_CreatedAt := cw_CreatedAt c |}) dec_string);
  ("gateway", dec_field cw_Gateway (fun x c => {| cw_Ref := cw_Ref c; cw_Product := cw_Product c; cw_Gateway := x; cw_AmountPesewas := cw_AmountPesewas c; cw_Currency := cw_Currency c; cw_Status := cw_Status c; cw_ExternalRef := cw_ExternalRef c; cw_CreatedAt := cw_CreatedAt c |}) dec_string);
  ("amount_pesewas", dec_field cw_AmountPesewas (fun x c => {| cw_Ref := cw_Ref c; cw_Product := cw_Product c; cw_Gateway := cw_Gateway c; cw_AmountPesewas := x; cw_Currency := cw_Currency c; cw_Status := cw_Status c; cw_ExternalRef := cw_ExternalRef c; cw_CreatedAt := cw_CreatedAt c |}) dec_int64);
  ("currency", dec_field cw_Currency (fun x c => {| cw_Ref := cw_Ref c; cw_Product := cw_Product c; cw_Gateway := cw_Gateway c; cw_AmountPesewas := cw_AmountPesewas c; cw_Currency := x; cw_Status := cw_Status c; cw_ExternalRef := cw_ExternalRef c; cw_CreatedAt := cw_CreatedAt c |}) dec_string);
  ("status", dec_field cw_Status (fun x c => {| cw_Ref := cw_Ref c; cw_Product := cw_Product c; cw_Gateway := cw_Gateway c; cw_AmountPesewas := cw_AmountPesewas c; cw_Currency := cw_Currency c; cw_Status := x; cw_ExternalRef := cw_ExternalRef c; cw_CreatedAt := cw_CreatedAt c |}) dec_string);
  ("external_ref", dec_field cw_ExternalRef (fun x c => {| cw_Ref := cw_Ref c; cw_Product := cw_Product c; cw_Gateway := cw_Gateway c; cw_AmountPesewas := cw_AmountPesewas c; cw_Currency := cw_Currency c; cw_Status := cw_Status c; cw_ExternalRef := x; cw_CreatedAt := cw_CreatedAt c |}) dec_string);
  ("created_at", dec_field cw_CreatedAt (fun x c => {| cw_Ref := cw_Ref c; cw_Product := cw_Product c; cw_Gateway := cw_Gateway c; cw_AmountPesewas := cw_AmountPesewas c; cw_Currency := cw_Currency c; cw_Status := cw_Status c; cw_ExternalRef := cw_ExternalRef c; cw_CreatedAt := x |}) dec_string)].

(** A decoding whose type errors are dropped: what fits is kept. *)
Definition lenient {A} (d : decoder A) : decoder A := fun v cur => Some (default cur (d v cur)).

(** The error envelope: its code and message. *)
Definition dec_envelope_error : decoder (string * string) := dec_struct false [
  ("code", dec_field fst (fun x p => (x, p.2)) (lenient dec_string));
  ("message", dec_field snd (fun x p => (p.1, x)) (lenient dec_string))].
Definition dec_envelope : decoder (string * string) := dec_struct false [("error", lenient dec_envelope_error)].
Definition envelope (data : string) : string * string :=
  match parse data with
  | None => ("", "")
  | Some v => default ("", "") (lenient dec_envelope v ("", ""))
  end.

(** ** The exchange *)

(** [rp_Status] is the status line's text, [rp_broken] the error that reading
    the body ends in. *)
Record Reply := { rp_StatusCode : Z; rp_Status : string; rp_Body : string; rp_broken : option error }.

Class ApiTransport (W : Type) := {
  api_Do : HttpRequest -> M W (result Reply);
  api_bad_URL : string -> option error }.

(** [io.ReadAll] of the body, of which [io.LimitReader] shows [max + 1] bytes
    when [max] is positive. *)
Definition ReadAll (max : Z) (rp : Reply) : result string :=
  if (0 <? max)%Z then
    let data := read_limited (Z.to_N (max + 1)) (rp_Body rp) in
    match rp_broken rp with
    | Some err => if (Z.of_nat (String.length (rp_Body rp)) <=? max)%Z then Err err else Ok data
    | None => Ok data
    end
  else match rp_broken rp with Some err => Err err | None => Ok (rp_Body rp) end.

(** The [APIError] of an answer that is no success. *)
Definition api_error (rp : Reply) (data : string) : APIError :=
  let '(code, msg) := envelope data in
  let msg := if String.eqb msg "" then
               let trimmed := TrimSpace data in
               if String.eqb trimmed "" then rp_Status rp else trimmed
             else msg in
  let code := if String.eqb code "" then
                if (rp_StatusCode rp =? 401)%Z then "unauthorized"
                else if (rp_StatusCode rp =? 404)%Z then "not_found"
                else if (rp_StatusCode rp =? 400)%Z then "invalid_request"
                else if (500 <=? rp_StatusCode rp)%Z then "internal_error"
                else "unknown"
              else code in
  {| ae_StatusCode := rp_StatusCode rp; ae_Code := code; ae_Message := msg |}.
Definition joined_error (status : Z) (e : APIError) : ClientError :=
  if (status =? 401)%Z then Api (Some ErrUnauthorized) e
  else if (status =? 404)%Z then Api (Some ErrNotFound) e
  else if (status =? 400)%Z then Api (Some ErrInvalidRequest) e
  else if (500 <=? status)%Z then Api (Some ErrRequestFailed) e
  else Api None e.

(** [url.PathEscape] *)
Fixpoint PathEscape (s : string) : string :=
  match s with
  | "" => ""
  | String a r =>
      (if url_unreserved a || existsb (Ascii.eqb a) ["$"; "&"; "+"; "="; ":"; "@"]%char then chr a
       else "%" ^^ chr (upper_hex (byte_of a / 16)) ^^ chr (upper_hex (byte_of a mod 16)))
      ^^ PathEscape r
  end.

Definition buildReference (product ulid : string) : string := "optd-" ^^ product ^^ "-" ^^ ulid.

Section client.
Context {W : Type} `{!Runtime W} `{!ApiTransport W}.

(** The client's copy of the service's generator. *)
Definition newULID : Prog W string := NewULID.

Definition headers (c : Client) (body : bool) : list (string * string) :=
  (if body then [("Content-Type", "application/json")] else [])
  ++ (if negb (String.eqb (cl_apiKey c) "") then [("Authorization", "Bearer " ^^ cl_apiKey c)] else [])
  ++ [("Accept", "application/json")].

(** The body read, and the error. *)
Definition read_answer (maxBytes : Z) (rp : Reply) : string * option ClientError :=
  match ReadAll maxBytes rp with
  | Err err => ("", Some (Plain (Errorf "orctapay: read: " err)))
  | Ok data =>
      if (0 <? maxBytes)%Z && (maxBytes <? Z.of_nat (String.length data))%Z
      then ("", Some (Plain ErrChargeResponseTooLarge))
      else if (200 <=? rp_StatusCode rp)%Z && (rp_StatusCode rp <? 300)%Z then (data, None)
      else (data, Some (joined_error (rp_StatusCode rp) (api_error rp data)))
  end.

Definition doJSONBytes (c : Client) (method path : string) (body : option (result json)) (maxBytes : Z)
    : Prog W (string * option ClientError) :=
  let send text :=
    let url := cl_baseURL c ^^ path in
    match api_bad_URL url with
    | Some err => mret ("", Some (Plain (Errorf "orctapay: new request: " err)))
    | None =>
        resp ← call (api_Do {| hq_Method := method; hq_URL := url;
                               hq_Header := headers c (if body is Some _ then true else false); hq_Body := text |});
        mret (match resp with
              | Err err => ("", Some (Plain (Errorf "orctapay: do: " err)))
              | Ok rp => read_answer maxBytes rp
              end)
    end in
  match body with
  | None => send ""
  | Some (Err err) => mret ("", Some (Plain (Errorf "orctapay: marshal: " err)))
  | Some (Ok v) => send (Marshal v)
  end.

(** [doJSON] into a variable decoded by [d] from [zero]. *)
Definition doJSON {A} (c : Client) (method path : string) (body : option (result json)) (d : decoder A) (zero : A)
    : Prog W (A + ClientError) :=
  out ← doJSONBytes c method path body 0;
  let '(data, err) := out in
  mret (match err with
        | Some err => inr err
        | None =>
            if String.eqb data "" then inl zero
            else match Unmarshal d zero data with
                 | Ok x => inl x
                 | Err err => inr (Plain (Errorf "orctapay: decode: " err))
                 end
        end).

(** ** Charges *)

(** The members of the map in the order [json.Marshal] writes them. *)
Definition charge_json (req : CreateChargeRequest) (key : string) : result json :=
  let currency := if String.eqb (cc_Currency req) "" then "GHS" else cc_Currency req in
  let wallet := if String.eqb (cc_Wallet req) "" then cc_Phone req else cc_Wallet req in
  let phone := negb (String.eqb wallet "") && negb (String.eqb (cc_Phone req) "")
               && negb (String.eqb (cc_Phone req) wallet) in
  let members metadata := JObj (
    [("amount_pesewas", JNum (FormatInt (cc_AmountPesewas req))); ("currency", JStr currency);
     ("idempotency_key", JStr key)]
    ++ metadata
    ++ (if phone then [("phone", JStr (cc_Phone req))] else [])
    ++ [("product", JStr (cc_Product req))]
    ++ (if negb (String.eqb wallet "") then [("wallet", JStr wallet)] else [])) in
  match cc_Metadata req with
  | None => Ok (members [])
  | Some (Ok m) => Ok (members [("metadata", m)])
  | Some (Err err) => Err err
  end.

Definition idempotency_key (req : CreateChargeRequest) : Prog W string :=
  if String.eqb (cc_IdempotencyKey req) "" then
    ulid ← newULID;
    mret (buildReference (if String.eqb (cc_Product req) "" then "default" else cc_Product req) ulid)
  else mret (cc_IdempotencyKey req).

(** The [switch resp.Status]. *)
Definition charge_result (resp : chargeWire) : ChargeResult :=
  if String.eqb (cw_Status resp) "pending"
  then ChargePending (cw_Ref resp) (cw_Gateway resp) (cw_ExternalRef resp)
  else if String.eqb (cw_Status resp) "succeeded"
  then ChargeSucceeded (cw_Ref resp) (cw_Gateway resp) (cw_AmountPesewas resp) (cw_Currency resp) (cw_ExternalRef resp)
  else if String.eqb (cw_Status resp) "failed" then ChargeFailed (cw_Status resp)
  else if negb (String.eqb (cw_Ref resp) "")
  then ChargePending (cw_Ref resp) (cw_Gateway resp) (cw_ExternalRef resp)
  else ChargeFailed ("unknown status: " ^^ cw_Status resp).

(** What [createCharge] makes of the reply and its error. *)
Definition observe_charge (data : string) (err : option ClientError) : ObservedCharge * option ClientError :=
  let observed res := {| oc_Result := res; oc_Response := data |} in
  match err with
  | Some err =>
      match as_APIError err with
      | Some apiErr =>
          if String.eqb (ae_Code apiErr) "unavailable"
          then (observed (Some (ChargeFailed (ae_Message apiErr))), None)
          else (observed None, Some err)
      | None => (observed None, Some err)
      end
  | None =>
      match Unmarshal dec_chargeWire chargeWire_zero data with
      | Err err => (observed None, Some (Plain (Errorf "orctapay: decode: " err)))
      | Ok resp => (observed (Some (charge_result resp)), None)
      end
  end.

Definition createCharge (c : Client) (req : CreateChargeRequest) (maxResponseBytes : Z)
    : Prog W (ObservedCharge * option ClientError) :=
  key ← idempotency_key req;
  out ← doJSONBytes c POST "/v1/charges" (Some (charge_json req key)) maxResponseBytes;
  mret (observe_charge out.1 out.2).

Definition CreateCharge (c : Client) (req : CreateChargeRequest) : Prog W (option ChargeResult * option ClientError) :=
  out ← createCharge c req 0;
  mret (match out.2 with Some err => (None, Some err) | None => (oc_Result out.1, None) end).
Definition CreateObservedCharge (c : Client) (req : CreateChargeRequest) : Prog W (ObservedCharge * option ClientError) :=
  createCharge c req MaxChargeResponseBytes.

(** ** The other calls *)

(** [time.Time] and [*time.Time] members.  (Go reads the literal as it stands:
    a time written with escapes, which it refuses, is not told apart.) *)
Definition dec_time : decoder Time := fun v cur =>
  match v with JStr s => parse_time s | JNull => Some cur | _ => None end.
Definition dec_time_ptr : decoder (option Time) := fun v _ =>
  match v with JStr s => Some <$> parse_time s | JNull => Some None | _ => None end.

Definition required (what : string) : ClientError :=
  Plain (Wrap (Error ErrInvalidRequest ^^ ": " ^^ what) [ErrInvalidRequest]).

Definition ChargeStatus_zero : ChargeStatus :=
  {| cs_Ref := ""; cs_Status := ""; cs_Gateway := ""; cs_AmountPesewas := 0; cs_VerifiedAt := Time_zero |}.
Definition dec_ChargeStatus : decoder ChargeStatus := dec_struct false [
  ("ref", dec_field cs_Ref (fun x c => {| cs_Ref := x; cs_Status := cs_Status c; cs_Gateway := cs_Gateway c; cs_AmountPesewas := cs_AmountPesewas c; cs_VerifiedAt := cs_VerifiedAt c |}) dec_string);
  ("status", dec_field cs_Status (fun x c => {| cs_Ref := cs_Ref c; cs_Status := x; cs_Gateway := cs_Gateway c; cs_AmountPesewas := cs_AmountPesewas c; cs_VerifiedAt := cs_VerifiedAt c |}) dec_string);
  ("gateway", dec_field cs_Gateway (fun x c => {| cs_Ref := cs_Ref c; cs_Status := cs_Status c; cs_Gateway := x; cs_AmountPesewas := cs_AmountPesewas c; cs_VerifiedAt := cs_VerifiedAt c |}) dec_string);
  ("amount_pesewas", dec_field cs_AmountPesewas (fun x c => {| cs_Ref := cs_Ref c; cs_Status := cs_Status c; cs_Gateway := cs_Gateway c; cs_AmountPesewas := x; cs_VerifiedAt := cs_VerifiedAt c |}) dec_int64);
  ("verified_at", dec_field cs_VerifiedAt (fun x c => {| cs_Ref := cs_Ref c; cs_Status := cs_Status c; cs_Gateway := cs_Gateway c; cs_AmountPesewas := cs_AmountPesewas c; cs_VerifiedAt := x |}) dec_time)].

Definition GetChargeStatus (c : Client) (ref : string) : Prog W (ChargeStatus + ClientError) :=
  if String.eqb ref "" then mret (inr (required "ref is required"))
  else doJSON c GET ("/v1/charges/" ^^ PathEscape ref ^^ "/status") None dec_ChargeStatus ChargeStatus_zero.

Definition payout_json (req : CreatePayoutRequest) : json := JObj (
  [("entries", JArr (map (fun e => JObj [
     ("amount_pesewas", JNum (FormatInt (pe_AmountPesewas e)));
     ("currency", JStr (if String.eqb (pe_Currency e) "" then "GHS" else pe_Currency e));
     ("recipient", JStr (pe_Recipient e))]) (cp_Entries req)))]
  ++ (if negb (String.eqb (cp_IdempotencyKey req) "") then [("idempotency_key", JStr (cp_IdempotencyKey req))] else [])
  ++ [("product", JStr (cp_Product req))]).

Definition PayoutResult_zero : PayoutResult :=
  {| pr_BatchID := ""; pr_Product := ""; pr_Status := ""; pr_TotalPesewas := 0; pr_CreatedAt := Time_zero |}.
Definition dec_PayoutResult : decoder PayoutResult := dec_struct false [
  ("batch_id", dec_field pr_BatchID (fun x p => {| pr_BatchID := x; pr_Product := pr_Product p; pr_Status := pr_Status p; pr_TotalPesewas := pr_TotalPesewas p; pr_CreatedAt := pr_CreatedAt p |}) dec_string);
  ("product", dec_field pr_Product (fun x p => {| pr_BatchID := pr_BatchID p; pr_Product := x; pr_Status := pr_Status p; pr_TotalPesewas := pr_TotalPesewas p; pr_CreatedAt := pr_CreatedAt p |}) dec_string);
  ("status", dec_field pr_Status (fun x p => {| pr_BatchID := pr_BatchID p; pr_Product := pr_Product p; pr_Status := x; pr_TotalPesewas := pr_TotalPesewas p; pr_CreatedAt := pr_CreatedAt p |}) dec_string);
  ("total_pesewas", dec_field pr_TotalPesewas (fun x p => {| pr_BatchID := pr_BatchID p; pr_Product := pr_Product p; pr_Status := pr_Status p; pr_TotalPesewas := x; pr_CreatedAt := pr_CreatedAt p |}) dec_int64);
  ("created_at", dec_field pr_CreatedAt (fun x p => {| pr_BatchID := pr_BatchID p; pr_Product := pr_Product p; pr_Status := pr_Status p; pr_TotalPesewas := pr_TotalPesewas p; pr_CreatedAt := x |}) dec_time)].

Definition CreatePayout (c : Client) (req : CreatePayoutRequest) : Prog W (PayoutResult + ClientError) :=
  if String.eqb (cp_Product req) "" then mret (inr (required "product is required"))
  else match cp_Entries req with
  | [] => mret (inr (required "entries required"))
  | _ => doJSON c POST "/v1/payouts" (Some (Ok (payout_json req))) dec_PayoutResult PayoutResult_zero
  end.

Definition CreateAppResponse_zero : CreateAppResponse :=
  {| car_ID := ""; car_Name := ""; car_Product := ""; car_APIKey := ""; car_Prefix := ""; car_CreatedAt := Time_zero |}.
Definition dec_CreateAppResponse : decoder CreateAppResponse := dec_struct false [
  ("id", dec_field car_ID (fun x r => {| car_ID := x; car_Name := car_Name r; car_Product := car_Product r; car_APIKey := car_APIKey r; car_Prefix := car_Prefix r; car_CreatedAt := car_CreatedAt r |}) dec_string);
  ("name", dec_field car_Name (fun x r => {| car_ID := car_ID r; car_Name := x; car_Product := car_Product r; car_APIKey := car_APIKey r; car_Prefix := car_Prefix r; car_CreatedAt := car_CreatedAt r |}) dec_string);
  ("product", dec_field car_Product (fun x r => {| car_ID := car_ID r; car_Name := car_Name r; car_Product := x; car_APIKey := car_APIKey r; car_Prefix := car_Prefix r; car_CreatedAt := car_CreatedAt r |}) dec_string);
  ("api_key", dec_field car_APIKey (fun x r => {| car_ID := car_ID r; car_Name := car_Name r; car_Product := car_Product r; car_APIKey := x; car_Prefix := car_Prefix r; car_CreatedAt := car_CreatedAt r |}) dec_string);
  ("api_key_prefix", dec_field car_Prefix (fun x r => {| car_ID := car_ID r; car_Name := car_Name r; car_Product := car_Product r; car_APIKey := car_APIKey r; car_Prefix := x; car_CreatedAt := car_CreatedAt r |}) dec_string);
  ("created_at", dec_field car_CreatedAt (fun x r => {| car_ID := car_ID r; car_Name := car_Name r; car_Product := car_Product r; car_APIKey := car_APIKey r; car_Prefix := car_Prefix r; car_CreatedAt := x |}) dec_time)].

Definition CreateApp (c : Client) (req_Name req_Product : string) : Prog W (CreateAppResponse + ClientError) :=
  if String.eqb req_Name "" then mret (inr (required "name is required"))
  else if String.eqb req_Product "" then mret (inr (required "product is required"))
  else doJSON c POST "/v1/apps" (Some (Ok (JObj [("name", JStr req_Name); ("product", JStr req_Product)])))
         dec_CreateAppResponse CreateAppResponse_zero.

Definition App_zero : App := {|
  ca_ID := ""; ca_Name := ""; ca_Product := ""; ca_Prefix := ""; ca_CreatedAt := Time_zero; ca_LastUsedAt := None;
  ca_RevokedAt := None; ca_CreatedBy := "" |}.
Definition dec_App : decoder App := dec_struct false [
  ("id", dec_field ca_ID (fun x a => {| ca_ID := x; ca_Name := ca_Name a; ca_Product := ca_Product a; ca_Prefix := ca_Prefix a; ca_CreatedAt := ca_CreatedAt a; ca_LastUsedAt := ca_LastUsedAt a; ca_RevokedAt := ca_RevokedAt a; ca_CreatedBy := ca_CreatedBy a |}) dec_string);
  ("name", dec_field ca_Name (fun x a => {| ca_ID := ca_ID a; ca_Name := x; ca_Product := ca_Product a; ca_Prefix := ca_Prefix a; ca_CreatedAt := ca_CreatedAt a; ca_LastUsedAt := ca_LastUsedAt a; ca_RevokedAt := ca_RevokedAt a; ca_CreatedBy := ca_CreatedBy a |}) dec_string);
  ("product", dec_field ca_Product (fun x a => {| ca_ID := ca_ID a; ca_Name := ca_Name a; ca_Product := x; ca_Prefix := ca_Prefix a; ca_CreatedAt := ca_CreatedAt a; ca_LastUsedAt := ca_LastUsedAt a; ca_RevokedAt := ca_RevokedAt a; ca_CreatedBy := ca_CreatedBy a |}) dec_string);
  ("api_key_prefix", dec_field ca_Prefix (fun x a => {| ca_ID := ca_ID a; ca_Name := ca_Name a; ca_Product := ca_Product a; ca_Prefix := x; ca_CreatedAt := ca_CreatedAt a; ca_LastUsedAt := ca_LastUsedAt a; ca_RevokedAt := ca_RevokedAt a; ca_CreatedBy := ca_CreatedBy a |}) dec_string);
  ("created_at", dec_field ca_CreatedAt (fun x a => {| ca_ID := ca_ID a; ca_Name := ca_Name a; ca_Product := ca_Product a; ca_Prefix := ca_Prefix a; ca_CreatedAt := x; ca_LastUsedAt := ca_LastUsedAt a; ca_RevokedAt := ca_RevokedAt a; ca_CreatedBy := ca_CreatedBy a |}) dec_time);
  ("last_used_at", dec_field ca_LastUsedAt (fun x a => {| ca_ID := ca_ID a; ca_Name := ca_Name a; ca_Product := ca_Product a; ca_Prefix := ca_Prefix a; ca_CreatedAt := ca_CreatedAt a; ca_LastUsedAt := x; ca_RevokedAt := ca_RevokedAt a; ca_CreatedBy := ca_CreatedBy a |}) dec_time_ptr);
  ("revoked_at", dec_field ca_RevokedAt (fun x a => {| ca_ID := ca_ID a; ca_Name := ca_Name a; ca_Product := ca_Product a; ca_Prefix := ca_Prefix a; ca_CreatedAt := ca_CreatedAt a; ca_LastUsedAt := ca_LastUsedAt a; ca_RevokedAt := x; ca_CreatedBy := ca_CreatedBy a |}) dec_time_ptr);
  ("created_by", dec_field ca_CreatedBy (fun x a => {| ca_ID := ca_ID a; ca_Name := ca_Name a; ca_Product := ca_Product a; ca_Prefix := ca_Prefix a; ca_CreatedAt := ca_CreatedAt a; ca_LastUsedAt := ca_LastUsedAt a; ca_RevokedAt := ca_RevokedAt a; ca_CreatedBy := x |}) dec_string)].
Definition ListApps (c : Client) : Prog W (list App + ClientError) :=
  doJSON c GET "/v1/apps" None (dec_slice dec_App App_zero) [].

Definition dec_RotateAppKeyResponse : decoder RotateAppKeyResponse := dec_struct false [
  ("api_key", dec_field ra_APIKey (fun x r => {| ra_APIKey := x; ra_Prefix := ra_Prefix r |}) dec_string);
  ("api_key_prefix", dec_field ra_Prefix (fun x r => {| ra_APIKey := ra_APIKey r; ra_Prefix := x |}) dec_string)].
Definition RotateAppKey (c : Client) (appID : string) : Prog W (RotateAppKeyResponse + ClientError) :=
  if String.eqb appID "" then mret (inr (required "appID is required"))
  else doJSON c POST ("/v1/apps/" ^^ PathEscape appID ^^ "/keys/rotate") (Some (Ok (JObj [])))
         dec_RotateAppKeyResponse {| ra_APIKey := ""; ra_Prefix := "" |}.

(** [RevokeApp] reads nothing of the answer. *)
Definition RevokeApp (c : Client) (appID : string) : Prog W (option ClientError) :=
  if String.eqb appID "" then mret (Some (required "appID is required"))
  else
    out ← doJSONBytes c "DELETE" ("/v1/apps/" ^^ PathEscape appID) None 0;
    mret out.2.
End client.
