(* ===== verification/RateLimit.v ===== *)
(** * internal/api/ratelimit.go: the fixed-window limiter

    [RateLimiter] with its Valkey counter and its in-memory fallback, the
    configuration defaults, and the two middlewares.  Warnings are not
    modelled. *)
From S2P Require Import Prelude GoStrings Strconv Json JsonCodec Crypto Reference Config Worker Valkey Http Payouts Api.
From Stdlib Require Import Ascii Floats.SpecFloat.

Record rateBucket := { rb_count : Z; rb_windowStart : Time }.
Abbreviation Buckets := (gmap string rateBucket) (only parsing).

(** [rl_client] is whether there is a client; [rl_get] and [rl_put] access the
    limiter's own map, under its mutex. *)
Record RateLimiter (W : Type) := {
  rl_client : bool; rl_limit : Z; rl_window : Z; rl_prefix : string; rl_enabled : bool;
  rl_get : M W Buckets; rl_put : Buckets -> M W unit }.
Arguments rl_client {W} _.
Arguments rl_limit {W} _.
Arguments rl_window {W} _.
Arguments rl_prefix {W} _.
Arguments rl_enabled {W} _.
Arguments rl_get {W} _.
Arguments rl_put {W} _.

(** [d.Seconds()] *)
Definition Seconds (d : Z) : float64 :=
  SFadd 53 1024 (f64_of_Z (Z.quot d Second))
    (SFdiv 53 1024 (f64_of_Z (Z.rem d Second)) (f64_of_Z 1000000000)).

Definition memory_retry (window elapsed : Z) : Z :=
  let retryAfter := trunc (SFsub 53 1024 (Seconds window) (Seconds elapsed)) in
  if (retryAfter <? 1)%Z then 1%Z else retryAfter.

(** The critical section of [allowMemory] at time [now]. *)
Definition take_token (limit window : Z) (now : Time) (key : string) (bs : Buckets)
    : (bool * Z) * Buckets :=
  let fresh := ((true, 0%Z), <[key := {| rb_count := 1; rb_windowStart := now |}]> bs) in
  match bs !! key with
  | None => fresh
  | Some b =>
      if (time_Sub now (rb_windowStart b) >=? window)%Z then fresh
      else
        let b' := {| rb_count := wrap64 (rb_count b + 1); rb_windowStart := rb_windowStart b |} in
        ((if (rb_count b' >? limit)%Z
          then (false, memory_retry window (time_Sub now (rb_windowStart b)))
          else (true, 0%Z)), <[key := b']> bs)
  end.

Section limiter.
Context {W : Type} `{!Runtime W} `{!ValkeyClient W}.
Implicit Types l : RateLimiter W.

Definition newRateLimiter (client : bool) (limit window : Z) (prefix : string) (enabled : bool)
    (get : M W Buckets) (put : Buckets -> M W unit) : RateLimiter W :=
  if negb enabled || (limit <=? 0)%Z
  then {| rl_client := false; rl_limit := 0; rl_window := 0; rl_prefix := ""; rl_enabled := false;
          rl_get := get; rl_put := put |}
  else {| rl_client := client; rl_limit := limit; rl_window := window; rl_prefix := prefix;
          rl_enabled := enabled; rl_get := get; rl_put := put |}.

Definition allowMemory l (fullKey : string) : Prog W (bool * Z) :=
  locked (
    now ← time_Now;
    bs ← call (rl_get l);
    let out := take_token (rl_limit l) (rl_window l) now fullKey bs in
    _ ← call (rl_put l out.2);
    mret out.1).

Definition allowValkey l (fullKey : string) : Prog W (result (bool * Z)) :=
  resp ← Do (INCR fullKey);
  match reply_error resp with
  | Some err => mret (Err err)
  | None =>
      match AsInt64 resp with
      | Err err => mret (Err err)
      | Ok count =>
          _ ← (if (count =? 1)%Z then _ ← Do (EXPIRE fullKey (seconds (rl_window l))); mret tt else mret tt);
          if (count >? rl_limit l)%Z then
            ttlResp ← Do (TTL fullKey);
            let ttl := match AsInt64 ttlResp with
                       | Err _ => seconds (rl_window l)
                       | Ok ttl => if (ttl <? 0)%Z then seconds (rl_window l) else ttl
                       end in
            mret (Ok (false, if (ttl <? 1)%Z then 1%Z else ttl))
          else mret (Ok (true, 0%Z))
      end
  end.

Definition Allow l (key : string) : Prog W (bool * Z) :=
  if negb (rl_enabled l) || (rl_limit l <=? 0)%Z then mret (true, 0%Z)
  else
    let fullKey := rl_prefix l ^^ ":" ^^ key in
    if rl_client l then
      r ← allowValkey l fullKey;
      match r with
      | Ok answer => mret answer
      | Err _ => allowMemory l fullKey
      end
    else allowMemory l fullKey.
End limiter.

(** [rateLimitConfigOrDefault] *)
Definition rateLimitConfigOrDefault (cfg : RateLimitConfig) : RateLimitConfig :=
  let ip := if (IPPerMinute cfg =? 0)%Z then 60%Z else IPPerMinute cfg in
  {| IPPerMinute := ip;
     APIKeyPerMinute := if (APIKeyPerMinute cfg =? 0)%Z then 300%Z else APIKeyPerMinute cfg;
     WebhookPerMinute := if (WebhookPerMinute cfg =? 0)%Z then 600%Z else WebhookPerMinute cfg;
     RPS := if (RPS cfg =? 0)%Z then ip else RPS cfg;
     Enabled := if negb (Enabled cfg) && (IPPerMinute cfg =? 0)%Z && (APIKeyPerMinute cfg =? 0)%Z
                   && (RPS cfg =? 0)%Z then true else Enabled cfg |}.

(** [buildRateLimiters], the limiters' maps given. *)
Definition buildRateLimiters {W} (cfg : RateLimitConfig) (client : bool)
    (get1 get2 : M W Buckets) (put1 put2 : Buckets -> M W unit) : RateLimiter W * RateLimiter W :=
  let cfg := rateLimitConfigOrDefault cfg in
  if negb (Enabled cfg)
  then (newRateLimiter false 0 Minute "" false get1 put1, newRateLimiter false 0 Minute "" false get2 put2)
  else (newRateLimiter client (IPPerMinute cfg) Minute "ratelimit:ip" true get1 put1,
        newRateLimiter client (APIKeyPerMinute cfg) Minute "ratelimit:key" true get2 put2).

(** ** The middlewares *)
Definition isRateLimitedPath (r : Request) : bool :=
  String.eqb (rq_Method r) "POST" &&
  (String.eqb (rq_Path r) "/v1/charges" || String.eqb (rq_Path r) "/v1/payouts").

(** The text before and after the last colon. *)
Fixpoint split_last (c : ascii) (s : string) : option (string * string) :=
  match s with
  | "" => None
  | String a s' =>
      match split_last c s' with
      | Some (x, y) => Some (String a x, y)
      | None => if Ascii.eqb a c then Some ("", s') else None
      end
  end.

Fixpoint split_first (c : ascii) (s : string) : option (string * string) :=
  match s with
  | "" => None
  | String a s' =>
      if Ascii.eqb a c then Some ("", s')
      else match split_first c s' with Some (x, y) => Some (String a x, y) | None => None end
  end.

(** [net.SplitHostPort], its host only. *)
Definition SplitHostPort (hostport : string) : option string :=
  match split_last ":" hostport with
  | None => None
  | Some (before, port) =>
      match hostport with
      | String a rest =>
          if Ascii.eqb a "[" then
            match split_first "]" rest with
            | None => None
            | Some (host, after) =>
                if String.eqb after (":" ^^ port) && negb (has_char "[" rest) && negb (has_char "]" after)
                then Some host else None
            end
          else if has_char ":" before || has_char "[" hostport || has_char "]" hostport then None
          else Some before
      | "" => None
      end
  end.

Definition clientIP (r : Request) : string :=
  let host := rq_RemoteAddr r in
  if String.eqb host "" then
    let fwd := rq_Header r "X-Forwarded-For" in
    match split_first "," fwd with Some (first, _) => TrimSpace first | None => fwd end
  else if has_char ":" host then default host (SplitHostPort host)
  else host.

Definition limited (retryAfter : Z) : Response :=
  with_header "Retry-After" (FormatInt retryAfter) (writeError 429 "rate_limited" "rate limit exceeded").

Section middleware.
Context {W : Type} `{!Runtime W} `{!ValkeyClient W}.

Definition probe_paths : list string := ["/healthz"; "/readyz"; "/metrics"; "/openapi.yaml"; "/docs"].

Definition rateLimitIPMiddleware (l : RateLimiter W) (next : Handler W) : Handler W := fun r =>
  if negb (rl_enabled l) then next r
  else if existsb (String.eqb (rq_Path r)) probe_paths then next r
  else if negb (isRateLimitedPath r) then next r
  else
    let ip := clientIP r in
    let ip := if String.eqb ip "" then "unknown" else ip in
    a ← Allow l ip;
    if negb a.1 then mret (limited a.2) else next r.

(** The bearer token, or the session cookie, or the address. *)
Definition limiter_token (r : Request) : string :=
  let token := TrimPrefix (rq_Header r "Authorization") "Bearer " in
  let token := if String.eqb token "" then default "" (cookie_value r operatorCookie) else token in
  if String.eqb token "" then "anonymous:" ^^ clientIP r else token.

Definition rateLimitAPIKeyMiddleware (l : RateLimiter W) (next : Handler W) : Handler W := fun r =>
  if negb (rl_enabled l) then next r
  else if negb (isRateLimitedPath r) then next r
  else
    let key := hex_EncodeToString (take_str 8 (digest sha256 (limiter_token r))) in
    a ← Allow l key;
    if negb a.1 then mret (limited a.2) else next r.
End middleware.

(** ** The in-memory limiter *)

(** The answers to calls about one key at these times, in order. *)
Fixpoint answers (limit window : Z) (key : string) (times : list Time) (bs : Buckets) : list bool :=
  match times with
  | [] => []
  | t :: ts =>
      let out := take_token limit window t key bs in
      out.1.1 :: answers limit window key ts out.2
  end.

(** How many calls in [a, a + window) were allowed. *)
Fixpoint allowed_within (a window : Z) (times : list Time) (oks : list bool) : Z :=
  match times, oks with
  | t :: ts, ok :: oks' =>
      (if ok && (a <=? t) && (t <? a + window) then 1 else 0) + allowed_within a window ts oks'
  | _, _ => 0
  end%Z.

(** What a bucket still allows inside [a, a + window). *)
Definition budget (limit window a : Z) (b : option rateBucket) : Z :=
  (match b with
   | None => 2 * limit
   | Some b =>
       let left := Z.max 0 (limit - rb_count b) in
       if a <=? rb_windowStart b then left
       else if a <? rb_windowStart b + window then left + limit
       else 2 * limit
   end)%Z.

Definition after (b : option rateBucket) (t : Time) : Prop :=
  match b with None => True | Some b => (rb_windowStart b <= t)%Z end.
Definition counts (b : option rateBucket) (n : Z) : Prop :=
  match b with None => True | Some b => (1 <= rb_count b <= n)%Z end.

Fixpoint ascending (t0 : option Time) (times : list Time) : Prop :=
  match times with
  | [] => True
  | t :: ts => match t0 with Some t0 => (t0 <= t)%Z | None => True end /\ ascending (Some t) ts
  end.

Lemma within_none limit window key a ts bs :
  (forall t, t ∈ ts -> ~ (a <= t < a + window)%Z) ->
  allowed_within a window ts (answers limit window key ts bs) = 0%Z.
Proof.
  revert bs. induction ts as [|t ts IH]; intros bs Hout; [done|]. cbn [answers allowed_within].
  rewrite IH by (intros t' Ht'; apply Hout; by right).
  specialize (Hout t (list_elem_of_here _ _)).
  destruct (Z.leb_spec a t), (Z.ltb_spec t (a + window)); rewrite ?andb_true_r, ?andb_false_r; try lia; done.
Qed.

Lemma budget_nonneg limit window a b : (0 < limit)%Z -> (0 <= budget limit window a b)%Z.
Proof. intros H. destruct b as [b|]; cbn [budget]; repeat case_match; lia. Qed.

Lemma ascending_later t ts t' : ascending (Some t) ts -> t' ∈ ts -> (t <= t')%Z.
Proof.
  revert t. induction ts as [|u ts IH]; intros t H Hin; [by apply not_elem_of_nil in Hin|].
  destruct H as [Hu Hts]. apply elem_of_cons in Hin as [->|Hin]; [done|]. etrans; [exact Hu | by apply IH].
Qed.

Lemma sub_window now start window :
  (start <= now)%Z -> (0 < window < 2 ^ 63)%Z ->
  (time_Sub now start >=? window)%Z = (window <=? now - start)%Z.
Proof.
  intros H Hw. unfold time_Sub. rewrite Z.geb_leb.
  destruct (Z.leb_spec window (now - start)); [apply Z.leb_le | apply Z.leb_gt]; lia.
Qed.

Section bound.
Context (limit window : Z) (key : string) (Hlimit : (0 < limit)%Z) (Hwindow : (0 < window < 2 ^ 63)%Z).

(** One call: the next bucket, and what its answer takes from the budget. *)
Lemma take_token_budget a now bs n :
  after (bs !! key) now -> counts (bs !! key) n -> (n < 2 ^ 63 - 1)%Z -> (0 <= n)%Z ->
  (now < a + window)%Z ->
  let out := take_token limit window now key bs in
  after (out.2 !! key) now /\ counts (out.2 !! key) (n + 1) /\
  ((if out.1.1 && (a <=? now) && (now <? a + window) then 1 else 0) + budget limit window a (out.2 !! key)
   <= budget limit window a (bs !! key))%Z.
Proof.
  intros Haf Hc Hn Hn0 Hnow out. subst out. unfold take_token.
  rewrite (proj2 (Z.ltb_lt now (a + window)) Hnow), !andb_true_r.
  assert (Hfresh : forall b, (match b with Some b => window <= now - rb_windowStart b | None => True end)%Z ->
    ((if true && (a <=? now) then 1 else 0) + budget limit window a (Some {| rb_count := 1; rb_windowStart := now |})
     <= budget limit window a b)%Z).
  { intros b Hb. cbn [andb budget rb_count rb_windowStart]. destruct b as [b|]; cbn [budget];
      repeat match goal with |- context [(?x <=? ?y)%Z] => destruct (Z.leb_spec x y) end;
      repeat match goal with |- context [(?x <? ?y)%Z] => destruct (Z.ltb_spec x y) end; lia. }
  destruct (bs !! key) as [b|] eqn:Eb; cbn [after counts] in *.
  - rewrite sub_window by done. destruct (Z.leb_spec window (now - rb_windowStart b)) as [Hold|Hsame].
    + cbn [fst snd]. rewrite lookup_insert_eq. cbn [after counts rb_count rb_windowStart].
      split_and!; [lia..|]. by apply (Hfresh (Some b)).
    + cbn [fst snd rb_count rb_windowStart]. rewrite wrap64_id by (unfold int64; lia).
      rewrite lookup_insert_eq. cbn [after counts budget rb_count rb_windowStart].
      split_and!; [lia..|]. rewrite Z.gtb_ltb. destruct (Z.ltb_spec limit (rb_count b + 1)); cbn [fst andb];
        repeat match goal with |- context [(?x <=? ?y)%Z] => destruct (Z.leb_spec x y) end;
        repeat match goal with |- context [(?x <? ?y)%Z] => destruct (Z.ltb_spec x y) end; lia.
  - cbn [fst snd]. rewrite lookup_insert_eq. cbn [after counts rb_count rb_windowStart].
    split_and!; [lia..|]. by apply (Hfresh None).
Qed.

Lemma answers_budget a ts bs n t0 :
  ascending t0 ts -> (match ts with t :: _ => after (bs !! key) t | [] => True end) ->
  counts (bs !! key) n -> (0 <= n)%Z -> (n + Z.of_nat (length ts) < 2 ^ 63 - 1)%Z ->
  (allowed_within a window ts (answers limit window key ts bs) <= budget limit window a (bs !! key))%Z.
Proof.
  revert bs n t0. induction ts as [|t ts IH]; intros bs n t0 Hasc Haf Hc Hn0 Hn.
  - cbn. by apply budget_nonneg.
  - destruct Hasc as [_ Hasc]. destruct (Z.lt_ge_cases t (a + window)) as [Hlt|Hge].
    + destruct (take_token_budget a t bs n Haf Hc ltac:(cbn [length] in Hn; lia) Hn0 Hlt) as (Haf' & Hc' & Hb).
      cbn [answers allowed_within]. set (out := take_token limit window t key bs) in *.
      assert (Hrest : (allowed_within a window ts (answers limit window key ts out.2)
                       <= budget limit window a (out.2 !! key))%Z).
      { apply (IH out.2 (n + 1)%Z (Some t)); [exact Hasc| |exact Hc'|lia|cbn [length] in Hn; lia].
        destruct ts as [|t' ts]; [done|]. destruct Hasc as [Htt' _].
        destruct (out.2 !! key) as [b|]; cbn [after] in *; [lia | done]. }
      lia.
    + rewrite within_none; [by apply budget_nonneg|]. intros t' [->|Hin]%elem_of_cons; [lia|].
      pose proof (ascending_later _ _ _ Hasc Hin). lia.
Qed.

(** C33: Without Valkey, whatever the times of the calls about one key, in any
    span of one window's length at most twice the limit of them are allowed. *)
Theorem allowed_at_most_twice_limit a times :
  ascending None times -> (Z.of_nat (length times) < 2 ^ 62)%Z ->
  (allowed_within a window times (answers limit window key times ∅) <= 2 * limit)%Z.
Proof.
  intros Hasc Hn. change (2 * limit)%Z with (budget limit window a ((∅ : Buckets) !! key)).
  apply (answers_budget a times ∅ 0 None); [done| |done|lia|lia]. by destruct times.
Qed.

(** Within one window of the limiter itself exactly the first [limit]
    calls are allowed. *)
Theorem first_limit_allowed start times :
  ascending (Some start) times -> (forall t, t ∈ times -> (t < start + window)%Z) ->
  (Z.of_nat (length times) < 2 ^ 62)%Z ->
  answers limit window key (start :: times) ∅
  = map (fun i => bool_decide (Z.of_nat i < limit)%Z) (seq 0 (S (length times))).
Proof.
  intros Hasc Hin Hn. cbn [answers seq map]. unfold take_token at 1 2. rewrite lookup_empty. cbn [fst snd].
  f_equal; [by rewrite bool_decide_eq_true_2 by lia|].
  enough (H : forall ts k bs c, bs !! key = Some {| rb_count := Z.of_nat c; rb_windowStart := start |} ->
    (forall t, t ∈ ts -> start <= t < start + window)%Z -> k = c -> (Z.of_nat (c + length ts) < 2 ^ 62 + 1)%Z ->
    answers limit window key ts bs = map (fun i => bool_decide (Z.of_nat i < limit)%Z) (seq k (length ts))).
  { apply (H times 1 _ 1); [by rewrite lookup_insert_eq| |done|lia].
    intros t Ht. split; [by eapply ascending_later | by apply Hin]. }
  clear -Hlimit Hwindow. induction ts as [|t ts IH]; intros k bs c Hb Hts -> Hn; [done|].
  cbn [answers length seq map]. unfold take_token at 1 2. rewrite Hb. cbn [rb_windowStart rb_count].
  destruct (Hts t (list_elem_of_here _ _)) as [Hlo Hhi].
  rewrite sub_window by done. destruct (Z.leb_spec window (t - start)); [lia|]. cbn [fst snd].
  cbn [length] in Hn. rewrite wrap64_id by (unfold int64; lia). f_equal.
  - rewrite Z.gtb_ltb. destruct (Z.ltb_spec limit (Z.of_nat c + 1)); cbn [fst];
      [rewrite bool_decide_eq_false_2 | rewrite bool_decide_eq_true_2]; (done || lia).
  - apply (IH (S c) _ (S c)); [|intros t' Ht'; apply Hts; by right|done|lia].
    rewrite lookup_insert_eq. do 2 f_equal. lia.
Qed.
End bound.

(** ** The Valkey counter *)
Section counter.
Context {W : Type} `{!Runtime W} `{!ValkeyClient W} {time : W -> Time} {db : W -> gmap string Valkey.Entry} `{!ValkeySpec time db}.

(** The error of [EXPIRE] is dropped: a counter that was left without an
    expiry refuses its caller at any time, and still has none afterwards. *)
Lemma orphan_counter_blocks (l : RateLimiter W) key n (w : W) :
  db w !! key = Some {| ent_val := VStr (FormatInt n); ent_exp := None |} ->
  (0 < rl_limit l <= n)%Z -> (n < 2 ^ 63 - 1)%Z -> (1 <= seconds (rl_window l))%Z ->
  let out := run (allowValkey l key) w in
  out.1 = Ok (false, seconds (rl_window l)) /\
  db out.2 !! key = Some {| ent_val := VStr (FormatInt (n + 1)); ent_exp := None |}.
Proof.
  intros Hdb Hl Hn Hw out. subst out. unfold allowValkey.
  assert (Hlive : forall now n' db', db' !! key = Some {| ent_val := VStr (FormatInt n'); ent_exp := None |} ->
    live now db' key = Some {| ent_val := VStr (FormatInt n'); ent_exp := None |}).
  { intros now n' db' E. unfold live. by rewrite E. }
  rewrite run_bind. unfold Do. rewrite run_call.
  pose proof (vk_reply (INCR key) w) as Hr. pose proof (vk_effect (INCR key) w) as He.
  cbn [exec] in Hr, He. rewrite (Hlive _ n) in Hr, He by done. unfold text_of in Hr, He. cbn [ent_val mbind option_bind] in Hr, He.
  rewrite ParseInt_FormatInt in Hr, He by (unfold int64; lia).
  destruct (Z.eqb_spec n (2 ^ 63 - 1)); [lia|]. cbn [fst snd] in Hr, He. rewrite Hr. cbn [reply_error AsInt64].
  destruct (Z.eqb_spec (n + 1) 1); [lia|]. rewrite run_bind, run_ret. cbn [fst snd].
  rewrite Z.gtb_ltb. destruct (Z.ltb_spec (rl_limit l) (n + 1)); [|lia].
  rewrite run_bind, run_call. set (w1 := (vk_Do (INCR key) w).2) in *.
  assert (Hdb1 : db w1 !! key = Some {| ent_val := VStr (FormatInt (n + 1)); ent_exp := None |})
    by (rewrite He; by rewrite lookup_insert_eq).
  pose proof (vk_reply (TTL key) w1) as Hr1. pose proof (vk_effect (TTL key) w1) as He1.
  cbn [exec fst snd] in Hr1, He1. rewrite (Hlive _ (n + 1)%Z) in Hr1 by done. cbn [ent_exp] in Hr1.
  rewrite run_ret. cbn [fst snd]. rewrite Hr1, He1. cbn [AsInt64].
  change (-1 <? 0)%Z with true. cbn match. split; [|done].
  destruct (Z.ltb_spec (seconds (rl_window l)) 1); [lia | done].
Qed.
End counter.
