(* ===== verification/Apps.v ===== *)
(** * internal/apps: registered applications and their API keys

    [service.go] and the records of [apps.go].  Keys are 32 random bytes in
    hexadecimal; only the SHA-256 of a key reaches the store.  [rand.Read]
    never errs on the supported platforms (Go 1.24), so its error branch is
    not modelled. *)
From S2P Require Import Prelude GoStrings Crypto Reference Config.

Definition ErrInvalidRequest : error := Sentinel "apps: invalid request".
Definition ErrNotFound : error := Sentinel "apps: not found".
Definition ErrConflict : error := Sentinel "apps: conflict".

Record App := {
  app_ID : UUID; app_Name : string; app_Product : string; app_Prefix : string;
  app_CreatedAt : Time; app_LastUsedAt : option Time; app_RevokedAt : option Time;
  app_CreatedBy : string }.

Definition App_zero : App := {|
  app_ID := 0%N; app_Name := ""; app_Product := ""; app_Prefix := ""; app_CreatedAt := Time_zero;
  app_LastUsedAt := None; app_RevokedAt := None; app_CreatedBy := "" |}.

Record CreateAppRequest := { ca_Name : string; ca_Product : string }.

Record AppResult := {
  ar_ID : UUID; ar_Name : string; ar_Product : string; ar_APIKey : string; ar_Prefix : string;
  ar_CreatedAt : Time }.

Definition hashKey (key : string) : string := hex_EncodeToString (digest sha256 key).
Definition keyPrefix (key : string) : string :=
  if 8 <=? String.length key then take_str 8 key else key.

Section apps.
Context {W : Type} `{!Runtime W}.

Record Store := {
  InsertApp : App -> string -> Prog W (result unit);
  GetApp : UUID -> Prog W (result App);
  ListApps : Prog W (result (list App));
  UpdateAppKeyHash : UUID -> string -> string -> Prog W (result unit);
  RevokeApp : UUID -> Prog W (result unit);
  GetAppByHash : string -> Prog W (result App) }.

Record Service := { svc_store : Store; svc_env : Environment }.
Definition NewService (store : Store) (env : Environment) : Service := {| svc_store := store; svc_env := env |}.

Definition generateKey (env : Environment) : Prog W string :=
  b ← rand_Read 32;
  mret ((if String.eqb env EnvProduction then "pay_live_" else "pay_test_")
        ^^ hex_EncodeToString (of_bytes b)).

Definition CreateApp (s : Service) (req : CreateAppRequest) : Prog W (result AppResult) :=
  if String.eqb (ca_Name req) "" then
    mret (Err (Wrap (Error ErrInvalidRequest ^^ ": name is required") [ErrInvalidRequest]))
  else if String.eqb (ca_Product req) "" then
    mret (Err (Wrap (Error ErrInvalidRequest ^^ ": product is required") [ErrInvalidRequest]))
  else
    key ← generateKey (svc_env s);
    let prefix := keyPrefix key in
    let hash := hashKey key in
    id ← uuid_New;
    createdAt ← time_Now;
    inserted ← InsertApp (svc_store s)
      {| app_ID := id; app_Name := ca_Name req; app_Product := ca_Product req;
         app_Prefix := prefix; app_CreatedAt := createdAt; app_LastUsedAt := None;
         app_RevokedAt := None; app_CreatedBy := "" |} hash;
    match inserted with
    | Err err =>
        if errors_Is err ErrConflict
        then mret (Err (Wrap (Error ErrConflict ^^ ": app name already exists") [ErrConflict]))
        else mret (Err (Errorf "apps: insert: " err))
    | Ok _ =>
        mret (Ok {| ar_ID := id; ar_Name := ca_Name req; ar_Product := ca_Product req;
                    ar_APIKey := key; ar_Prefix := prefix; ar_CreatedAt := createdAt |})
    end.

(** [Service.ListApps] *)
Definition List (s : Service) : Prog W (result (list App)) :=
  r ← ListApps (svc_store s);
  mret (match r with Err err => Err (Errorf "apps: list: " err) | Ok apps => Ok apps end).

(** [fmt.Errorf("%w", ErrNotFound)] or the given prefix. *)
Definition not_found_or (prefix : string) (err : error) : error :=
  if errors_Is err ErrNotFound then Errorf "" ErrNotFound else Errorf prefix err.

(** [Service.GetApp] *)
Definition Get (s : Service) (id : UUID) : Prog W (result App) :=
  r ← GetApp (svc_store s) id;
  mret (match r with Err err => Err (not_found_or "apps: get: " err) | Ok app => Ok app end).

Definition RotateKey (s : Service) (id : UUID) : Prog W (result AppResult) :=
  r ← GetApp (svc_store s) id;
  match r with
  | Err err => mret (Err (not_found_or "apps: get: " err))
  | Ok app =>
      match app_RevokedAt app with
      | Some _ => mret (Err (Wrap (Error ErrInvalidRequest ^^ ": app revoked") [ErrInvalidRequest]))
      | None =>
          key ← generateKey (svc_env s);
          let prefix := keyPrefix key in
          let hash := hashKey key in
          updated ← UpdateAppKeyHash (svc_store s) id hash prefix;
          match updated with
          | Err err => mret (Err (Errorf "apps: rotate: " err))
          | Ok _ =>
              mret (Ok {| ar_ID := app_ID app; ar_Name := app_Name app;
                          ar_Product := app_Product app; ar_APIKey := key; ar_Prefix := prefix;
                          ar_CreatedAt := app_CreatedAt app |})
          end
      end
  end.

(** [Service.RevokeApp] *)
Definition Revoke (s : Service) (id : UUID) : Prog W (result unit) :=
  r ← RevokeApp (svc_store s) id;
  mret (match r with Err err => Err (not_found_or "apps: revoke: " err) | Ok _ => Ok tt end).
End apps.
Arguments Store W : clear implicits.
Arguments Service W : clear implicits.
