(* ===== verification/Handlers.v ===== *)
(** * internal/api/handlers.go and apps.go: the operator's endpoints

    Charges, refunds, payouts and application keys: decode the request, call
    the component, map its outcome to an answer.  [uuid.Parse] is a parameter
    ([uuid_Parse]); the [metadata] of a charge is decoded and dropped, as
    nothing reads it. *)
From S2P Require Import Prelude GoStrings Json JsonCodec Money Reference Ledger Config Gateway Router.
From S2P Require Import Valkey Http Charges Payouts Apps Api RateLimit.
From Stdlib Require Import Ascii.

(** ** Bodies *)
Record charge_body := {
  cb_Product : string; cb_AmountPesewas : Z; cb_Currency : string; cb_Wallet : string; cb_Phone : string;
  cb_IdempotencyKey : string; cb_Metadata : json }.
Definition charge_body_zero : charge_body := {|
  cb_Product := ""; cb_AmountPesewas := 0; cb_Currency := ""; cb_Wallet := ""; cb_Phone := "";
  cb_IdempotencyKey := ""; cb_Metadata := JNull |}.

(** [map[string]any]: an object is added to what is there, [null] clears it;
    the contents are not read. *)
Definition dec_map : decoder json := fun v _ =>
  match v with JObj _ => if numbers_ok v then Some v else None | JNull => Some JNull | _ => None end.

Definition dec_charge_body : decoder charge_body := dec_struct true [
  ("product", dec_field cb_Product (fun x b => {| cb_Product := x; cb_AmountPesewas := cb_AmountPesewas b; cb_Currency := cb_Currency b; cb_Wallet := cb_Wallet b; cb_Phone := cb_Phone b; cb_IdempotencyKey := cb_IdempotencyKey b; cb_Metadata := cb_Metadata b |}) dec_string);
  ("amount_pesewas", dec_field cb_AmountPesewas (fun x b => {| cb_Product := cb_Product b; cb_AmountPesewas := x; cb_Currency := cb_Currency b; cb_Wallet := cb_Wallet b; cb_Phone := cb_Phone b; cb_IdempotencyKey := cb_IdempotencyKey b; cb_Metadata := cb_Metadata b |}) dec_int64);
  ("currency", dec_field cb_Currency (fun x b => {| cb_Product := cb_Product b; cb_AmountPesewas := cb_AmountPesewas b; cb_Currency := x; cb_Wallet := cb_Wallet b; cb_Phone := cb_Phone b; cb_IdempotencyKey := cb_IdempotencyKey b; cb_Metadata := cb_Metadata b |}) dec_string);
  ("wallet", dec_field cb_Wallet (fun x b => {| cb_Product := cb_Product b; cb_AmountPesewas := cb_AmountPesewas b; cb_Currency := cb_Currency b; cb_Wallet := x; cb_Phone := cb_Phone b; cb_IdempotencyKey := cb_IdempotencyKey b; cb_Metadata := cb_Metadata b |}) dec_string);
  ("phone", dec_field cb_Phone (fun x b => {| cb_Product := cb_Product b; cb_AmountPesewas := cb_AmountPesewas b; cb_Currency := cb_Currency b; cb_Wallet := cb_Wallet b; cb_Phone := x; cb_IdempotencyKey := cb_IdempotencyKey b; cb_Metadata := cb_Metadata b |}) dec_string);
  ("idempotency_key", dec_field cb_IdempotencyKey (fun x b => {| cb_Product := cb_Product b; cb_AmountPesewas := cb_AmountPesewas b; cb_Currency := cb_Currency b; cb_Wallet := cb_Wallet b; cb_Phone := cb_Phone b; cb_IdempotencyKey := x; cb_Metadata := cb_Metadata b |}) dec_string);
  ("metadata", dec_field cb_Metadata (fun x b => {| cb_Product := cb_Product b; cb_AmountPesewas := cb_AmountPesewas b; cb_Currency := cb_Currency b; cb_Wallet := cb_Wallet b; cb_Phone := cb_Phone b; cb_IdempotencyKey := cb_IdempotencyKey b; cb_Metadata := x |}) dec_map)].

Record payout_entry_body := { eb_Recipient : string; eb_AmountPesewas : Z; eb_Currency : string }.
Definition payout_entry_zero : payout_entry_body := {| eb_Recipient := ""; eb_AmountPesewas := 0; eb_Currency := "" |}.
Definition dec_payout_entry : decoder payout_entry_body := dec_struct true [
  ("recipient", dec_field eb_Recipient (fun x b => {| eb_Recipient := x; eb_AmountPesewas := eb_AmountPesewas b; eb_Currency := eb_Currency b |}) dec_string);
  ("amount_pesewas", dec_field eb_AmountPesewas (fun x b => {| eb_Recipient := eb_Recipient b; eb_AmountPesewas := x; eb_Currency := eb_Currency b |}) dec_int64);
  ("currency", dec_field eb_Currency (fun x b => {| eb_Recipient := eb_Recipient b; eb_AmountPesewas := eb_AmountPesewas b; eb_Currency := x |}) dec_string)].

Record payout_body := { pb_product : string; pb_key : string; pb_entries : list payout_entry_body }.
Definition payout_body_zero : payout_body := {| pb_product := ""; pb_key := ""; pb_entries := [] |}.
Definition dec_payout_body : decoder payout_body := dec_struct true [
  ("product", dec_field pb_product (fun x b => {| pb_product := x; pb_key := pb_key b; pb_entries := pb_entries b |}) dec_string);
  ("idempotency_key", dec_field pb_key (fun x b => {| pb_product := pb_product b; pb_key := x; pb_entries := pb_entries b |}) dec_string);
  ("entries", dec_field pb_entries (fun x b => {| pb_product := pb_product b; pb_key := pb_key b; pb_entries := x |}) (dec_slice dec_payout_entry payout_entry_zero))].

Record refund_body := { rb_AmountPesewas : Z; rb_Currency : string }.
Definition dec_refund_body : decoder refund_body := dec_struct true [
  ("amount_pesewas", dec_field rb_AmountPesewas (fun x b => {| rb_AmountPesewas := x; rb_Currency := rb_Currency b |}) dec_int64);
  ("currency", dec_field rb_Currency (fun x b => {| rb_AmountPesewas := rb_AmountPesewas b; rb_Currency := x |}) dec_string)].

Definition dec_app_body : decoder CreateAppRequest := dec_struct true [
  ("name", dec_field ca_Name (fun x b => {| ca_Name := x; ca_Product := ca_Product b |}) dec_string);
  ("product", dec_field ca_Product (fun x b => {| ca_Name := ca_Name b; ca_Product := x |}) dec_string)].

Definition internal_error : Response := writeError 500 "internal_error" "internal error".

Section handlers.
Context {W : Type} `{!Runtime W} (json_error : string -> string).

(** ** Charges *)
Definition charge_request (b : charge_body) : ChargeRequest := {|
  cr_Product := cb_Product b; cr_Amount := New (cb_AmountPesewas b) (cb_Currency b);
  cr_Wallet := cb_Wallet b; cr_Phone := cb_Phone b; cr_IdempotencyKey := cb_IdempotencyKey b |}.

(** The members of a [map[string]any] are written in key order. *)
Definition charge_answer (res : result ChargeResult) : Response :=
  match res with
  | Err err =>
      if errors_Is err Charges.ErrInvalidRequest then writeError 400 "invalid_request" (Error err)
      else internal_error
  | Ok (Pending v) =>
      writeJSON 201 (JObj [("authorization_url", JStr (cp_AuthorizationURL v));
        ("external_ref", JStr (cp_ExternalRef v)); ("gateway", JStr (cp_Gateway v));
        ("ref", JStr (cp_Ref v)); ("status", JStr "pending")])
  | Ok (ChargeFailed reason) => writeError 502 "unavailable" reason
  | Ok (ChargeSucceeded ref g _ _) =>
      writeJSON 201 (JObj [("gateway", JStr g); ("ref", JStr ref); ("status", JStr "succeeded")])
  end.

Definition handleCreateCharge (s : Charges.Service W) : Handler W := fun r =>
  match decodeJSON json_error dec_charge_body charge_body_zero (rq_Body r) with
  | inl refused => mret refused
  | inr body => result ← Charges.Initiate s (charge_request body); mret (charge_answer result)
  end.

Definition handleChargeStatus (s : Charges.Service W) : Handler W := fun r =>
  let ref := rq_Param r "ref" in
  if String.eqb ref "" then mret (writeError 400 "invalid_request" "ref is required")
  else
    result ← Charges.Status s ref;
    mret (match result with
          | Err err =>
              if errors_Is err Charges.ErrInvalidRequest then writeError 400 "invalid_request" (Error err)
              else internal_error
          | Ok v => writeJSON 200 (JObj [("ref", JStr (vr_Reference v)); ("status", JStr (vr_Status v));
                                         ("verified_at", JStr (RFC3339Nano (vr_VerifiedAt v)))])
          end).

(** ** Refunds *)
Definition refund_amount (b : refund_body) : Money :=
  if String.eqb (rb_Currency b) "" then New (rb_AmountPesewas b) GHS
  else New (rb_AmountPesewas b) (rb_Currency b).

Definition refund_answer (ref : string) (res : result unit) : Response :=
  match res with
  | Ok _ => writeJSON 200 (JObj [("ref", JStr ref); ("status", JStr "refunded")])
  | Err err =>
      if errors_Is err ErrNotSupported then writeError 501 "not_implemented" (Error err)
      else writeError 502 "unavailable" (Error err)
  end.

Definition handleRefundCharge (rt : ChargerRouter W) : Handler W := fun r =>
  let ref := rq_Param r "ref" in
  if String.eqb ref "" then mret (writeError 400 "invalid_request" "ref is required")
  else match decodeJSON json_error dec_refund_body {| rb_AmountPesewas := 0; rb_Currency := "" |} (rq_Body r) with
  | inl refused => mret refused
  | inr body =>
      if (rb_AmountPesewas body <=? 0)%Z
      then mret (writeError 400 "invalid_request" "amount_pesewas must be positive")
      else match ParseReference ref with
      | None => mret (writeError 400 "invalid_request" "malformed reference")
      | Some (_, gw, _) =>
          match Adapter rt gw with
          | None => mret (writeError 404 "not_found" "no adapter for gateway")
          | Some adapter => res ← Refund adapter ref (refund_amount body); mret (refund_answer ref res)
          end
      end
  end.

(** ** Payouts *)
Definition payout_request (b : payout_body) : CreateRequest := {|
  pc_Product := pb_product b;
  pc_Entries := map (fun e => {| pe_Recipient := eb_Recipient e;
                                 pe_Amount := New (eb_AmountPesewas e) (eb_Currency e);
                                 pe_Reference := ""; pe_VendorID := "" |}) (pb_entries b);
  pc_IdempotencyKey := pb_key b; pc_BatchDate := None |}.

Definition payout_answer (res : result PayoutBatch) : Response :=
  match res with
  | Err err =>
      if errors_Is err Payouts.ErrInvalidRequest then writeError 400 "invalid_request" (Error err)
      else if errors_Is err ErrInsufficientFunds then writeError 409 "conflict" (Error err)
      else internal_error
  | Ok batch =>
      writeJSON 201 (JObj [("batch_id", JStr (uuid_String (pb_ID batch))); ("product", JStr (pb_Product batch));
        ("status", JStr (pb_Status batch)); ("total_pesewas", JNum (FormatInt (minorUnits (pb_Total batch))))])
  end.

Definition handleCreatePayout (s : Payouts.Service W) : Handler W := fun r =>
  match decodeJSON json_error dec_payout_body payout_body_zero (rq_Body r) with
  | inl refused => mret refused
  | inr body => batch ← Payouts.Create s (payout_request body); mret (payout_answer batch)
  end.

(** ** Applications *)
Context (uuid_Parse : string -> option UUID).

(** [omitempty] on a pointer: no member for nil. *)
Definition optional_time (name : string) (t : option Time) : list (string * json) :=
  match t with Some t => [(name, JStr (RFC3339Nano t))] | None => [] end.

Definition json_App (a : Apps.App) : json := JObj (
  [("id", JStr (uuid_String (app_ID a))); ("name", JStr (app_Name a)); ("product", JStr (app_Product a));
   ("api_key_prefix", JStr (app_Prefix a)); ("created_at", JStr (RFC3339Nano (app_CreatedAt a)))]
  ++ optional_time "last_used_at" (app_LastUsedAt a) ++ optional_time "revoked_at" (app_RevokedAt a)
  ++ [("created_by", JStr (app_CreatedBy a))]).

Definition json_AppResult (a : AppResult) : json := JObj (
  [("id", JStr (uuid_String (ar_ID a))); ("name", JStr (ar_Name a)); ("product", JStr (ar_Product a))]
  ++ (if String.eqb (ar_APIKey a) "" then [] else [("api_key", JStr (ar_APIKey a))])
  ++ [("api_key_prefix", JStr (ar_Prefix a)); ("created_at", JStr (RFC3339Nano (ar_CreatedAt a)))]).

Definition handleCreateApp (s : Apps.Service W) : Handler W := fun r =>
  match decodeJSON json_error dec_app_body {| ca_Name := ""; ca_Product := "" |} (rq_Body r) with
  | inl refused => mret refused
  | inr body =>
      if String.eqb (ca_Name body) "" || String.eqb (ca_Product body) ""
      then mret (writeError 400 "invalid_request" "name and product are required")
      else
        result ← CreateApp s body;
        mret (match result with
              | Err err =>
                  if errors_Is err Apps.ErrInvalidRequest then writeError 400 "invalid_request" (Error err)
                  else if errors_Is err Apps.ErrConflict then writeError 409 "conflict" (Error err)
                  else internal_error
              | Ok a => writeJSON 201 (json_AppResult a)
              end)
  end.

Definition handleListApps (s : Apps.Service W) : Handler W := fun _ =>
  list ← Apps.List s;
  mret (match list with
        | Err _ => internal_error
        | Ok l => writeJSON 200 (JArr (map json_App l))
        end).

(** The identifier in the path, under either of its names. *)
Definition path_app_id (r : Request) : option UUID :=
  let idStr := rq_Param r "id" in
  uuid_Parse (if String.eqb idStr "" then rq_Param r "appID" else idStr).

Definition with_app_id (r : Request) (k : UUID -> Prog W Response) : Prog W Response :=
  match path_app_id r with
  | None => mret (writeError 400 "invalid_request" "invalid app id")
  | Some id => k id
  end.
Definition app_not_found : Response := writeError 404 "not_found" "app not found".

Definition handleGetApp (s : Apps.Service W) : Handler W := fun r => with_app_id r (fun id =>
  a ← Apps.Get s id;
  mret (match a with
        | Err err => if errors_Is err Apps.ErrNotFound then app_not_found else internal_error
        | Ok a => writeJSON 200 (json_App a)
        end)).

Definition handleRotateAppKey (s : Apps.Service W) : Handler W := fun r => with_app_id r (fun id =>
  result ← RotateKey s id;
  mret (match result with
        | Err err =>
            if errors_Is err Apps.ErrNotFound then app_not_found
            else if errors_Is err Apps.ErrInvalidRequest then writeError 400 "invalid_request" (Error err)
            else internal_error
        | Ok a => writeJSON 200 (json_AppResult a)
        end)).

Definition handleRevokeApp (s : Apps.Service W) : Handler W := fun r => with_app_id r (fun id =>
  res ← Revoke s id;
  mret (match res with
        | Err err => if errors_Is err Apps.ErrNotFound then app_not_found else internal_error
        | Ok _ => {| rs_Status := 204; rs_Header := []; rs_Cookie := None; rs_Body := "" |}
        end)).
End handlers.

(** ** The [/v1] chain of [NewRouter] *)
Section chain.
Context {W : Type} `{!Runtime W} `{!ValkeyClient W}.

(** What stands between the multiplexer and a [/v1] handler. *)
Definition v1 (cfg : Config) (keyLimiter : RateLimiter W) (h : Handler W) : Handler W :=
  bearerAuth cfg (rateLimitAPIKeyMiddleware keyLimiter h).
End chain.
