(* ===== verification/ClientSpec.v ===== *)
(** * A charge through the Go client is the service's own

    The client over a transport that hands its request to the service's
    handler behind [bearerAuth]: what [createCharge] answers is what
    [Charges.Initiate] said of the request the caller made. *)
From S2P Require Import Prelude GoStrings Json JsonCodec Money Reference Config Ledger Gateway Router.
From S2P Require Import Http Charges Payouts Apps Api ApiWebhooks Handlers Client.
From Stdlib Require Import Ascii.

(** ** JSON between the two *)
Lemma read_limited_all s n : (N.of_nat (String.length s) <= n)%N -> read_limited n s = s.
Proof.
  revert n. induction s as [|a s IH]; intros n Hn; [done|]. cbn [read_limited String.length] in *.
  destruct (N.eqb_spec n 0); [lia|]. by rewrite IH by lia.
Qed.

Lemma read_Marshal v rest :
  literals_ok v -> (height v <= maxNestingDepth)%N -> delimited rest = true ->
  parse_value (2 * String.length (Marshal v ^^ rest) + 2) 0 (Marshal v ^^ rest) = Some (Sanitize v, rest).
Proof.
  intros Hl Hh Hr. apply Marshal_reads; [done|done|lia|]. pose proof (fuel_of_length v Hl). rewrite length_append. lia.
Qed.

Lemma decodeJSON_Marshal {A} json_error (d : decoder A) zero v :
  literals_ok v -> (height v <= maxNestingDepth)%N -> (N.of_nat (String.length (Marshal v)) <= maxBodyBytes)%N ->
  forall x, d (Sanitize v) zero = Some x -> decodeJSON json_error d zero (Marshal v) = inr x.
Proof.
  intros Hl Hh Hs x Hx. unfold decodeJSON. rewrite read_limited_all by done.
  pose proof (read_Marshal v "" Hl Hh eq_refl) as H. rewrite append_nil_r in H. by rewrite H, Hx.
Qed.

(** What [Encode] wrote parses. *)
Lemma parse_Encode v : literals_ok v -> (height v <= maxNestingDepth)%N -> parse (Encode v) = Some (Sanitize v).
Proof. intros Hl Hh. unfold parse, Encode. by rewrite (read_Marshal v (chr "010") Hl Hh eq_refl). Qed.

Lemma Sanitize_members ms :
  forallb (fun kv => ascii_only kv.1) ms = true ->
  Sanitize (JObj ms) = JObj (map (fun kv => (kv.1, Sanitize kv.2)) ms).
Proof.
  intros Ha. cbn [Sanitize]. f_equal. induction ms as [|[k v] ms IH]; [done|]. cbn [forallb map fst snd] in *.
  apply andb_true_iff in Ha as [Hk Hms]. by rewrite sanitize_ascii, IH.
Qed.

Lemma dec_member {A B} strict (fields : list (string * decoder A)) k v ms cur (get : A -> B) set d x :
  find_field fields k = Some (dec_field get set d) -> d v (get cur) = Some x ->
  dec_members strict fields ((k, v) :: ms) cur = dec_members strict fields ms (set x cur).
Proof. intros Hf Hd. cbn [dec_members]. rewrite Hf. unfold dec_field. by rewrite Hd. Qed.

Lemma dec_int64_FormatInt z cur : int64 z -> dec_int64 (JNum (FormatInt z)) cur = Some z.
Proof. apply ParseInt_FormatInt. Qed.

Lemma dec_map_ok ms cur : numbers_ok (JObj ms) = true -> dec_map (JObj ms) cur = Some (JObj ms).
Proof. intros Hn. unfold dec_map. by rewrite Hn. Qed.

(** Decode the members one by one. *)
Ltac dec_steps :=
  repeat (erewrite dec_member; [|reflexivity|first [by apply dec_int64_FormatInt | by apply dec_map_ok | reflexivity]]).

(** ** The request *)
Definition sent_wallet (req : CreateChargeRequest) : string :=
  if String.eqb (cc_Wallet req) "" then cc_Phone req else cc_Wallet req.

(** What the service is asked for. *)
Definition asked (req : CreateChargeRequest) (key : string) : ChargeRequest := {|
  cr_Product := sanitize (cc_Product req);
  cr_Amount := New (cc_AmountPesewas req) (sanitize (if String.eqb (cc_Currency req) "" then "GHS" else cc_Currency req));
  cr_Wallet := sanitize (sent_wallet req);
  cr_Phone := if String.eqb (cc_Phone req) (sent_wallet req) then "" else sanitize (cc_Phone req);
  cr_IdempotencyKey := sanitize key |}.

(** A metadata map, or none, that the service can read back. *)
Definition metadata_ok (req : CreateChargeRequest) : Prop :=
  match cc_Metadata req with
  | None => True
  | Some (Ok m) => (exists ms, m = JObj ms) /\ literals_ok m /\ (height m < maxNestingDepth)%N /\ numbers_ok (Sanitize m) = true
  | Some (Err _) => False
  end.

(** Whether the phone is sent beside the wallet. *)
Definition phone_sent (req : CreateChargeRequest) : bool :=
  negb (String.eqb (sent_wallet req) "") && negb (String.eqb (cc_Phone req) "")
  && negb (String.eqb (cc_Phone req) (sent_wallet req)).

Lemma asked_phone req key :
  cr_Phone (asked req key) = if phone_sent req then sanitize (cc_Phone req) else "".
Proof.
  unfold asked, phone_sent. cbn [cr_Phone]. destruct (String.eqb_spec (cc_Phone req) (sent_wallet req)) as [->|Hne].
  { by rewrite andb_false_r. }
  rewrite andb_true_r. destruct (String.eqb_spec (cc_Phone req) "") as [->|Hp]; [by rewrite andb_false_r|].
  destruct (String.eqb_spec (sent_wallet req) "") as [Hw|]; [|done]. exfalso. unfold sent_wallet in *.
  destruct (String.eqb_spec (cc_Wallet req) ""); congruence.
Qed.

Definition charge_members (req : CreateChargeRequest) (key : string) (metadata : list (string * json)) : list (string * json) :=
  [("amount_pesewas", JNum (FormatInt (cc_AmountPesewas req)));
   ("currency", JStr (if String.eqb (cc_Currency req) "" then "GHS" else cc_Currency req));
   ("idempotency_key", JStr key)]
  ++ metadata
  ++ (if phone_sent req then [("phone", JStr (cc_Phone req))] else [])
  ++ [("product", JStr (cc_Product req))]
  ++ (if negb (String.eqb (sent_wallet req) "") then [("wallet", JStr (sent_wallet req))] else []).

Lemma charge_json_members req key :
  charge_json req key = match cc_Metadata req with
                        | None => Ok (JObj (charge_members req key []))
                        | Some (Ok m) => Ok (JObj (charge_members req key [("metadata", m)]))
                        | Some (Err err) => Err err
                        end.
Proof. reflexivity. Qed.

Lemma decodes_members req key metadata (meta : json) :
  int64 (cc_AmountPesewas req) ->
  metadata = [] \/ (exists ms, meta = JObj ms /\ numbers_ok (Sanitize meta) = true /\ metadata = [("metadata", meta)]) ->
  exists b, dec_charge_body (Sanitize (JObj (charge_members req key metadata))) charge_body_zero = Some b
    /\ charge_request b = asked req key.
Proof.
  intros Hi Hm. pose proof (asked_phone req key) as Hp.
  assert (Hw : sent_wallet req = "" -> sanitize (sent_wallet req) = "") by (by intros ->).
  unfold charge_members in *.
  destruct (phone_sent req), (String.eqb_spec (sent_wallet req) "") as [Ew|Ew], Hm as [-> | (ms & -> & Hn & ->)];
    rewrite Sanitize_members by reflexivity; cbn [app map fst snd negb Sanitize] in *;
    unfold dec_charge_body, dec_struct; dec_steps; eexists; (split; [reflexivity|]);
    unfold charge_request, asked in *; cbn in Hp |- *; rewrite Hp, ?Ew; done.
Qed.

Lemma charge_json_decodes req key :
  int64 (cc_AmountPesewas req) -> metadata_ok req ->
  exists v b, charge_json req key = Ok v /\ literals_ok v /\ (height v <= maxNestingDepth)%N
    /\ dec_charge_body (Sanitize v) charge_body_zero = Some b /\ charge_request b = asked req key.
Proof.
  intros Hi Hm. rewrite charge_json_members. unfold metadata_ok in Hm.
  pose proof (FormatInt_literal (cc_AmountPesewas req)) as Hlit.
  assert (Hmax : (1 <= maxNestingDepth)%N) by (unfold maxNestingDepth; lia).
  destruct (cc_Metadata req) as [[m|]|]; [|done|].
  - destruct Hm as ((ms & ->) & Hl & Hh & Hn).
    destruct (decodes_members req key [("metadata", JObj ms)] (JObj ms) Hi) as (b & Hb & Ha); [by right; exists ms|].
    eexists _, b. split; [reflexivity|]. split_and!; [| |exact Hb|exact Ha]; clear Hb;
      unfold charge_members; destruct (phone_sent req), (negb _); cbn [app literals_ok height fold_right fst snd] in *;
      first [by split_and! | lia].
  - destruct (decodes_members req key [] JNull Hi) as (b & Hb & Ha); [by left|].
    eexists _, b. split; [reflexivity|]. split_and!; [| |exact Hb|exact Ha]; clear Hb;
      unfold charge_members; destruct (phone_sent req), (negb _); cbn [app literals_ok height fold_right fst snd] in *;
      first [by split_and! | lia].
Qed.

(** ** The answer *)
Lemma decode_chargeWire v : 
  literals_ok v -> (height v <= maxNestingDepth)%N ->
  forall x, dec_chargeWire (Sanitize v) chargeWire_zero = Some x -> Unmarshal dec_chargeWire chargeWire_zero (Encode v) = Ok x.
Proof. intros Hl Hh x Hx. unfold Unmarshal. by rewrite parse_Encode, Hx. Qed.

Lemma envelope_writeError status code msg :
  envelope (rs_Body (writeError status code msg)) = (sanitize code, sanitize msg).
Proof. unfold envelope, writeError, writeJSON. cbn [rs_Body]. rewrite parse_Encode by (cbn; tauto || done). reflexivity. Qed.

(** What the client's caller is told of what [Charges.Initiate] said. *)
Definition told (res : result Charges.ChargeResult) (answer : option ChargeResult * option ClientError) : Prop :=
  match res with
  | Ok (Charges.Pending p) =>
      answer = (Some (ChargePending (sanitize (cp_Ref p)) (sanitize (cp_Gateway p)) (sanitize (cp_ExternalRef p))), None)
  | Ok (Charges.ChargeSucceeded ref g _ _) => answer = (Some (ChargeSucceeded (sanitize ref) (sanitize g) 0 "" ""), None)
  | Ok (Charges.ChargeFailed reason) =>
      sanitize reason <> "" -> answer = (Some (ChargeFailed (sanitize reason)), None)
  | Err err =>
      exists e, answer = (None, Some e)
        /\ client_Is e ErrInvalidRequest = errors_Is err Charges.ErrInvalidRequest
        /\ client_Is e ErrRequestFailed = negb (errors_Is err Charges.ErrInvalidRequest)
  end.

(** Reading the service's answer whole. *)
Definition heard (resp : Response) (status_text : string) : ObservedCharge * option ClientError :=
  let out := read_answer 0 {| rp_StatusCode := rs_Status resp; rp_Status := status_text; rp_Body := rs_Body resp;
                              rp_broken := None |} in
  observe_charge out.1 out.2.

Definition caller (out : ObservedCharge * option ClientError) : option ChargeResult * option ClientError :=
  match out.2 with Some err => (None, Some err) | None => (oc_Result out.1, None) end.

Lemma heard_success v status_text x :
  literals_ok v -> (height v <= maxNestingDepth)%N -> dec_chargeWire (Sanitize v) chargeWire_zero = Some x ->
  caller (heard (writeJSON 201 v) status_text) = (Some (charge_result x), None).
Proof.
  intros Hl Hh Hx. unfold heard, read_answer, ReadAll, writeJSON. cbn -[Encode Unmarshal].
  by rewrite (decode_chargeWire v Hl Hh x Hx).
Qed.

Lemma heard_failure status code msg status_text :
  (status = 400 \/ status = 500 \/ status = 502)%Z -> sanitize code = code -> code <> "" ->
  exists message, (sanitize msg <> "" -> message = sanitize msg) /\
  let e := {| ae_StatusCode := status; ae_Code := code; ae_Message := message |} in
  caller (heard (writeError status code msg) status_text)
  = if String.eqb code "unavailable" then (Some (ChargeFailed message), None) else (None, Some (joined_error status e)).
Proof.
  intros Hs Hc Hne%String.eqb_neq.
  set (rp := {| rp_StatusCode := status; rp_Status := status_text; rp_Body := rs_Body (writeError status code msg);
                rp_broken := None |}).
  assert (He : exists message, (sanitize msg <> "" -> message = sanitize msg) /\
    api_error rp (rp_Body rp) = {| ae_StatusCode := status; ae_Code := code; ae_Message := message |}).
  { eexists. split; [|unfold api_error, rp; cbn [rp_Body]; rewrite envelope_writeError, Hc, Hne; reflexivity].
    intros Hm%String.eqb_neq. by rewrite Hm. }
  destruct He as (message & Hm & He). exists message. split; [done|]. cbv zeta.
  assert (Hr : read_answer 0 rp = (rp_Body rp, Some (joined_error status (api_error rp (rp_Body rp)))))
    by (destruct Hs as [-> | [-> | ->]]; reflexivity).
  unfold heard. change (rs_Status (writeError status code msg)) with status. fold rp. rewrite Hr, He.
  unfold caller, observe_charge. cbn [fst snd].
  assert (Ha : forall e, as_APIError (joined_error status e) = Some e) by (by destruct Hs as [-> | [-> | ->]]).
  rewrite Ha. cbn [ae_Code ae_Message]. by destruct (String.eqb code "unavailable").
Qed.

Lemma heard_told res status_text : told res (caller (heard (charge_answer res) status_text)).
Proof.
  destruct res as [[ref g ext at_|p|reason]|err]; cbn [charge_answer told].
  - etrans; [apply heard_success; [cbn; tauto | done | reflexivity] | reflexivity].
  - etrans; [apply heard_success; [cbn; tauto | done | reflexivity] | reflexivity].
  - intros Hne. destruct (heard_failure 502 "unavailable" reason status_text) as (m & Hm & ->); [auto|done|done|].
    cbn. by rewrite Hm.
  - unfold internal_error. destruct (errors_Is err Charges.ErrInvalidRequest).
    + destruct (heard_failure 400 "invalid_request" (Error err) status_text) as (m & _ & ->); [auto|done|done|].
      eexists. split; [reflexivity|done].
    + destruct (heard_failure 500 "internal_error" "internal error" status_text) as (m & _ & ->); [auto|done|done|].
      eexists. split; [reflexivity|done].
Qed.

(** ** The call *)

(** The service's side of a request: its path, headers and body. *)
Definition deliver (base : string) (q : HttpRequest) : Request := {|
  rq_Method := hq_Method q; rq_Path := TrimPrefix (hq_URL q) base; rq_RemoteAddr := "";
  rq_Header name := default "" (snd <$> (snd <$> list_find (fun h => h.1 = name) (hq_Header q)));
  rq_Cookies := []; rq_Query _ := ""; rq_Param _ := ""; rq_Body := hq_Body q |}.

Section call.
Context {W : Type} `{!Runtime W} (json_error : string -> string) (status_text : Z -> string).

(** A transport with the handler at its end. *)
Definition served_by (base : string) (h : Handler W) : ApiTransport W := {|
  api_Do q := fun w =>
    let '(resp, w') := run (h (deliver base q)) w in
    (Ok {| rp_StatusCode := rs_Status resp; rp_Status := status_text (rs_Status resp); rp_Body := rs_Body resp;
           rp_broken := None |}, w');
  api_bad_URL _ := None |}.

(** C14: A charge made through the client is the charge the service makes of it,
    once: with the configured key, for a request whose amount is an int64 and
    whose body fits the service's limit, the call runs [Charges.Initiate] on
    what the caller asked (strings as UTF-8, GHS for no currency, a wallet
    from the phone) and changes nothing else, and the caller is told what it
    said: the reference and gateway of a pending charge, the reason of a
    failed one, [ErrInvalidRequest] for an invalid request and
    [ErrRequestFailed] for any other error. *)
Theorem CreateCharge_is_Initiate (c : Client) req (cfg : Config) (s : Charges.Service W) w :
  cl_apiKey c = APIKey (Auth cfg) -> int64 (cc_AmountPesewas req) -> metadata_ok req ->
  let key := (run (idempotency_key req) w).1 in
  let w1 := (run (idempotency_key req) w).2 in
  (forall v, charge_json req key = Ok v -> (N.of_nat (String.length (Marshal v)) <= maxBodyBytes)%N) ->
  let out := run (CreateCharge (ApiTransport0 := served_by (cl_baseURL c) (bearerAuth cfg (handleCreateCharge json_error s))) c req) w in
  let local := run (Charges.Initiate s (asked req key)) w1 in
  out.2 = local.2 /\ told local.1 out.1.
Proof.
  intros Hkey Hi Hm key w1 Hlen. cbv zeta.
  destruct (charge_json_decodes req key Hi Hm) as (v & b & Hv & Hl & Hh & Hd & Ha). specialize (Hlen v Hv).
  unfold CreateCharge, createCharge, doJSONBytes. rewrite !run_bind. fold key w1. rewrite Hv.
  cbn [api_bad_URL served_by]. rewrite run_bind, run_call. cbn [api_Do served_by].
  set (q := {| hq_Method := POST; hq_URL := _; hq_Header := _; hq_Body := _ |}).
  assert (Hauth : run (bearerAuth cfg (handleCreateCharge json_error s) (deliver (cl_baseURL c) q)) w1
    = run (handleCreateCharge json_error s (deliver (cl_baseURL c) q)) w1).
  { unfold bearerAuth. destruct (String.eqb_spec (APIKey (Auth cfg)) "") as [E|E]; [done|].
    rewrite run_bind. unfold hasValidSession. change (cookie_value _ _) with (@None string). cbn match. rewrite run_ret. cbn [fst snd].
    assert (Ht : TrimPrefix (rq_Header (deliver (cl_baseURL c) q) "Authorization") "Bearer " = APIKey (Auth cfg)).
    { unfold q, deliver, headers. cbn [rq_Header hq_Header]. rewrite Hkey. rewrite (proj2 (String.eqb_neq _ _) E).
      cbn. done. }
    by rewrite Ht, (proj2 (validSecret_iff json_error _ _ E) eq_refl). }
  rewrite Hauth. unfold handleCreateCharge. change (rq_Body (deliver _ q)) with (Marshal v).
  rewrite (decodeJSON_Marshal json_error _ _ v Hl Hh Hlen b Hd), Ha, run_bind, run_ret. cbn [fst snd].
  destruct (run (Charges.Initiate s (asked req key)) w1) as [res w2]. cbn [fst snd]. rewrite run_ret. cbn [fst snd].
  split; [done|]. apply (heard_told res (status_text (rs_Status (charge_answer res)))).
Qed.
End call.
