(* ===== verification/Database.v ===== *)
(** * internal/storage/postgres: the schema and the queries

    The tables of migrations/, and the statements of the sqlc queries
    and of pg_store.go's own SQL as functions on them.  A statement
    runs at the server's [now()] and either fails, changing nothing, or
    answers with the tables after it; a transaction is a sequence of
    statements ([mbind]), all or nothing.  Constraints are those the
    migrations declare; server messages are reduced to their SQLSTATE.

    The server is reached through [Postgres]; [PostgresSpec] is what the code
    relies on: an answered statement had its effect, a failed one had none. *)
From S2P Require Import Prelude GoStrings Money Reference Ledger.

(** ** Errors *)
Definition ErrNoRows : error := Sentinel "no rows in result set".
Definition pg_error (code : string) : error := Sentinel ("SQLSTATE " ^^ code).
Definition unique_violation : error := pg_error "23505".
Definition check_violation : error := pg_error "23514".
Definition foreign_key_violation : error := pg_error "23503".

(** [errors.As(err, &pgErr) && pgErr.Code == "23505"] *)
Definition isUniqueViolation (err : error) : bool := errors_Is err unique_violation.

(** ** Column types *)

(** A TIMESTAMPTZ counts microseconds, a DATE days (UTC). *)
Definition micros (t : Time) : Time := (t / 1000 * 1000)%Z.
Definition date_of (t : Time) : Time := (t / (24 * Hour) * (24 * Hour))%Z.

(** [pgtype.Text] *)
Definition nullString (s : string) : option string := if String.eqb s "" then None else Some s.
Definition text (s : option string) : string := default "" s.

(** ** Rows (models.go) *)
Record PaymentIntent := {
  pi_Ref : string; pi_Product : string; pi_Gateway : string; pi_AmountPesewas : Z; pi_Currency : string;
  pi_Wallet : option string; pi_IdempotencyKey : option string; pi_Status : string;
  pi_AuthorizationURL : option string; pi_CreatedAt : Time }.

Record GatewayEvent := {
  ev_ID : UUID; ev_Ref : string; ev_Gateway : string; ev_Status : string; ev_RawRequest : option string;
  ev_RawResponse : option string; ev_CreatedAt : Time }.

Record PayoutBatch := {
  ba_ID : UUID; ba_Product : string; ba_TotalPesewas : Z; ba_Currency : string; ba_Status : string;
  ba_BatchDate : Time; ba_IdempotencyKey : option string; ba_CreatedAt : Time }.

Record PayoutReservation := {
  re_ID : UUID; re_BatchID : UUID; re_AmountPesewas : Z; re_Currency : string; re_Status : string;
  re_SettledAt : option Time; re_Recipient : option string; re_Reference : option string;
  re_Gateway : option string; re_CreatedAt : Time }.

Record WebhookInbox := {
  wb_AggregatorEventID : string; wb_Gateway : string; wb_Payload : string; wb_ReceivedAt : Time;
  wb_ProcessedAt : option Time }.

Record AppRow := {
  ap_ID : UUID; ap_Name : string; ap_Product : string; ap_KeyHash : string; ap_KeyPrefix : string;
  ap_CreatedAt : Time; ap_LastUsedAt : option Time; ap_RevokedAt : option Time; ap_CreatedBy : string }.

(** ** The database

    Tables with a primary key that is looked up are maps; the ledger and the
    reservations are lists in insertion order.  [t_intent_keys] is the index
    of UNIQUE (product, idempotency_key), which holds no NULL keys. *)
Record Tables := mkTables {
  t_intents : gmap string PaymentIntent;
  t_intent_keys : gmap (string * string) string;
  t_events : gmap UUID GatewayEvent;
  t_ledger : list LedgerEntry;
  t_batches : gmap UUID PayoutBatch;
  t_reservations : list PayoutReservation;
  t_inbox : gmap string WebhookInbox;
  t_apps : gmap UUID AppRow }.
Definition no_tables : Tables := mkTables ∅ ∅ ∅ [] ∅ [] ∅ ∅.

Definition set_intents f t := mkTables (f (t_intents t)) (t_intent_keys t) (t_events t) (t_ledger t) (t_batches t) (t_reservations t) (t_inbox t) (t_apps t).
Definition set_intent_keys f t := mkTables (t_intents t) (f (t_intent_keys t)) (t_events t) (t_ledger t) (t_batches t) (t_reservations t) (t_inbox t) (t_apps t).
Definition set_events f t := mkTables (t_intents t) (t_intent_keys t) (f (t_events t)) (t_ledger t) (t_batches t) (t_reservations t) (t_inbox t) (t_apps t).
Definition set_ledger f t := mkTables (t_intents t) (t_intent_keys t) (t_events t) (f (t_ledger t)) (t_batches t) (t_reservations t) (t_inbox t) (t_apps t).
Definition set_batches f t := mkTables (t_intents t) (t_intent_keys t) (t_events t) (t_ledger t) (f (t_batches t)) (t_reservations t) (t_inbox t) (t_apps t).
Definition set_reservations f t := mkTables (t_intents t) (t_intent_keys t) (t_events t) (t_ledger t) (t_batches t) (f (t_reservations t)) (t_inbox t) (t_apps t).
Definition set_inbox f t := mkTables (t_intents t) (t_intent_keys t) (t_events t) (t_ledger t) (t_batches t) (t_reservations t) (f (t_inbox t)) (t_apps t).
Definition set_apps f t := mkTables (t_intents t) (t_intent_keys t) (t_events t) (t_ledger t) (t_batches t) (t_reservations t) (t_inbox t) (f (t_apps t)).

(** ** Statements *)
Definition Sql (A : Type) : Type := Time -> Tables -> result (A * Tables).

#[export] Instance Sql_ret : MRet Sql := fun A a _ t => Ok (a, t).
#[export] Instance Sql_bind : MBind Sql := fun A B f s now t =>
  match s now t with Ok (a, t') => f a now t' | Err e => Err e end.

Definition sql_fail {A} (e : error) : Sql A := fun _ _ => Err e.
Definition sql_assert (ok : bool) (e : error) : Sql unit := if ok then mret tt else sql_fail e.
Definition sql_tables : Sql Tables := fun _ t => Ok (t, t).
Definition sql_update (f : Tables -> Tables) : Sql unit := fun _ t => Ok (tt, f t).
Definition sql_now : Sql Time := fun now t => Ok (micros now, t).

Fixpoint sql_each {A} (l : list A) (body : A -> Sql unit) : Sql unit :=
  match l with
  | [] => mret tt
  | x :: l' => _ ← body x; sql_each l' body
  end.

(** A row or [ErrNoRows]. *)
Definition one {A} (found : option A) : Sql A :=
  match found with Some a => mret a | None => sql_fail ErrNoRows end.

(** [CHECK (column IN (...))] *)
Definition in_list (s : string) (l : list string) : bool := existsb (String.eqb s) l.
Definition gateways : list string := ["hubtel"; "paystack"; "moolre"].
Definition charge_statuses : list string := ["pending"; "succeeded"; "failed"].
Definition ledger_kinds : list string := ["collection"; "platform_commission"; "vendor_payout"].
Definition batch_statuses : list string := ["pending"; "processing"; "completed"; "failed"].
Definition reservation_statuses : list string := ["open"; "settled"; "released"].

(** ORDER BY a key; rows with equal keys in the order they are stored. *)
Fixpoint insert_by {A} (key : A -> Time) (x : A) (l : list A) : list A :=
  match l with
  | [] => [x]
  | y :: l' => if (key x <? key y)%Z then x :: l else y :: insert_by key x l'
  end.
Definition order_by {A} (key : A -> Time) (l : list A) : list A :=
  fold_left (fun acc x => insert_by key x acc) l [].

(** *** payment_intents.sql.go *)
Definition CreatePaymentIntent (p : PaymentIntent) : Sql unit :=
  t ← sql_tables;
  now ← sql_now;
  _ ← sql_assert (in_list (pi_Gateway p) gateways) check_violation;
  _ ← sql_assert (0 <? pi_AmountPesewas p)%Z check_violation;
  _ ← sql_assert (String.eqb (pi_Currency p) "GHS") check_violation;
  _ ← sql_assert (in_list (pi_Status p) charge_statuses) check_violation;
  _ ← sql_assert (negb (bool_decide (is_Some (t_intents t !! pi_Ref p)))) unique_violation;
  let row := {| pi_Ref := pi_Ref p; pi_Product := pi_Product p; pi_Gateway := pi_Gateway p;
    pi_AmountPesewas := pi_AmountPesewas p; pi_Currency := pi_Currency p; pi_Wallet := pi_Wallet p;
    pi_IdempotencyKey := pi_IdempotencyKey p; pi_Status := pi_Status p;
    pi_AuthorizationURL := pi_AuthorizationURL p; pi_CreatedAt := now |} in
  match pi_IdempotencyKey p with
  | None => sql_update (set_intents <[pi_Ref p := row]>)
  | Some key =>
      _ ← sql_assert (negb (bool_decide (is_Some (t_intent_keys t !! (pi_Product p, key))))) unique_violation;
      _ ← sql_update (set_intents <[pi_Ref p := row]>);
      sql_update (set_intent_keys <[(pi_Product p, key) := pi_Ref p]>)
  end.

(** A NULL key equals nothing. *)
Definition GetPaymentIntentByIdempotencyKey (product : string) (key : option string) : Sql string :=
  t ← sql_tables; one (k ← key; t_intent_keys t !! (product, k)).
Definition GetPaymentIntentByRef (ref : string) : Sql PaymentIntent :=
  t ← sql_tables; one (t_intents t !! ref).
(** [GetPaymentIntentForWebhookRow]: ref, gateway, status, product *)
Definition GetPaymentIntentForWebhook (ref : string) : Sql (string * string * string * string) :=
  t ← sql_tables;
  one (row ← t_intents t !! ref; Some (pi_Ref row, pi_Gateway row, pi_Status row, pi_Product row)).
Definition GetPaymentIntentStatus (ref : string) : Sql string :=
  t ← sql_tables; one (row ← t_intents t !! ref; Some (pi_Status row)).

Definition intent_with_status (status : string) (i : PaymentIntent) : PaymentIntent :=
  {| pi_Ref := pi_Ref i; pi_Product := pi_Product i; pi_Gateway := pi_Gateway i;
     pi_AmountPesewas := pi_AmountPesewas i; pi_Currency := pi_Currency i; pi_Wallet := pi_Wallet i;
     pi_IdempotencyKey := pi_IdempotencyKey i; pi_Status := status;
     pi_AuthorizationURL := pi_AuthorizationURL i; pi_CreatedAt := pi_CreatedAt i |}.
(** An UPDATE of no row violates no constraint. *)
Definition UpdatePaymentIntentStatus (ref status : string) : Sql unit :=
  t ← sql_tables;
  _ ← sql_assert (negb (bool_decide (is_Some (t_intents t !! ref))) ||
                  in_list status charge_statuses) check_violation;
  sql_update (set_intents (alter (intent_with_status status) ref)).

(** *** gateway_events.sql.go *)
Definition InsertGatewayEvent (e : GatewayEvent) : Sql unit :=
  let '(id, ref) := (ev_ID e, ev_Ref e) in
  t ← sql_tables;
  now ← sql_now;
  _ ← sql_assert (in_list (ev_Gateway e) gateways) check_violation;
  _ ← sql_assert (in_list (ev_Status e) charge_statuses) check_violation;
  _ ← sql_assert (negb (bool_decide (is_Some (t_events t !! id)))) unique_violation;
  _ ← sql_assert (bool_decide (is_Some (t_intents t !! ref))) foreign_key_violation;
  sql_update (set_events <[id := {| ev_ID := id; ev_Ref := ref; ev_Gateway := ev_Gateway e;
    ev_Status := ev_Status e; ev_RawRequest := ev_RawRequest e; ev_RawResponse := ev_RawResponse e;
    ev_CreatedAt := now |}]>).

Definition ListGatewayEvents (ref : string) : Sql (list GatewayEvent) :=
  t ← sql_tables;
  mret (order_by ev_CreatedAt (List.filter (fun e => String.eqb (ev_Ref e) ref) (map_to_list (t_events t)).*2)).

(** FOR UPDATE SKIP LOCKED outside a transaction: the row locks are gone when
    the statement ends. *)
Definition ClaimGatewayEventsForDispatch (limit : Z) : Sql (list GatewayEvent) :=
  t ← sql_tables;
  _ ← sql_assert (0 <=? limit)%Z (pg_error "2201W");
  mret (take (Z.to_nat limit) (order_by ev_CreatedAt
    (List.filter (fun e => String.eqb (ev_Status e) "pending") (map_to_list (t_events t)).*2))).

(** *** ledger_entries.sql.go *)
Definition InsertLedgerEntry (e : LedgerEntry) : Sql unit :=
  t ← sql_tables;
  now ← sql_now;
  _ ← sql_assert (in_list (le_Kind e) ledger_kinds) check_violation;
  _ ← sql_assert (String.eqb (currency (le_Amount e)) "GHS") check_violation;
  _ ← sql_assert (negb (existsb (fun r => (le_ID r =? le_ID e)%N) (t_ledger t))) unique_violation;
  sql_update (set_ledger (fun l => l ++ [{| le_ID := le_ID e; le_Kind := le_Kind e; le_Ref := le_Ref e;
    le_Amount := le_Amount e; le_ValueTime := micros (le_ValueTime e);
    le_BookingTime := micros (le_BookingTime e); le_SettlementTime := micros <$> le_SettlementTime e;
    le_Product := le_Product e; le_CreatedAt := now |}])).

Definition ListLedgerEntriesByRef (ref : string) : Sql (list LedgerEntry) :=
  t ← sql_tables;
  mret (order_by le_BookingTime (List.filter (fun e => String.eqb (le_Ref e) ref) (t_ledger t))).

Definition unsettled_of (ref : string) (e : LedgerEntry) : bool :=
  String.eqb (le_Ref e) ref && negb (bool_decide (is_Some (le_SettlementTime e))).
Definition StampLedgerSettlement (ref : string) (at_ : Time) : Sql Z :=
  t ← sql_tables;
  _ ← sql_update (set_ledger (map (fun e => if unsettled_of ref e then stamp (micros at_) e else e)));
  mret (Z.of_nat (length (List.filter (unsettled_of ref) (t_ledger t)))).

(** [$2::text IS NOT NULL]: a Go string never is NULL. *)
Definition UpdateLedgerEntrySettlement (id : UUID) (at_ : Time) : Sql Z :=
  let hit e := (le_ID e =? id)%N && negb (bool_decide (is_Some (le_SettlementTime e))) in
  t ← sql_tables;
  _ ← sql_update (set_ledger (map (fun e => if hit e then stamp (micros at_) e else e)));
  mret (Z.of_nat (length (List.filter hit (t_ledger t)))).

(** *** payout_reservations.sql.go *)
Definition CreatePayoutBatch (b : PayoutBatch) : Sql unit :=
  t ← sql_tables;
  now ← sql_now;
  _ ← sql_assert (0 <? ba_TotalPesewas b)%Z check_violation;
  _ ← sql_assert (in_list (ba_Status b) batch_statuses) check_violation;
  _ ← sql_assert (negb (bool_decide (is_Some (t_batches t !! ba_ID b)))) unique_violation;
  _ ← sql_assert (match ba_IdempotencyKey b with
                  | None => true
                  | Some key => negb (existsb (fun r =>
                      String.eqb (ba_Product r) (ba_Product b) && (ba_BatchDate r =? date_of (ba_BatchDate b))%Z
                      && bool_decide (ba_IdempotencyKey r = Some key)) (map_to_list (t_batches t)).*2)
                  end) unique_violation;
  sql_update (set_batches <[ba_ID b := {| ba_ID := ba_ID b; ba_Product := ba_Product b;
    ba_TotalPesewas := ba_TotalPesewas b; ba_Currency := ba_Currency b; ba_Status := ba_Status b;
    ba_BatchDate := date_of (ba_BatchDate b); ba_IdempotencyKey := ba_IdempotencyKey b; ba_CreatedAt := now |}]>).

Definition GetPayoutBatch (id : UUID) : Sql PayoutBatch :=
  t ← sql_tables; one (t_batches t !! id).

Definition CreatePayoutReservation (r : PayoutReservation) : Sql unit :=
  t ← sql_tables;
  now ← sql_now;
  _ ← sql_assert (0 <? re_AmountPesewas r)%Z check_violation;
  _ ← sql_assert (in_list (re_Status r) reservation_statuses) check_violation;
  _ ← sql_assert (match re_Gateway r with None => true | Some g => in_list g gateways end) check_violation;
  _ ← sql_assert (negb (existsb (fun x => (re_ID x =? re_ID r)%N) (t_reservations t))) unique_violation;
  _ ← sql_assert (bool_decide (is_Some (t_batches t !! re_BatchID r))) foreign_key_violation;
  sql_update (set_reservations (fun l => l ++ [{| re_ID := re_ID r; re_BatchID := re_BatchID r;
    re_AmountPesewas := re_AmountPesewas r; re_Currency := re_Currency r; re_Status := re_Status r;
    re_SettledAt := None; re_Recipient := re_Recipient r; re_Reference := re_Reference r;
    re_Gateway := re_Gateway r; re_CreatedAt := now |}])).

Definition open_reservation (id : UUID) (r : PayoutReservation) : bool :=
  (re_ID r =? id)%N && String.eqb (re_Status r) "open".
Definition reservation_with (status : string) (settled : option Time) (r : PayoutReservation) : PayoutReservation :=
  {| re_ID := re_ID r; re_BatchID := re_BatchID r; re_AmountPesewas := re_AmountPesewas r;
     re_Currency := re_Currency r; re_Status := status; re_SettledAt := settled;
     re_Recipient := re_Recipient r; re_Reference := re_Reference r; re_Gateway := re_Gateway r;
     re_CreatedAt := re_CreatedAt r |}.
Definition SettlePayoutReservation (id : UUID) (at_ : Time) : Sql Z :=
  t ← sql_tables;
  _ ← sql_update (set_reservations (map (fun r =>
        if open_reservation id r then reservation_with "settled" (Some (micros at_)) r else r)));
  mret (Z.of_nat (length (List.filter (open_reservation id) (t_reservations t)))).
Definition ReleasePayoutReservation (id : UUID) : Sql Z :=
  t ← sql_tables;
  _ ← sql_update (set_reservations (map (fun r =>
        if open_reservation id r then reservation_with "released" (re_SettledAt r) r else r)));
  mret (Z.of_nat (length (List.filter (open_reservation id) (t_reservations t)))).
Definition ListPayoutReservationsByBatch (batch : UUID) : Sql (list PayoutReservation) :=
  t ← sql_tables;
  mret (order_by re_CreatedAt (List.filter (fun r => (re_BatchID r =? batch)%N) (t_reservations t))).
Definition GetPayoutReservationByID (id : UUID) : Sql PayoutReservation :=
  t ← sql_tables; one (snd <$> list_find (fun r => re_ID r = id) (t_reservations t)).

(** *** webhook_inbox.sql.go *)
Definition inbox_row (id gateway payload : string) (now : Time) : WebhookInbox := {|
  wb_AggregatorEventID := id; wb_Gateway := gateway; wb_Payload := payload; wb_ReceivedAt := now;
  wb_ProcessedAt := None |}.
Definition InsertWebhookInbox (id gateway payload : string) : Sql unit :=
  t ← sql_tables;
  now ← sql_now;
  _ ← sql_assert (in_list gateway gateways) check_violation;
  _ ← sql_assert (negb (bool_decide (is_Some (t_inbox t !! id)))) unique_violation;
  sql_update (set_inbox <[id := inbox_row id gateway payload now]>).
Definition InsertWebhookInboxDedup (id gateway payload : string) : Sql Z :=
  t ← sql_tables;
  now ← sql_now;
  _ ← sql_assert (in_list gateway gateways) check_violation;
  if bool_decide (is_Some (t_inbox t !! id)) then mret 0%Z
  else _ ← sql_update (set_inbox <[id := inbox_row id gateway payload now]>); mret 1%Z.
Definition DeleteWebhookInbox (id : string) : Sql Z :=
  t ← sql_tables;
  _ ← sql_update (set_inbox (delete id));
  mret (if bool_decide (is_Some (t_inbox t !! id)) then 1%Z else 0%Z).
Definition ExistsWebhookInbox (id : string) : Sql bool :=
  t ← sql_tables; mret (bool_decide (is_Some (t_inbox t !! id))).

(** *** apps.sql.go *)
Definition InsertApp (a : AppRow) : Sql unit :=
  t ← sql_tables;
  _ ← sql_assert (negb (bool_decide (is_Some (t_apps t !! ap_ID a)))) unique_violation;
  _ ← sql_assert (negb (existsb (fun r => String.eqb (ap_Name r) (ap_Name a)) (map_to_list (t_apps t)).*2)) unique_violation;
  _ ← sql_assert (negb (existsb (fun r => String.eqb (ap_KeyHash r) (ap_KeyHash a)) (map_to_list (t_apps t)).*2)) unique_violation;
  sql_update (set_apps <[ap_ID a := {| ap_ID := ap_ID a; ap_Name := ap_Name a; ap_Product := ap_Product a;
    ap_KeyHash := ap_KeyHash a; ap_KeyPrefix := ap_KeyPrefix a; ap_CreatedAt := micros (ap_CreatedAt a);
    ap_LastUsedAt := None; ap_RevokedAt := None; ap_CreatedBy := ap_CreatedBy a |}]>).
Definition GetApp (id : UUID) : Sql AppRow := t ← sql_tables; one (t_apps t !! id).
Definition GetAppByHash (hash : string) : Sql AppRow :=
  t ← sql_tables; one (snd <$> list_find (fun r => ap_KeyHash r = hash) (map_to_list (t_apps t)).*2).
(** ORDER BY created_at DESC *)
Definition ListApps : Sql (list AppRow) :=
  t ← sql_tables; mret (order_by (fun r => - ap_CreatedAt r)%Z (map_to_list (t_apps t)).*2).
Definition with_key (hash prefix : string) (a : AppRow) : AppRow :=
  {| ap_ID := ap_ID a; ap_Name := ap_Name a; ap_Product := ap_Product a; ap_KeyHash := hash;
     ap_KeyPrefix := prefix; ap_CreatedAt := ap_CreatedAt a; ap_LastUsedAt := ap_LastUsedAt a;
     ap_RevokedAt := ap_RevokedAt a; ap_CreatedBy := ap_CreatedBy a |}.
Definition UpdateAppKeyHash (id : UUID) (hash prefix : string) : Sql unit :=
  t ← sql_tables;
  _ ← sql_assert (negb (bool_decide (is_Some (t_apps t !! id))) ||
        negb (existsb (fun r => String.eqb (ap_KeyHash r) hash && negb (ap_ID r =? id)%N) (map_to_list (t_apps t)).*2))
        unique_violation;
  sql_update (set_apps (alter (with_key hash prefix) id)).
Definition with_revoked (now : Time) (a : AppRow) : AppRow :=
  {| ap_ID := ap_ID a; ap_Name := ap_Name a; ap_Product := ap_Product a; ap_KeyHash := ap_KeyHash a;
     ap_KeyPrefix := ap_KeyPrefix a; ap_CreatedAt := ap_CreatedAt a; ap_LastUsedAt := ap_LastUsedAt a;
     ap_RevokedAt := Some now; ap_CreatedBy := ap_CreatedBy a |}.
(** The number of rows affected. *)
Definition RevokeApp (id : UUID) : Sql Z :=
  t ← sql_tables;
  now ← sql_now;
  match t_apps t !! id with
  | Some a => if bool_decide (is_Some (ap_RevokedAt a)) then mret 0%Z
              else _ ← sql_update (set_apps <[id := with_revoked now a]>); mret 1%Z
  | None => mret 0%Z
  end.
Definition AppExists (id : UUID) : Sql bool :=
  t ← sql_tables; mret (bool_decide (is_Some (t_apps t !! id))).

(** *** The statements written in pg_store.go itself *)
Definition event_settled (status raw : string) (e : GatewayEvent) : GatewayEvent :=
  {| ev_ID := ev_ID e; ev_Ref := ev_Ref e; ev_Gateway := ev_Gateway e; ev_Status := status;
     ev_RawRequest := ev_RawRequest e; ev_RawResponse := Some raw; ev_CreatedAt := ev_CreatedAt e |}.
Definition UpdateGatewayEvent (id : UUID) (status raw : string) : Sql unit :=
  t ← sql_tables;
  _ ← sql_assert (negb (bool_decide (is_Some (t_events t !! id))) || in_list status charge_statuses) check_violation;
  sql_update (set_events (alter (event_settled status raw) id)).
(** [raw_response = COALESCE(raw_response, '{}')] of a pending row *)
Definition TouchGatewayEvent (id : UUID) : Sql unit :=
  sql_update (set_events (alter (fun e =>
    if String.eqb (ev_Status e) "pending"
    then event_settled "pending" (default "{}" (ev_RawResponse e)) e else e) id)).
Definition CountPendingEvents : Sql Z :=
  t ← sql_tables;
  mret (Z.of_nat (length (List.filter (fun e => String.eqb (ev_Status e) "pending") (map_to_list (t_events t)).*2))).

(** ** The server *)
Class Postgres (W : Type) := { pg_exec : forall A, Sql A -> M W (result A) }.
Arguments pg_exec {W _} A _ _.

(** Errors of the connection, of a timeout, of the server's own resources, of
    a value the column's type refuses (a NUL byte in TEXT, text that is not a
    document in JSONB): none is a missing row or a duplicate key. *)
Definition fault (e : error) : Prop := errors_Is e ErrNoRows = false /\ isUniqueViolation e = false.

Class PostgresSpec {W} `{!Postgres W} (tables : W -> Tables) : Prop := {
  pg_answer A (s : Sql A) w :
    match (pg_exec A s w).1 with
    | Ok a => exists now, s now (tables w) = Ok (a, tables (pg_exec A s w).2)
    | Err e => tables (pg_exec A s w).2 = tables w /\ (fault e \/ exists now, s now (tables w) = Err e)
    end }.

(** A server that answers every statement. *)
Class PostgresUp {W} `{!Postgres W} (tables : W -> Tables) : Prop := {
  pg_up A (s : Sql A) w : exists now,
    s now (tables w) = match (pg_exec A s w).1 with Ok a => Ok (a, tables (pg_exec A s w).2) | Err e => Err e end }.

Class PostgresFrame {W V} `{!Postgres W} (view : W -> V) : Prop :=
  pg_frame A (s : Sql A) w : view (pg_exec A s w).2 = view w.
