(* ===== verification/DatabaseProofs.v ===== *)
(** * The database: statements inverted, and the schema's invariant

    [sql_inv] reads off what a successful statement did.  [schema_ok] is what
    the migrations declare, as a predicate on the tables: keys agree with
    rows, enumerated columns stay in their lists, unique columns are unique
    and foreign keys point at rows.  A statement is [Sound] when it keeps it. *)
From S2P Require Import Prelude GoStrings Money Reference Ledger Database.
From Stdlib Require Import Sorted.

(** ** What a successful statement did *)
Lemma sql_bind_inv {A B} (s : Sql A) (f : A -> Sql B) now t r :
  (s ≫= f) now t = Ok r -> exists a t', s now t = Ok (a, t') /\ f a now t' = Ok r.
Proof. unfold mbind, Sql_bind. destruct (s now t) as [[a t']|e]; [eauto|done]. Qed.
Lemma sql_assert_inv b e now t u t' : sql_assert b e now t = Ok (u, t') -> b = true /\ t' = t.
Proof. unfold sql_assert. destruct b; [|done]. by intros [= _ <-]. Qed.
Lemma one_inv {A} (o : option A) now t a t' : one o now t = Ok (a, t') -> o = Some a /\ t' = t.
Proof. destruct o; [|done]. by intros [= <- <-]. Qed.

Lemma in_list_spec s l : in_list s l = true <-> s ∈ l.
Proof.
  unfold in_list. rewrite existsb_exists, list_elem_of_In. split.
  - intros (x & Hx & E). apply String.eqb_eq in E as ->. done.
  - intros Hs. exists s. by rewrite String.eqb_refl.
Qed.

Lemma not_exists_Forall {A} (f : A -> bool) (l : list A) :
  negb (existsb f l) = true -> Forall (fun x => f x = false) l.
Proof.
  rewrite negb_true_iff. induction l as [|x l IH]; simpl; [constructor|].
  rewrite orb_false_iff. intros [? ?]. constructor; auto.
Qed.

Lemma absent_spec `{Countable K} {A} (m : gmap K A) k :
  negb (bool_decide (is_Some (m !! k))) = true -> m !! k = None.
Proof. rewrite negb_true_iff, bool_decide_eq_false, <- eq_None_not_Some. done. Qed.

Ltac sql_inv :=
  repeat match goal with
  | H : (_ ≫= _) _ _ = Ok _ |- _ =>
      let a := fresh "a" in let t := fresh "t" in let Hs := fresh "Hs" in
      apply sql_bind_inv in H as (a & t & Hs & H)
  | H : sql_assert _ _ _ _ = Ok _ |- _ => apply sql_assert_inv in H as [H ->]
  | H : one _ _ _ = Ok _ |- _ => apply one_inv in H as [H ->]
  | H : sql_tables _ _ = Ok _ |- _ => injection H as <- <-
  | H : sql_now _ _ = Ok _ |- _ => injection H as <- <-
  | H : sql_update _ _ _ = Ok _ |- _ => injection H as <- <-
  | H : mret _ _ _ = Ok _ |- _ => injection H as <- <-
  | H : sql_fail _ _ _ = Ok _ |- _ => discriminate H
  | H : negb (bool_decide (is_Some _)) = true |- _ => apply absent_spec in H
  | H : negb (existsb _ _) = true |- _ => apply not_exists_Forall in H
  | H : bool_decide _ = true |- _ => apply bool_decide_eq_true in H
  | H : String.eqb _ _ = true |- _ => apply String.eqb_eq in H
  | H : (0 <? _)%Z = true |- _ => apply Z.ltb_lt in H
  end.

(** ORDER BY permutes the rows. *)
Section order.
Context {A : Type} (key : A -> Time).
Lemma insert_by_perm x l : insert_by key x l ≡ₚ x :: l.
Proof.
  induction l as [|y l IH]; simpl; [done|]. destruct (key x <? key y)%Z; [done|].
  rewrite IH. constructor.
Qed.
Lemma order_by_perm l : order_by key l ≡ₚ l.
Proof.
  unfold order_by. assert (H : forall acc, fold_left (fun acc x => insert_by key x acc) l acc ≡ₚ l ++ acc).
  { induction l as [|x l IH]; intros acc; simpl; [done|]. by rewrite IH, insert_by_perm, Permutation_middle. }
  by rewrite H, app_nil_r.
Qed.

Lemma insert_by_sorted x l :
  StronglySorted (fun a b => key a <= key b)%Z l -> StronglySorted (fun a b => key a <= key b)%Z (insert_by key x l).
Proof.
  induction 1 as [|y l Hs IH Hy]; simpl; [repeat constructor|]. destruct (Z.ltb_spec (key x) (key y)).
  - constructor; [by constructor|]. constructor; [lia|]. eapply list.Forall_impl; [exact Hy|]. simpl. lia.
  - constructor; [done|]. rewrite insert_by_perm. constructor; [lia|done].
Qed.
Lemma order_by_sorted l : StronglySorted (fun a b => key a <= key b)%Z (order_by key l).
Proof.
  unfold order_by. assert (H : forall acc, StronglySorted (fun a b => key a <= key b)%Z acc ->
    StronglySorted (fun a b => key a <= key b)%Z (fold_left (fun acc x => insert_by key x acc) l acc)).
  { induction l as [|x l IH]; intros acc Hacc; simpl; [done|]. by apply IH, insert_by_sorted. }
  apply H. constructor.
Qed.
End order.

(** ** The schema *)
Definition intent_ok (ref : string) (i : PaymentIntent) : Prop :=
  pi_Ref i = ref /\ in_list (pi_Gateway i) gateways = true /\ (0 < pi_AmountPesewas i)%Z
  /\ pi_Currency i = "GHS" /\ in_list (pi_Status i) charge_statuses = true.
Definition event_ok (intents : gmap string PaymentIntent) (id : UUID) (e : GatewayEvent) : Prop :=
  ev_ID e = id /\ in_list (ev_Gateway e) gateways = true
  /\ in_list (ev_Status e) charge_statuses = true /\ is_Some (intents !! ev_Ref e).
Definition entry_ok (e : LedgerEntry) : Prop :=
  in_list (le_Kind e) ledger_kinds = true /\ currency (le_Amount e) = "GHS".
Definition batch_ok (id : UUID) (b : PayoutBatch) : Prop :=
  ba_ID b = id /\ (0 < ba_TotalPesewas b)%Z /\ in_list (ba_Status b) batch_statuses = true.
Definition reservation_ok (batches : gmap UUID PayoutBatch) (r : PayoutReservation) : Prop :=
  (0 < re_AmountPesewas r)%Z /\ in_list (re_Status r) reservation_statuses = true
  /\ is_Some (batches !! re_BatchID r).
Definition inbox_ok (id : string) (r : WebhookInbox) : Prop :=
  wb_AggregatorEventID r = id /\ in_list (wb_Gateway r) gateways = true.

(** The rows of [m] that agree on [f], where [f] is not NULL, are one row. *)
Definition unique_on {K A V} `{Countable K} (f : A -> option V) (m : gmap K A) : Prop :=
  forall i j a b v, m !! i = Some a -> m !! j = Some b -> f a = Some v -> f b = Some v -> i = j.

Definition batch_key (b : PayoutBatch) : option (string * Time * string) :=
  k ← ba_IdempotencyKey b; Some (ba_Product b, ba_BatchDate b, k).

Record schema_ok (t : Tables) : Prop := {
  sc_intents : map_Forall intent_ok (t_intents t);
  sc_index p k ref : t_intent_keys t !! (p, k) = Some ref <->
    exists i, t_intents t !! ref = Some i /\ pi_Product i = p /\ pi_IdempotencyKey i = Some k;
  sc_events : map_Forall (event_ok (t_intents t)) (t_events t);
  sc_ledger : Forall entry_ok (t_ledger t);
  sc_ledger_ids : NoDup (le_ID <$> t_ledger t);
  sc_batches : map_Forall batch_ok (t_batches t);
  sc_batch_keys : unique_on batch_key (t_batches t);
  sc_reservations : Forall (reservation_ok (t_batches t)) (t_reservations t);
  sc_reservation_ids : NoDup (re_ID <$> t_reservations t);
  sc_inbox : map_Forall inbox_ok (t_inbox t);
  sc_app_ids : map_Forall (fun id a => ap_ID a = id) (t_apps t);
  sc_app_names : unique_on (fun a => Some (ap_Name a)) (t_apps t);
  sc_app_hashes : unique_on (fun a => Some (ap_KeyHash a)) (t_apps t) }.

Lemma schema_no_tables : schema_ok no_tables.
Proof.
  split; simpl; try apply map_Forall_empty; try constructor; try done.
  intros (i & Hi & _). done.
Qed.

Lemma unique_insert {K A V} `{Countable K} (f : A -> option V) (m : gmap K A) i a :
  unique_on f m ->
  (forall j b v, j <> i -> m !! j = Some b -> f b = Some v -> f a <> Some v) ->
  unique_on f (<[i := a]> m).
Proof.
  intros Hm Ha j k x y v Hx Hy Hfx Hfy.
  destruct (decide (j = i)), (decide (k = i)); simplify_map_eq; eauto.
  - exfalso. by eapply Ha.
  - exfalso. by eapply Ha.
Qed.

Lemma unique_alter {K A V} `{Countable K} (f : A -> option V) (g : A -> A) (m : gmap K A) i :
  (forall a, f (g a) = f a) -> unique_on f m -> unique_on f (alter g i m).
Proof.
  intros Hg Hm j k x y v Hx Hy Hfx Hfy.
  assert (Hkey : forall l z, alter g i m !! l = Some z -> exists z', m !! l = Some z' /\ f z' = f z).
  { intros l z. destruct (decide (i = l)) as [<-|Hl].
    - rewrite lookup_alter_eq. destruct (m !! i) as [z'|]; [|done]. intros [= <-]. eauto.
    - rewrite lookup_alter_ne by done. eauto. }
  destruct (Hkey j x Hx) as (x' & ? & ?), (Hkey k y Hy) as (y' & ? & ?).
  by apply (Hm j k x' y' v); [| |etrans; eauto..].
Qed.

Lemma map_Forall_alter' {K A} `{Countable K} (P : K -> A -> Prop) g (m : gmap K A) i :
  (forall a, m !! i = Some a -> P i a -> P i (g a)) -> map_Forall P m -> map_Forall P (alter g i m).
Proof.
  intros Hg Hm j x. destruct (decide (i = j)) as [<-|Hij];
    [rewrite lookup_alter_eq | rewrite lookup_alter_ne by done; apply Hm].
  destruct (m !! i) as [a|] eqn:Ea; [|done]. intros [= <-]. apply Hg; [done|]. by apply Hm.
Qed.

Lemma list_values_Forall {K A} `{Countable K} (P : A -> Prop) (m : gmap K A) :
  Forall P (map_to_list m).*2 -> forall i a, m !! i = Some a -> P a.
Proof.
  intros HP i a Hi. rewrite Forall_fmap in HP.
  assert (Hm : map_Forall (fun _ => P) m).
  { apply map_Forall_to_list. eapply Forall_impl; [|exact HP]. by intros []. }
  exact (Hm i a Hi).
Qed.

Lemma NoDup_snoc {A} (f : A -> UUID) (l : list A) x :
  Forall (fun y => (f y =? f x)%N = false) l -> NoDup (f <$> l) -> NoDup (f <$> (l ++ [x])).
Proof.
  intros Hx. induction Hx as [|y l Hy Hx IH]; simpl; [by repeat constructor; set_solver|].
  rewrite !list.NoDup_cons. intros [Hn Hl]. split; [|by apply IH].
  rewrite fmap_app, elem_of_app. intros [?|Hin]; [done|].
  apply list_elem_of_singleton in Hin. apply N.eqb_neq in Hy. congruence.
Qed.

(** ** Statements keep the schema *)
Definition Sound {A} (s : Sql A) : Prop :=
  forall now t a t', s now t = Ok (a, t') -> schema_ok t -> schema_ok t'.

Lemma Sound_bind {A B} (s : Sql A) (f : A -> Sql B) :
  Sound s -> (forall a, Sound (f a)) -> Sound (s ≫= f).
Proof. intros Hs Hf now t a t' H Ht. sql_inv. eapply Hf; eauto. Qed.

Lemma Sound_each {A} (l : list A) (body : A -> Sql unit) :
  (forall x, Sound (body x)) -> Sound (sql_each l body).
Proof.
  intros Hb. induction l as [|x l IH]; simpl; [|apply Sound_bind; auto].
  intros now t a t' H. sql_inv. done.
Qed.
Create HintDb sound.
#[export] Hint Resolve Sound_bind Sound_each : sound.

(** A statement that only reads. *)
Definition Reads {A} (s : Sql A) : Prop := forall now t a t', s now t = Ok (a, t') -> t' = t.
Lemma Reads_Sound {A} (s : Sql A) : Reads s -> Sound s.
Proof. intros Hs now t a t' H. by rewrite (Hs _ _ _ _ H). Qed.

Ltac sql_head s := match s with ?f _ => sql_head f | _ => s end.
#[local] Ltac reads :=
  intros now t a t' H;
  match type of H with ?s now t = _ => let h := sql_head s in unfold h in H end;
  sql_inv; done.
Lemma Reads_GetPaymentIntentByIdempotencyKey p k : Reads (GetPaymentIntentByIdempotencyKey p k).
Proof. reads. Qed.
Lemma Reads_GetPaymentIntentByRef r : Reads (GetPaymentIntentByRef r).
Proof. reads. Qed.
Lemma Reads_GetPaymentIntentForWebhook r : Reads (GetPaymentIntentForWebhook r).
Proof. reads. Qed.
Lemma Reads_GetPaymentIntentStatus r : Reads (GetPaymentIntentStatus r).
Proof. reads. Qed.
Lemma Reads_ListGatewayEvents r : Reads (ListGatewayEvents r).
Proof. reads. Qed.
Lemma Reads_ClaimGatewayEventsForDispatch n : Reads (ClaimGatewayEventsForDispatch n).
Proof. reads. Qed.
Lemma Reads_ListLedgerEntriesByRef r : Reads (ListLedgerEntriesByRef r).
Proof. reads. Qed.
Lemma Reads_GetPayoutBatch i : Reads (GetPayoutBatch i).
Proof. reads. Qed.
Lemma Reads_ListPayoutReservationsByBatch i : Reads (ListPayoutReservationsByBatch i).
Proof. reads. Qed.
Lemma Reads_GetPayoutReservationByID i : Reads (GetPayoutReservationByID i).
Proof. reads. Qed.
Lemma Reads_ExistsWebhookInbox i : Reads (ExistsWebhookInbox i).
Proof. reads. Qed.
Lemma Reads_GetApp i : Reads (GetApp i).
Proof. reads. Qed.
Lemma Reads_GetAppByHash h : Reads (GetAppByHash h).
Proof. reads. Qed.
Lemma Reads_ListApps : Reads ListApps.
Proof. reads. Qed.
Lemma Reads_AppExists i : Reads (AppExists i).
Proof. reads. Qed.
Lemma Reads_CountPendingEvents : Reads CountPendingEvents.
Proof. reads. Qed.
#[export] Hint Resolve Reads_Sound : sound.
#[export] Hint Resolve Reads_GetPaymentIntentByIdempotencyKey Reads_GetPaymentIntentByRef
  Reads_GetPaymentIntentForWebhook Reads_GetPaymentIntentStatus Reads_ListGatewayEvents
  Reads_ClaimGatewayEventsForDispatch Reads_ListLedgerEntriesByRef Reads_GetPayoutBatch
  Reads_ListPayoutReservationsByBatch Reads_GetPayoutReservationByID Reads_ExistsWebhookInbox
  Reads_GetApp Reads_GetAppByHash Reads_ListApps Reads_AppExists Reads_CountPendingEvents : sound.

(** The fields of the invariant a statement does not touch. *)
#[local] Ltac keep := match goal with H : schema_ok _ |- schema_ok _ => destruct H; split; simpl; try done end.

Lemma event_ok_mono intents intents' id e :
  dom intents ⊆ dom intents' -> event_ok intents id e -> event_ok intents' id e.
Proof.
  intros Hd (? & ? & ? & Hr). repeat split; try done.
  apply elem_of_dom, Hd. by apply elem_of_dom.
Qed.

(** *** Intents *)
Lemma index_insert t p k i :
  schema_ok t -> t_intents t !! pi_Ref i = None -> pi_Product i = p -> pi_IdempotencyKey i = k ->
  (forall k', k = Some k' -> t_intent_keys t !! (p, k') = None) ->
  forall p' k' ref,
    (if k is Some k0 then <[(p, k0) := pi_Ref i]> (t_intent_keys t) else t_intent_keys t) !! (p', k') = Some ref
    <-> exists j, <[pi_Ref i := i]> (t_intents t) !! ref = Some j /\ pi_Product j = p' /\ pi_IdempotencyKey j = Some k'.
Proof.
  intros Ht Hnew <- Hk Hfree p' k' ref. pose proof (sc_index _ Ht) as Hix.
  destruct (decide (ref = pi_Ref i)) as [->|Hr].
  - rewrite lookup_insert_eq. trans (p' = pi_Product i /\ k = Some k').
    + assert (Hno : t_intent_keys t !! (p', k') <> Some (pi_Ref i)).
      { intros (j & Hj & _)%Hix. congruence. }
      destruct k as [k0|]; [|split; [done|by intros []]].
      destruct (decide ((p', k') = (pi_Product i, k0))) as [E|E].
      * rewrite E, lookup_insert_eq. injection E as -> ->. naive_solver.
      * rewrite lookup_insert_ne by congruence. split; [done|]. intros [-> [= ->]]. done.
    + split; [intros [-> ->]; eauto|]. intros (j & [= <-] & ? & ?). split; congruence.
  - rewrite lookup_insert_ne by done. rewrite <- Hix.
    destruct k as [k0|]; [|done]. destruct (decide ((p', k') = (pi_Product i, k0))) as [E|E].
    + injection E as -> ->. rewrite lookup_insert_eq, (Hfree k0) by done. split; congruence.
    + by rewrite lookup_insert_ne by congruence.
Qed.

Lemma Sound_CreatePaymentIntent p : Sound (CreatePaymentIntent p).
Proof.
  intros now t a t' H Ht. unfold CreatePaymentIntent in H. sql_inv.
  assert (Hnew : t_intents t !! pi_Ref p = None) by done.
  match type of H with context [set_intents <[_ := ?r]>] => set (row := r) in * end.
  assert (Hrow : intent_ok (pi_Ref p) row)
    by (by repeat split).
  assert (Hfree : forall k, pi_IdempotencyKey p = Some k -> t_intent_keys t !! (pi_Product p, k) = None).
  { intros k Hk. rewrite Hk in H. by sql_inv. }
  pose proof (index_insert t (pi_Product p) (pi_IdempotencyKey p) row Ht Hnew eq_refl eq_refl Hfree) as Hindex.
  assert (Hev : map_Forall (event_ok (<[pi_Ref p := row]> (t_intents t))) (t_events t)).
  { eapply map_Forall_impl; [apply Ht|]. intros id e. apply event_ok_mono. rewrite dom_insert. set_solver. }
  destruct (pi_IdempotencyKey p) as [k|]; sql_inv; keep; by apply map_Forall_insert_2.
Qed.

Lemma Sound_UpdatePaymentIntentStatus ref status : Sound (UpdatePaymentIntentStatus ref status).
Proof.
  intros now t a t' H Ht. unfold UpdatePaymentIntentStatus in H. sql_inv.
  assert (Hix : forall p k r, t_intent_keys t !! (p, k) = Some r <->
    exists i, alter (intent_with_status status) ref (t_intents t) !! r = Some i
              /\ pi_Product i = p /\ pi_IdempotencyKey i = Some k).
  { intros p k r. rewrite (sc_index _ Ht). destruct (decide (ref = r)) as [->|Hr].
    - rewrite lookup_alter_eq. destruct (t_intents t !! r) as [i|]; simpl; [|naive_solver].
      split; [intros (? & [= <-] & ?); eauto|]. intros (? & [= <-] & ?). eauto.
    - by rewrite lookup_alter_ne. }
  keep.
  - apply map_Forall_alter'; [|done]. intros i Hi. rewrite Hi in Hs0. apply orb_true_iff in Hs0.
    destruct Hs0 as [Hs0|Hs0]; [by rewrite bool_decide_true in Hs0 by eauto|].
    intros (? & ? & ? & ? & ?). by repeat split.
  - eapply map_Forall_impl; [done|]. intros id e. apply event_ok_mono. by rewrite dom_alter.
Qed.

(** *** Gateway events *)
Lemma Sound_InsertGatewayEvent e : Sound (InsertGatewayEvent e).
Proof.
  intros now t a t' H Ht. unfold InsertGatewayEvent in H. sql_inv. keep.
  by apply map_Forall_insert_2.
Qed.
Lemma Sound_UpdateGatewayEvent id status raw : Sound (UpdateGatewayEvent id status raw).
Proof.
  intros now t a t' H Ht. unfold UpdateGatewayEvent in H. sql_inv. keep.
  apply map_Forall_alter'; [|done]. intros e He. rewrite He in Hs0. apply orb_true_iff in Hs0.
  destruct Hs0 as [Hs0|Hs0]; [by rewrite bool_decide_true in Hs0 by eauto|].
  intros (? & ? & ? & ?). by repeat split.
Qed.
Lemma Sound_TouchGatewayEvent id : Sound (TouchGatewayEvent id).
Proof.
  intros now t a t' H Ht. unfold TouchGatewayEvent in H. sql_inv. keep.
  apply map_Forall_alter'; [|done]. intros e _ (? & ? & ? & ?).
  destruct (String.eqb (ev_Status e) "pending"); by repeat split.
Qed.

(** *** The ledger *)
Lemma Sound_InsertLedgerEntry e : Sound (InsertLedgerEntry e).
Proof.
  intros now t a t' H Ht. unfold InsertLedgerEntry in H. sql_inv. keep.
  - apply Forall_app. split; [done|]. by repeat constructor.
  - by apply NoDup_snoc.
Qed.

Lemma map_stamped (hit : LedgerEntry -> bool) at_ (l : list LedgerEntry) :
  le_ID <$> map (fun e => if hit e then stamp at_ e else e) l = le_ID <$> l.
Proof. rewrite <- list_fmap_compose. apply list_fmap_ext. intros i x _. simpl. by destruct (hit x). Qed.
Lemma Forall_stamped (hit : LedgerEntry -> bool) at_ (l : list LedgerEntry) :
  Forall entry_ok l -> Forall entry_ok (map (fun e => if hit e then stamp at_ e else e) l).
Proof. intros Hl. apply Forall_map. eapply Forall_impl; [|exact Hl]. intros e. by destruct (hit e). Qed.

Lemma Sound_StampLedgerSettlement ref at_ : Sound (StampLedgerSettlement ref at_).
Proof.
  intros now t a t' H Ht. unfold StampLedgerSettlement in H. sql_inv.
  keep; [by apply Forall_stamped|by rewrite map_stamped].
Qed.
Lemma Sound_UpdateLedgerEntrySettlement id at_ : Sound (UpdateLedgerEntrySettlement id at_).
Proof.
  intros now t a t' H Ht. unfold UpdateLedgerEntrySettlement in H. sql_inv.
  keep; [by apply Forall_stamped|by rewrite map_stamped].
Qed.

(** What a duplicate check says of the row at [Hj]. *)
Ltac row_checked_at H Hj := pose proof (list_values_Forall _ _ H _ _ Hj) as Hno; simpl in Hno.
#[local] Ltac row_checked Hj := match goal with H : Forall _ (map_to_list _).*2 |- _ => row_checked_at H Hj end.

(** *** Payouts *)
Lemma Sound_CreatePayoutBatch b : Sound (CreatePayoutBatch b).
Proof.
  intros now t a t' H Ht. unfold CreatePayoutBatch in H. sql_inv. keep.
  - by apply map_Forall_insert_2.
  - apply unique_insert; [done|]. intros j x v _ Hj Hx Hb.
    unfold batch_key in Hx, Hb. simpl in Hb. destruct (ba_IdempotencyKey b) as [key|] eqn:Ek; [|done].
    sql_inv. row_checked Hj. simpl in Hno, Hb.
    destruct (ba_IdempotencyKey x) as [k'|]; [|done]. simpl in Hx.
    injection Hb as <-. injection Hx as Hp Hd <-.
    by rewrite Hp, Hd, String.eqb_refl, Z.eqb_refl, bool_decide_true in Hno.
  - eapply Forall_impl; [|done]. intros r (? & ? & Hr). repeat split; try done.
    destruct (decide (re_BatchID r = ba_ID b)) as [->|];
      [rewrite lookup_insert_eq; eauto | by rewrite lookup_insert_ne].
Qed.

Lemma Sound_CreatePayoutReservation r : Sound (CreatePayoutReservation r).
Proof.
  intros now t a t' H Ht. unfold CreatePayoutReservation in H. sql_inv. keep.
  - apply Forall_app. split; [done|]. by repeat constructor.
  - by apply NoDup_snoc.
Qed.

Lemma Sound_reservations (f : PayoutReservation -> PayoutReservation) t :
  (forall r, re_ID (f r) = re_ID r /\ (reservation_ok (t_batches t) r -> reservation_ok (t_batches t) (f r))) ->
  schema_ok t -> schema_ok (set_reservations (map f) t).
Proof.
  intros Hf Ht. keep.
  - apply Forall_map. eapply Forall_impl; [|done]. intros r. apply Hf.
  - erewrite <- list_fmap_compose, list_fmap_ext; [done|]. intros i r _. apply Hf.
Qed.

Lemma Sound_SettlePayoutReservation id at_ : Sound (SettlePayoutReservation id at_).
Proof.
  intros now t a t' H Ht. unfold SettlePayoutReservation in H. sql_inv.
  apply Sound_reservations; [|done]. intros r. destruct (open_reservation id r); [|done].
  split; [done|]. intros (? & ? & ?). by repeat split.
Qed.
Lemma Sound_ReleasePayoutReservation id : Sound (ReleasePayoutReservation id).
Proof.
  intros now t a t' H Ht. unfold ReleasePayoutReservation in H. sql_inv.
  apply Sound_reservations; [|done]. intros r. destruct (open_reservation id r); [|done].
  split; [done|]. intros (? & ? & ?). by repeat split.
Qed.

(** *** The inbox *)
Lemma Sound_InsertWebhookInbox id g p : Sound (InsertWebhookInbox id g p).
Proof.
  intros now t a t' H Ht. unfold InsertWebhookInbox in H. sql_inv. keep. by apply map_Forall_insert_2.
Qed.
Lemma Sound_InsertWebhookInboxDedup id g p : Sound (InsertWebhookInboxDedup id g p).
Proof.
  intros now t a t' H Ht. unfold InsertWebhookInboxDedup in H. sql_inv.
  destruct (bool_decide (is_Some (t_inbox t !! id))); sql_inv; [done|]. keep. by apply map_Forall_insert_2.
Qed.
Lemma Sound_DeleteWebhookInbox id : Sound (DeleteWebhookInbox id).
Proof.
  intros now t a t' H Ht. unfold DeleteWebhookInbox in H. sql_inv. keep. by apply map_Forall_delete.
Qed.

(** *** Applications *)
Lemma Sound_InsertApp r : Sound (InsertApp r).
Proof.
  intros now t a t' H Ht. unfold InsertApp in H. sql_inv. keep.
  - by apply map_Forall_insert_2.
  - apply unique_insert; [done|]. intros j x v _ Hj [= <-] [= E].
    row_checked_at Hs1 Hj. by apply String.eqb_neq in Hno.
  - apply unique_insert; [done|]. intros j x v _ Hj [= <-] [= E].
    row_checked_at Hs2 Hj. by apply String.eqb_neq in Hno.
Qed.

Lemma Sound_UpdateAppKeyHash id hash prefix : Sound (UpdateAppKeyHash id hash prefix).
Proof.
  intros now t a t' H Ht. unfold UpdateAppKeyHash in H. sql_inv.
  destruct (t_apps t !! id) as [row|] eqn:Ea.
  2: { assert (Hno : alter (with_key hash prefix) id (t_apps t) = t_apps t) by (apply map_eq; intros j;
         destruct (decide (id = j)) as [<-|]; [by rewrite lookup_alter_eq, Ea|by rewrite lookup_alter_ne]).
       keep; by rewrite Hno. }
  rewrite bool_decide_true in Hs0 by eauto. apply not_exists_Forall in Hs0.
  assert (Halt : alter (with_key hash prefix) id (t_apps t) = <[id := with_key hash prefix row]> (t_apps t)).
  { apply map_eq. intros j. destruct (decide (id = j)) as [<-|];
      [by rewrite lookup_alter_eq, lookup_insert_eq, Ea|by rewrite lookup_alter_ne, lookup_insert_ne]. }
  pose proof (sc_app_ids _ Ht) as Hids. keep.
  - apply map_Forall_alter'; [|done]. by intros ? _.
  - by apply unique_alter.
  - rewrite Halt. apply unique_insert; [done|]. intros j x v Hjid Hj [= <-] [= E].
    row_checked_at Hs0 Hj.
    rewrite (Hids _ _ Hj), <- E, String.eqb_refl in Hno. simpl in Hno. by apply negb_false_iff, N.eqb_eq in Hno.
Qed.

Lemma Sound_RevokeApp id : Sound (RevokeApp id).
Proof.
  intros now t a t' H Ht. unfold RevokeApp in H. sql_inv.
  destruct (t_apps t !! id) as [row|] eqn:Ea; [|by sql_inv].
  destruct (bool_decide (is_Some (ap_RevokedAt row))); sql_inv; [done|].
  pose proof (sc_app_ids _ Ht) as Hids. pose proof (sc_app_names _ Ht) as Hn. pose proof (sc_app_hashes _ Ht) as Hh.
  keep.
  - apply map_Forall_insert_2; [by apply (Hids _ _ Ea)|done].
  - apply unique_insert; [done|]. intros j x v Hj Hx [= <-] [= E]. apply Hj.
    eapply (Hn j id); [done..|]. by simpl; f_equal.
  - apply unique_insert; [done|]. intros j x v Hj Hx [= <-] [= E]. apply Hj.
    eapply (Hh j id); [done..|]. by simpl; f_equal.
Qed.

#[export] Hint Resolve Sound_CreatePaymentIntent Sound_UpdatePaymentIntentStatus Sound_InsertGatewayEvent
  Sound_UpdateGatewayEvent Sound_TouchGatewayEvent Sound_InsertLedgerEntry Sound_StampLedgerSettlement
  Sound_UpdateLedgerEntrySettlement Sound_CreatePayoutBatch Sound_CreatePayoutReservation
  Sound_SettlePayoutReservation Sound_ReleasePayoutReservation Sound_InsertWebhookInbox
  Sound_InsertWebhookInboxDedup Sound_DeleteWebhookInbox Sound_InsertApp Sound_UpdateAppKeyHash
  Sound_RevokeApp : sound.
