(* ===== verification/History.v ===== *)
(** * The database only grows

    [grows t t'] is what no statement of the code ever takes back: the terms
    of an intent, the reference an idempotency key is registered under, a
    ledger entry (whose settlement is stamped once), a batch, the terms of a
    reservation and its final status, an application and its revocation. *)
From S2P Require Import Prelude GoStrings Money Reference Ledger Database DatabaseProofs.

(** Everything of an intent but its status. *)
Definition same_terms (i i' : PaymentIntent) : Prop := intent_with_status "" i' = intent_with_status "" i.
Definition same_event (e e' : GatewayEvent) : Prop :=
  ev_ID e' = ev_ID e /\ ev_Ref e' = ev_Ref e /\ ev_Gateway e' = ev_Gateway e
  /\ ev_CreatedAt e' = ev_CreatedAt e.
Definition settles (e e' : LedgerEntry) : Prop :=
  e' = e \/ (le_SettlementTime e = None /\ exists at_, e' = stamp at_ e).
Definition advances (r r' : PayoutReservation) : Prop :=
  r' = r \/ (re_Status r = "open" /\ exists at_,
    r' = reservation_with "settled" (Some at_) r \/ r' = reservation_with "released" (re_SettledAt r) r).
Definition same_app (a a' : AppRow) : Prop :=
  ap_ID a' = ap_ID a /\ ap_Name a' = ap_Name a /\ ap_Product a' = ap_Product a
  /\ ap_CreatedAt a' = ap_CreatedAt a
  /\ (is_Some (ap_RevokedAt a) -> ap_RevokedAt a' = ap_RevokedAt a).

(** Every row is still there, related by [R] to what it was. *)
Definition rows_kept {K A} `{Countable K} (R : A -> A -> Prop) (m m' : gmap K A) : Prop :=
  forall k a, m !! k = Some a -> exists a', m' !! k = Some a' /\ R a a'.
Definition extends {A} (R : A -> A -> Prop) (l l' : list A) : Prop :=
  exists kept new, l' = kept ++ new /\ Forall2 R l kept.

Record grows (t t' : Tables) : Prop := {
  gr_intents : rows_kept same_terms (t_intents t) (t_intents t');
  gr_keys : t_intent_keys t ⊆ t_intent_keys t';
  gr_events : rows_kept same_event (t_events t) (t_events t');
  gr_ledger : extends settles (t_ledger t) (t_ledger t');
  gr_batches : t_batches t ⊆ t_batches t';
  gr_reservations : extends advances (t_reservations t) (t_reservations t');
  gr_apps : rows_kept same_app (t_apps t) (t_apps t') }.

(** ** [grows] is a preorder *)
#[export] Instance same_terms_preorder : PreOrder same_terms.
Proof. split; [by intros i|]. intros i j k. unfold same_terms. congruence. Qed.
#[export] Instance same_event_preorder : PreOrder same_event.
Proof. split; [by intros i|]. intros x y z (? & ? & ? & ?) (? & ? & ? & ?). split_and!; congruence. Qed.
#[export] Instance settles_preorder : PreOrder settles.
Proof.
  split; [by left|]. intros e f g [->|[He [a ->]]]; [done|].
  intros [->|[Hf _]]; [right; eauto|done].
Qed.
#[export] Instance advances_preorder : PreOrder advances.
Proof.
  split; [by left|]. intros e f g [->|[He [a Hf]]]; [done|].
  intros [->|[Ho _]]; [right; eauto|]. by destruct Hf; subst f.
Qed.
#[export] Instance same_app_preorder : PreOrder same_app.
Proof.
  split; [by intros i; split_and!|]. intros x y z (? & ? & ? & ? & Hr) (? & ? & ? & ? & Hs).
  split_and!; try congruence. intros Hi. pose proof (Hr Hi) as E. rewrite <- E. apply Hs. by rewrite E.
Qed.

#[export] Instance rows_kept_preorder {K A} `{Countable K} (R : A -> A -> Prop) `{!PreOrder R} :
  PreOrder (rows_kept (K:=K) R).
Proof.
  split; [by intros m j x ?; exists x|]. intros m1 m2 m3 H1 H2 j a Ha.
  destruct (H1 j a Ha) as (b & Hb & ?), (H2 j b Hb) as (c & Hc & ?). exists c. split; [done|]. by etrans.
Qed.
#[export] Instance extends_preorder {A} (R : A -> A -> Prop) `{!PreOrder R} : PreOrder (extends R).
Proof.
  split; [intros l; exists l, []; by rewrite app_nil_r|].
  intros l1 l2 l3 (k1 & n1 & -> & H1) (k2 & n2 & -> & H2).
  apply Forall2_app_inv_l in H2 as (k3 & n3 & H3 & H4 & ->). exists k3, (n3 ++ n2).
  split; [by rewrite app_assoc|]. by etrans.
Qed.
#[export] Instance grows_preorder : PreOrder grows.
Proof. split; [intros t; by split|]. intros t1 t2 t3 [] []; split; by etrans. Qed.

Lemma rows_kept_insert {K A} `{Countable K} (R : A -> A -> Prop) `{!PreOrder R} (m : gmap K A) k a :
  m !! k = None -> rows_kept R m (<[k := a]> m).
Proof. intros Hk j x Hx. exists x. split; [|done]. rewrite lookup_insert_ne; congruence. Qed.
Lemma rows_kept_alter {K A} `{Countable K} (R : A -> A -> Prop) `{!PreOrder R} (m : gmap K A) k f :
  (forall a, R a (f a)) -> rows_kept R m (alter f k m).
Proof.
  intros Hf j x Hx. destruct (decide (k = j)) as [<-|Hj].
  - rewrite lookup_alter_eq, Hx. eexists. split; [done|]. apply Hf.
  - rewrite lookup_alter_ne by done. by exists x.
Qed.
Lemma extends_snoc {A} (R : A -> A -> Prop) `{!PreOrder R} (l : list A) x : extends R l (l ++ [x]).
Proof. by exists l, [x]. Qed.
Lemma extends_map {A} (R : A -> A -> Prop) (l : list A) f : (forall x, R x (f x)) -> extends R l (map f l).
Proof.
  intros Hf. exists (map f l), []. split; [by rewrite app_nil_r|].
  induction l; simpl; constructor; auto.
Qed.

(** ** No statement takes anything back *)
Definition Keeps {A} (s : Sql A) : Prop := forall now t a t', s now t = Ok (a, t') -> grows t t'.

Lemma Keeps_bind {A B} (s : Sql A) (f : A -> Sql B) : Keeps s -> (forall a, Keeps (f a)) -> Keeps (s ≫= f).
Proof. intros Hs Hf now t a t' H. sql_inv. etrans; [by eapply Hs|by eapply Hf]. Qed.
Lemma Keeps_each {A} (l : list A) (body : A -> Sql unit) : (forall x, Keeps (body x)) -> Keeps (sql_each l body).
Proof.
  intros Hb. induction l as [|x l IH]; simpl; [|apply Keeps_bind; auto].
  intros now t a t' H. by sql_inv.
Qed.
Lemma Reads_Keeps {A} (s : Sql A) : Reads s -> Keeps s.
Proof. intros Hs now t a t' H. by rewrite (Hs _ _ _ _ H). Qed.
#[export] Hint Resolve Keeps_bind Keeps_each Reads_Keeps : sound.
#[local] Hint Resolve map_Forall_insert_2 insert_subseteq : core.

Ltac keeps :=
  intros now t a t' H;
  match type of H with ?s now t = _ => let h := sql_head s in unfold h in H end;
  sql_inv.
(** The tables a statement does not touch. *)
Ltac grown := split; simpl; try reflexivity.

Lemma Keeps_CreatePaymentIntent p : Keeps (CreatePaymentIntent p).
Proof.
  keeps. destruct (pi_IdempotencyKey p); sql_inv; grown;
    try (apply rows_kept_insert; [apply _|done]); by apply insert_subseteq.
Qed.
Lemma Keeps_UpdatePaymentIntentStatus ref status : Keeps (UpdatePaymentIntentStatus ref status).
Proof. keeps. grown. apply rows_kept_alter; [apply _|done]. Qed.
Lemma Keeps_InsertGatewayEvent e : Keeps (InsertGatewayEvent e).
Proof. keeps. grown. apply rows_kept_insert; [apply _|done]. Qed.
Lemma Keeps_UpdateGatewayEvent id status raw : Keeps (UpdateGatewayEvent id status raw).
Proof. keeps. grown. apply rows_kept_alter; [apply _|done]. Qed.
Lemma Keeps_TouchGatewayEvent id : Keeps (TouchGatewayEvent id).
Proof.
  keeps. grown. apply rows_kept_alter; [apply _|]. intros e. by destruct (String.eqb (ev_Status e) "pending").
Qed.
Lemma Keeps_InsertLedgerEntry e : Keeps (InsertLedgerEntry e).
Proof. keeps. grown. apply extends_snoc, _. Qed.

Lemma settles_stamp (hit : LedgerEntry -> bool) at_ e :
  (hit e = true -> le_SettlementTime e = None) -> settles e (if hit e then stamp at_ e else e).
Proof. intros Hh. destruct (hit e); [right; eauto|by left]. Qed.
Lemma unsettled_None (e : LedgerEntry) b :
  b && negb (bool_decide (is_Some (le_SettlementTime e))) = true -> le_SettlementTime e = None.
Proof.
  rewrite andb_true_iff, negb_true_iff, bool_decide_eq_false, <- eq_None_not_Some. tauto.
Qed.
Lemma Keeps_StampLedgerSettlement ref at_ : Keeps (StampLedgerSettlement ref at_).
Proof. keeps. grown. apply extends_map. intros e. apply settles_stamp, unsettled_None. Qed.
Lemma Keeps_UpdateLedgerEntrySettlement id at_ : Keeps (UpdateLedgerEntrySettlement id at_).
Proof.
  keeps. grown. apply extends_map. intros e.
  exact (settles_stamp (fun e => (le_ID e =? id)%N && negb (bool_decide (is_Some (le_SettlementTime e))))
    (micros at_) e (unsettled_None e _)).
Qed.
Lemma Keeps_CreatePayoutBatch b : Keeps (CreatePayoutBatch b).
Proof. keeps. grown. by apply insert_subseteq. Qed.
Lemma Keeps_CreatePayoutReservation r : Keeps (CreatePayoutReservation r).
Proof. keeps. grown. apply extends_snoc, _. Qed.
Lemma open_reservation_open id r : open_reservation id r = true -> re_Status r = "open".
Proof. unfold open_reservation. rewrite andb_true_iff, String.eqb_eq. tauto. Qed.
Lemma Keeps_SettlePayoutReservation id at_ : Keeps (SettlePayoutReservation id at_).
Proof.
  keeps. grown. apply extends_map. intros r. destruct (open_reservation id r) eqn:E; [|by left].
  right. apply open_reservation_open in E. eauto.
Qed.
Lemma Keeps_ReleasePayoutReservation id : Keeps (ReleasePayoutReservation id).
Proof.
  keeps. grown. apply extends_map. intros r. destruct (open_reservation id r) eqn:E; [|by left].
  right. apply open_reservation_open in E. split; [done|]. exists Time_zero. by right.
Qed.
Lemma Keeps_InsertWebhookInbox id g p : Keeps (InsertWebhookInbox id g p).
Proof. keeps. grown. Qed.
Lemma Keeps_InsertWebhookInboxDedup id g p : Keeps (InsertWebhookInboxDedup id g p).
Proof. keeps. destruct (bool_decide (is_Some (t_inbox t !! id))); sql_inv; grown. Qed.
Lemma Keeps_DeleteWebhookInbox id : Keeps (DeleteWebhookInbox id).
Proof. keeps. grown. Qed.
Lemma Keeps_InsertApp r : Keeps (InsertApp r).
Proof. keeps. grown. apply rows_kept_insert; [apply _|done]. Qed.
Lemma Keeps_UpdateAppKeyHash id hash prefix : Keeps (UpdateAppKeyHash id hash prefix).
Proof. keeps. grown. apply rows_kept_alter; [apply _|done]. Qed.
Lemma Keeps_RevokeApp id : Keeps (RevokeApp id).
Proof.
  keeps. destruct (t_apps t !! id) as [row|] eqn:Ea; [|by sql_inv].
  destruct (bool_decide (is_Some (ap_RevokedAt row))) eqn:Er; sql_inv; [done|]. grown.
  intros k x Hx. destruct (decide (id = k)) as [<-|Hk].
  - rewrite Ea in Hx. injection Hx as <-. rewrite lookup_insert_eq. eexists. split; [done|].
    split_and!; try done. intros Hs. by rewrite bool_decide_true in Er.
  - rewrite lookup_insert_ne by done. by exists x.
Qed.

#[export] Hint Resolve Keeps_CreatePaymentIntent Keeps_UpdatePaymentIntentStatus Keeps_InsertGatewayEvent
  Keeps_UpdateGatewayEvent Keeps_TouchGatewayEvent Keeps_InsertLedgerEntry Keeps_StampLedgerSettlement
  Keeps_UpdateLedgerEntrySettlement Keeps_CreatePayoutBatch Keeps_CreatePayoutReservation
  Keeps_SettlePayoutReservation Keeps_ReleasePayoutReservation Keeps_InsertWebhookInbox
  Keeps_InsertWebhookInboxDedup Keeps_DeleteWebhookInbox Keeps_InsertApp Keeps_UpdateAppKeyHash
  Keeps_RevokeApp : sound.
