(* ===== verification/PgStore.v ===== *)
(** * internal/storage/postgres/pg_store.go, apps_store.go: the Postgres store

    [PostgresStore] and [PostgresAppsStore] over the statements of
    [Database].  A query is one atomic step, and so is a transaction
    ([WithTx], tx.go): what [Begin] and [Commit] may fail with is among the
    errors [pg_exec] may answer.  Identifiers a transaction needs are drawn
    before it.  The JSON text of [raw_response] is what [json.Marshal] writes. *)
From S2P Require Import Prelude GoStrings Json JsonCodec Money Reference Ledger Gateway Router.
From S2P Require Import Charges Payload Webhooks Worker Payouts Apps Database.

Section store.
Context {W : Type} `{!Runtime W} `{!Postgres W}.

(** One statement on the pool. *)
Definition query {A} (s : Sql A) : Prog W (result A) := call (pg_exec A s).
(** [db.WithTx(ctx, fn)] *)
Definition WithTx {A} (fn : Sql A) : Prog W (result A) := call (pg_exec A fn).

(** [if err != nil { return fmt.Errorf(prefix + "%w", err) }; return f(x), nil] *)
Definition mapped {A B} (prefix : string) (f : A -> B) (r : result A) : result B :=
  match r with Ok a => Ok (f a) | Err err => Err (Errorf prefix err) end.

(** ** Webhooks *)
Definition InsertWebhookInbox (aggregatorEventID gatewayName payload : string) : Prog W (result bool) :=
  rows ← query (InsertWebhookInboxDedup aggregatorEventID gatewayName payload);
  mret (mapped "postgres: insert webhook inbox: " (fun n => (n >? 0)%Z) rows).

Definition DeleteWebhookInbox (aggregatorEventID : string) : Prog W (result unit) :=
  r ← query (Database.DeleteWebhookInbox aggregatorEventID);
  mret (mapped "postgres: delete webhook inbox: " (fun _ => tt) r).

Definition FindIntent (ref : string) : Prog W (result Webhooks.Intent) :=
  row ← query (GetPaymentIntentForWebhook ref);
  mret (match row with
        | Err err =>
            if errors_Is err ErrNoRows then Err ErrUnknownRef
            else Err (Errorf "postgres: get intent for webhook: " err)
        | Ok (ref, gateway, status, product) =>
            Ok {| in_Ref := ref; in_Gateway := gateway; in_Status := status; in_Product := product |}
        end).

Definition ApplyChargeOutcome (ref status : string) (entries : list LedgerEntry) : Prog W (result unit) :=
  r ← WithTx (_ ← UpdatePaymentIntentStatus ref status; sql_each entries InsertLedgerEntry);
  mret (mapped "postgres: apply charge outcome: " id r).

(** ** Charges *)
Definition CreateIntent (ref : string) (req : ChargeRequest) (gw : Gateway) (amount : Money)
    (authorizationURL : string) : Prog W (result unit) :=
  r ← query (CreatePaymentIntent {| pi_Ref := ref; pi_Product := cr_Product req; pi_Gateway := gw;
        pi_AmountPesewas := minorUnits amount; pi_Currency := currency amount;
        pi_Wallet := nullString (cr_Wallet req); pi_IdempotencyKey := nullString (cr_IdempotencyKey req);
        pi_Status := "pending"; pi_AuthorizationURL := nullString authorizationURL;
        pi_CreatedAt := Time_zero |});
  mret (mapped "postgres: create intent: " id r).

Definition FindByRef (ref : string) : Prog W (result ChargePending) :=
  row ← query (GetPaymentIntentByRef ref);
  mret (match row with
        | Err err =>
            if errors_Is err ErrNoRows then Err Charges.ErrNotFound
            else Err (Errorf "postgres: get intent: " err)
        | Ok row => Ok {| cp_Ref := pi_Ref row; cp_Gateway := pi_Gateway row; cp_ExternalRef := pi_Ref row;
                          cp_AuthorizationURL := text (pi_AuthorizationURL row) |}
        end).

Definition FindByIdempotencyKey (product key : string) : Prog W (result (string * bool)) :=
  r ← query (GetPaymentIntentByIdempotencyKey product (nullString key));
  mret (match r with
        | Err err =>
            if errors_Is err ErrNoRows then Ok ("", false)
            else Err (Errorf "postgres: get intent by idempotency key: " err)
        | Ok ref => Ok (ref, true)
        end).

Definition UpdateStatus (ref status : string) : Prog W (result unit) :=
  r ← query (UpdatePaymentIntentStatus ref status);
  mret (mapped "postgres: update intent status: " id r).

(** ** Payouts *)
Definition batch_row (b : Payouts.PayoutBatch) : Database.PayoutBatch := {|
  ba_ID := pb_ID b; ba_Product := pb_Product b; ba_TotalPesewas := minorUnits (pb_Total b);
  ba_Currency := currency (pb_Total b); ba_Status := pb_Status b; ba_BatchDate := pb_BatchDate b;
  ba_IdempotencyKey := nullString (pb_IdempotencyKey b); ba_CreatedAt := Time_zero |}.

Definition reservation_row (batch : UUID) (x : UUID * Entry) : PayoutReservation := {|
  re_ID := x.1; re_BatchID := batch; re_AmountPesewas := minorUnits (pe_Amount x.2);
  re_Currency := currency (pe_Amount x.2); re_Status := "open"; re_SettledAt := None;
  re_Recipient := nullString (pe_Recipient x.2); re_Reference := nullString (pe_Reference x.2); re_Gateway := None;
  re_CreatedAt := Time_zero |}.

(** A fresh identifier for each entry. *)
Fixpoint with_ids {A} (l : list A) : Prog W (list (UUID * A)) :=
  match l with
  | [] => mret []
  | x :: l' => id ← uuid_New; rest ← with_ids l'; mret ((id, x) :: rest)
  end.

(** [fmt.Errorf("postgres: create batch: %w: %w", err, ledger.ErrConflict)] *)
Definition CreateBatchWithReservations (batch : Payouts.PayoutBatch) : Prog W (result unit) :=
  entries ← with_ids (pb_Entries batch);
  r ← WithTx (
    _ ← CreatePayoutBatch (batch_row batch);
    sql_each entries (fun x => CreatePayoutReservation (reservation_row (pb_ID batch) x)));
  mret (match r with
        | Ok _ => Ok tt
        | Err err =>
            if isUniqueViolation err
            then Err (Wrap ("postgres: create batch: " ^^ Error err ^^ ": " ^^ Error Ledger.ErrConflict)
                           [err; Ledger.ErrConflict])
            else Err (Errorf "postgres: create batch: " err)
        end).

Definition entry_of (r : PayoutReservation) : Entry := {|
  pe_Recipient := text (re_Recipient r); pe_Amount := New (re_AmountPesewas r) (re_Currency r);
  pe_Reference := text (re_Reference r); pe_VendorID := "" |}.

Definition FindBatch (id : UUID) : Prog W (result Payouts.PayoutBatch) :=
  b ← query (GetPayoutBatch id);
  match b with
  | Err err =>
      mret (if errors_Is err ErrNoRows then Err Ledger.ErrNotFound
            else Err (Errorf "postgres: get batch: " err))
  | Ok b =>
      rows ← query (ListPayoutReservationsByBatch id);
      mret (mapped "postgres: list reservations: " (fun rows => {|
        pb_ID := ba_ID b; pb_Product := ba_Product b; pb_Entries := map entry_of rows;
        pb_Status := ba_Status b; pb_Total := New (ba_TotalPesewas b) (ba_Currency b);
        pb_CreatedAt := ba_CreatedAt b; pb_BatchDate := ba_BatchDate b;
        pb_IdempotencyKey := text (ba_IdempotencyKey b) |}) rows)
  end.

(** ** Ledger *)
Definition AppendEntry (e : LedgerEntry) : Prog W (result unit) :=
  r ← query (InsertLedgerEntry e);
  mret (mapped "postgres: insert ledger entry: " id r).

Definition ListEntries (ref : string) : Prog W (result (list LedgerEntry)) :=
  rows ← query (ListLedgerEntriesByRef ref);
  mret (mapped "postgres: list ledger entries: " id rows).

Definition StampSettlement (ref : string) (t : Time) : Prog W (result unit) :=
  rows ← query (StampLedgerSettlement ref t);
  mret (match rows with
        | Err err => Err (Errorf "postgres: stamp settlement: " err)
        | Ok n => if (n =? 0)%Z then Err Ledger.ErrNotFound else Ok tt
        end).

Definition CreateReservation (r : Reservation) : Prog W (result unit) :=
  x ← query (CreatePayoutReservation {| re_ID := rv_ID r; re_BatchID := rv_BatchID r;
        re_AmountPesewas := minorUnits (rv_Amount r); re_Currency := currency (rv_Amount r);
        re_Status := rv_Status r; re_SettledAt := None; re_Recipient := None; re_Reference := None; re_Gateway := None;
        re_CreatedAt := Time_zero |});
  mret (mapped "postgres: create reservation: " id x).

Definition reservationRowsChecked (id : UUID) (rows : Z) : Prog W (result unit) :=
  if (rows >? 0)%Z then mret (Ok tt)
  else
    r ← query (GetPayoutReservationByID id);
    mret (match r with
          | Ok _ => Ok tt
          | Err err =>
              if errors_Is err ErrNoRows
              then Err (Errorf ("postgres: reservation " ^^ uuid_String id ^^ ": ") Ledger.ErrNotFound)
              else Err (Errorf "postgres: get reservation: " err)
          end).

Definition SettleReservation (id : UUID) (settlementTime : Time) : Prog W (result unit) :=
  rows ← query (SettlePayoutReservation id settlementTime);
  match rows with
  | Err err => mret (Err (Errorf "postgres: settle reservation: " err))
  | Ok rows => reservationRowsChecked id rows
  end.

Definition ReleaseReservation (id : UUID) : Prog W (result unit) :=
  rows ← query (ReleasePayoutReservation id);
  match rows with
  | Err err => mret (Err (Errorf "postgres: release reservation: " err))
  | Ok rows => reservationRowsChecked id rows
  end.

(** ** The worker's outbox *)
Definition ClaimPending (limit : Z) : Prog W (result (list Worker.GatewayEvent)) :=
  rows ← query (ClaimGatewayEventsForDispatch limit);
  mret (mapped "postgres: claim gateway events: " (map (fun r => {|
    ge_ID := ev_ID r; ge_Ref := ev_Ref r; ge_Gateway := ev_Gateway r; ge_Status := ev_Status r;
    ge_CreatedAt := ev_CreatedAt r |})) rows).

Definition GetIntent (ref : string) : Prog W (result Worker.Intent) :=
  row ← query (GetPaymentIntentByRef ref);
  mret (match row with
        | Err err =>
            if errors_Is err ErrNoRows
            then Err (Errorf ("postgres: intent " ^^ ref ^^ ": ") Charges.ErrNotFound)
            else Err (Errorf "postgres: get intent: " err)
        | Ok row => Ok {| wi_Ref := pi_Ref row; wi_Product := pi_Product row;
                          wi_Amount := New (pi_AmountPesewas row) (pi_Currency row);
                          wi_Gateway := pi_Gateway row; wi_Status := pi_Status row;
                          wi_Wallet := text (pi_Wallet row) |}
        end).

(** [json.Marshal(map[string]string{"status": ..., "reference": ...})] *)
Definition raw_response (v : VerifyResult) : string :=
  Marshal (JObj [("reference", JStr (vr_Reference v)); ("status", JStr (vr_Status v))]).

Definition update_event (id : UUID) (status : string) (v : VerifyResult) : Sql unit :=
  fun now t => match UpdateGatewayEvent id status (raw_response v) now t with
               | Ok r => Ok r
               | Err err => Err (Errorf "update gateway event: " err)
               end.

Definition CompleteSucceeded (eventID : UUID) (ref : string) (v : VerifyResult) (intent : Worker.Intent)
    : Prog W (result unit) :=
  let amt := if IsZero (vr_Amount v) then wi_Amount intent else vr_Amount v in
  id ← uuid_New;
  bookingTime ← time_Now;
  WithTx (
    _ ← update_event eventID "succeeded" v;
    _ ← UpdatePaymentIntentStatus ref "succeeded";
    InsertLedgerEntry {| le_ID := id; le_Kind := KindCollection; le_Ref := ref; le_Amount := amt;
      le_ValueTime := vr_VerifiedAt v; le_BookingTime := bookingTime; le_SettlementTime := None;
      le_Product := wi_Product intent; le_CreatedAt := Time_zero |}).

Definition CompleteFailed (eventID : UUID) (ref : string) (v : VerifyResult) : Prog W (result unit) :=
  WithTx (
    _ ← update_event eventID "failed" v;
    UpdatePaymentIntentStatus ref "failed").

Definition InsertOutboxEvent (ref : string) (gw : Gateway) : Prog W (result unit) :=
  id ← uuid_New;
  query (InsertGatewayEvent {| ev_ID := id; ev_Ref := ref; ev_Gateway := gw; ev_Status := "pending";
    ev_RawRequest := None; ev_RawResponse := None; ev_CreatedAt := Time_zero |}).

Definition MarkPendingRetry (eventID : UUID) : Prog W (result unit) := query (TouchGatewayEvent eventID).
Definition CountPending : Prog W (result Z) := query CountPendingEvents.

(** ** Applications (apps_store.go) *)
Definition app_of (r : AppRow) : App := {|
  app_ID := ap_ID r; app_Name := ap_Name r; app_Product := ap_Product r; app_Prefix := ap_KeyPrefix r;
  app_CreatedAt := ap_CreatedAt r; app_LastUsedAt := ap_LastUsedAt r; app_RevokedAt := ap_RevokedAt r;
  app_CreatedBy := ap_CreatedBy r |}.

Definition InsertApp (a : App) (hash : string) : Prog W (result unit) :=
  r ← query (Database.InsertApp {| ap_ID := app_ID a; ap_Name := app_Name a; ap_Product := app_Product a;
        ap_KeyHash := hash; ap_KeyPrefix := app_Prefix a; ap_CreatedAt := app_CreatedAt a;
        ap_LastUsedAt := None; ap_RevokedAt := None; ap_CreatedBy := app_CreatedBy a |});
  mret (mapped "postgres: insert app: " id r).

(** Any error of the query is a missing application. *)
Definition app_or_missing (r : result AppRow) : result App :=
  match r with Ok row => Ok (app_of row) | Err err => Err (wrap2 Apps.ErrNotFound err) end.
Definition GetApp (id : UUID) : Prog W (result App) :=
  r ← query (Database.GetApp id); mret (app_or_missing r).
Definition GetAppByHash (hash : string) : Prog W (result App) :=
  r ← query (Database.GetAppByHash hash); mret (app_or_missing r).
Definition ListApps : Prog W (result (list App)) :=
  r ← query Database.ListApps;
  mret (mapped "postgres: list apps: " (map app_of) r).
Definition UpdateAppKeyHash (id : UUID) (newHash newPrefix : string) : Prog W (result unit) :=
  r ← query (Database.UpdateAppKeyHash id newHash newPrefix);
  mret (mapped "postgres: update app key: " (fun x => x) r).
Definition RevokeApp (id : UUID) : Prog W (result unit) :=
  ct ← query (Database.RevokeApp id);
  match ct with
  | Err err => mret (Err (Errorf "postgres: revoke app: " err))
  | Ok rows =>
      if (rows =? 0)%Z then
        r ← query (AppExists id);
        let exists_ := match r with Ok b => b | Err _ => false end in
        mret (if exists_ then Ok tt else Err (Errorf "" Apps.ErrNotFound))
      else mret (Ok tt)
  end.

(** ** The seams *)
Definition pg_IntentStore : Charges.IntentStore W := {|
  Charges.CreateIntent := CreateIntent; Charges.FindByRef := FindByRef;
  Charges.FindByIdempotencyKey := FindByIdempotencyKey; Charges.UpdateStatus := UpdateStatus;
  as_outboxWriter := Some InsertOutboxEvent |}.
Definition pg_WebhookStore : Webhooks.Store W := {|
  Webhooks.InsertWebhookInbox := InsertWebhookInbox; Webhooks.DeleteWebhookInbox := DeleteWebhookInbox;
  Webhooks.FindIntent := FindIntent; Webhooks.ApplyChargeOutcome := ApplyChargeOutcome |}.
Definition pg_OutboxStore : Worker.OutboxStore W := {|
  Worker.ClaimPending := ClaimPending; Worker.GetIntent := GetIntent;
  Worker.CompleteSucceeded := CompleteSucceeded; Worker.CompleteFailed := CompleteFailed;
  Worker.MarkPendingRetry := MarkPendingRetry; Worker.CountPending := CountPending |}.
Definition pg_LedgerStore : Ledger.Store W := {|
  Ledger.AppendEntry := AppendEntry; Ledger.ListEntries := ListEntries;
  Ledger.StampSettlement := StampSettlement; Ledger.CreateReservation := CreateReservation;
  Ledger.SettleReservation := SettleReservation; Ledger.ReleaseReservation := ReleaseReservation |}.
Definition pg_ReservationStore : Payouts.ReservationStore W := {|
  Payouts.CreateBatchWithReservations := CreateBatchWithReservations; Payouts.FindBatch := FindBatch |}.
Definition pg_AppStore : Apps.Store W := {|
  Apps.InsertApp := InsertApp; Apps.GetApp := GetApp; Apps.ListApps := ListApps;
  Apps.UpdateAppKeyHash := UpdateAppKeyHash; Apps.RevokeApp := RevokeApp; Apps.GetAppByHash := GetAppByHash |}.
End store.
