(* ===== verification/PgSpec.v ===== *)
(** * The Postgres store meets the contracts

    Over a server that answers as [PostgresSpec] says, the store meets the
    contracts [WebhookStoreSpec] and [IntentStoreSpec] that webhook processing
    and charge initiation are proved against, and no call breaks the schema.
    The other groups: payout batches, reservations, settlement, applications. *)
From S2P Require Import Prelude GoStrings Json JsonCodec Money Reference Ledger Gateway Router RouterProofs.
From S2P Require Import Charges ChargesSpec Payload Webhooks WebhooksSpec Worker WorkerFrames Payouts Apps.
From S2P Require Import Database DatabaseProofs History PgStore.

Section frames.
Context {W V : Type} `{!Runtime W} `{!Postgres W} (view : W -> V).
Context `{!PostgresFrame view} `{!RuntimeFrame view}.

Lemma Preserves_query {A} (s : Sql A) : Preserves view (query s).
Proof. apply Guar_call. intros w. apply pg_frame. Qed.
Lemma Preserves_WithTx {A} (s : Sql A) : Preserves view (WithTx s).
Proof. apply Guar_call. intros w. apply pg_frame. Qed.
Hint Resolve Preserves_query Preserves_WithTx : guar.

#[export] Instance pg_webhook_frame : WebhookStoreFrame pg_WebhookStore view.
Proof.
  split; simpl; intros; [unfold InsertWebhookInbox|unfold DeleteWebhookInbox|unfold FindIntent
    |unfold ApplyChargeOutcome]; guar.
Qed.
#[export] Instance pg_intent_frame : IntentStoreFrame pg_IntentStore view.
Proof.
  split; simpl; intros; simplify_eq/=;
    [unfold CreateIntent|unfold FindByIdempotencyKey|unfold InsertOutboxEvent]; guar.
Qed.
#[export] Instance pg_outbox_frame : OutboxStoreFrame pg_OutboxStore view.
Proof.
  split; simpl; intros; [unfold ClaimPending|unfold GetIntent|unfold CompleteSucceeded
    |unfold CompleteFailed|unfold MarkPendingRetry|unfold CountPending]; guar.
Qed.
End frames.

(** ** Webhooks *)
Definition intent_view (i : PaymentIntent) : Webhooks.Intent :=
  {| in_Ref := pi_Ref i; in_Gateway := pi_Gateway i; in_Status := pi_Status i; in_Product := pi_Product i |}.
Definition entries_for (l : list LedgerEntry) (ref : string) : list LedgerEntry :=
  List.filter (fun e => String.eqb (le_Ref e) ref) l.
Definition books_of (t : Tables) : Books :=
  mkBooks (dom (t_inbox t)) (intent_view <$> t_intents t)
          (map_imap (fun ref _ => Some (entries_for (t_ledger t) ref)) (t_intents t)).

Lemma same_instant_micros t : same_instant (micros t) t.
Proof. unfold same_instant, micros. by rewrite Z.div_mul. Qed.
#[local] Hint Resolve same_instant_micros : core.

(** Booking entries in one transaction, statement by statement. *)
Lemma insert_entries_spec es now t u t' :
  sql_each es InsertLedgerEntry now t = Ok (u, t') ->
  exists kept, Forall2 recorded es kept /\ t' = set_ledger (fun l => l ++ kept) t.
Proof.
  revert t. induction es as [|e es IH]; intros t H; simpl in H; sql_inv.
  - exists []. split; [constructor|]. destruct t. unfold set_ledger. simpl. by rewrite app_nil_r.
  - unfold InsertLedgerEntry in Hs. sql_inv. apply IH in H as (kept & Hk & ->).
    eexists (_ :: kept). split; [constructor; [|done]|].
    2: { unfold set_ledger. simpl. by rewrite <- app_assoc. }
    repeat split; simpl; try done. destruct (le_SettlementTime e); by constructor.
Qed.

Lemma entries_for_one l ref ref' :
  Forall (fun e => le_Ref e = ref) l -> entries_for l ref' = if String.eqb ref ref' then l else [].
Proof.
  unfold entries_for. induction 1 as [|e l He Hl IH]; simpl; [by destruct (String.eqb ref ref')|].
  rewrite He, IH. by destruct (String.eqb ref ref').
Qed.
Lemma recorded_refs es kept ref :
  Forall2 recorded es kept -> Forall (fun e => le_Ref e = ref) es -> Forall (fun e => le_Ref e = ref) kept.
Proof.
  induction 1 as [|e k es kept (_ & _ & Hr & _) Hk IH]; inversion 1; subst; constructor; auto.
Qed.

Lemma books_of_outcome ref status i kept t :
  bk_intents (books_of t) !! ref = Some i -> Forall (fun e => le_Ref e = ref) kept ->
  books_of (set_ledger (fun l => l ++ kept) (set_intents (alter (intent_with_status status) ref) t))
  = book_outcome ref status i kept (books_of t).
Proof.
  intros Hi Hk. unfold books_of, book_outcome, entries_of in *. simpl in *.
  rewrite lookup_fmap in Hi. destruct (t_intents t !! ref) as [row|] eqn:Er; [|done].
  injection Hi as <-. f_equal.
  - apply map_eq. intros r. rewrite lookup_fmap. destruct (decide (ref = r)) as [<-|Hne].
    + by rewrite lookup_alter_eq, lookup_insert_eq, Er.
    + by rewrite lookup_alter_ne, lookup_insert_ne, lookup_fmap.
  - apply map_eq. intros r. rewrite map_lookup_imap. destruct (decide (ref = r)) as [<-|Hne].
    + rewrite lookup_alter_eq, lookup_insert_eq, map_lookup_imap, Er. simpl.
      unfold entries_for at 1. by rewrite List.filter_app, (entries_for_one kept ref ref Hk : List.filter _ _ = _),
        String.eqb_refl.
    + rewrite lookup_alter_ne, lookup_insert_ne, map_lookup_imap by done.
      destruct (t_intents t !! r); simpl; [|done]. unfold entries_for at 1. rewrite List.filter_app.
      rewrite (entries_for_one kept ref r Hk : List.filter _ _ = _).
      by rewrite (proj2 (String.eqb_neq ref r) Hne), app_nil_r.
Qed.

(** Split on what the server answered. *)
Ltac pg_cases tables s w :=
  let H := fresh "Hpg" in
  pose proof (pg_answer (tables:=tables) _ s w) as H;
  destruct (pg_exec _ s w) as [[?a|?e] ?w']; cbn [fst snd] in *;
  [destruct H as [?now H] | destruct H as [H ?He]].

Section pg_webhooks.
Context {W : Type} `{!Runtime W} `{!Postgres W} (tables : W -> Tables) `{!PostgresSpec tables}.

#[export] Instance pg_webhook_spec : WebhookStoreSpec pg_WebhookStore (fun w => books_of (tables w)).
Proof.
  split; simpl.
  - intros id g p w. unfold InsertWebhookInbox, query. run_simpl.
    pg_cases tables (InsertWebhookInboxDedup id g p) w; cbn [mapped]; [|by rewrite Hpg].
    unfold InsertWebhookInboxDedup in Hpg. sql_inv. simpl.
    rewrite (bool_decide_ext (id ∈ dom (t_inbox (tables w))) (is_Some (t_inbox (tables w) !! id)))
      by apply elem_of_dom.
    destruct (bool_decide (is_Some (t_inbox (tables w) !! id))); sql_inv; simpl; [by split; [|congruence]|].
    split; [done|].
    unfold books_of, record_event. simpl. by rewrite dom_insert_L.
  - intros id w. unfold DeleteWebhookInbox, query. run_simpl.
    pg_cases tables (Database.DeleteWebhookInbox id) w; cbn [mapped]; [|by rewrite Hpg].
    unfold Database.DeleteWebhookInbox in Hpg. sql_inv.
    unfold books_of, forget_event. simpl. by rewrite dom_delete_L.
  - intros ref w. unfold FindIntent, query. run_simpl.
    pg_cases tables (GetPaymentIntentForWebhook ref) w; simpl.
    2: { split; [by rewrite Hpg|]. by destruct (errors_Is e ErrNoRows). }
    unfold GetPaymentIntentForWebhook in Hpg. sql_inv. destruct a as [[[r g] st] pr].
    rewrite lookup_fmap.
    split; [done|]. destruct (t_intents (tables w) !! ref) as [row|]; [|done]. simpl in *. by simplify_eq.
  - intros ref status es i w Hi Hes. unfold ApplyChargeOutcome, WithTx. run_simpl.
    pg_cases tables (_ ← UpdatePaymentIntentStatus ref status; sql_each es InsertLedgerEntry) w;
      cbn [mapped]; [|by rewrite Hpg].
    sql_inv. unfold UpdatePaymentIntentStatus in Hs. sql_inv.
    apply insert_entries_spec in Hpg as (kept & Hk & ->). exists kept. split; [done|].
    apply books_of_outcome; [done|]. by eapply recorded_refs.
Qed.
End pg_webhooks.

(** ** Charges *)

(** NULL keys are never equal, so an empty key has a scope no row is in. *)
Definition key_scope (product key : string) : string * option string := (product, nullString key).
Definition indexed (k : string * string) : string * option string := (k.1, Some k.2).
#[export] Instance indexed_inj : Inj (=) (=) indexed.
Proof. intros [a b] [c d] [= -> ->]. done. Qed.

Definition row_view (i : PaymentIntent) : IntentView :=
  {| iv_Gateway := pi_Gateway i; iv_Status := pi_Status i; iv_Product := pi_Product i |}.
Definition register_of (t : Tables) : Register (string * option string) :=
  mkRegister (row_view <$> t_intents t) (kmap (M2:=gmap (string * option string)) indexed (t_intent_keys t)).

Lemma kmap_indexed_lookup (m : gmap (string * string) string) product key :
  kmap (M2:=gmap (string * option string)) indexed m !! key_scope product key
  = (k ← nullString key; m !! (product, k)).
Proof.
  unfold key_scope. destruct (nullString key) as [k|]; simpl.
  - exact (lookup_kmap indexed m (product, k)).
  - apply eq_None_not_Some. intros [r Hr]. apply lookup_kmap_Some in Hr as (i & Hi & _); [done|apply _].
Qed.

Section pg_charges.
Context {W : Type} `{!Runtime W} `{!Postgres W} (tables : W -> Tables) `{!PostgresSpec tables}.
Context `{!RuntimeFrame tables}.

#[export] Instance pg_intent_spec : IntentStoreSpec pg_IntentStore key_scope (fun w => register_of (tables w)).
Proof.
  split; simpl.
  - intros ref req g amt url w. unfold CreateIntent, query. run_simpl.
    match goal with |- context [pg_exec _ ?s w] => pg_cases tables s w end; cbn [mapped]; [|by rewrite Hpg].
    unfold CreatePaymentIntent in Hpg. sql_inv. simpl in Hpg.
    unfold nullString in Hpg. unfold register_of, register_intent. simpl. unfold key_scope, nullString.
    destruct (String.eqb (cr_IdempotencyKey req) "") eqn:Ek; sql_inv; simpl; rewrite fmap_insert; [done|].
    unfold row_view at 1. simpl. f_equal. exact (kmap_insert indexed (t_intent_keys (tables w)) (cr_Product req, cr_IdempotencyKey req) ref).
  - intros product key w. unfold FindByIdempotencyKey, query. run_simpl.
    match goal with |- context [pg_exec _ ?s w] => pg_cases tables s w end.
    + unfold GetPaymentIntentByIdempotencyKey in Hpg. sql_inv.
      rewrite kmap_indexed_lookup. split; [congruence|]. done.
    + rewrite Hpg. split; [done|]. destruct (errors_Is e ErrNoRows) eqn:En; [|done].
      rewrite kmap_indexed_lookup. destruct He as [[Hf _]|[now He]]; [congruence|].
      unfold GetPaymentIntentByIdempotencyKey in He. unfold mbind at 1, Sql_bind, sql_tables, one in He.
      destruct (k ← nullString key; t_intent_keys (tables w) !! (product, k)); [done|]. done.
  - intros f ref g w [= <-]. unfold InsertOutboxEvent. run_simpl. 
    pose proof (frame_uuid (view:=tables) w) as Hu. rewrite <- Hu.
    match goal with |- context [run (query ?s) ?w1] => unfold query; rewrite !run_call; pg_cases tables s w1 end.
    + unfold InsertGatewayEvent in Hpg. sql_inv. done.
    + by rewrite Hpg.
Qed.
End pg_charges.

(** ** Every call of the stores keeps the schema and takes nothing back *)
Definition forget {W A} (p : Prog W A) : Prog W unit := _ ← p; mret tt.

Section pg_safety.
Context {W : Type} `{!Runtime W} `{!Postgres W} (tables : W -> Tables) `{!PostgresSpec tables}.
Context `{!RuntimeFrame tables}.

(** The methods of [PostgresStore] and [PostgresAppsStore]. *)
Inductive pg_call : Prog W unit -> Prop :=
| pc_InsertWebhookInbox id g p : pg_call (forget (InsertWebhookInbox id g p))
| pc_DeleteWebhookInbox id : pg_call (forget (DeleteWebhookInbox id))
| pc_FindIntent ref : pg_call (forget (FindIntent ref))
| pc_ApplyChargeOutcome ref status es : pg_call (forget (ApplyChargeOutcome ref status es))
| pc_CreateIntent ref req g amt url : pg_call (forget (CreateIntent ref req g amt url))
| pc_FindByRef ref : pg_call (forget (FindByRef ref))
| pc_FindByIdempotencyKey p k : pg_call (forget (FindByIdempotencyKey p k))
| pc_UpdateStatus ref status : pg_call (forget (UpdateStatus ref status))
| pc_CreateBatch b : pg_call (forget (CreateBatchWithReservations b))
| pc_FindBatch id : pg_call (forget (FindBatch id))
| pc_AppendEntry e : pg_call (forget (AppendEntry e))
| pc_ListEntries ref : pg_call (forget (ListEntries ref))
| pc_StampSettlement ref t : pg_call (forget (StampSettlement ref t))
| pc_CreateReservation r : pg_call (forget (CreateReservation r))
| pc_SettleReservation id t : pg_call (forget (SettleReservation id t))
| pc_ReleaseReservation id : pg_call (forget (ReleaseReservation id))
| pc_ClaimPending n : pg_call (forget (ClaimPending n))
| pc_GetIntent ref : pg_call (forget (GetIntent ref))
| pc_CompleteSucceeded id ref v i : pg_call (forget (CompleteSucceeded id ref v i))
| pc_CompleteFailed id ref v : pg_call (forget (CompleteFailed id ref v))
| pc_InsertOutboxEvent ref g : pg_call (forget (InsertOutboxEvent ref g))
| pc_MarkPendingRetry id : pg_call (forget (MarkPendingRetry id))
| pc_CountPending : pg_call (forget CountPending)
| pc_InsertApp a h : pg_call (forget (InsertApp a h))
| pc_GetApp id : pg_call (forget (GetApp id))
| pc_GetAppByHash h : pg_call (forget (GetAppByHash h))
| pc_ListApps : pg_call (forget ListApps)
| pc_UpdateAppKeyHash id h p : pg_call (forget (UpdateAppKeyHash id h p))
| pc_RevokeApp id : pg_call (forget (RevokeApp id)).

Definition safe_step (w w' : W) : Prop :=
  (schema_ok (tables w) -> schema_ok (tables w')) /\ grows (tables w) (tables w').
#[export] Instance safe_step_preorder : PreOrder safe_step.
Proof. split; [by intros w|]. intros w1 w2 w3 [H1 G1] [H2 G2]. split; [auto|by etrans]. Qed.

Lemma safe_query {A} (s : Sql A) : Sound s -> Keeps s -> Guar safe_step (call (pg_exec A s)).
Proof.
  intros Hs Hk. apply Guar_call. intros w.
  unfold safe_step. pg_cases tables s w; [|by rewrite Hpg]. split; [by eapply Hs|by eapply Hk].
Qed.
Lemma safe_quiet {A} (p : Prog W A) : Preserves tables p -> Guar safe_step p.
Proof. apply Guar_mono. intros w w' E. unfold safe_step. by rewrite E. Qed.

Lemma Sound_update_event id status v : Sound (update_event id status v).
Proof.
  intros now t a t' H. unfold update_event in H.
  destruct (UpdateGatewayEvent id status (raw_response v) now t) as [[]|] eqn:E; [|done].
  injection H as <- <-. by eapply Sound_UpdateGatewayEvent.
Qed.
Lemma Keeps_update_event id status v : Keeps (update_event id status v).
Proof.
  intros now t a t' H. unfold update_event in H.
  destruct (UpdateGatewayEvent id status (raw_response v) now t) as [[]|] eqn:E; [|done].
  injection H as <- <-. by eapply Keeps_UpdateGatewayEvent.
Qed.
Lemma safe_now : Guar safe_step time_Now.
Proof. apply safe_quiet, Preserves_now, _. Qed.
Lemma safe_uuid : Guar safe_step uuid_New.
Proof. apply safe_quiet, Preserves_uuid, _. Qed.
Lemma safe_with_ids {A} (l : list A) : Guar safe_step (with_ids l).
Proof.
  induction l as [|x l IH]; cbn [with_ids]; [apply Guar_ret|].
  apply Guar_bind; [apply safe_uuid|]. intros id. apply Guar_bind; [done|]. intros r. apply Guar_ret.
Qed.
Hint Resolve Sound_update_event Keeps_update_event : sound.
Hint Resolve safe_now safe_uuid safe_with_ids : guar.

Ltac safe := repeat first
  [ progress intros
  | apply Guar_ret
  | apply safe_query; [eauto 10 with sound|eauto 10 with sound]
  | apply safe_uuid | apply safe_now | apply safe_with_ids
  | apply Guar_bind
  | case_match ].

Lemma pg_call_safe p : pg_call p -> Guar safe_step p.
Proof.
  destruct 1; unfold forget;
    [unfold InsertWebhookInbox|unfold DeleteWebhookInbox|unfold FindIntent|unfold ApplyChargeOutcome
    |unfold CreateIntent|unfold FindByRef|unfold FindByIdempotencyKey|unfold UpdateStatus
    |unfold CreateBatchWithReservations|unfold FindBatch|unfold AppendEntry|unfold ListEntries
    |unfold StampSettlement|unfold CreateReservation|unfold SettleReservation|unfold ReleaseReservation
    |unfold ClaimPending|unfold GetIntent|unfold CompleteSucceeded|unfold CompleteFailed
    |unfold InsertOutboxEvent|unfold MarkPendingRetry|unfold CountPending|unfold InsertApp|unfold GetApp
    |unfold GetAppByHash|unfold ListApps|unfold UpdateAppKeyHash|unfold RevokeApp];
    unfold query, WithTx, reservationRowsChecked; unfold query; safe.
Qed.

Lemma pg_threads_safe sch threads w :
  Forall (Forall pg_call) threads -> safe_step w (sched sch (map (fun calls => forM_ calls (fun c => c)) threads) w).2.
Proof.
  intros Hts. apply sched_Guar; [apply _|]. apply Forall_map. eapply Forall_impl; [|exact Hts].
  intros calls Hcs. apply Guar_forM. intros c Hc. apply pg_call_safe.
  by eapply list.Forall_forall in Hcs.
Qed.
End pg_safety.
Arguments pg_call {W _ _} p.

(** ** Properties *)

(** The schema is an invariant: any number of goroutines, each making any
    sequence of calls of the Postgres stores with any arguments, in any
    interleaving, leave tables that meet the schema as they found them. *)
Theorem pg_schema_preserved {W} `{!Runtime W} `{!Postgres W} (tables : W -> Tables)
    `{!PostgresSpec tables} `{!RuntimeFrame tables} sch threads w :
  Forall (Forall pg_call) threads -> schema_ok (tables w) ->
  schema_ok (tables (sched sch (map (fun calls => forM_ calls (fun c => c)) threads) w).2).
Proof. intros Hts. exact (proj1 (pg_threads_safe tables sch threads w Hts)). Qed.

(** Nothing is taken back: whatever the stores are called with and however
    the calls interleave, no intent changes its terms, no idempotency key its
    reference, no ledger entry anything but its missing settlement time, no
    reservation a final status, and no revoked application comes back. *)
Theorem pg_append_only {W} `{!Runtime W} `{!Postgres W} (tables : W -> Tables)
    `{!PostgresSpec tables} `{!RuntimeFrame tables} sch threads w :
  Forall (Forall pg_call) threads ->
  grows (tables w) (tables (sched sch (map (fun calls => forM_ calls (fun c => c)) threads) w).2).
Proof. intros Hts. exact (proj2 (pg_threads_safe tables sch threads w Hts)). Qed.

