(* ===== verification/PgOutbox.v ===== *)
(** * The worker's outbox in Postgres

    The tables as an abstract outbox, and the Postgres store as an instance of
    the worker's contract: over a server that may fail, and over one that
    answers every statement and identifiers that do not repeat. *)
From S2P Require Import Prelude GoStrings Json JsonCodec Money Reference Ledger Gateway Router RouterProofs.
From S2P Require Import Charges ChargesSpec Payload Webhooks WebhooksSpec Worker WorkerFrames WorkerSpec Payouts Apps.
From S2P Require Import Database DatabaseProofs History PgStore PgSpec.
From stdpp Require Import sorting.

Definition worker_row (r : Database.GatewayEvent) : Worker.GatewayEvent :=
  {| ge_ID := ev_ID r; ge_Ref := ev_Ref r; ge_Gateway := ev_Gateway r; ge_Status := ev_Status r;
     ge_CreatedAt := ev_CreatedAt r |}.
Definition intent_amount (i : PaymentIntent) : Money := New (pi_AmountPesewas i) (pi_Currency i).
Definition outbox_of (t : Tables) : Outbox :=
  mkOutbox (worker_row <$> t_events t) (intent_amount <$> t_intents t) (PgSpec.books_of t).
Definition in_cedis (m : Money) : Prop := currency m = GHS.

Lemma update_event_inv id status v now t a t' : update_event id status v now t = Ok (a, t') ->
  UpdateGatewayEvent id status (raw_response v) now t = Ok (a, t').
Proof.
  unfold update_event. destruct (UpdateGatewayEvent id status (raw_response v) now t) as [[]|]; [|done]. by intros [= -> ->].
Qed.

(** ** What the statements do to the outbox *)
Lemma waiting_rows_events t :
  waiting_rows (outbox_of t)
  ≡ₚ map worker_row (List.filter (fun e => String.eqb (ev_Status e) "pending") (map_to_list (t_events t)).*2).
Proof.
  unfold waiting_rows. simpl. rewrite map_to_list_fmap, <- list_fmap_compose.
  rewrite (list_fmap_ext _ (worker_row ∘ snd)) by (by intros i []). rewrite list_fmap_compose.
  induction (map_to_list (t_events t)).*2 as [|e l IH]; simpl; [done|].
  unfold is_waiting at 1. simpl. destruct (String.eqb (ev_Status e) "pending"); simpl; by rewrite IH.
Qed.

Lemma fmap_events_settled status raw id (m : gmap UUID Database.GatewayEvent) :
  worker_row <$> alter (event_settled status raw) id m = alter (closed_row status) id (worker_row <$> m).
Proof. by apply fmap_alter. Qed.
Lemma fmap_intents_status status ref (m : gmap string PaymentIntent) :
  intent_view <$> alter (intent_with_status status) ref m = alter (intent_status status) ref (intent_view <$> m).
Proof. by apply fmap_alter. Qed.
Lemma amounts_status status ref (m : gmap string PaymentIntent) :
  intent_amount <$> alter (intent_with_status status) ref m = intent_amount <$> m.
Proof.
  rewrite (fmap_alter intent_amount _ id) by done. apply map_eq. intros r.
  destruct (decide (ref = r)) as [<-|]; [rewrite lookup_alter_eq; by destruct (_ !! _)|by rewrite lookup_alter_ne].
Qed.

Lemma outbox_of_touched id (f : Database.GatewayEvent -> Database.GatewayEvent) t :
  (forall e, worker_row (f e) = worker_row e) -> outbox_of (set_events (alter f id) t) = outbox_of t.
Proof.
  intros Hf. unfold outbox_of. simpl. f_equal. apply map_eq. intros k. rewrite !lookup_fmap.
  destruct (decide (id = k)) as [<-|]; [rewrite lookup_alter_eq|by rewrite lookup_alter_ne].
  destruct (t_events t !! id); simpl; by rewrite ?Hf.
Qed.
Lemma books_of_declined ref t :
  PgSpec.books_of (set_intents (alter (intent_with_status "failed") ref) t) = books_declined ref (PgSpec.books_of t).
Proof.
  unfold PgSpec.books_of, books_declined. simpl. f_equal; [apply fmap_intents_status|].
  apply map_eq. intros r. rewrite !map_lookup_imap.
  destruct (decide (ref = r)) as [<-|]; [rewrite lookup_alter_eq; by destruct (_ !! _)|by rewrite lookup_alter_ne].
Qed.

(** The statements succeed, but for what the ledger refuses. *)
Lemma update_event_ok id status v now t :
  in_list status charge_statuses = true ->
  update_event id status v now t = Ok (tt, set_events (alter (event_settled status (raw_response v)) id) t).
Proof.
  intros Hs. unfold update_event, UpdateGatewayEvent, mbind, Sql_bind, sql_tables. by rewrite Hs, orb_true_r.
Qed.
Lemma update_status_ok ref status now t :
  in_list status charge_statuses = true ->
  UpdatePaymentIntentStatus ref status now t = Ok (tt, set_intents (alter (intent_with_status status) ref) t).
Proof. intros Hs. unfold UpdatePaymentIntentStatus, mbind, Sql_bind, sql_tables. by rewrite Hs, orb_true_r. Qed.
Lemma insert_entry_ok e now t :
  in_list (le_Kind e) ledger_kinds = true -> currency (le_Amount e) = GHS -> le_ID e ∉ le_ID <$> t_ledger t ->
  is_Ok (InsertLedgerEntry e now t) = true.
Proof.
  intros Hk Hc Hid. unfold InsertLedgerEntry, mbind, Sql_bind, sql_tables, sql_now. rewrite Hk, Hc. simpl.
  replace (existsb (fun r => (le_ID r =? le_ID e)%N) (t_ledger t)) with false; [done|]. symmetry.
  apply not_true_iff_false. rewrite existsb_exists. intros (r & Hr & E%N.eqb_eq). apply Hid, list_elem_of_fmap.
  exists r. by rewrite list_elem_of_In.
Qed.

(** ** The contract *)
Section pg_outbox.
Context {W : Type} `{!Runtime W} `{!Postgres W} (tables : W -> Tables) `{!PostgresSpec tables} `{!RuntimeFrame tables}.

(** [uuid.New] answers no identifier the ledger has. *)
Class FreshIDs : Prop := fresh_id w : (run uuid_New w).1 ∉ le_ID <$> t_ledger (tables w).

Context (faulty : Prop) (Hup : faulty \/ PostgresUp tables) (Hids : faulty \/ FreshIDs).

Lemma pg_result {A} (s : Sql A) w :
  match (pg_exec A s w).1 with
  | Ok a => exists now, s now (tables w) = Ok (a, tables (pg_exec A s w).2)
  | Err e => tables (pg_exec A s w).2 = tables w /\ (faulty \/ exists now, s now (tables w) = Err e)
  end.
Proof.
  pose proof (pg_answer (tables:=tables) A s w) as H.
  destruct Hup as [?|Hu]; [destruct (pg_exec A s w).1; tauto|].
  destruct (pg_up (tables:=tables) A s w) as [now Hs]. destruct (pg_exec A s w).1; [done|]. split; [tauto|eauto].
Qed.

Ltac pg_split s w :=
  let E := fresh "E" in
  pose proof (pg_result s w) as E; destruct (pg_exec _ s w) as [[?a|?e] ?w']; cbn [fst snd] in *;
  [destruct E as [?now E] | destruct E as [?Ht E]].

Lemma pg_claim limit w : (0 <= limit)%Z ->
  tables (run (ClaimPending limit) w).2 = tables w
  /\ match (run (ClaimPending limit) w).1 with
     | Ok l => claimed limit (outbox_of (tables w)) l
     | Err _ => faulty
     end.
Proof.
  intros Hl. unfold ClaimPending, query. run_simpl. pg_split (ClaimGatewayEventsForDispatch limit) w; simpl.
  - unfold ClaimGatewayEventsForDispatch in E. sql_inv. split; [done|].
    rewrite <- firstn_map. apply claimed_take.
    + rewrite waiting_rows_events. apply Permutation_map, order_by_perm.
    + apply (StronglySorted_fmap worker_row (fun a b => ev_CreatedAt a <= ev_CreatedAt b)%Z); [done|].
      apply order_by_sorted.
  - split; [done|]. destruct E as [?|[now E]]; [done|].
    unfold ClaimGatewayEventsForDispatch, mbind, Sql_bind, sql_tables in E.
    by rewrite (proj2 (Z.leb_le _ _) Hl) in E.
Qed.

Lemma pg_intent ref w :
  tables (run (GetIntent ref) w).2 = tables w
  /\ match (run (GetIntent ref) w).1 with
     | Ok i => exists row, t_intents (tables w) !! ref = Some row /\ intent_of i = intent_view row /\ wi_Amount i = intent_amount row
     | Err _ => faulty \/ t_intents (tables w) !! ref = None
     end.
Proof.
  unfold GetIntent, query. run_simpl. pg_split (GetPaymentIntentByRef ref) w; simpl.
  - unfold GetPaymentIntentByRef in E. sql_inv. split; [done|]. by exists a.
  - split; [done|]. assert (H : faulty \/ t_intents (tables w) !! ref = None); [|by destruct (errors_Is e ErrNoRows)].
    destruct E as [?|[now E]]; [by left|right]. unfold GetPaymentIntentByRef, mbind, Sql_bind, sql_tables in E.
    by destruct (t_intents (tables w) !! ref).
Qed.

Lemma pg_failed id ref v w :
  let w' := (run (CompleteFailed id ref v) w).2 in
  match (run (CompleteFailed id ref v) w).1 with
  | Ok _ => closes_failed id ref (outbox_of (tables w)) (outbox_of (tables w'))
            /\ ob_reported (outbox_of (tables w')) = ob_reported (outbox_of (tables w))
  | Err _ => tables w' = tables w /\ faulty
  end.
Proof.
  cbv zeta. unfold CompleteFailed, WithTx. run_simpl.
  match goal with |- context [pg_exec _ ?s w] => pg_split s w end.
  - unfold mbind, Sql_bind in E. rewrite update_event_ok, update_status_ok in E by done. injection E as _ E. rewrite <- E.
    split; [|apply amounts_status]. split; [apply fmap_events_settled|]. apply books_of_declined.
  - split; [done|]. destruct E as [?|[now E]]; [done|]. unfold mbind, Sql_bind in E.
    by rewrite update_event_ok, update_status_ok in E.
Qed.
Lemma pg_succeeded id ref v i j w : bk_intents (ob_books (outbox_of (tables w))) !! ref = Some j ->
  let amt := due (vr_Amount v) (wi_Amount i) in
  let w' := (run (CompleteSucceeded id ref v i) w).2 in
  match (run (CompleteSucceeded id ref v i) w).1 with
  | Ok _ => closes_succeeded id ref (wi_Product i) amt (vr_VerifiedAt v) j (outbox_of (tables w)) (outbox_of (tables w'))
            /\ ob_reported (outbox_of (tables w')) = ob_reported (outbox_of (tables w))
  | Err _ => tables w' = tables w /\ (faulty \/ ~ in_cedis amt)
  end.
Proof.
  intros Hj. cbv zeta. unfold CompleteSucceeded, WithTx. run_simpl. fold (due (vr_Amount v) (wi_Amount i)).
  set (w2 := (run time_Now _).2).
  assert (Hw2 : tables w2 = tables w) by (unfold w2; by rewrite !(Preserves_run tables) by (apply Preserves_now || apply Preserves_uuid; apply _)).
  match goal with |- context [InsertLedgerEntry ?e] => set (entry := e) end.
  match goal with |- context [pg_exec _ ?s w2] => pg_split s w2 end; rewrite Hw2 in *; clear Hw2.
  - unfold mbind at 1, Sql_bind at 1 in E. rewrite update_event_ok in E by done.
    unfold mbind at 1, Sql_bind at 1 in E. rewrite update_status_ok in E by done.
    destruct (insert_entries_spec [entry] now _ tt (tables w') ltac:(unfold sql_each, mbind, Sql_bind; by rewrite E))
      as (kept & Hk & ->).
    apply list.Forall2_cons_inv_l in Hk as (e & ? & He & ->%Forall2_nil_inv_l & ->).
    split; [|apply amounts_status]. exists e. destruct He as (_ & Hkd & Hr & Ha & Hp & Ht & _). simpl in *.
    split; [by split_and!|]. split; [apply fmap_events_settled|].
    apply (books_of_outcome ref "succeeded" j [e] (tables w)); [done|]. by repeat constructor.
  - split; [done|]. destruct E as [?|[now E]]; [by left|]. destruct Hids as [?|Hf]; [by left|right].
    intros Hc. unfold mbind at 1, Sql_bind at 1 in E. rewrite update_event_ok in E by done.
    unfold mbind at 1, Sql_bind at 1 in E. rewrite update_status_ok in E by done.
    match type of E with InsertLedgerEntry _ _ ?t = _ => pose proof (insert_entry_ok entry now t eq_refl Hc) as H end.
    rewrite E in H. by discriminate H; apply (fresh_id w).
Qed.

Lemma pg_outbox_meets : OutboxStoreSpec pg_OutboxStore (fun w => outbox_of (tables w)) in_cedis faulty.
Proof.
  split; cbn [pg_OutboxStore Worker.ClaimPending Worker.GetIntent Worker.CompleteSucceeded Worker.CompleteFailed
    Worker.MarkPendingRetry Worker.CountPending].
  - intros limit w Hl. destruct (pg_claim limit w Hl) as [-> H]. split; [done|]. by destruct (run _ w).1.
  - intros ref w. destruct (pg_intent ref w) as [-> H]. split; [done|].
    destruct (run _ w).1 as [i|e].
    + destruct H as (row & Hr & -> & ->). simpl. by rewrite !lookup_fmap, Hr.
    + simpl. rewrite lookup_fmap. destruct H as [?| ->]; auto.
  - intros id ref v i j w Hj. pose proof (pg_succeeded id ref v i j w Hj) as H. cbv zeta in *.
    destruct (run _ w).1; [split; [tauto|]; unfold payable; by destruct H as [_ ->]|].
    destruct H as [-> H]. split; [done|tauto].
  - intros id ref v w. pose proof (pg_failed id ref v w) as H. cbv zeta in *.
    destruct (run _ w).1; [split; [tauto|]; unfold payable; by destruct H as [_ ->]|].
    destruct H as [-> H]. by split.
  - intros id w. unfold MarkPendingRetry, query. run_simpl. pg_split (TouchGatewayEvent id) w; [|by rewrite Ht].
    unfold TouchGatewayEvent in E. injection E as _ E. rewrite <- E. apply outbox_of_touched.
    intros e. by destruct (String.eqb_spec (ev_Status e) "pending") as [Hs|]; [unfold worker_row; simpl; rewrite <- Hs|].
  - intros w. unfold CountPending, query. run_simpl. pg_split CountPendingEvents w; [|by rewrite Ht].
    unfold CountPendingEvents in E. by sql_inv.
Qed.
End pg_outbox.

(** Over any server, where calls may fail, and over one that does not. *)
#[export] Instance pg_outbox_spec {W} `{!Runtime W} `{!Postgres W} (tables : W -> Tables)
    `{!PostgresSpec tables} `{!RuntimeFrame tables} :
  OutboxStoreSpec pg_OutboxStore (fun w => outbox_of (tables w)) in_cedis True.
Proof. apply pg_outbox_meets; (apply _ || by left). Qed.
#[export] Instance pg_outbox_up {W} `{!Runtime W} `{!Postgres W} (tables : W -> Tables)
    `{!PostgresSpec tables} `{!PostgresUp tables} `{!RuntimeFrame tables} `{!FreshIDs tables} :
  OutboxStoreSpec pg_OutboxStore (fun w => outbox_of (tables w)) in_cedis False.
Proof. apply pg_outbox_meets; (apply _ || by right). Qed.

(** What the schema says of the rows and the amounts. *)
Lemma schema_drainable t :
  schema_ok t -> map_Forall (fun id ev => ge_ID ev = id) (ob_rows (outbox_of t)) /\ payable in_cedis (outbox_of t).
Proof.
  intros Hok. split; intros k x; simpl; rewrite lookup_fmap_Some; intros (r & <- & Hr).
  - by apply (sc_events _ Hok) in Hr as [? _].
  - by apply (sc_intents _ Hok) in Hr as (_ & _ & _ & ? & _).
Qed.

(** C5: The Postgres store keeps the contracts that webhook processing, charge
    initiation and the worker are proved against: books whose entries are
    those given, to the microsecond, a register keyed by product and
    idempotency key, and an outbox whose oldest waiting rows are claimed first
    and closed together with their charge. *)
Theorem pg_meets_contracts {W} `{!Runtime W} `{!Postgres W} (tables : W -> Tables)
    `{!PostgresSpec tables} `{!RuntimeFrame tables} :
  WebhookStoreSpec pg_WebhookStore (fun w => PgSpec.books_of (tables w))
  /\ IntentStoreSpec pg_IntentStore key_scope (fun w => PgSpec.register_of (tables w))
  /\ OutboxStoreSpec pg_OutboxStore (fun w => outbox_of (tables w)) in_cedis True.
Proof. split; [|split]; apply _. Qed.
