(* ===== verification/PgProps.v ===== *)
(** * What the Postgres store answers

    Payout batches read back, amounts the ledger refuses, applications whose
    name is taken, reservations settled twice, and the outbox's claim. *)
From S2P Require Import Prelude GoStrings Json JsonCodec Money Reference Ledger Gateway Router RouterProofs.
From S2P Require Import Charges Payload Webhooks Worker Payouts Apps Http Api ApiWebhooks.
From S2P Require Import Database DatabaseProofs History PgStore PgSpec.

(** ** Payout batches *)
(** The reservations a batch leaves, in the order of its entries. *)
Lemma insert_reservations_spec batch entries now t u t' :
  sql_each entries (fun x => CreatePayoutReservation (reservation_row batch x)) now t = Ok (u, t') ->
  exists rows, t' = set_reservations (fun l => l ++ rows) t /\
    Forall2 (fun x r => re_BatchID r = batch /\ re_ID r = x.1 /\ re_Status r = "open"
      /\ (re_AmountPesewas r, re_Currency r) = (minorUnits (pe_Amount x.2), currency (pe_Amount x.2))
      /\ re_Recipient r = nullString (pe_Recipient x.2) /\ re_Reference r = nullString (pe_Reference x.2))
      entries rows.
Proof.
  revert t. induction entries as [|x entries IH]; intros t H; simpl in H; sql_inv.
  - exists []. split; [|constructor]. destruct t. unfold set_reservations. simpl. by rewrite app_nil_r.
  - unfold CreatePayoutReservation in Hs. sql_inv. apply IH in H as (rows & -> & Hrows).
    eexists (_ :: rows). split; [unfold set_reservations; simpl; by rewrite <- app_assoc|].
    by constructor.
Qed.

(** An entry as the store can give it back. *)
Definition stored_entry (e : Entry) : Entry :=
  {| pe_Recipient := pe_Recipient e; pe_Amount := pe_Amount e; pe_Reference := pe_Reference e; pe_VendorID := "" |}.

Lemma text_nullString s : text (nullString s) = s.
Proof. unfold text, nullString. destruct (String.eqb_spec s "") as [->|]; done. Qed.
Lemma New_parts m : New (minorUnits m) (currency m) = m.
Proof. by destruct m. Qed.

Lemma entry_of_rows (batch : UUID) (entries : list (UUID * Entry)) rows :
  Forall2 (fun x r => re_BatchID r = batch /\ re_ID r = x.1 /\ re_Status r = "open"
      /\ (re_AmountPesewas r, re_Currency r) = (minorUnits (pe_Amount x.2), currency (pe_Amount x.2))
      /\ re_Recipient r = nullString (pe_Recipient x.2) /\ re_Reference r = nullString (pe_Reference x.2))
    entries rows ->
  map entry_of rows = map stored_entry entries.*2
  /\ List.filter (fun r => (re_BatchID r =? batch)%N) rows = rows.
Proof.
  induction 1 as [|x r entries rows (Hb & _ & _ & [= Ha Hc] & Hr & Hf) _ [IH1 IH2]]; [done|]. split.
  - simpl. rewrite IH1. f_equal. unfold entry_of, stored_entry.
    by rewrite Ha, Hc, Hr, Hf, !text_nullString, New_parts.
  - simpl. by rewrite Hb, N.eqb_refl, IH2.
Qed.

Section payouts.
Context {W : Type} `{!Runtime W} `{!Postgres W} (tables : W -> Tables) `{!PostgresSpec tables}.
Context `{!RuntimeFrame tables}.

Lemma run_with_ids {A} (l : list A) w :
  (run (with_ids l) w).1.*2 = l /\ tables (run (with_ids l) w).2 = tables w.
Proof.
  revert w. induction l as [|x l IH]; intros w; [done|]. cbn [with_ids]. run_simpl.
  destruct (IH (run uuid_New w).2) as [IH1 IH2]. rewrite IH2. split; [by rewrite fmap_cons, IH1|].
  apply Preserves_run, Preserves_uuid, _.
Qed.

(** The tables a created batch leaves. *)
Definition batch_stored (b : Payouts.PayoutBatch) (t t' : Tables) : Prop :=
  exists now row rows,
    t_batches t' = <[pb_ID b := row]> (t_batches t)
    /\ row = {| ba_ID := pb_ID b; ba_Product := pb_Product b; ba_TotalPesewas := minorUnits (pb_Total b);
                ba_Currency := currency (pb_Total b); ba_Status := pb_Status b; ba_BatchDate := date_of (pb_BatchDate b);
                ba_IdempotencyKey := nullString (pb_IdempotencyKey b); ba_CreatedAt := now |}
    /\ t_reservations t' = t_reservations t ++ rows
    /\ List.filter (fun r => (re_BatchID r =? pb_ID b)%N) rows = rows
    /\ map entry_of rows = map stored_entry (pb_Entries b)
    /\ t_batches t !! pb_ID b = None.

Lemma create_batch_stored b w :
  match (run (CreateBatchWithReservations b) w).1 with
  | Ok _ => batch_stored b (tables w) (tables (run (CreateBatchWithReservations b) w).2)
  | Err _ => tables (run (CreateBatchWithReservations b) w).2 = tables w
  end.
Proof.
  unfold CreateBatchWithReservations, WithTx. run_simpl.
  destruct (run_with_ids (pb_Entries b) w) as [Hids Ht].
  destruct (run (with_ids (pb_Entries b)) w) as [entries w1]. cbn [fst snd] in *.
  match goal with |- context [pg_exec _ ?s w1] => pg_cases tables s w1 end.
  - sql_inv. unfold CreatePayoutBatch in Hs. sql_inv. simpl in *.
    apply insert_reservations_spec in Hpg as (rows & -> & Hrows). rewrite Ht in *.
    apply entry_of_rows in Hrows as [Hent Hfil]. rewrite Hids in Hent.
    eexists _, _, rows. simpl. by split_and!.
  - rewrite Hpg. by destruct (isUniqueViolation e).
Qed.

Lemma no_reservations t id : schema_ok t -> t_batches t !! id = None ->
  List.filter (fun r => (re_BatchID r =? id)%N) (t_reservations t) = [].
Proof.
  intros Ht Hid. pose proof (sc_reservations _ Ht) as Hr.
  induction Hr as [|r l (_ & _ & Hb) Hl IH]; [done|]. simpl.
  destruct (N.eqb_spec (re_BatchID r) id) as [E|]; [|done]. rewrite E, Hid in Hb. by destruct Hb.
Qed.
End payouts.

(** C21: A payout batch reads back: once [CreateBatchWithReservations] has
    succeeded, [FindBatch] answers the batch with its business date cut to the
    day and its entries, in some order, without their vendor identifiers. *)
Theorem pg_batch_roundtrip {W} `{!Runtime W} `{!Postgres W} (tables : W -> Tables)
    `{!PostgresSpec tables} `{!PostgresUp tables} `{!RuntimeFrame tables} b w :
  schema_ok (tables w) ->
  is_Ok (run (CreateBatchWithReservations b) w).1 = true ->
  let w' := (run (CreateBatchWithReservations b) w).2 in
  exists got, (run (FindBatch (pb_ID b)) w').1 = Ok got
    /\ pb_ID got = pb_ID b /\ pb_Product got = pb_Product b /\ pb_Status got = pb_Status b
    /\ pb_Total got = pb_Total b /\ pb_BatchDate got = date_of (pb_BatchDate b)
    /\ pb_IdempotencyKey got = pb_IdempotencyKey b
    /\ pb_Entries got ≡ₚ map stored_entry (pb_Entries b).
Proof.
  intros Hok Hr. cbv zeta. pose proof (create_batch_stored tables b w) as Hst.
  destruct (run (CreateBatchWithReservations b) w) as [[u|e] w1]; [|done]. cbn [fst snd] in *.
  destruct Hst as (now & row & rows & Hb & -> & Hres & Hfil & Hent & Hnew).
  unfold FindBatch, query. run_simpl.
  pose proof (pg_up (tables:=tables) _ (GetPayoutBatch (pb_ID b)) w1) as [n1 H1].
  destruct (pg_exec _ (GetPayoutBatch (pb_ID b)) w1) as [[row|e] w2]; cbn [fst snd] in *; unfold GetPayoutBatch in H1.
  2: { unfold mbind, Sql_bind, sql_tables, one in H1. by rewrite Hb, lookup_insert_eq in H1. }
  sql_inv. rewrite Hb, lookup_insert_eq in H1. injection H1 as <-. run_simpl.
  pose proof (pg_up (tables:=tables) _ (ListPayoutReservationsByBatch (pb_ID b)) w2) as [n2 H2].
  destruct (pg_exec _ (ListPayoutReservationsByBatch (pb_ID b)) w2) as [[rs|e] w3]; cbn [fst snd] in *; [|done].
  unfold ListPayoutReservationsByBatch in H2. sql_inv. injection H2 as <- _. eexists. split; [done|]. simpl.
  rewrite New_parts, text_nullString. split_and!; try done.
  rewrite <- Hent. apply Permutation_map. rewrite order_by_perm.
  rewrite <- H, Hres, List.filter_app, Hfil. by rewrite no_reservations.
Qed.

(** ** Refusals *)
Section refusals.
Context {W : Type} `{!Runtime W} `{!Postgres W} (tables : W -> Tables) `{!PostgresSpec tables}.

(** A statement that cannot succeed has no effect. *)
Lemma refused_query {A} (s : Sql A) w :
  (forall now a t, s now (tables w) <> Ok (a, t)) ->
  exists e, (pg_exec A s w).1 = Err e /\ tables (pg_exec A s w).2 = tables w.
Proof. intros Hs. pg_cases tables s w; [exfalso; by eapply Hs|eauto]. Qed.

Lemma each_refused {A} (body : A -> Sql unit) l x now t u t' :
  x ∈ l -> (forall t1 u1 t2, body x now t1 <> Ok (u1, t2)) -> sql_each l body now t <> Ok (u, t').
Proof.
  intros Hx Hb. revert t. induction l as [|y l IH]; intros t H; [by apply not_elem_of_nil in Hx|].
  simpl in H. sql_inv. apply elem_of_cons in Hx as [<-|Hx]; [by eapply Hb|by eapply IH].
Qed.

Lemma entry_refused e now t u t' : currency (le_Amount e) <> "GHS" -> InsertLedgerEntry e now t <> Ok (u, t').
Proof. intros He H. unfold InsertLedgerEntry in H. by sql_inv. Qed.

Lemma apply_refused ref status entries e w :
  e ∈ entries -> currency (le_Amount e) <> "GHS" ->
  exists err, (run (ApplyChargeOutcome ref status entries) w).1 = Err err
              /\ tables (run (ApplyChargeOutcome ref status entries) w).2 = tables w.
Proof.
  intros Hin He. unfold ApplyChargeOutcome, WithTx. run_simpl.
  edestruct (refused_query (_ ← UpdatePaymentIntentStatus ref status; sql_each entries InsertLedgerEntry) w)
    as (err & -> & ->); [|by eexists].
  intros now u t H. sql_inv. eapply each_refused in H; [done|exact Hin|]. intros. by apply entry_refused.
Qed.
End refusals.

(** Only positive amounts in GHS get into Postgres: an intent in another
    currency or of no positive amount, and an outcome with an entry in another
    currency, are refused whole. *)
Theorem pg_refuses_amount {W} `{!Runtime W} `{!Postgres W} (tables : W -> Tables) `{!PostgresSpec tables} w :
  (forall ref req g amt url, currency amt <> "GHS" \/ (minorUnits amt <= 0)%Z ->
     exists e, (run (CreateIntent ref req g amt url) w).1 = Err e
               /\ tables (run (CreateIntent ref req g amt url) w).2 = tables w)
  /\ (forall ref status entries e, e ∈ entries -> currency (le_Amount e) <> "GHS" ->
     exists err, (run (ApplyChargeOutcome ref status entries) w).1 = Err err
                 /\ tables (run (ApplyChargeOutcome ref status entries) w).2 = tables w).
Proof.
  split; [|intros ref status es e; exact (apply_refused tables ref status es e w)]. intros ref req g amt url Hamt. unfold CreateIntent, query. run_simpl.
  match goal with |- context [pg_exec _ ?s w] => destruct (refused_query tables s w) as (e & -> & ->) end;
    [|by eexists].
  intros now u t H. unfold CreatePaymentIntent in H. sql_inv. simpl in *. destruct Hamt; [done|lia].
Qed.

(** ** Reservations *)

(** One row by that identifier at most: the primary key. *)
Lemma settle_twice (f : PayoutReservation -> PayoutReservation) id (l : list PayoutReservation) :
  (forall r, open_reservation id r = true -> open_reservation id (f r) = false) ->
  List.filter (open_reservation id) (map (fun r => if open_reservation id r then f r else r) l) = [].
Proof.
  intros Hf. induction l as [|r l IH]; simpl; [done|].
  destruct (open_reservation id r) eqn:E; [by rewrite Hf|by rewrite E].
Qed.
Lemma map_no_open (f : PayoutReservation -> PayoutReservation) id (l : list PayoutReservation) :
  List.filter (open_reservation id) l = [] -> map (fun r => if open_reservation id r then f r else r) l = l.
Proof.
  induction l as [|r l IH]; simpl; [done|]. destruct (open_reservation id r) eqn:E; [done|].
  intros Hl. by rewrite IH.
Qed.

Definition closed (id : UUID) (t : Tables) : Prop :=
  List.filter (open_reservation id) (t_reservations t) = [] /\ id ∈ (re_ID <$> t_reservations t).

Section reservations.
Context {W : Type} `{!Runtime W} `{!Postgres W} (tables : W -> Tables).
Context `{!PostgresSpec tables} `{!PostgresUp tables}.

Lemma filter_open_in id (l : list PayoutReservation) :
  List.filter (open_reservation id) l <> [] -> id ∈ (re_ID <$> l).
Proof.
  induction l as [|r l IH]; simpl; [done|]. destruct (open_reservation id r) eqn:E.
  - intros _. apply andb_true_iff in E as [E%N.eqb_eq _]. rewrite E. left.
  - intros H. right. by apply IH.
Qed.

Lemma find_reservation_in id (t : Tables) now a t' :
  GetPayoutReservationByID id now t = Ok (a, t') -> id ∈ (re_ID <$> t_reservations t).
Proof.
  intros H. unfold GetPayoutReservationByID in H. sql_inv.
  destruct (list_find _ _) as [[k r]|] eqn:E; [|done]. apply list_find_Some in E as (Hk & <- & _).
  apply list_elem_of_fmap. exists r. split; [done|]. by eapply list_elem_of_lookup_2.
Qed.
Lemma find_reservation_up id (t : Tables) now :
  id ∈ (re_ID <$> t_reservations t) -> exists a, GetPayoutReservationByID id now t = Ok (a, t).
Proof.
  intros H. unfold GetPayoutReservationByID, mbind, Sql_bind, sql_tables.
  apply list_elem_of_fmap in H as (r & Hr & Hin).
  destruct (list_find_elem_of (fun r => re_ID r = id) (t_reservations t) r Hin (eq_sym Hr)) as [x ->].
  by exists x.2.
Qed.

Lemma checked_closed id rows w :
  List.filter (open_reservation id) (t_reservations (tables w)) = [] ->
  is_Ok (run (reservationRowsChecked id rows) w).1 = true ->
  ((rows >? 0)%Z = true -> id ∈ (re_ID <$> t_reservations (tables w))) ->
  closed id (tables (run (reservationRowsChecked id rows) w).2).
Proof.
  intros Hf Hok Hrows. unfold reservationRowsChecked, query in *. destruct (rows >? 0)%Z; [split; auto|].
  revert Hok. run_simpl. pg_cases tables (GetPayoutReservationByID id) w; cbn [fst snd].
  - intros _. pose proof (Reads_GetPayoutReservationByID id _ _ _ _ Hpg) as ->.
    by apply find_reservation_in in Hpg.
  - by destruct (errors_Is e ErrNoRows).
Qed.

(** A statement that moves the open reservation [id] by [f]. *)
Definition moves (f : PayoutReservation -> PayoutReservation) id (s : Sql Z) : Prop :=
  forall now t, s now t = Ok (Z.of_nat (length (List.filter (open_reservation id) (t_reservations t))),
    set_reservations (map (fun r => if open_reservation id r then f r else r)) t).

Lemma move_closes f id (s : Sql Z) prefix w :
  moves f id s -> (forall r, open_reservation id (f r) = false /\ re_ID (f r) = re_ID r) ->
  let p := rows ← query s;
           match rows with Err err => mret (Err (Errorf prefix err)) | Ok rows => reservationRowsChecked id rows end in
  is_Ok (run p w).1 = true -> closed id (tables (run p w).2).
Proof.
  intros Hs Hf. cbv zeta. unfold query. run_simpl. pg_cases tables s w; [|done].
  rewrite Hs in Hpg. injection Hpg as <- Ht. intros Hok. apply checked_closed; [|done|].
  - rewrite <- Ht. simpl. apply settle_twice. intros r _. apply Hf.
  - intros Hn. rewrite <- Ht. simpl.
    rewrite <- list_fmap_compose, (list_fmap_ext _ re_ID) by (intros i r _; simpl; destruct (open_reservation id r); [apply Hf|done]).
    apply filter_open_in. intros E. by rewrite E in Hn.
Qed.

Lemma move_again f id (s : Sql Z) prefix w :
  moves f id s -> closed id (tables w) ->
  let p := rows ← query s;
           match rows with Err err => mret (Err (Errorf prefix err)) | Ok rows => reservationRowsChecked id rows end in
  (run p w).1 = Ok tt /\ tables (run p w).2 = tables w.
Proof.
  intros Hs [Hf Hin]. cbv zeta. unfold query. run_simpl.
  destruct (pg_up (tables:=tables) _ s w) as [now Hup]. rewrite Hs, Hf in Hup. cbn [length Z.of_nat] in Hup.
  destruct (pg_exec _ s w) as [[n|e] w1]; [|done]. cbn [fst snd] in *. injection Hup as <- Ht.
  assert (Ht1 : tables w1 = tables w).
  { rewrite <- Ht. destruct (tables w). unfold set_reservations. simpl in *. by rewrite map_no_open. }
  unfold reservationRowsChecked, query. simpl. run_simpl.
  destruct (pg_up (tables:=tables) _ (GetPayoutReservationByID id) w1) as [now2 Hup].
  rewrite Ht1 in Hup. destruct (find_reservation_up id (tables w) now2 Hin) as [a Ha]. rewrite Ha in Hup.
  destruct (pg_exec _ (GetPayoutReservationByID id) w1) as [[r|e] w2]; [|done]. cbn [fst snd] in *.
  by injection Hup as _ <-.
Qed.

Lemma moves_settle id at_ : moves (reservation_with "settled" (Some (micros at_))) id (SettlePayoutReservation id at_).
Proof. done. Qed.
Lemma moves_release id :
  moves (fun r => reservation_with "released" (re_SettledAt r) r) id (ReleasePayoutReservation id).
Proof. done. Qed.
Lemma with_not_open status settled id r : status <> "open" ->
  open_reservation id (reservation_with status settled r) = false
  /\ re_ID (reservation_with status settled r) = re_ID r.
Proof. intros Hs. split; [|done]. apply andb_false_iff. right. by apply String.eqb_neq. Qed.
End reservations.

(** A reservation closes once: after a settlement or a release that
    succeeded, settling or releasing it again succeeds and changes nothing, so
    the first outcome stands. *)
Theorem pg_reservation_closes_once {W} `{!Runtime W} `{!Postgres W} (tables : W -> Tables)
    `{!PostgresSpec tables} `{!PostgresUp tables} id at_ at2 w first second :
  first = SettleReservation id at_ \/ first = ReleaseReservation id ->
  second = SettleReservation id at2 \/ second = ReleaseReservation id ->
  is_Ok (run first w).1 = true ->
  let w1 := (run first w).2 in
  (run second w1).1 = Ok tt /\ tables (run second w1).2 = tables w1.
Proof.
  intros Hfirst Hsecond Hok w1.
  assert (Hc : closed id (tables w1)).
  { subst w1. destruct Hfirst as [-> | ->].
    - by apply (move_closes tables _ _ _ _ _ (moves_settle id at_)); [intros; by apply with_not_open|].
    - by apply (move_closes tables _ _ _ _ _ (moves_release id)); [intros; by apply with_not_open|]. }
  destruct Hsecond as [-> | ->].
  - by apply (move_again tables _ _ _ _ _ (moves_settle id at2)).
  - by apply (move_again tables _ _ _ _ _ (moves_release id)).
Qed.
