(* ===== verification/PgTyped.v ===== *)
(** * What the Postgres store writes has the columns' types

    [typed_call]: a method of the stores with arguments the columns admit - a
    known gateway, a positive amount in GHS, a status and a kind from the
    lists of the migrations.  The rest of each row the method fills in itself
    (statuses, kinds, amounts, NULLs): those values too are admitted, so no
    such call is refused by a CHECK, among any others. *)
From S2P Require Import Prelude GoStrings Json JsonCodec Money Reference Ledger Gateway Router RelyGuarantee.
From S2P Require Import Charges Payload Webhooks Worker Payouts Apps.
From S2P Require Import Database DatabaseProofs History PgStore PgSpec.

(** A value a column does not admit, or a LIMIT below zero. *)
Definition refused_value (e : error) : bool := errors_Is e check_violation || errors_Is e (pg_error "2201W").
Lemma refused_Wrap text es : refused_value (Wrap text es) = existsb refused_value es.
Proof.
  unfold refused_value, check_violation, pg_error. cbn [errors_Is].
  induction es as [|e es IH]; cbn [existsb]; [done|]. rewrite <- IH. by destruct (errors_Is e _), (errors_Is e _), (existsb _ es).
Qed.
Lemma refused_Errorf p e : refused_value (Errorf p e) = refused_value e.
Proof. unfold refused_value, check_violation, pg_error. by rewrite !errors_Is_Errorf. Qed.

(** ** Statements on admitted values *)
Definition Admits {A} (s : Sql A) : Prop := forall now t e, s now t = Err e -> refused_value e = false.

Lemma Admits_ret {A} (a : A) : Admits (mret a).
Proof. done. Qed.
Lemma Admits_bind {A B} (s : Sql A) (f : A -> Sql B) : Admits s -> (forall a, Admits (f a)) -> Admits (s ≫= f).
Proof.
  intros Hs Hf now t e. unfold mbind, Sql_bind. destruct (s now t) as [[a t']|e'] eqn:E; [apply Hf|].
  intros [= <-]. by eapply Hs.
Qed.
Lemma Admits_tables {B} (f : Tables -> Sql B) : (forall t, Admits (f t)) -> Admits (sql_tables ≫= f).
Proof. intros Hf now t e. exact (Hf t now t e). Qed.
Lemma Admits_now : Admits sql_now.
Proof. done. Qed.
Lemma Admits_update f : Admits (sql_update f).
Proof. done. Qed.
Lemma Admits_one {A} (x : option A) : Admits (one x).
Proof. intros now t e. destruct x; [done|]. by intros [= <-]. Qed.
Lemma Admits_true e : Admits (sql_assert true e).
Proof. done. Qed.
Lemma Admits_key ok e : refused_value e = false -> Admits (sql_assert ok e).
Proof. intros He now t e'. destruct ok; [done|]. by intros [= <-]. Qed.
Lemma Admits_each {A} (l : list A) (body : A -> Sql unit) :
  Forall (fun x => Admits (body x)) l -> Admits (sql_each l body).
Proof. induction 1; simpl; [apply Admits_ret|by apply Admits_bind]. Qed.

(** Along a statement: its reads, its checks of admitted values and of keys, its effect. *)
Ltac admits_step :=
  lazymatch goal with
  | |- Admits (sql_tables ≫= _) => apply Admits_tables; intros ?
  | |- Admits (_ ≫= _) => apply Admits_bind; [|intros ?]
  | |- Admits (mret _) => apply Admits_ret
  | |- Admits sql_now => apply Admits_now
  | |- Admits (sql_update _) => apply Admits_update
  | |- Admits (one _) => apply Admits_one
  | |- Admits (sql_assert true _) => apply Admits_true
  | |- Admits (sql_assert _ check_violation) => exact (Admits_true _)
  | |- Admits (sql_assert _ _) => apply Admits_key; reflexivity
  | |- Admits (match ?x with _ => _ end) => destruct x
  end.
Ltac admits := cbv zeta; repeat admits_step.

(** What the columns admit. *)
Definition payable_amount (m : Money) : Prop := (0 < minorUnits m)%Z /\ currency m = GHS.
Definition entry_typed (e : LedgerEntry) : Prop := le_Kind e ∈ ledger_kinds /\ currency (le_Amount e) = GHS.

Lemma listed_admitted s l : s ∈ l -> in_list s l = true.
Proof. apply in_list_spec. Qed.
Lemma Valid_gateways g : Valid g = true -> in_list g gateways = true.
Proof. rewrite Valid_cases. by intros [-> |[-> | ->]]. Qed.

Lemma Admits_CreatePaymentIntent p :
  Valid (pi_Gateway p) = true -> (0 < pi_AmountPesewas p)%Z -> pi_Currency p = GHS -> pi_Status p ∈ charge_statuses ->
  Admits (CreatePaymentIntent p).
Proof.
  intros Hg Ha Hc Hs. unfold CreatePaymentIntent. rewrite (Valid_gateways _ Hg), (proj2 (Z.ltb_lt _ _) Ha), Hc, (listed_admitted _ _ Hs).
  admits.
Qed.
Lemma Admits_UpdatePaymentIntentStatus ref status : status ∈ charge_statuses -> Admits (UpdatePaymentIntentStatus ref status).
Proof. intros Hs. unfold UpdatePaymentIntentStatus. rewrite (listed_admitted _ _ Hs). admits. rewrite orb_true_r. admits. Qed.
Lemma Admits_InsertGatewayEvent e :
  Valid (ev_Gateway e) = true -> ev_Status e ∈ charge_statuses -> Admits (InsertGatewayEvent e).
Proof. intros Hg Hs. unfold InsertGatewayEvent. rewrite (Valid_gateways _ Hg), (listed_admitted _ _ Hs). admits. Qed.
Lemma Admits_update_event id status v : status ∈ charge_statuses -> Admits (update_event id status v).
Proof.
  intros Hs now t e. unfold update_event, UpdateGatewayEvent, mbind at 1, Sql_bind, sql_tables.
  rewrite (listed_admitted _ _ Hs), orb_true_r. done.
Qed.
Lemma Admits_InsertLedgerEntry e : entry_typed e -> Admits (InsertLedgerEntry e).
Proof. intros [Hk Hc]. unfold InsertLedgerEntry. rewrite (listed_admitted _ _ Hk), Hc. admits. Qed.
Lemma Admits_CreatePayoutBatch b :
  (0 < ba_TotalPesewas b)%Z -> ba_Status b ∈ batch_statuses -> Admits (CreatePayoutBatch b).
Proof. intros Ht Hs. unfold CreatePayoutBatch. rewrite (proj2 (Z.ltb_lt _ _) Ht), (listed_admitted _ _ Hs). admits. Qed.
Lemma Admits_CreatePayoutReservation r :
  (0 < re_AmountPesewas r)%Z -> re_Status r ∈ reservation_statuses -> re_Gateway r = None ->
  Admits (CreatePayoutReservation r).
Proof.
  intros Ha Hs Hg. unfold CreatePayoutReservation. rewrite (proj2 (Z.ltb_lt _ _) Ha), (listed_admitted _ _ Hs), Hg. admits.
Qed.
Lemma Admits_InsertWebhookInboxDedup id g p : Valid g = true -> Admits (InsertWebhookInboxDedup id g p).
Proof. intros Hg. unfold InsertWebhookInboxDedup. rewrite (Valid_gateways _ Hg). admits. Qed.
Lemma Admits_Claim n : (0 <= n)%Z -> Admits (ClaimGatewayEventsForDispatch n).
Proof. intros Hn. unfold ClaimGatewayEventsForDispatch. rewrite (proj2 (Z.leb_le _ _) Hn). admits. Qed.

Create HintDb typed.
#[export] Hint Resolve Admits_CreatePaymentIntent Admits_UpdatePaymentIntentStatus Admits_InsertGatewayEvent
  Admits_update_event Admits_InsertLedgerEntry Admits_CreatePayoutBatch Admits_CreatePayoutReservation
  Admits_InsertWebhookInboxDedup Admits_Claim : typed.

(** ** Calls of the stores *)
Section calls.
Context {W : Type} `{!Runtime W} `{!Postgres W}.

(** The error a call answers. *)
Definition failure {A} (p : Prog W (result A)) : Prog W (option error) :=
  r ← p; mret (match r with Ok _ => None | Err e => Some e end).

Inductive typed_call : Prog W (option error) -> Prop :=
| tc_InsertWebhookInbox id g p : Valid g = true -> typed_call (failure (InsertWebhookInbox id g p))
| tc_DeleteWebhookInbox id : typed_call (failure (DeleteWebhookInbox id))
| tc_FindIntent ref : typed_call (failure (FindIntent ref))
| tc_ApplyChargeOutcome ref status es : status ∈ charge_statuses -> Forall entry_typed es ->
    typed_call (failure (ApplyChargeOutcome ref status es))
| tc_CreateIntent ref req g amt url : Valid g = true -> payable_amount amt ->
    typed_call (failure (CreateIntent ref req g amt url))
| tc_FindByRef ref : typed_call (failure (FindByRef ref))
| tc_FindByIdempotencyKey p k : typed_call (failure (FindByIdempotencyKey p k))
| tc_UpdateStatus ref status : status ∈ charge_statuses -> typed_call (failure (UpdateStatus ref status))
| tc_CreateBatch b : payable_amount (pb_Total b) -> pb_Status b ∈ batch_statuses ->
    Forall (fun e => payable_amount (pe_Amount e)) (pb_Entries b) ->
    typed_call (failure (CreateBatchWithReservations b))
| tc_FindBatch id : typed_call (failure (FindBatch id))
| tc_AppendEntry e : entry_typed e -> typed_call (failure (AppendEntry e))
| tc_ListEntries ref : typed_call (failure (ListEntries ref))
| tc_StampSettlement ref t : typed_call (failure (StampSettlement ref t))
| tc_CreateReservation r : payable_amount (rv_Amount r) -> rv_Status r ∈ reservation_statuses ->
    typed_call (failure (CreateReservation r))
| tc_SettleReservation id t : typed_call (failure (SettleReservation id t))
| tc_ReleaseReservation id : typed_call (failure (ReleaseReservation id))
| tc_ClaimPending n : (0 <= n)%Z -> typed_call (failure (ClaimPending n))
| tc_GetIntent ref : typed_call (failure (GetIntent ref))
| tc_CompleteSucceeded id ref v i : currency (wi_Amount i) = GHS ->
    (IsZero (vr_Amount v) = false -> currency (vr_Amount v) = GHS) -> typed_call (failure (CompleteSucceeded id ref v i))
| tc_CompleteFailed id ref v : typed_call (failure (CompleteFailed id ref v))
| tc_InsertOutboxEvent ref g : Valid g = true -> typed_call (failure (InsertOutboxEvent ref g))
| tc_MarkPendingRetry id : typed_call (failure (MarkPendingRetry id))
| tc_CountPending : typed_call (failure CountPending)
| tc_InsertApp a h : typed_call (failure (InsertApp a h))
| tc_GetApp id : typed_call (failure (GetApp id))
| tc_GetAppByHash h : typed_call (failure (GetAppByHash h))
| tc_ListApps : typed_call (failure ListApps)
| tc_UpdateAppKeyHash id h p : typed_call (failure (UpdateAppKeyHash id h p))
| tc_RevokeApp id : typed_call (failure (RevokeApp id)).

(** The errors a goroutine's calls answer, in order. *)
Fixpoint outcomes (calls : list (Prog W (option error))) : Prog W (list (option error)) :=
  match calls with
  | [] => mret []
  | call :: calls' => e ← call; es ← outcomes calls'; mret (e :: es)
  end.
Definition admitted (e : option error) : Prop := match e with Some e => refused_value e = false | None => True end.

Context (tables : W -> Tables) `{!PostgresSpec tables} `{!PostgresUp tables} `{!RuntimeFrame tables}.
Abbreviation welcomed p := (Yields p (fun r => match r with Err e => refused_value e = false | Ok _ => True end)) (only parsing).

Lemma Yields_exec {A} (s : Sql A) : Admits s -> welcomed (call (pg_exec A s)).
Proof.
  intros Hs. apply Yields_call. intros w. destruct (pg_up (tables:=tables) _ s w) as [now Hup].
  destruct (pg_exec A s w).1 as [a|e]; [done|]. by eapply Hs.
Qed.
Lemma Yields_mapped {A B} (s : Sql A) prefix (f : A -> B) :
  Admits s -> welcomed (r ← query s; mret (mapped prefix f r)).
Proof.
  intros Hs. unfold query. eapply Yields_bind; [by apply Yields_exec|]. intros [a|e] He; apply Yields_ret; [done|].
  cbn [mapped]. by rewrite refused_Errorf.
Qed.
(** A lookup, whose missing row is another error. *)
Lemma Yields_found {A B} (s : Sql A) (f : result A -> result B) :
  Admits s -> (forall a, match f (Ok a) with Err e => refused_value e = false | Ok _ => True end) ->
  (forall e, refused_value e = false -> match f (Err e) with Err e => refused_value e = false | Ok _ => True end) ->
  welcomed (r ← query s; mret (f r)).
Proof.
  intros Hs Hok Herr. unfold query. eapply Yields_bind; [by apply Yields_exec|]. intros [a|e] He; apply Yields_ret; [apply Hok|by apply Herr].
Qed.

Lemma Yields_with_ids {A B} (l : list A) (f : list (UUID * A) -> Prog W B) phi :
  (forall l', l'.*2 = l -> Yields (f l') phi) -> Yields (with_ids l ≫= f) phi.
Proof.
  intros Hf. apply (Yields_bind _ _ (fun l' => l'.*2 = l)); [|exact Hf]. clear f Hf phi.
  induction l as [|x l IH]; cbn [with_ids]; [by apply Yields_ret|].
  eapply Yields_bind; [apply Yields_True|]. intros id _. eapply Yields_bind; [exact IH|].
  intros rest Hr. apply Yields_ret. by rewrite fmap_cons, Hr.
Qed.

Lemma not_refused_unique e : refused_value e = false ->
  refused_value (Wrap ("postgres: create batch: " ^^ Error e ^^ ": " ^^ Error Ledger.ErrConflict) [e; Ledger.ErrConflict]) = false.
Proof. intros He. rewrite refused_Wrap. cbn [existsb]. by rewrite He. Qed.

Lemma CreateBatch_welcomed b :
  payable_amount (pb_Total b) -> pb_Status b ∈ batch_statuses ->
  Forall (fun e => payable_amount (pe_Amount e)) (pb_Entries b) -> welcomed (CreateBatchWithReservations b).
Proof.
  intros [Ht _] Hs He. unfold CreateBatchWithReservations, WithTx. apply Yields_with_ids. intros entries Hids.
  eapply Yields_bind; [apply Yields_exec, Admits_bind; [by apply Admits_CreatePayoutBatch|]|].
  - intros _. apply Admits_each. rewrite <- Hids in He. clear Hids. induction entries as [|[id e] entries IH]; [by constructor|].
    apply Forall_cons_1 in He as [[Hp _] He]. constructor; [|by apply IH].
    apply Admits_CreatePayoutReservation; [done|apply list_elem_of_In; by left|done].
  - intros [[]|e] H; apply Yields_ret; [done|]. destruct (isUniqueViolation e); [by apply not_refused_unique|by rewrite refused_Errorf].
Qed.

Lemma reservation_welcomed (s : Sql Z) prefix id :
  Admits s ->
  welcomed (rows ← query s;
            match rows with Err err => mret (Err (Errorf prefix err)) | Ok rows => reservationRowsChecked id rows end).
Proof.
  intros Hs. unfold query. eapply Yields_bind; [by apply Yields_exec|]. intros [n|e] He; [|apply Yields_ret; by rewrite refused_Errorf].
  unfold reservationRowsChecked. destruct (n >? 0)%Z; [by apply Yields_ret|].
  apply Yields_found; [unfold GetPayoutReservationByID; admits|done|]. intros e He'.
  destruct (errors_Is e ErrNoRows); by rewrite refused_Errorf.
Qed.

Lemma RevokeApp_welcomed id : welcomed (RevokeApp id).
Proof.
  unfold RevokeApp, query. eapply Yields_bind; [apply Yields_exec; unfold Database.RevokeApp; admits|].
  intros [n|e] He; [|apply Yields_ret; by rewrite refused_Errorf]. destruct (n =? 0)%Z; [|by apply Yields_ret].
  eapply Yields_bind; [apply Yields_True|]. intros r _. apply Yields_ret. by destruct r as [[|]|].
Qed.

Lemma failure_admitted {A} (p : Prog W (result A)) : welcomed p -> Yields (failure p) admitted.
Proof. intros Hp. eapply Yields_bind; [exact Hp|]. intros [a|e] He; by apply Yields_ret. Qed.

(** A lookup that reports a missing row by another error. *)
Ltac lookup :=
  let e := fresh "e" in
  intros e ?; cbn beta iota; try destruct (errors_Is e ErrNoRows); cbn beta iota; rewrite ?refused_Errorf; done.

Lemma Complete_welcomed id ref v i : currency (wi_Amount i) = GHS ->
  (IsZero (vr_Amount v) = false -> currency (vr_Amount v) = GHS) -> welcomed (CompleteSucceeded id ref v i).
Proof.
  intros Hi Hv. unfold CompleteSucceeded, WithTx. eapply Yields_bind; [apply Yields_True|]. intros eid _.
  eapply Yields_bind; [apply Yields_True|]. intros at_ _. apply Yields_exec.
  apply Admits_bind; [apply Admits_update_event; by right; left|]. intros _.
  apply Admits_bind; [apply Admits_UpdatePaymentIntentStatus; by right; left|]. intros _.
  apply Admits_InsertLedgerEntry. split; [by left|]. simpl. destruct (IsZero (vr_Amount v)); auto.
Qed.

Lemma typed_welcomed c : typed_call c -> Yields c admitted.
Proof.
  destruct 1; apply failure_admitted.
  - by apply Yields_mapped, Admits_InsertWebhookInboxDedup.
  - apply Yields_mapped. unfold Database.DeleteWebhookInbox. admits.
  - apply Yields_found; [unfold GetPaymentIntentForWebhook; admits|by intros [[[]]]|lookup].
  - eapply Yields_bind; [apply Yields_exec, Admits_bind; [by apply Admits_UpdatePaymentIntentStatus|]|].
    + intros _. apply Admits_each. eapply Forall_impl; [|eassumption]. apply Admits_InsertLedgerEntry.
    + intros [a|e] He; apply Yields_ret; [done|]. cbn [mapped]. by rewrite refused_Errorf.
  - destruct H0 as [Ha Hc]. apply Yields_mapped, Admits_CreatePaymentIntent; [done..|by left].
  - apply Yields_found; [unfold GetPaymentIntentByRef; admits|done|lookup].
  - apply Yields_found; [unfold GetPaymentIntentByIdempotencyKey; admits|done|lookup].
  - by apply Yields_mapped, Admits_UpdatePaymentIntentStatus.
  - by apply CreateBatch_welcomed.
  - unfold FindBatch, query. eapply Yields_bind; [apply Yields_exec; unfold GetPayoutBatch; admits|].
    intros [b|e] He; [apply Yields_mapped; unfold ListPayoutReservationsByBatch; admits|].
    apply Yields_ret. destruct (errors_Is e ErrNoRows); [done|by rewrite refused_Errorf].
  - by apply Yields_mapped, Admits_InsertLedgerEntry.
  - apply Yields_mapped. unfold ListLedgerEntriesByRef. admits.
  - apply Yields_found; [unfold StampLedgerSettlement; admits|by intros n; destruct (n =? 0)%Z|lookup].
  - destruct H as [Ha _]. by apply Yields_mapped, Admits_CreatePayoutReservation.
  - apply reservation_welcomed. unfold SettlePayoutReservation. admits.
  - apply reservation_welcomed. unfold ReleasePayoutReservation. admits.
  - by apply Yields_mapped, Admits_Claim.
  - apply Yields_found; [unfold GetPaymentIntentByRef; admits|done|lookup].
  - by apply Complete_welcomed.
  - apply Yields_exec, Admits_bind; [apply Admits_update_event|intros _; apply Admits_UpdatePaymentIntentStatus];
      by right; right; left.
  - unfold InsertOutboxEvent, query. eapply Yields_bind; [apply Yields_True|]. intros eid _.
    by apply Yields_exec, Admits_InsertGatewayEvent; [|left].
  - by apply Yields_exec.
  - apply Yields_exec. unfold CountPendingEvents. admits.
  - apply Yields_mapped. unfold Database.InsertApp. admits.
  - apply Yields_found; [unfold Database.GetApp; admits|done|].
    intros e He. cbn [app_or_missing]. unfold wrap2. rewrite refused_Wrap. cbn [existsb]. by rewrite He.
  - apply Yields_found; [unfold Database.GetAppByHash; admits|done|].
    intros e He. cbn [app_or_missing]. unfold wrap2. rewrite refused_Wrap. cbn [existsb]. by rewrite He.
  - apply Yields_mapped. unfold Database.ListApps. admits.
  - apply Yields_mapped. unfold Database.UpdateAppKeyHash. admits.
  - apply RevokeApp_welcomed.
Qed.

Lemma forgotten_safe {A} (p : Prog W A) : pg_call (forget p) -> Guar (safe_step tables) p.
Proof. intros Hp. exact (proj1 (Guar_bind_inv _ _ _ (pg_call_safe tables _ Hp))). Qed.
Lemma typed_safe c : typed_call c -> Guar (safe_step tables) c.
Proof.
  destruct 1; (apply Guar_bind; [apply forgotten_safe|by intros; apply Guar_ret]);
    [apply pc_InsertWebhookInbox|apply pc_DeleteWebhookInbox|apply pc_FindIntent|apply pc_ApplyChargeOutcome
    |apply pc_CreateIntent|apply pc_FindByRef|apply pc_FindByIdempotencyKey|apply pc_UpdateStatus
    |apply pc_CreateBatch|apply pc_FindBatch|apply pc_AppendEntry|apply pc_ListEntries|apply pc_StampSettlement
    |apply pc_CreateReservation|apply pc_SettleReservation|apply pc_ReleaseReservation|apply pc_ClaimPending
    |apply pc_GetIntent|apply pc_CompleteSucceeded|apply pc_CompleteFailed|apply pc_InsertOutboxEvent
    |apply pc_MarkPendingRetry|apply pc_CountPending|apply pc_InsertApp|apply pc_GetApp|apply pc_GetAppByHash
    |apply pc_ListApps|apply pc_UpdateAppKeyHash|apply pc_RevokeApp].
Qed.

Lemma outcomes_ok calls : Forall typed_call calls ->
  Guar (safe_step tables) (outcomes calls) /\ Yields (outcomes calls) (Forall admitted).
Proof.
  induction 1 as [|c calls Hc _ [IHg IHy]]; cbn [outcomes].
  { split; [apply Guar_ret|]. apply Yields_ret. constructor. }
  split.
  - apply Guar_bind; [by apply typed_safe|]. intros e. apply Guar_bind; [done|]. intros es. apply Guar_ret.
  - eapply Yields_bind; [by apply typed_welcomed|]. intros e He. eapply Yields_bind; [exact IHy|].
    intros es Hes. apply Yields_ret. by constructor.
Qed.
End calls.
Arguments typed_call {W _ _} c.

(** C6: The store writes values its columns admit.  Any number of goroutines
    call the methods of the Postgres stores in any order and interleaving,
    with a known gateway, a positive amount in GHS, a status or kind of the
    columns' lists wherever the caller supplies one: no call is refused by a
    CHECK or a LIMIT - the statuses, kinds, amounts and NULLs that the methods
    fill in are admitted too - and the tables keep the schema. *)
Theorem pg_calls_well_typed {W} `{!Runtime W} `{!Postgres W} (tables : W -> Tables)
    `{!PostgresSpec tables} `{!PostgresUp tables} `{!RuntimeFrame tables} sch threads w :
  Forall (Forall typed_call) threads -> schema_ok (tables w) ->
  let out := sched sch (map outcomes threads) w in
  schema_ok (tables out.2)
  /\ (forall i answers, out.1 !! i ≫= finished = Some answers ->
        Forall (fun e => match e with Some err => refused_value err = false | None => True end) answers).
Proof.
  intros Hts Hok. cbv zeta.
  set (G := fun t t' : Tables => (schema_ok t -> schema_ok t') /\ grows t t').
  assert (HG : PreOrder G).
  { split; [by split|]. intros t1 t2 t3 [H1 G1] [H2 G2]. split; [auto|by etrans]. }
  destruct (sched_Safe tables G sch (map outcomes threads) (map (fun _ a _ => Forall admitted a) threads) w) as [Hg Hf].
  { apply Forall2_fmap, Forall_Forall2_diag. eapply Forall_impl; [|exact Hts]. intros calls Hcs.
    destruct (outcomes_ok tables calls Hcs) as [Hs Hy]. exists (fun _ => True). split; [done|]. split; [done|].
    eapply Safe_post; [|by apply (Yields_Safe tables G _ _ (Forall admitted))]. by intros a t []. }
  split; [by apply Hg|]. intros i answers Ha.
  destruct ((sched sch (map outcomes threads) w).1 !! i) as [q|] eqn:E; [|done].
  destruct (Forall2_lookup_l _ _ _ _ _ Hf E) as (Q & HQ & _).
  assert (HQ' : Q = fun a _ => Forall admitted a).
  { change (map (fun _ a (_ : Tables) => Forall admitted a) threads) with ((fun _ a (_ : Tables) => Forall admitted a) <$> threads) in HQ.
    rewrite list_lookup_fmap in HQ. destruct (threads !! i); [by injection HQ as <-|done]. }
  subst Q. apply (finished_ok tables G _ _ _ i answers _ Hf HQ). by rewrite E.
Qed.
