(* ===== verification/ListHandlers.v ===== *)
(** * internal/api/list_handlers.go: the dashboard's listings

    Four handlers that query Postgres with SQL text they build from the URL's
    parameters, and the gateways' health page.  The pool is an interface: a
    text and its arguments go in, rows of column values come out, and with
    them the error that [rows.Err()] would report, which no handler reads.
    [ListSpec] says what the texts mean on the tables of [Database].

    The text form of instants is the server's. *)
From S2P Require Import Prelude GoStrings Strconv Json JsonCodec Money Reference Config Ledger Gateway Router.
From S2P Require Import Http Api Valkey Database.
From Stdlib Require Import Ascii Floats.SpecFloat.

(** ** The pool *)
Inductive SqlArg := ArgText (s : string) | ArgInt (z : Z).
Inductive SqlVal := VNull | VText (s : string) | VInt (z : Z).

Record Rows := { rows_data : list (list SqlVal); rows_Err : option error }.

Class Pool (W : Type) := { pool_Query : string -> list SqlArg -> M W (result Rows) }.

(** [Scan] into a [*string], a [**string] or [[]byte], an [*int64]. *)
Definition scan_text (v : SqlVal) : option string := match v with VText s => Some s | _ => None end.
Definition scan_nullable (v : SqlVal) : option (option string) :=
  match v with VText s => Some (Some s) | VNull => Some None | VInt _ => None end.
Definition scan_int (v : SqlVal) : option Z := match v with VInt z => Some z | _ => None end.

(** ** The texts *)
Definition given (v : string) : bool := negb (String.eqb v "") && negb (String.eqb v "all").

Definition limit_of (v : string) : Z :=
  match ParseInt v with
  | Some n => if (0 <? n)%Z && (n <=? 500)%Z then n else 100
  | None => 100
  end%Z.

(** [query += clause + strconv.Itoa(idx); args = append(args, v); idx++] *)
Definition add_filter (clause v : string) (q : string * list SqlArg * Z) : string * list SqlArg * Z :=
  let '(query, args, idx) := q in
  if given v then (query ^^ clause ^^ FormatInt idx, args ++ [ArgText v], (idx + 1)%Z) else q.

Definition charges_query (product gateway status : string) (limit : Z) : string * list SqlArg :=
  let q := ("SELECT ref, product, gateway, amount_pesewas, currency, status, authorization_url, created_at::text FROM payment_intents WHERE 1=1", [], 1%Z) in
  let q := add_filter " AND product = $" product q in
  let q := add_filter " AND gateway = $" gateway q in
  let '(query, args, idx) := add_filter " AND status = $" status q in
  (query ^^ " ORDER BY created_at DESC LIMIT $" ^^ FormatInt idx, args ++ [ArgInt limit]).

Definition payouts_query : string :=
  "SELECT id, product, total_pesewas, currency, status, batch_date::text, created_at::text FROM payout_batches ORDER BY created_at DESC LIMIT 100".
Definition vendor_count_query : string := "SELECT COUNT(*) FROM payout_reservations WHERE batch_id = $1".

Definition ledger_columns : string :=
  "SELECT id, kind, ref, amount_pesewas, currency, value_time::text, booking_time::text, settlement_time::text, product, created_at::text FROM ledger_entries".
Definition ledger_query (ref : string) (limit : Z) : string * list SqlArg :=
  if negb (String.eqb ref "")
  then (ledger_columns ^^ " WHERE ref = $1 ORDER BY booking_time LIMIT $2", [ArgText ref; ArgInt limit])
  else (ledger_columns ^^ " ORDER BY created_at DESC LIMIT $1", [ArgInt limit]).

Definition webhooks_columns : string :=
  "SELECT aggregator_event_id, gateway, payload, received_at::text, processed_at::text FROM webhook_inbox".
Definition webhooks_query (gateway : string) : string * list SqlArg :=
  if given gateway
  then (webhooks_columns ^^ " WHERE gateway = $1 ORDER BY received_at DESC LIMIT 100", [ArgText gateway])
  else (webhooks_columns ^^ " ORDER BY received_at DESC LIMIT 100", []).

(** ** Rows as JSON *)
Definition JInt (z : Z) : json := JNum (FormatInt z).
Definition JNullable (s : option string) : json := match s with Some s => JStr s | None => JNull end.

Definition charge_row (r : list SqlVal) : option json :=
  match r with
  | [ref; product; gateway; amount; currency; status; authURL; createdAt] =>
      ref ← scan_text ref; product ← scan_text product; gateway ← scan_text gateway;
      amount ← scan_int amount; currency ← scan_text currency; status ← scan_text status;
      authURL ← scan_nullable authURL; createdAt ← scan_text createdAt;
      Some (JObj ([("ref", JStr ref); ("product", JStr product); ("gateway", JStr gateway);
        ("amount_pesewas", JInt amount); ("currency", JStr currency); ("status", JStr status)]
        ++ (match authURL with Some u => [("authorization_url", JStr u)] | None => [] end)
        ++ [("created_at", JStr createdAt)]))
  | _ => None
  end.

Definition ledger_row (r : list SqlVal) : option json :=
  match r with
  | [id; kind; ref; amount; currency; valueTime; bookingTime; settlementTime; product; createdAt] =>
      id ← scan_text id; kind ← scan_text kind; ref ← scan_text ref; amount ← scan_int amount;
      _ ← scan_text currency; valueTime ← scan_text valueTime; bookingTime ← scan_text bookingTime;
      settlementTime ← scan_nullable settlementTime; product ← scan_text product; _ ← scan_text createdAt;
      let commission := String.eqb kind "commission" in
      Some (JObj [("id", JStr id); ("product", JStr product); ("wallet", JStr product); ("vendor_id", JStr product);
        ("entry_type", JStr (if commission then "debit" else "credit")); ("amount_pesewas", JInt amount);
        ("reason", JStr (if commission then "commission_deduction" else "order_payment")); ("ref", JStr ref);
        ("value_time", JStr valueTime); ("booking_time", JStr bookingTime);
        ("settlement_time", JNullable settlementTime); ("kind", JStr kind)])
  | _ => None
  end.

(** A decoded [any]: numbers are float64s, objects maps, encoded with their
    keys in order; of equal keys the last one stays. *)
Fixpoint put_member (k : string) (v : json) (ms : list (string * json)) : list (string * json) :=
  match ms with
  | [] => [(k, v)]
  | (k', v') :: rest =>
      match String.compare k k' with
      | Lt => (k, v) :: ms
      | Eq => (k, v) :: rest
      | Gt => (k', v') :: put_member k v rest
      end
  end.
Fixpoint any_value (v : json) : json :=
  match v with
  | JNum lit => JNum (default lit (float_text (ParseFloat lit).1))
  | JArr es => JArr (map (any_value) es)
  | JObj ms =>
      JObj (fold_left (fun acc kv => put_member kv.1 kv.2 acc)
                      (map (fun kv => (kv.1, any_value kv.2)) ms) [])
  | _ => v
  end.
(** [json.Unmarshal(payload, &p)], its error dropped. *)
Definition payload_value (payload : option string) : json :=
  match payload with
  | None | Some "" => JNull
  | Some text =>
      match Unmarshal dec_any JNull text with Ok v => any_value v | Err _ => JNull end
  end.
Definition webhook_row (r : list SqlVal) : option json :=
  match r with
  | [aggID; gw; payload; receivedAt; processedAt] =>
      aggID ← scan_text aggID; gw ← scan_text gw; payload ← scan_nullable payload;
      receivedAt ← scan_text receivedAt; processedAt ← scan_nullable processedAt;
      Some (JObj [("id", JStr aggID); ("aggregator_event_id", JStr aggID); ("gateway", JStr gw);
        ("payload", payload_value payload); ("received_at", JStr receivedAt);
        ("processed_at", JNullable processedAt)])
  | _ => None
  end.

Record batchRow := { br_id : string; br_total : Z; br_status : string; br_date : string; br_createdAt : string }.
Definition scan_batch (r : list SqlVal) : option batchRow :=
  match r with
  | [id; product; total; currency; status; batchDate; createdAt] =>
      id ← scan_text id; _ ← scan_text product; total ← scan_int total; _ ← scan_text currency;
      status ← scan_text status; batchDate ← scan_text batchDate; createdAt ← scan_text createdAt;
      Some {| br_id := id; br_total := total; br_status := status; br_date := batchDate; br_createdAt := createdAt |}
  | _ => None
  end.
Definition batch_json (b : batchRow) (vendorCount : Z) : json :=
  JObj [("id", JStr (br_id b)); ("batch_date", JStr (br_date b)); ("status", JStr (br_status b));
    ("vendor_count", JInt vendorCount); ("gross_pesewas", JInt (br_total b)); ("commission_pesewas", JInt 0);
    ("net_pesewas", JInt (br_total b)); ("created_at", JStr (br_createdAt b)); ("lines", JArr [])].

(** ** The handlers *)
Section listings.
Context {W : Type} `{!Runtime W} `{!Pool W}.

(** [app.Pool] may be nil; a row that does not scan is skipped. *)
Definition list_rows (query : string) (args : list SqlArg) (row : list SqlVal -> option json) : Prog W Response :=
  rows ← call (pool_Query query args);
  mret (match rows with
        | Err _ => writeError 500 "internal_error" "query failed"
        | Ok rows => writeJSON 200 (JArr (omap (M:=list) row (rows_data rows)))
        end).
Definition when_pool (pool : bool) (p : Prog W Response) : Prog W Response :=
  if pool then p else mret (writeJSON 200 (JArr [])).

Definition handleListCharges (pool : bool) : Handler W := fun r => when_pool pool (
  let limit := limit_of (rq_Query r "limit") in
  let '(query, args) := charges_query (rq_Query r "product") (rq_Query r "gateway") (rq_Query r "status") limit in
  list_rows query args charge_row).

Definition handleListLedger (pool : bool) : Handler W := fun r => when_pool pool (
  let '(query, args) := ledger_query (rq_Query r "ref") (limit_of (rq_Query r "limit")) in
  list_rows query args ledger_row).

Definition handleListWebhooks (pool : bool) : Handler W := fun r => when_pool pool (
  let '(query, args) := webhooks_query (rq_Query r "gateway") in
  list_rows query args webhook_row).

(** [_ = QueryRow(...).Scan(&vendorCount)]: 0 after an error. *)
Definition vendor_count (id : string) : Prog W Z :=
  r ← call (pool_Query vendor_count_query [ArgText id]);
  mret (match r with
        | Ok {| rows_data := [VInt n] :: _ |} => n
        | _ => 0%Z
        end).
Fixpoint batch_rows (rows : list (list SqlVal)) : Prog W (list json) :=
  match rows with
  | [] => mret []
  | r :: rows =>
      match scan_batch r with
      | None => batch_rows rows
      | Some b => n ← vendor_count (br_id b); rest ← batch_rows rows; mret (batch_json b n :: rest)
      end
  end.
Definition handleListPayouts (pool : bool) : Handler W := fun r => when_pool pool (
  rows ← call (pool_Query payouts_query []);
  match rows with
  | Err _ => mret (writeError 500 "internal_error" "query failed")
  | Ok rows => batches ← batch_rows (rows_data rows); mret (writeJSON 200 (JArr batches))
  end).
End listings.

(** ** Gateway health *)
Definition point95 : float64 := SFdiv 53 1024 (f64_of_Z 95) (f64_of_Z 100).

Record healthRow := {
  hr_Gateway : string; hr_Eligible : bool; hr_Rate : float64; hr_P95 : Z; hr_State : string; hr_Rank : Z }.
Definition with_rank (rank : Z) (r : healthRow) : healthRow :=
  {| hr_Gateway := hr_Gateway r; hr_Eligible := hr_Eligible r; hr_Rate := hr_Rate r; hr_P95 := hr_P95 r;
     hr_State := hr_State r; hr_Rank := rank |}.

Definition health_json (r : healthRow) : option json :=
  rate ← float_text (hr_Rate r);
  Some (JObj [("gateway", JStr (hr_Gateway r)); ("channel", JStr "ghs"); ("eligible", JBool (hr_Eligible r));
    ("rolling_success_rate", JNum rate); ("p95_latency_ms", JInt (hr_P95 r));
    ("circuit_state", JStr (hr_State r)); ("cost_bps", JInt 0); ("cost_fixed_pesewas", JInt 0);
    ("rank", JInt (hr_Rank r)); ("open_since", JNull)]).
(** [writeJSON] drops the encoder's error: then the answer has no body. *)
Definition write_rows (rows : list healthRow) : Response :=
  match mapM health_json rows with
  | Some js => writeJSON 200 (JArr js)
  | None => {| rs_Status := 200; rs_Header := [("Content-Type", "application/json")]; rs_Cookie := None; rs_Body := "" |}
  end.

(** The position of a gateway in the router's ranking, from 1. *)
Fixpoint rank_of (g : string) (ordered : list Gateway) (i : Z) : option Z :=
  match ordered with
  | [] => None
  | o :: rest => match rank_of g rest (i + 1) with
                 | Some k => Some k
                 | None => if String.eqb o g then Some i else None
                 end
  end.
(** Without a router the eligible rows are numbered in order. *)
Fixpoint number_rows (rows : list healthRow) (rank : Z) : list healthRow :=
  match rows with
  | [] => []
  | r :: rest => if hr_Eligible r then with_rank rank r :: number_rows rest (rank + 1)
                 else r :: number_rows rest rank
  end.
Definition rank_rows (ordered : list Gateway) (rows : list healthRow) : list healthRow :=
  map (fun r => if hr_Eligible r
                then match rank_of (hr_Gateway r) ordered 1 with Some k => with_rank k r | None => r end
                else r) rows.

Definition disabled (cfg : PaymentsConfig) (gw : string) : bool :=
  if String.eqb gw "paystack" then Paystack_Disabled (Paystack cfg)
  else if String.eqb gw "hubtel" then Hubtel_Disabled (Hubtel cfg)
  else if String.eqb gw "moolre" then Moolre_Disabled (Moolre cfg) else false.

Section health.
Context {W : Type} `{!Runtime W} `{!ValkeyClient W}.

(** What an erring read comes with: 1.0, closed, 0. *)
Definition value_or {A} (a : A) (r : result A) : A := match r with Ok x => x | Err _ => a end.

Definition health_row (cfg : PaymentsConfig) (s : HealthStore) (gw : string) : Prog W healthRow :=
  rate ← SuccessRate s gw;
  open ← IsCircuitOpen s gw;
  p95 ← P95Latency s gw;
  let rate := value_or (SFone 53 1024) rate in
  let open := value_or false open in
  mret {| hr_Gateway := gw; hr_Eligible := negb (disabled cfg gw) && negb open && SFleb point95 rate;
          hr_Rate := rate; hr_P95 := value_or 0%Z p95; hr_State := if open then "open" else "closed"; hr_Rank := 99 |}.

Definition handleGatewayHealth (cfg : PaymentsConfig) (connected : bool) (router : option (ChargerRouter W))
    : Handler W := fun _ =>
  let s := NewHealthStore connected in
  r1 ← health_row cfg s "paystack";
  r2 ← health_row cfg s "hubtel";
  r3 ← health_row cfg s "moolre";
  let rows := [r1; r2; r3] in
  rows ← match router with
         | Some rt => ordered ← Route rt; mret (rank_rows ordered rows)
         | None => mret (number_rows rows 1)
         end;
  mret (write_rows rows).
End health.
