(* ===== verification/ListSpec.v ===== *)
(** * What the listings show

    A fragment of SELECT: its text ([sel_text]), its meaning on the tables
    ([sel_eval]), and the pool that runs the one as the other says
    ([PoolSpec]).  The texts the handlers build are of the fragment, so what
    a listing answers is a statement about the tables. *)
From S2P Require Import Prelude GoStrings Json JsonCodec Money Reference Ledger.
From S2P Require Import Http Api Database DatabaseProofs ListHandlers.
From Stdlib Require Import Ascii.

(** ** A fragment of SELECT *)
Record Select := {
  sl_columns : list string; sl_table : string; sl_base : bool; sl_conds : list string;
  sl_order : string; sl_desc : bool; sl_limit : option Z }.

(** Conditions number their placeholders from [i]. *)
Fixpoint conds_text (sep : string) (conds : list string) (i : Z) : string :=
  match conds with
  | [] => ""
  | c :: cs => sep ^^ c ^^ " = $" ^^ FormatInt i ^^ conds_text " AND " cs (i + 1)
  end.
Definition sel_text (q : Select) : string :=
  "SELECT " ^^ Join (sl_columns q) ", " ^^ " FROM " ^^ sl_table q ^^
  (if sl_base q then " WHERE 1=1" ^^ conds_text " AND " (sl_conds q) 1 else conds_text " WHERE " (sl_conds q) 1) ^^
  " ORDER BY " ^^ sl_order q ^^ (if sl_desc q then " DESC" else "") ^^ " LIMIT " ^^
  match sl_limit q with
  | Some n => FormatInt n
  | None => "$" ^^ FormatInt (Z.of_nat (length (sl_conds q)) + 1)
  end.

(** ** The texts are of the fragment *)
Definition charges_columns : list string :=
  ["ref"; "product"; "gateway"; "amount_pesewas"; "currency"; "status"; "authorization_url"; "created_at::text"].
Definition charges_conds (product gateway status : bool) : list string :=
  (if product then ["product"] else []) ++ (if gateway then ["gateway"] else [])
  ++ (if status then ["status"] else []).
Definition charges_select (product gateway status : bool) : Select := {|
  sl_columns := charges_columns; sl_table := "payment_intents"; sl_base := true;
  sl_conds := charges_conds product gateway status; sl_order := "created_at"; sl_desc := true; sl_limit := None |}.
Definition charges_args (product gateway status : string) (limit : Z) : list SqlArg :=
  map ArgText (List.filter given [product; gateway; status]) ++ [ArgInt limit].

Lemma charges_query_text product gateway status limit :
  charges_query product gateway status limit
  = (sel_text (charges_select (given product) (given gateway) (given status)), charges_args product gateway status limit).
Proof.
  unfold charges_query, add_filter, charges_select, charges_conds, charges_args. cbn [List.filter].
  by destruct (given product), (given gateway), (given status).
Qed.

Definition ledger_select (all : bool) : Select := {|
  sl_columns := ["id"; "kind"; "ref"; "amount_pesewas"; "currency"; "value_time::text"; "booking_time::text";
                 "settlement_time::text"; "product"; "created_at::text"];
  sl_table := "ledger_entries"; sl_base := false;
  sl_conds := if all then [] else ["ref"];
  sl_order := if all then "created_at" else "booking_time"; sl_desc := all;
  sl_limit := None |}.
Lemma ledger_query_text ref limit :
  ledger_query ref limit
  = (sel_text (ledger_select (String.eqb ref "")), (if String.eqb ref "" then [] else [ArgText ref]) ++ [ArgInt limit]).
Proof. unfold ledger_query, ledger_select. by destruct (String.eqb ref ""). Qed.

(** The statements of the two listings. *)
Definition listings : list Select :=
  (p ← [true; false]; g ← [true; false]; s ← [true; false]; [charges_select p g s])
  ++ [ledger_select true; ledger_select false].

(** A row as its columns' values and its instants. *)
Record Row := { row_value : string -> option SqlVal; row_time : string -> Time }.

Definition nullable (s : option string) : SqlVal := match s with Some s => VText s | None => VNull end.
Definition lookup_column (cols : list (string * SqlVal)) (c : string) : option SqlVal :=
  snd <$> (snd <$> list_find (fun kv => kv.1 = c) cols).

Section meaning.
(** [timestamptz::text] and [uuid] in text form, under the server's settings. *)
Context (tz_text : Time -> string) (uuid_text : UUID -> string).

Definition intent_row (i : PaymentIntent) : Row := {|
  row_value := lookup_column [("ref", VText (pi_Ref i)); ("product", VText (pi_Product i));
    ("gateway", VText (pi_Gateway i)); ("amount_pesewas", VInt (pi_AmountPesewas i));
    ("currency", VText (pi_Currency i)); ("status", VText (pi_Status i));
    ("authorization_url", nullable (pi_AuthorizationURL i)); ("created_at::text", VText (tz_text (pi_CreatedAt i)))];
  row_time _ := pi_CreatedAt i |}.
Definition entry_row (e : LedgerEntry) : Row := {|
  row_value := lookup_column [("id", VText (uuid_text (le_ID e))); ("kind", VText (le_Kind e));
    ("ref", VText (le_Ref e)); ("amount_pesewas", VInt (minorUnits (le_Amount e)));
    ("currency", VText (currency (le_Amount e))); ("value_time::text", VText (tz_text (le_ValueTime e)));
    ("booking_time::text", VText (tz_text (le_BookingTime e)));
    ("settlement_time::text", nullable (tz_text <$> le_SettlementTime e)); ("product", VText (le_Product e));
    ("created_at::text", VText (tz_text (le_CreatedAt e)))];
  row_time c := if String.eqb c "booking_time" then le_BookingTime e else le_CreatedAt e |}.

Definition rows_of (table : string) (intents : list PaymentIntent) (entries : list LedgerEntry) : list Row :=
  if String.eqb table "payment_intents" then map intent_row intents
  else if String.eqb table "ledger_entries" then map entry_row entries
  else [].

Fixpoint holds (conds : list string) (args : list SqlArg) (r : Row) : bool :=
  match conds, args with
  | [], _ => true
  | c :: cs, ArgText a :: args =>
      match row_value r c with Some (VText v) => String.eqb v a && holds cs args r | _ => false end
  | _, _ => false
  end.
Definition limit_arg (q : Select) (args : list SqlArg) : nat :=
  match sl_limit q, args !! length (sl_conds q) with
  | Some n, _ => Z.to_nat n
  | None, Some (ArgInt n) => Z.to_nat n
  | None, _ => 0
  end.
Definition sel_rows (q : Select) (args : list SqlArg) (rows : list Row) : list Row :=
  take (limit_arg q args)
    (order_by (fun r => let t := row_time r (sl_order q) in if sl_desc q then - t else t)%Z
      (List.filter (holds (sl_conds q) args) rows)).
Definition sel_eval (q : Select) (args : list SqlArg) (intents : list PaymentIntent) (entries : list LedgerEntry)
    : list (list SqlVal) :=
  map (fun r => omap (M:=list) (row_value r) (sl_columns q)) (sel_rows q args (rows_of (sl_table q) intents entries)).

(** The rows in whatever order a query comes upon them, which settles the
    order of those that ORDER BY leaves equal. *)
Class Scans {W} (tables : W -> Tables) := {
  intents_met : string -> list SqlArg -> W -> list PaymentIntent;
  entries_met : string -> list SqlArg -> W -> list LedgerEntry;
  intents_all s args w : intents_met s args w ≡ₚ (map_to_list (t_intents (tables w))).*2;
  entries_all s args w : entries_met s args w ≡ₚ t_ledger (tables w) }.

(** A query changes nothing; the rows it delivers are the selected ones, up to
    the error it stopped at. *)
Class PoolSpec {W} `{!Pool W} (tables : W -> Tables) `{!Scans tables} : Prop := {
  pool_frame s args w : tables (pool_Query s args w).2 = tables w;
  pool_rows q args w : q ∈ listings ->
    match (pool_Query (sel_text q) args w).1 with
    | Err _ => True
    | Ok rows =>
        let selected := sel_eval q args (intents_met (sel_text q) args w) (entries_met (sel_text q) args w) in
        rows_data rows `prefix_of` selected /\ (rows_Err rows = None -> rows_data rows = selected)
    end }.
End meaning.

Lemma charges_listing p g s : charges_select p g s ∈ listings.
Proof. apply list_elem_of_In. destruct p, g, s; simpl; auto 20. Qed.
Lemma ledger_listing all : ledger_select all ∈ listings.
Proof. apply list_elem_of_In. destruct all; simpl; auto 20. Qed.

Lemma limit_of_bounds v : (1 <= limit_of v <= 500)%Z.
Proof.
  unfold limit_of. destruct (ParseInt v) as [n|]; [|lia].
  destruct (0 <? n)%Z eqn:E1, (n <=? 500)%Z eqn:E2; simpl; lia.
Qed.

(** ** Rows read back *)
Section listed.
Context (tz_text : Time -> string) (uuid_text : UUID -> string).

(** The charge as the dashboard sees it. *)
Definition charge_json (i : PaymentIntent) : json :=
  JObj ([("ref", JStr (pi_Ref i)); ("product", JStr (pi_Product i)); ("gateway", JStr (pi_Gateway i));
    ("amount_pesewas", JInt (pi_AmountPesewas i)); ("currency", JStr (pi_Currency i)); ("status", JStr (pi_Status i))]
    ++ (match pi_AuthorizationURL i with Some u => [("authorization_url", JStr u)] | None => [] end)
    ++ [("created_at", JStr (tz_text (pi_CreatedAt i)))]).

Lemma charge_row_columns i :
  charge_row (omap (M:=list) (row_value (intent_row tz_text i)) charges_columns) = Some (charge_json i).
Proof. unfold charge_json. destruct i as [? ? ? ? ? ? ? ? [url|] ?]; reflexivity. Qed.

Definition ledger_json (e : LedgerEntry) : json :=
  let commission := String.eqb (le_Kind e) "commission" in
  JObj [("id", JStr (uuid_text (le_ID e))); ("product", JStr (le_Product e)); ("wallet", JStr (le_Product e));
    ("vendor_id", JStr (le_Product e)); ("entry_type", JStr (if commission then "debit" else "credit"));
    ("amount_pesewas", JInt (minorUnits (le_Amount e)));
    ("reason", JStr (if commission then "commission_deduction" else "order_payment")); ("ref", JStr (le_Ref e));
    ("value_time", JStr (tz_text (le_ValueTime e))); ("booking_time", JStr (tz_text (le_BookingTime e)));
    ("settlement_time", JNullable (tz_text <$> le_SettlementTime e)); ("kind", JStr (le_Kind e))].

Lemma ledger_row_columns e ref :
  ledger_row (omap (M:=list) (row_value (entry_row tz_text uuid_text e)) (sl_columns (ledger_select (String.eqb ref ""))))
  = Some (ledger_json e).
Proof. destruct e as [? ? ? ? ? ? [t|] ? ?]; reflexivity. Qed.

(** Selecting commutes with making rows. *)
Lemma insert_by_map {A B} (f : A -> B) (key : B -> Time) (key' : A -> Time) x l :
  (forall a, key (f a) = key' a) -> insert_by key (f x) (map f l) = map f (insert_by key' x l).
Proof.
  intros Hk. induction l as [|y l IH]; simpl; [done|]. rewrite !Hk.
  destruct (key' x <? key' y)%Z; [done|]. simpl. by rewrite IH.
Qed.
Lemma order_by_map {A B} (f : A -> B) (key : B -> Time) (key' : A -> Time) l :
  (forall a, key (f a) = key' a) -> order_by key (map f l) = map f (order_by key' l).
Proof.
  intros Hk. unfold order_by. change (@nil B) with (map f []). generalize (@nil A).
  induction l as [|x l IH]; intros acc; simpl; [done|].
  rewrite (insert_by_map f key key') by done. apply IH.
Qed.
Lemma filter_map' {A B} (f : A -> B) (p : B -> bool) l :
  List.filter p (map f l) = map f (List.filter (fun a => p (f a)) l).
Proof. induction l as [|x l IH]; simpl; [done|]. destruct (p (f x)); simpl; by rewrite IH. Qed.

Lemma sel_rows_map {A} (f : A -> Row) q args (key : A -> Time) l :
  (forall a, (let t := row_time (f a) (sl_order q) in if sl_desc q then - t else t)%Z = key a) ->
  sel_rows q args (map f l)
  = map f (take (limit_arg q args) (order_by key (List.filter (fun a => holds (sl_conds q) args (f a)) l))).
Proof.
  intros Hk. unfold sel_rows. rewrite filter_map', (order_by_map f _ key) by done. by rewrite firstn_map.
Qed.

(** ** What the parameters select *)
Definition selects (v column : string) : bool := negb (given v) || String.eqb column v.
Definition charge_selected (product gateway status : string) (i : PaymentIntent) : bool :=
  selects product (pi_Product i) && selects gateway (pi_Gateway i) && selects status (pi_Status i).

Lemma charges_holds product gateway status limit i :
  holds (charges_conds (given product) (given gateway) (given status)) (charges_args product gateway status limit) (intent_row tz_text i)
  = charge_selected product gateway status i.
Proof.
  assert (Hv : forall c v, row_value (intent_row tz_text i) c = Some (VText v) -> forall cs a args,
    holds (c :: cs) (ArgText a :: args) (intent_row tz_text i) = String.eqb v a && holds cs args (intent_row tz_text i))
    by (intros c v Hc cs a args; cbn [holds]; by rewrite Hc).
  pose proof (Hv "product" _ eq_refl) as Hp. pose proof (Hv "gateway" _ eq_refl) as Hg.
  pose proof (Hv "status" _ eq_refl) as Hs. clear Hv.
  unfold charges_conds, charges_args, charge_selected, selects. cbn [List.filter].
  destruct (given product), (given gateway), (given status); cbn [app map negb orb];
    rewrite ?Hp, ?Hg, ?Hs; cbn [holds]; by rewrite ?andb_true_r, ?andb_assoc.
Qed.

(** Of the rows met, those selected: the newest first, at most [limit]. *)
Definition charges_listed (product gateway status : string) (limit : Z) (met : list PaymentIntent) : list PaymentIntent :=
  take (Z.to_nat limit) (order_by (fun i => - pi_CreatedAt i)%Z
    (List.filter (charge_selected product gateway status) met)).
Definition ledger_listed (ref : string) (limit : Z) (met : list LedgerEntry) : list LedgerEntry :=
  take (Z.to_nat limit) (order_by (if String.eqb ref "" then fun e => - le_CreatedAt e else le_BookingTime)%Z
    (List.filter (fun e => String.eqb ref "" || String.eqb (le_Ref e) ref) met)).

Lemma list_filter_ext {A} (f g : A -> bool) l : (forall a, f a = g a) -> List.filter f l = List.filter g l.
Proof. intros H. induction l as [|x l IH]; simpl; [done|]. by rewrite H, IH. Qed.
Lemma omap_map_Some {A B C} (f : A -> B) (g : B -> option C) (h : A -> C) (l : list A) :
  (forall a, g (f a) = Some (h a)) -> omap (M:=list) g (map f l) = map h l.
Proof.
  intros H. induction l as [|x l IH]; [done|]. cbn [map]. rewrite <- IH.
  change (omap g (f x :: map f l)) with (match g (f x) with Some y => y :: omap (M:=list) g (map f l) | None => omap (M:=list) g (map f l) end).
  by rewrite H.
Qed.

Lemma charges_eval product gateway status limit met entries :
  let q := charges_select (given product) (given gateway) (given status) in
  let args := charges_args product gateway status limit in
  sel_eval tz_text uuid_text q args met entries
  = map (fun i => omap (M:=list) (row_value (intent_row tz_text i)) charges_columns)
        (charges_listed product gateway status limit met).
Proof.
  cbv zeta. unfold sel_eval, rows_of, charges_listed. cbn [charges_select sl_table sl_columns].
  change (String.eqb "payment_intents" "payment_intents") with true. cbv match.
  rewrite (sel_rows_map _ _ _ (fun i => - pi_CreatedAt i)%Z) by done. rewrite map_map. f_equal.
  cbn [charges_select sl_conds]. f_equal.
  - unfold limit_arg, charges_select, charges_args, charges_conds. cbn [sl_limit sl_conds List.filter].
    by destruct (given product), (given gateway), (given status).
  - f_equal. apply list_filter_ext. intros i. apply charges_holds.
Qed.

Lemma ledger_eval ref limit intents met :
  sel_eval tz_text uuid_text (ledger_select (String.eqb ref "")) ((if String.eqb ref "" then [] else [ArgText ref]) ++ [ArgInt limit]) intents met
  = map (fun e => omap (M:=list) (row_value (entry_row tz_text uuid_text e)) (sl_columns (ledger_select (String.eqb ref ""))))
        (ledger_listed ref limit met).
Proof.
  unfold sel_eval, rows_of, ledger_listed. cbn [ledger_select sl_table].
  change (String.eqb "ledger_entries" "payment_intents") with false.
  change (String.eqb "ledger_entries" "ledger_entries") with true. cbv match.
  rewrite (sel_rows_map _ _ _ (if String.eqb ref "" then fun e => - le_CreatedAt e else le_BookingTime)%Z)
    by (intros e; unfold ledger_select; by destruct (String.eqb ref "")).
  rewrite map_map. f_equal. unfold ledger_select, limit_arg. cbn [sl_limit sl_conds].
  destruct (String.eqb ref ""); cbn [app length]; f_equal; f_equal; apply list_filter_ext; intros e.
  assert (Hv : row_value (entry_row tz_text uuid_text e) "ref" = Some (VText (le_Ref e))) by done.
  cbn [holds orb]. by rewrite Hv, andb_true_r.
Qed.
End listed.

(** What a handler answers of a query whose rows it reads one by one. *)
Lemma list_rows_spec {W} `{!Runtime W} `{!Pool W} (tables : W -> Tables) tz_text uuid_text
    `{!Scans tables} `{!PoolSpec tz_text uuid_text tables} {A} (f : A -> list SqlVal) row (js : A -> json) q args listed w :
  q ∈ listings -> 
  sel_eval tz_text uuid_text q args (intents_met (sel_text q) args w) (entries_met (sel_text q) args w) = map f listed -> (forall a, row (f a) = Some (js a)) ->
  match (pool_Query (sel_text q) args w).1 with
  | Err _ => (run (list_rows (sel_text q) args row) w).1 = writeError 500 "internal_error" "query failed"
  | Ok rows => exists n, (run (list_rows (sel_text q) args row) w).1 = writeJSON 200 (JArr (map js (take n listed)))
                         /\ (rows_Err rows = None -> take n listed = listed)
  end.
Proof.
  intros Hq Heval Hrow. unfold list_rows. run_simpl.
  pose proof (pool_rows tz_text uuid_text q args w Hq) as Hrows.
  destruct (pool_Query (sel_text q) args w).1 as [rows|e]; [|done]. cbv zeta in Hrows. destruct Hrows as [[rest Hpre] Hall].
  rewrite Heval in Hpre, Hall. exists (length (rows_data rows)).
  assert (Hd : rows_data rows = map f (take (length (rows_data rows)) listed))
    by (rewrite <- firstn_map, Hpre; symmetry; apply take_app_length).
  split.
  - rewrite Hd at 1. by rewrite (omap_map_Some f row js) by done.
  - intros Hnone. apply take_ge. rewrite (Hall Hnone). by rewrite length_map.
Qed.

(** ** Properties *)

(** C22: A listing of the charges is what the tables hold: whatever the
    parameters, the query changes nothing and the answer is 500, or 200 with
    the charges of the given product, gateway and status (any, when empty or
    "all"), the newest first and at most [limit] of them, those made at one
    instant in any order; a prefix of that when the rows broke off, which the
    handler does not look at. *)
Theorem handleListCharges_correct {W} `{!Runtime W} `{!Pool W} (tables : W -> Tables) tz_text uuid_text
    `{!Scans tables} `{!PoolSpec tz_text uuid_text tables} r w :
  let p := rq_Query r "product" in let g := rq_Query r "gateway" in let s := rq_Query r "status" in
  let limit := limit_of (rq_Query r "limit") in
  let '(query, args) := charges_query p g s limit in
  let met := intents_met query args w in
  let listed := charges_listed p g s limit met in
  let out := run (handleListCharges true r) w in
  (1 <= limit <= 500)%Z /\ tables out.2 = tables w /\ met ≡ₚ (map_to_list (t_intents (tables w))).*2
  /\ match (pool_Query query args w).1 with
     | Err _ => out.1 = writeError 500 "internal_error" "query failed"
     | Ok rows => exists n, out.1 = writeJSON 200 (JArr (map (charge_json tz_text) (take n listed)))
                            /\ (rows_Err rows = None -> take n listed = listed)
     end.
Proof.
  cbv zeta. unfold handleListCharges, when_pool. pose proof (limit_of_bounds (rq_Query r "limit")) as Hb.
  set (limit := limit_of (rq_Query r "limit")) in *. rewrite charges_query_text. split; [exact Hb|].
  split; [unfold list_rows; run_simpl; apply (pool_frame tz_text uuid_text)|]. split; [apply intents_all|].
  apply (list_rows_spec tables tz_text uuid_text
           (fun i => omap (M:=list) (row_value (intent_row tz_text i)) charges_columns) _ (charge_json tz_text)).
  - apply charges_listing.
  - apply charges_eval.
  - apply charge_row_columns.
Qed.

(** A listing of the ledger shows the entries of the reference (all, when
    empty), and never a debit: the handler looks for the kind "commission",
    and the schema's name for it is "platform_commission". *)
Theorem handleListLedger_never_debits {W} `{!Runtime W} `{!Pool W} (tables : W -> Tables) tz_text uuid_text
    `{!Scans tables} `{!PoolSpec tz_text uuid_text tables} r w :
  schema_ok (tables w) ->
  let ref := rq_Query r "ref" in
  let limit := limit_of (rq_Query r "limit") in
  let out := run (handleListLedger true r) w in
  out.1 = writeError 500 "internal_error" "query failed"
  \/ exists n met, let shown := take n (ledger_listed ref limit met) in
       met ≡ₚ t_ledger (tables w) /\
       out.1 = writeJSON 200 (JArr (map (ledger_json tz_text uuid_text) shown))
       /\ forall e, e ∈ shown -> e ∈ t_ledger (tables w)
            /\ member "entry_type" (ledger_json tz_text uuid_text e) = Some (JStr "credit").
Proof.
  intros Hok. cbv zeta. unfold handleListLedger, when_pool.
  set (ref := rq_Query r "ref"). set (limit := limit_of (rq_Query r "limit")).
  rewrite ledger_query_text. cbv match.
  pose proof (list_rows_spec tables tz_text uuid_text
    (fun e => omap (M:=list) (row_value (entry_row tz_text uuid_text e)) (sl_columns (ledger_select (String.eqb ref ""))))
    ledger_row (ledger_json tz_text uuid_text) (ledger_select (String.eqb ref "")) _ _ w
    ltac:(apply ledger_listing) (ledger_eval tz_text uuid_text ref limit _ _) (fun e => ledger_row_columns tz_text uuid_text e ref)) as Hl.
  destruct (pool_Query (sel_text (ledger_select (String.eqb ref ""))) _ w).1 as [rows|e]; [|by left].
  destruct Hl as (n & Hresp & _). right. eexists n, _. split; [apply entries_all|]. split; [exact Hresp|]. intros e He.
  assert (Hin : e ∈ t_ledger (tables w)).
  { eapply elem_of_submseteq in He; [|apply sublist_submseteq, sublist_take].
    eapply elem_of_submseteq in He; [|apply sublist_submseteq, sublist_take].
    rewrite order_by_perm in He. apply list_elem_of_In, filter_In in He as [He _]. apply list_elem_of_In in He.
    by rewrite entries_all in He. }
  split; [done|]. pose proof (sc_ledger _ Hok) as Hk. eapply list.Forall_forall in Hk as [Hk _]; [|exact Hin].
  unfold ledger_json. cbn [member assoc String.eqb Ascii.eqb Bool.eqb].
  destruct (String.eqb_spec (le_Kind e) "commission") as [E|_]; [by rewrite E in Hk|done].
Qed.
