(* ===== verification/MemStore.v ===== *)
(** * internal/storage/postgres/store.go: the in-memory store

    [MemoryStore] as a record of maps and one operation per method.  Every
    method holds the mutex to its end, so it is one atomic step ([locked]).
    The maps Go ranges over are ranged over in the run time's order. *)
From S2P Require Import Prelude GoStrings Money Reference Ledger Gateway Router Charges.
From S2P Require Import Webhooks Worker Payouts Apps.

Record intentRow := { row_pending : ChargePending; row_status : string; row_product : string }.

(** [row.status = status] *)
Definition with_status (status : string) (row : intentRow) : intentRow :=
  {| row_pending := row_pending row; row_status := status; row_product := row_product row |}.
(** [ev.Status = status] *)
Definition event_status (status : string) (ev : GatewayEvent) : GatewayEvent :=
  {| ge_ID := ge_ID ev; ge_Ref := ge_Ref ev; ge_Gateway := ge_Gateway ev; ge_Status := status;
     ge_CreatedAt := ge_CreatedAt ev |}.

Record MemoryStore := mkMem {
  intents : gmap string intentRow;
  idemKeys : gmap string string;
  ledgers : gmap string (list LedgerEntry);
  batches : gmap UUID PayoutBatch;
  apps : gmap UUID App;
  appHash : gmap string UUID;
  appName : gmap string UUID;
  inbox : gset string;
  outbox : gmap UUID GatewayEvent }.

Definition NewMemoryStore : MemoryStore := mkMem ∅ ∅ ∅ ∅ ∅ ∅ ∅ ∅ ∅.

(** Assignments to one field. *)
Definition set_intents f (s : MemoryStore) :=
  mkMem (f (intents s)) (idemKeys s) (ledgers s) (batches s) (apps s) (appHash s) (appName s) (inbox s) (outbox s).
Definition set_idemKeys f (s : MemoryStore) :=
  mkMem (intents s) (f (idemKeys s)) (ledgers s) (batches s) (apps s) (appHash s) (appName s) (inbox s) (outbox s).
Definition set_ledgers f (s : MemoryStore) :=
  mkMem (intents s) (idemKeys s) (f (ledgers s)) (batches s) (apps s) (appHash s) (appName s) (inbox s) (outbox s).
Definition set_batches f (s : MemoryStore) :=
  mkMem (intents s) (idemKeys s) (ledgers s) (f (batches s)) (apps s) (appHash s) (appName s) (inbox s) (outbox s).
Definition set_apps f (s : MemoryStore) :=
  mkMem (intents s) (idemKeys s) (ledgers s) (batches s) (f (apps s)) (appHash s) (appName s) (inbox s) (outbox s).
Definition set_appHash f (s : MemoryStore) :=
  mkMem (intents s) (idemKeys s) (ledgers s) (batches s) (apps s) (f (appHash s)) (appName s) (inbox s) (outbox s).
Definition set_appName f (s : MemoryStore) :=
  mkMem (intents s) (idemKeys s) (ledgers s) (batches s) (apps s) (appHash s) (f (appName s)) (inbox s) (outbox s).
Definition set_inbox f (s : MemoryStore) :=
  mkMem (intents s) (idemKeys s) (ledgers s) (batches s) (apps s) (appHash s) (appName s) (f (inbox s)) (outbox s).
Definition set_outbox f (s : MemoryStore) :=
  mkMem (intents s) (idemKeys s) (ledgers s) (batches s) (apps s) (appHash s) (appName s) (inbox s) (f (outbox s)).

(** A world with one [MemoryStore] in it. *)
Class HasMem (W : Type) := {
  mem : W -> MemoryStore;
  set_mem : MemoryStore -> W -> W }.

Class HasMemLaws (W : Type) `{!HasMem W} : Prop := {
  mem_set s w : mem (set_mem s w) = s;
  set_mem_set s s' w : set_mem s (set_mem s' w) = set_mem s w }.

(** [append(s.ledgers[ref], entries...)] *)
Definition ledger_of (s : MemoryStore) (ref : string) : list LedgerEntry :=
  default [] (ledgers s !! ref).
Definition append_ledger (ref : string) (entries : list LedgerEntry) (s : MemoryStore) : MemoryStore :=
  set_ledgers <[ref := ledger_of s ref ++ entries]> s.

Section memstore.
Context {W : Type} `{!Runtime W} `{!HasMem W}.

Definition get : Prog W MemoryStore := call (fun w => (mem w, w)).
Definition put (s : MemoryStore) : Prog W unit := call (fun w => (tt, set_mem s w)).

(** *** Webhooks *)
Definition InsertWebhookInbox (aggregatorEventID gatewayName payload : string)
  : Prog W (result bool) := locked (
  s ← get;
  if bool_decide (aggregatorEventID ∈ inbox s) then mret (Ok false)
  else
    _ ← put (set_inbox (fun i => {[aggregatorEventID]} ∪ i) s);
    mret (Ok true)).

Definition DeleteWebhookInbox (aggregatorEventID : string) : Prog W (result unit) := locked (
  s ← get;
  _ ← put (set_inbox (fun i => i ∖ {[aggregatorEventID]}) s);
  mret (Ok tt)).

Definition FindIntent (ref : string) : Prog W (result Webhooks.Intent) := locked (
  s ← get;
  mret (match intents s !! ref with
        | None => Err ErrUnknownRef
        | Some row =>
            Ok {| in_Ref := cp_Ref (row_pending row); in_Gateway := cp_Gateway (row_pending row);
                  in_Status := row_status row; in_Product := row_product row |}
        end)).

Definition ApplyChargeOutcome (ref status : string) (entries : list LedgerEntry)
  : Prog W (result unit) := locked (
  s ← get;
  match intents s !! ref with
  | None => mret (Err Charges.ErrNotFound)
  | Some row =>
      _ ← put (append_ledger ref entries (set_intents <[ref := with_status status row]> s));
      mret (Ok tt)
  end).

(** *** Charges *)
Definition idem_key (product key : string) : string := product ^^ ":" ^^ key.

Definition CreateIntent (ref : string) (req : ChargeRequest) (gw : Gateway) (amount : Money)
    (authorizationURL : string) : Prog W (result unit) := locked (
  s ← get;
  let s := set_intents <[ref :=
             {| row_pending := {| cp_Ref := ref; cp_Gateway := gw; cp_ExternalRef := ref;
                                  cp_AuthorizationURL := authorizationURL |};
                row_status := "pending"; row_product := cr_Product req |}]> s in
  let s := if String.eqb (cr_IdempotencyKey req) "" then s
           else set_idemKeys <[idem_key (cr_Product req) (cr_IdempotencyKey req) := ref]> s in
  _ ← put s;
  mret (Ok tt)).

Definition FindByRef (ref : string) : Prog W (result ChargePending) := locked (
  s ← get;
  mret (match intents s !! ref with
        | None => Err Charges.ErrNotFound
        | Some row => Ok (row_pending row)
        end)).

Definition FindByIdempotencyKey (product key : string) : Prog W (result (string * bool)) := locked (
  s ← get;
  mret (Ok (match idemKeys s !! idem_key product key with
            | Some ref => (ref, true)
            | None => ("", false)
            end))).

Definition UpdateStatus (ref status : string) : Prog W (result unit) := locked (
  s ← get;
  match intents s !! ref with
  | None => mret (Err Charges.ErrNotFound)
  | Some row =>
      _ ← put (set_intents <[ref := with_status status row]> s);
      mret (Ok tt)
  end).

(** *** Payouts *)
Definition CreateBatchWithReservations (batch : PayoutBatch) : Prog W (result unit) := locked (
  s ← get;
  _ ← put (set_batches <[pb_ID batch := batch]> s);
  mret (Ok tt)).

Definition FindBatch (id : UUID) : Prog W (result PayoutBatch) := locked (
  s ← get;
  mret (match batches s !! id with None => Err Ledger.ErrNotFound | Some b => Ok b end)).

(** *** Ledger *)
Definition AppendEntry (e : LedgerEntry) : Prog W (result unit) := locked (
  s ← get;
  _ ← put (append_ledger (le_Ref e) [e] s);
  mret (Ok tt)).

Definition ListEntries (ref : string) : Prog W (result (list LedgerEntry)) := locked (
  s ← get;
  mret (Ok (ledger_of s ref))).

(** The loop over the entries, which share their array with the map. *)
Definition stamp_unsettled (t : Time) (e : LedgerEntry) : LedgerEntry :=
  match le_SettlementTime e with None => stamp t e | Some _ => e end.
Definition unsettled (e : LedgerEntry) : bool :=
  match le_SettlementTime e with None => true | Some _ => false end.

Definition StampSettlement (ref : string) (t : Time) : Prog W (result unit) := locked (
  s ← get;
  match ledgers s !! ref with
  | None | Some [] => mret (Err Ledger.ErrNotFound)
  | Some entries =>
      _ ← put (set_ledgers <[ref := map (stamp_unsettled t) entries]> s);
      mret (if existsb unsettled entries then Ok tt else Err Ledger.ErrNotFound)
  end).

Definition CreateReservation (_ : Reservation) : Prog W (result unit) := mret (Ok tt).
Definition SettleReservation (_ : UUID) (_ : Time) : Prog W (result unit) := mret (Ok tt).
Definition ReleaseReservation (_ : UUID) : Prog W (result unit) := mret (Ok tt).
End memstore.

Section memstore_apps.
Context {W : Type} `{!Runtime W} `{!HasMem W}.

(** *** Apps *)
Definition InsertApp (app : App) (hash : string) : Prog W (result unit) := locked (
  s ← get;
  match appName s !! app_Name app, appHash s !! hash with
  | Some _, _ => mret (Err Apps.ErrConflict)
  | None, Some _ => mret (Err Apps.ErrConflict)
  | None, None =>
      _ ← put (set_appName <[app_Name app := app_ID app]>
              (set_appHash <[hash := app_ID app]>
              (set_apps <[app_ID app := app]> s)));
      mret (Ok tt)
  end).

Definition GetApp (id : UUID) : Prog W (result App) := locked (
  s ← get;
  mret (match apps s !! id with None => Err Apps.ErrNotFound | Some a => Ok a end)).

(** [return s.apps[id], nil] answers the zero [App] for a missing id. *)
Definition GetAppByHash (hash : string) : Prog W (result App) := locked (
  s ← get;
  mret (match appHash s !! hash with
        | None => Err Apps.ErrNotFound
        | Some id => Ok (default App_zero (apps s !! id))
        end)).

Definition ListApps : Prog W (result (list App)) := locked (
  s ← get;
  out ← range_map (map_to_list (apps s)).*2;
  mret (Ok out)).

(** [for h, oid := range s.appHash { if oid == id { delete(...); break } }] *)
Definition old_hash (id : UUID) (entries : list (string * UUID)) : option string :=
  fst <$> List.find (fun e => bool_decide (e.2 = id)) entries.

Definition UpdateAppKeyHash (id : UUID) (newHash newPrefix : string) : Prog W (result unit) := locked (
  s ← get;
  match apps s !! id with
  | None => mret (Err Apps.ErrNotFound)
  | Some a =>
      entries ← range_map (map_to_list (appHash s));
      let s := match old_hash id entries with
               | Some h => set_appHash (delete h) s
               | None => s
               end in
      match appHash s !! newHash with
      | Some _ => _ ← put s; mret (Err Apps.ErrConflict)
      | None =>
          let a := {| app_ID := app_ID a; app_Name := app_Name a; app_Product := app_Product a;
                      app_Prefix := newPrefix; app_CreatedAt := app_CreatedAt a;
                      app_LastUsedAt := app_LastUsedAt a; app_RevokedAt := app_RevokedAt a;
                      app_CreatedBy := app_CreatedBy a |} in
          _ ← put (set_appHash <[newHash := id]> (set_apps <[id := a]> s));
          mret (Ok tt)
      end
  end).

Definition RevokeApp (id : UUID) : Prog W (result unit) := locked (
  s ← get;
  match apps s !! id with
  | None => mret (Err Apps.ErrNotFound)
  | Some a =>
      match app_RevokedAt a with
      | Some _ => mret (Ok tt)
      | None =>
          now ← time_Now;
          let a := {| app_ID := app_ID a; app_Name := app_Name a; app_Product := app_Product a;
                      app_Prefix := app_Prefix a; app_CreatedAt := app_CreatedAt a;
                      app_LastUsedAt := app_LastUsedAt a; app_RevokedAt := Some now;
                      app_CreatedBy := app_CreatedBy a |} in
          _ ← put (set_apps <[id := a]> s);
          mret (Ok tt)
      end
  end).
End memstore_apps.

Section memstore_outbox.
Context {W : Type} `{!Runtime W} `{!HasMem W}.

(** *** The worker's outbox *)
Definition is_pending (ev : GatewayEvent) : bool := String.eqb (ge_Status ev) "pending".

(** The inner loop of the exchange sort: [x] is [pending[i]], swapped with
    every later element created before it; answers the new [pending[i]] and
    the new tail. *)
Fixpoint sweep (x : GatewayEvent) (l : list GatewayEvent) : GatewayEvent * list GatewayEvent :=
  match l with
  | [] => (x, [])
  | y :: l' =>
      if (ge_CreatedAt y <? ge_CreatedAt x)%Z
      then let '(m, r) := sweep y l' in (m, x :: r)
      else let '(m, r) := sweep x l' in (m, y :: r)
  end.

(** The outer loop; [n] bounds its iterations by the length. *)
Fixpoint exchange_sort (n : nat) (l : list GatewayEvent) : list GatewayEvent :=
  match n, l with
  | S n', x :: l' => let '(m, r) := sweep x l' in m :: exchange_sort n' r
  | _, _ => l
  end.

Definition int32 (z : Z) : Z := ((z + 2 ^ 31) mod 2 ^ 32 - 2 ^ 31)%Z.

Definition ClaimPending (limit : Z) : Prog W (result (list GatewayEvent)) := locked (
  s ← get;
  events ← range_map (map_to_list (outbox s)).*2;
  let pending := List.filter is_pending events in
  let pending := exchange_sort (length pending) pending in
  mret (Ok (if (int32 (Z.of_nat (length pending)) >? limit)%Z
            then take (Z.to_nat limit) pending else pending))).

Definition default_amount : Money := New 1800 GHS.

Definition GetIntent (ref : string) : Prog W (result Worker.Intent) := locked (
  s ← get;
  mret (match intents s !! ref with
        | None => Err Charges.ErrNotFound
        | Some row =>
            let amt := match ledgers s !! ref with
                       | Some (e :: _) => le_Amount e
                       | _ => New 0 GHS
                       end in
            let amt := if IsZero amt then default_amount else amt in
            Ok {| wi_Ref := cp_Ref (row_pending row); wi_Product := row_product row;
                  wi_Amount := amt; wi_Gateway := cp_Gateway (row_pending row);
                  wi_Status := row_status row; wi_Wallet := "" |}
        end)).

(** [if row, ok := s.intents[ref]; ok { row.status = status; ... }] *)
Definition set_intent_status (ref status : string) (s : MemoryStore) : MemoryStore :=
  set_intents (alter (with_status status) ref) s.

Definition CompleteSucceeded (eventID : UUID) (ref : string) (res : VerifyResult)
    (intent : Worker.Intent) : Prog W (result unit) := locked (
  s ← get;
  match outbox s !! eventID with
  | None => mret (Err Charges.ErrNotFound)
  | Some ev =>
      let s := set_outbox <[eventID := event_status "succeeded" ev]> s in
      let s := set_intent_status ref "succeeded" s in
      let amt := vr_Amount res in
      let amt := if IsZero amt then wi_Amount intent else amt in
      let amt := if IsZero amt then default_amount else amt in
      id ← uuid_New;
      bookingTime ← time_Now;
      _ ← put (append_ledger ref
             [{| le_ID := id; le_Kind := KindCollection; le_Ref := ref; le_Amount := amt;
                 le_ValueTime := vr_VerifiedAt res; le_BookingTime := bookingTime;
                 le_SettlementTime := None; le_Product := wi_Product intent;
                 le_CreatedAt := Time_zero |}] s);
      mret (Ok tt)
  end).

Definition CompleteFailed (eventID : UUID) (ref : string) (_ : VerifyResult)
  : Prog W (result unit) := locked (
  s ← get;
  let s := set_outbox (alter (event_status "failed") eventID) s in
  _ ← put (set_intent_status ref "failed" s);
  mret (Ok tt)).

Definition MarkPendingRetry (_ : UUID) : Prog W (result unit) := mret (Ok tt).

Definition CountPending : Prog W (result Z) := locked (
  s ← get;
  mret (Ok (Z.of_nat (length (List.filter is_pending (map_to_list (outbox s)).*2))))).

Definition new_event (id : UUID) (ref : string) (gw : Gateway) (now : Time) : GatewayEvent :=
  {| ge_ID := id; ge_Ref := ref; ge_Gateway := gw; ge_Status := "pending"; ge_CreatedAt := now |}.

(** [if _, ok := s.intents[ref]; !ok { s.intents[ref] = intentRow{...} }] *)
Definition ensure_intent (ref : string) (gw : Gateway) (product : string) (s : MemoryStore)
  : MemoryStore :=
  match intents s !! ref with
  | Some _ => s
  | None =>
      set_intents <[ref :=
        {| row_pending := {| cp_Ref := ref; cp_Gateway := gw; cp_ExternalRef := ref;
                             cp_AuthorizationURL := "" |};
           row_status := "pending"; row_product := product |}]> s
  end.

Definition InsertOutboxEvent (ref : string) (gw : Gateway) : Prog W (result unit) := locked (
  s ← get;
  let s := ensure_intent ref gw "test" s in
  id ← uuid_New;
  now ← time_Now;
  _ ← put (set_outbox <[id := new_event id ref gw now]> s);
  mret (Ok tt)).

(** *** The two test helpers of the file *)
Definition InsertGatewayEventDirect (ev : GatewayEvent) : Prog W unit := locked (
  s ← get;
  put (set_outbox <[ge_ID ev := ev]> s)).

Definition InsertMemoryIntentAndOutbox (ref : string) (gw : Gateway) (product : string)
  : Prog W UUID := locked (
  s ← get;
  let s := ensure_intent ref gw product s in
  id ← uuid_New;
  now ← time_Now;
  _ ← put (set_outbox <[id := new_event id ref gw now]> s);
  mret id).
End memstore_outbox.

(** ** The store as the value of each seam *)
Section seams.
Context {W : Type} `{!Runtime W} `{!HasMem W}.

Definition mem_IntentStore : IntentStore W := {|
  Charges.CreateIntent := CreateIntent; Charges.FindByRef := FindByRef;
  Charges.FindByIdempotencyKey := FindByIdempotencyKey; Charges.UpdateStatus := UpdateStatus;
  Charges.as_outboxWriter := Some InsertOutboxEvent |}.

Definition mem_WebhookStore : Webhooks.Store W := {|
  Webhooks.InsertWebhookInbox := InsertWebhookInbox;
  Webhooks.DeleteWebhookInbox := DeleteWebhookInbox;
  Webhooks.FindIntent := FindIntent; Webhooks.ApplyChargeOutcome := ApplyChargeOutcome |}.

Definition mem_OutboxStore : OutboxStore W := {|
  Worker.ClaimPending := ClaimPending; Worker.GetIntent := GetIntent;
  Worker.CompleteSucceeded := CompleteSucceeded; Worker.CompleteFailed := CompleteFailed;
  Worker.MarkPendingRetry := MarkPendingRetry; Worker.CountPending := CountPending |}.

Definition mem_LedgerStore : Ledger.Store W := {|
  Ledger.AppendEntry := AppendEntry; Ledger.ListEntries := ListEntries;
  Ledger.StampSettlement := StampSettlement; Ledger.CreateReservation := CreateReservation;
  Ledger.SettleReservation := SettleReservation; Ledger.ReleaseReservation := ReleaseReservation |}.

Definition mem_ReservationStore : ReservationStore W := {|
  Payouts.CreateBatchWithReservations := CreateBatchWithReservations;
  Payouts.FindBatch := FindBatch |}.

Definition mem_AppStore : Apps.Store W := {|
  Apps.InsertApp := InsertApp; Apps.GetApp := GetApp; Apps.ListApps := ListApps;
  Apps.UpdateAppKeyHash := UpdateAppKeyHash; Apps.RevokeApp := RevokeApp;
  Apps.GetAppByHash := GetAppByHash |}.
End seams.
