(* ===== verification/MemStoreProofs.v ===== *)
(** * The in-memory store keeps its promises

    Frame lemmas, the webhook contract, the idempotency keys, the claim order
    of the outbox, settlement stamping and the app index. *)
From S2P Require Import Prelude GoStrings Money Reference Ledger Gateway Router RouterProofs.
From S2P Require Import Scenario Charges ChargesSpec Json Payload Webhooks WebhooksSpec.
From S2P Require Import Worker WorkerFrames WorkerSpec Payouts Apps MemStore.
From stdpp Require Import sorting.

(** A view that does not look at the store. *)
Class MemFrame {W V} `{!HasMem W} (view : W -> V) : Prop :=
  mem_frame s w : view (set_mem s w) = view w.

Lemma run_get {W} `{!HasMem W} (w : W) : run get w = (mem w, w).
Proof. reflexivity. Qed.
Lemma run_put {W} `{!HasMem W} s (w : W) : run (put s) w = (tt, set_mem s w).
Proof. reflexivity. Qed.

(** Run a store method to its end. *)
Ltac run_mem := repeat (rewrite ?run_locked, ?run_bind, ?run_ret, ?run_get, ?run_put; cbn beta iota delta [fst snd]).

Section mem_frames.
Context {W V : Type} `{!Runtime W} `{!HasMem W} (view : W -> V).
Context `{!MemFrame view} `{!RuntimeFrame view}.

Lemma Preserves_get : Preserves view get.
Proof. by apply Guar_call. Qed.
Lemma Preserves_put s : Preserves view (put s).
Proof. apply Guar_call. intros w. apply mem_frame. Qed.

#[local] Hint Resolve Preserves_get Preserves_put : guar.
#[local] Ltac frame := apply Guar_locked; [apply _|]; guar.

#[export] Instance mem_webhook_frame : WebhookStoreFrame mem_WebhookStore view.
Proof.
  split; simpl; intros;
    [unfold InsertWebhookInbox|unfold DeleteWebhookInbox|unfold FindIntent
    |unfold ApplyChargeOutcome]; frame.
Qed.

#[export] Instance mem_intent_frame : IntentStoreFrame mem_IntentStore view.
Proof.
  split; simpl; intros; simplify_eq/=;
    [unfold CreateIntent|unfold FindByIdempotencyKey|unfold InsertOutboxEvent]; frame.
Qed.

#[export] Instance mem_outbox_frame : OutboxStoreFrame mem_OutboxStore view.
Proof.
  split; simpl; intros; [unfold ClaimPending|unfold GetIntent|unfold CompleteSucceeded
    |unfold CompleteFailed|exact I|unfold CountPending]; frame.
Qed.
End mem_frames.

(** ** Webhooks *)
Definition row_intent (row : intentRow) : Webhooks.Intent :=
  {| in_Ref := cp_Ref (row_pending row); in_Gateway := cp_Gateway (row_pending row);
     in_Status := row_status row; in_Product := row_product row |}.

Definition books_of (s : MemoryStore) : Books :=
  mkBooks (inbox s) (row_intent <$> intents s) (ledgers s).

Section mem_webhooks.
Context {W : Type} `{!Runtime W} `{!HasMem W} `{!HasMemLaws W}.

#[export] Instance mem_webhook_spec :
  WebhookStoreSpec mem_WebhookStore (fun w : W => books_of (mem w)).
Proof.
  split; simpl.
  - intros id g p w. unfold InsertWebhookInbox. run_mem.
    destruct (bool_decide (id ∈ inbox (mem w))); run_mem; [done|]. simpl. by rewrite mem_set.
  - intros id w. unfold DeleteWebhookInbox. run_mem. by rewrite mem_set.
  - intros ref w. unfold FindIntent. run_mem. split; [done|].
    destruct (intents (mem w) !! ref) as [row|] eqn:E; [|done].
    unfold books_of. simpl. by rewrite lookup_fmap, E.
  - intros ref status es i w. unfold ApplyChargeOutcome. run_mem. simpl.
    rewrite lookup_fmap. destruct (intents (mem w) !! ref) as [row|]; [|done].
    intros [= <-] _. simpl. exists es. split; [by apply Forall_Forall2_diag, Forall_true, recorded_refl|].
    rewrite mem_set. unfold books_of, book_outcome. simpl. by rewrite fmap_insert.
Qed.
End mem_webhooks.

(** ** Charges *)
Definition row_view (row : intentRow) : IntentView :=
  {| iv_Gateway := cp_Gateway (row_pending row); iv_Status := row_status row;
     iv_Product := row_product row |}.

Definition register_of (s : MemoryStore) : Register string :=
  mkRegister (row_view <$> intents s) (idemKeys s).

Section mem_charges.
Context {W : Type} `{!Runtime W} `{!HasMem W} `{!HasMemLaws W} `{!RuntimeFrame mem}.

Lemma ensure_intent_register ref g product s :
  reg_keys (register_of (ensure_intent ref g product s)) = reg_keys (register_of s)
  /\ reg_intents (register_of s) ⊆ reg_intents (register_of (ensure_intent ref g product s))
  /\ (is_Some (reg_intents (register_of s) !! ref) -> ensure_intent ref g product s = s).
Proof.
  unfold ensure_intent. simpl. rewrite lookup_fmap.
  destruct (intents s !! ref) as [row|] eqn:E; [done|]. split; [done|]. split.
  - simpl. rewrite fmap_insert. apply insert_subseteq. by rewrite lookup_fmap, E.
  - intros [x Hx]. done.
Qed.

#[export] Instance mem_intent_spec :
  IntentStoreSpec mem_IntentStore idem_key (fun w : W => register_of (mem w)).
Proof.
  split; cbn beta.
  - intros ref req g amt url w. simpl. unfold CreateIntent. run_mem. simpl. rewrite mem_set.
    unfold register_of, register_intent.
    destruct (String.eqb (cr_IdempotencyKey req) ""); simpl; by rewrite fmap_insert.
  - intros product key w. simpl. unfold FindByIdempotencyKey. run_mem. split; [done|].
    by destruct (idemKeys (mem w) !! idem_key product key) eqn:E.
  - intros f ref g w [= <-]. cbn beta. unfold InsertOutboxEvent. run_mem.
    rewrite mem_set.
    match goal with |- context [set_outbox ?f ?s] =>
      change (register_of (set_outbox f s)) with (register_of s) end.
    destruct (ensure_intent_register ref g "test" (mem w)) as (Hk & Hi & He).
    split; [done|]. split; [done|]. intros Hs. by rewrite (He Hs).
Qed.

End mem_charges.

(** ** The concrete world *)
Abbreviation MemWorld := (World MemoryStore) (only parsing).

#[export] Instance World_mem : HasMem MemWorld := {
  mem := store;
  set_mem s w := mkWorld (clock w) (uuids w) (entropy w) (script w) (exchanges w) (results w) (locks w) s }.

#[export] Instance World_mem_laws : HasMemLaws MemWorld.
Proof. by split. Qed.

#[export] Instance World_mem_exchanges : MemFrame (@exchanges MemoryStore).
Proof. done. Qed.

Lemma frame_books {V} (f : MemoryStore -> V) {A} (p : Prog MemWorld A) :
  Preserves (@store MemoryStore) p -> Preserves (fun w => f (mem w)) p.
Proof. apply Guar_mono. simpl. congruence. Qed.

#[export] Instance scripted_frame_books :
  AdaptersFrame scripted_adapters (fun w : MemWorld => books_of (mem w)).
Proof.
  split; intros; apply frame_books;
    [eapply frame_initiate|eapply frame_verify|eapply frame_refund|eapply frame_payout]; done.
Qed.

#[export] Instance runtime_frame_books : RuntimeFrame (fun w : MemWorld => books_of (mem w)).
Proof. by split. Qed.

#[export] Instance World_rand_bytes : RandBytes (W:=MemWorld).
Proof.
  intros n w. simpl. split; [by rewrite length_fmap, length_seq|].
  apply Forall_fmap, Forall_true. intros i. unfold compose, byte. apply Z.mod_pos_bound. lia.
Qed.

#[export] Instance scripted_frame_register :
  AdaptersFrame scripted_adapters (fun w : MemWorld => register_of (mem w)).
Proof.
  split; intros; apply frame_books;
    [eapply frame_initiate|eapply frame_verify|eapply frame_refund|eapply frame_payout]; done.
Qed.

#[export] Instance runtime_frame_register : RuntimeFrame (fun w : MemWorld => register_of (mem w)).
Proof. by split. Qed.

#[export] Instance scripted_router_register :
  RouterFrame scripted_router (fun w : MemWorld => register_of (mem w)).
Proof.
  intros h [= <-]. split; intros; simplify_eq/=; by repeat split.
Qed.

(** ** The outbox: the exchange sort and the claim *)
Lemma sweep_spec x l :
  (sweep x l).1 :: (sweep x l).2 ≡ₚ x :: l
  /\ earlier (sweep x l).1 x /\ Forall (earlier (sweep x l).1) (sweep x l).2.
Proof.
  revert x. induction l as [|y l IH]; intros x; simpl.
  { split; [done|]. split; [unfold earlier; lia|constructor]. }
  destruct (Z.ltb_spec (ge_CreatedAt y) (ge_CreatedAt x)) as [Hlt|Hge].
  - destruct (IH y) as (Hp & Hy & Hr). destruct (sweep y l) as [m r]. simpl in *.
    split; [rewrite Permutation_swap; by constructor|].
    assert (earlier m x) by (unfold earlier in *; lia). auto.
  - destruct (IH x) as (Hp & Hx & Hr). destruct (sweep x l) as [m r]. simpl in *.
    split; [rewrite Permutation_swap, Hp; apply Permutation_swap|].
    split; [done|]. constructor; [unfold earlier in *; lia|done].
Qed.

Lemma exchange_sort_spec n l :
  length l <= n -> exchange_sort n l ≡ₚ l /\ StronglySorted earlier (exchange_sort n l).
Proof.
  revert l. induction n as [|n IH]; intros [|x l] Hl; simpl in *; [split; [done|apply SSorted_nil]|lia|split; [done|apply SSorted_nil]|].
  destruct (sweep_spec x l) as (Hp & Hx & Hr). destruct (sweep x l) as [m r]. simpl in *.
  apply Permutation_length in Hp as Hlen. simpl in Hlen.
  destruct (IH r) as [Hpr Hs]; [lia|]. split; [by rewrite Hpr|].
  constructor; [done|]. by rewrite Hpr.
Qed.

(** The pending rows of an outbox. *)
Definition pending_events (s : MemoryStore) : list GatewayEvent :=
  List.filter is_pending (map_to_list (outbox s)).*2.

Lemma elem_of_events s ev : ev ∈ (map_to_list (outbox s)).*2 <-> exists id, outbox s !! id = Some ev.
Proof.
  rewrite list_elem_of_fmap. split.
  - intros ([id ev'] & -> & Hin%elem_of_map_to_list). eauto.
  - intros [id Hid%elem_of_map_to_list]. by exists (id, ev).
Qed.

Lemma elem_of_pending s ev :
  ev ∈ pending_events s <-> (exists id, outbox s !! id = Some ev) /\ is_pending ev = true.
Proof.
  unfold pending_events. rewrite <- elem_of_events, !list_elem_of_In. apply filter_In.
Qed.

Section mem_outbox.
Context {W : Type} `{!Runtime W} `{!HasMem W} `{!RuntimeOrder (W:=W)} `{!RuntimeFrame mem}.

Lemma claim_spec (limit : Z) (w : W) :
  (0 <= limit)%Z -> (Z.of_nat (length (pending_events (mem w))) < 2 ^ 31)%Z ->
  mem (run (ClaimPending limit) w).2 = mem w
  /\ exists l, (run (ClaimPending limit) w).1 = Ok l
     /\ StronglySorted earlier l
     /\ length l = Nat.min (Z.to_nat limit) (length (pending_events (mem w)))
     /\ (forall ev, ev ∈ l -> (exists id, outbox (mem w) !! id = Some ev) /\ is_pending ev = true)
     /\ exists rest, l ++ rest ≡ₚ pending_events (mem w)
        /\ forall ev late, ev ∈ l -> late ∈ rest -> earlier ev late.
Proof.
  intros Hl Hn. unfold ClaimPending. run_mem.
  set (events := (run (range_map _) w).1).
  assert (Hev : List.filter is_pending events ≡ₚ pending_events (mem w)).
  { unfold events, pending_events. apply Permutation_list_filter, run_range_map. }
  split; [apply (Preserves_run mem), Preserves_range, _|].
  set (l := List.filter is_pending events) in *.
  destruct (exchange_sort_spec (length l) l) as [Hp Hs]; [done|].
  set (srt := exchange_sort (length l) l) in *. rewrite Hev in Hp.
  pose proof (Permutation_length Hp) as Hlen.
  assert (Hn' : (Z.of_nat (length srt) < 2 ^ 31)%Z) by (by rewrite Hlen).
  assert (H32 : int32 (Z.of_nat (length srt)) = Z.of_nat (length srt))
    by (unfold int32; rewrite Z.mod_small; lia).
  rewrite H32. set (n := Z.to_nat limit).
  assert (Hout : (if (Z.of_nat (length srt) >? limit)%Z then take n srt else srt) = take n srt).
  { rewrite Z.gtb_ltb. destruct (Z.ltb_spec limit (Z.of_nat (length srt))); [done|].
    symmetry. apply take_ge. lia. }
  rewrite Hout. exists (take n srt). split; [done|].
  split; [by apply StronglySorted_take|]. split; [by rewrite length_take, Hlen|]. split.
  - intros ev Hin. apply elem_of_pending. rewrite <- Hp, <- (take_drop n srt). set_solver.
  - exists (drop n srt). split; [by rewrite take_drop|].
    intros ev late Hin Hlate. by eapply sorted_take_drop.
Qed.

(** [ClaimPending] answers the [limit] oldest pending rows, all of them
    when there are fewer, in the order of their creation, and changes
    nothing; whatever order the map is ranged over in, no row left behind is
    older than a claimed one. *)
Theorem ClaimPending_correct (limit : Z) (w : W) :
  (0 <= limit)%Z -> (Z.of_nat (length (pending_events (mem w))) < 2 ^ 31)%Z ->
  mem (run (ClaimPending limit) w).2 = mem w
  /\ exists l, (run (ClaimPending limit) w).1 = Ok l
     /\ StronglySorted earlier l
     /\ length l = Nat.min (Z.to_nat limit) (length (pending_events (mem w)))
     /\ (forall ev, ev ∈ l -> (exists id, outbox (mem w) !! id = Some ev) /\ is_pending ev = true)
     /\ exists rest, l ++ rest ≡ₚ pending_events (mem w)
        /\ forall ev late, ev ∈ l -> late ∈ rest -> earlier ev late.
Proof. exact (claim_spec limit w). Qed.
End mem_outbox.

(** The amount [GetIntent] reports: the first ledger entry's, or the default. *)
Definition intent_amount (m : MemoryStore) (ref : string) : Money :=
  let amt := match ledgers m !! ref with Some (e :: _) => le_Amount e | _ => New 0 GHS end in
  if IsZero amt then default_amount else amt.
Definition outbox_of (m : MemoryStore) : Outbox :=
  mkOutbox (outbox m) (map_imap (fun ref _ => Some (intent_amount m ref)) (intents m)) (books_of m).

Lemma fmap_row_status status ref (m : gmap string intentRow) :
  row_intent <$> alter (with_status status) ref m = alter (intent_status status) ref (row_intent <$> m).
Proof. by apply fmap_alter. Qed.

Section mem_outbox_spec.
Context {W : Type} `{!Runtime W} `{!HasMem W} `{!HasMemLaws W} `{!RuntimeOrder (W:=W)} `{!RuntimeFrame mem}.

(** A settlement of a charge that is not there does not touch the books. *)
Lemma books_of_settled id ref i e ev m :
  row_intent <$> intents m !! ref = Some i ->
  books_of (append_ledger ref [e] (set_intent_status ref "succeeded" (set_outbox <[id := ev]> m)))
  = book_outcome ref "succeeded" i [e] (books_of m).
Proof.
  intros Hi. unfold books_of, book_outcome. simpl. f_equal. etrans; [apply fmap_row_status|].
  apply map_eq. intros r. destruct (decide (ref = r)) as [<-|Hne].
  - by rewrite lookup_alter_eq, lookup_insert_eq, lookup_fmap, Hi.
  - by rewrite lookup_alter_ne, lookup_insert_ne.
Qed.

#[export] Instance mem_outbox_spec :
  OutboxStoreSpec mem_OutboxStore (fun w : W => outbox_of (mem w)) (fun _ => True) False.
Proof.
  split; cbn [mem_OutboxStore Worker.ClaimPending Worker.GetIntent Worker.CompleteSucceeded Worker.CompleteFailed
    Worker.MarkPendingRetry Worker.CountPending]; cbv zeta.
  - intros limit w Hl. assert (Hm : mem (run (ClaimPending limit) w).2 = mem w).
    { apply (Preserves_run mem). unfold ClaimPending. apply Guar_locked; [apply _|].
      apply Guar_bind; [by apply Guar_call|]. intros. apply Guar_bind; [by apply Preserves_range|]. by intros. }
    split; [by rewrite Hm|]. destruct (run (ClaimPending limit) w) as [r w'] eqn:E.
    assert (Hr : exists l, r = Ok l) by (unfold ClaimPending in E; revert E; run_mem; intros [= <- _]; eauto).
    destruct Hr as [l ->]. intros Hn. destruct (claim_spec limit w Hl Hn) as (_ & l' & Hl' & Hs & Hlen & _ & rest & Hp & Hle).
    rewrite E in Hl'. injection Hl' as <-. split; [done|]. split; [done|]. by exists rest.
  - intros ref w. unfold GetIntent. run_mem. split; [done|]. simpl. rewrite lookup_fmap, map_lookup_imap.
    destruct (intents (mem w) !! ref) as [row|]; [done|]. by right.
  - intros id ref v i j w Hj. unfold CompleteSucceeded. run_mem. simpl in Hj. rewrite lookup_fmap in Hj.
    destruct (outbox (mem w) !! id) as [ev|] eqn:Eo; run_mem; [|split; [done|]; right; by left].
    split; [|done]. rewrite mem_set. eexists. split; [|split; [|by apply books_of_settled]].
    + split; [done|]. split; [done|]. split; [done|]. cbn [le_Amount le_ValueTime]. split; [|done].
      intros Hz. unfold due in *. by rewrite Hz.
    + simpl. apply map_eq. intros k. destruct (decide (id = k)) as [<-|Hne].
      * by rewrite lookup_insert_eq, lookup_alter_eq, Eo.
      * by rewrite lookup_insert_ne, lookup_alter_ne.
  - intros id ref v w. unfold CompleteFailed. run_mem. split; [|done]. rewrite mem_set. split; [done|].
    simpl. unfold books_of, books_declined. simpl. f_equal. apply fmap_row_status.
  - done.
  - intros w. unfold CountPending. by run_mem.
Qed.
End mem_outbox_spec.

(** ** Settlement *)
Section mem_ledger.
Context {W : Type} `{!Runtime W} `{!HasMem W} `{!HasMemLaws W} `{!RuntimeFrame mem}.

Lemma stamped_settled t l : existsb unsettled (map (stamp_unsettled t) l) = false.
Proof.
  induction l as [|e l IH]; [done|]. cbn [map existsb]. rewrite IH, orb_false_r.
  unfold unsettled, stamp_unsettled. destruct (le_SettlementTime e) eqn:Et; by rewrite ?Et.
Qed.

Lemma settled_unchanged t l : existsb unsettled l = false -> map (stamp_unsettled t) l = l.
Proof.
  induction l as [|e l IH]; [done|]. cbn [map existsb]. intros [He Hl]%orb_false_iff.
  rewrite IH by done. f_equal. unfold unsettled, stamp_unsettled in *.
  by destruct (le_SettlementTime e).
Qed.

(** [ConfirmSettlement] stamps every unsettled entry of the reference
    with one instant and leaves the settled ones, the order, the other
    references and the rest of the store alone; it fails with
    [ledger.ErrNotFound] exactly when there was nothing to stamp, and then
    changes nothing. *)
Theorem ConfirmSettlement_correct ref (w : W) :
  let es := ledger_of (mem w) ref in
  let r := (run (ConfirmSettlement mem_LedgerStore ref) w).1 in
  let s' := mem (run (ConfirmSettlement mem_LedgerStore ref) w).2 in
  if existsb unsettled es
  then r = Ok tt /\ exists t,
         s' = set_ledgers <[ref := map (stamp_unsettled t) es]> (mem w)
         /\ existsb unsettled (ledger_of s' ref) = false
  else r = Err Ledger.ErrNotFound /\ forall ref', ledger_of s' ref' = ledger_of (mem w) ref'.
Proof.
  cbv zeta. unfold ConfirmSettlement. cbn [Ledger.ListEntries Ledger.StampSettlement mem_LedgerStore].
  unfold ListEntries. run_mem. unfold ledger_of.
  destruct (ledgers (mem w) !! ref) as [[|e es]|] eqn:E; cbn [default from_option id]; [done| |done].
  run_mem. unfold StampSettlement. run_mem.
  set (w1 := (run time_Now w).2). set (now := (run time_Now w).1).
  assert (Hm : mem w1 = mem w) by apply (Preserves_run mem), Preserves_now, _.
  rewrite Hm, E. run_mem. rewrite mem_set.
  assert (Hlook : forall l, default [] (ledgers (set_ledgers <[ref := l]> (mem w)) !! ref) = l)
    by (intros l; simpl; by rewrite lookup_insert_eq).
  destruct (existsb unsettled (e :: es)) eqn:Ex.
  - split; [done|]. exists now. split; [done|]. by rewrite Hlook, stamped_settled.
  - split; [done|]. intros ref'. rewrite settled_unchanged by done. simpl.
    destruct (decide (ref = ref')) as [<-|Hne].
    + by rewrite lookup_insert_eq, E.
    + by rewrite lookup_insert_ne.
Qed.
End mem_ledger.
