(* ===== verification/Observability.v ===== *)
(** * internal/observability: the telemetry a process holds

    [Setup], [Shutdown] and [parseLevel]; what a context carries (context.go),
    wide events (wide_event.go), the gateways' counters (metrics.go).  The
    OTLP exporter, the tracer, slog's output and the Prometheus registry are
    parameters.  The other components' calls of these functions write output
    that nothing reads back and are left out of their models. *)
From S2P Require Import Prelude GoStrings Config Crypto.

Inductive Level := LevelDebug | LevelInfo | LevelWarn | LevelError.

Definition parseLevel (name : string) : Level :=
  let name := ToLower name in
  if String.eqb name "debug" then LevelDebug
  else if String.eqb name "warn" then LevelWarn
  else if String.eqb name "error" then LevelError
  else LevelInfo.

(** [otlptracehttp.New] at an endpoint, and the [Shutdown] of the trace
    provider built on what it answered. *)
Class Telemetry (W : Type) := {
  otlptracehttp_New : string -> M W (result N);
  tp_Shutdown : N -> M W (option error) }.

Section observability.
Context {W : Type}.

Record Logger := { lg_Level : Level; lg_Service : string }.
Record Provider := { pr_Logger : Logger; pr_shutdown : list (Prog W (option error)) }.

Definition NewLogger (cfg : ObservabilityConfig) : Logger :=
  {| lg_Level := parseLevel (LogLevel cfg); lg_Service := ServiceName cfg |}.

Context `{!Telemetry W}.

Definition Setup (cfg : ObservabilityConfig) : Prog W (result Provider) :=
  let logger := NewLogger cfg in
  if negb (TracingEnabled cfg) then mret (Ok {| pr_Logger := logger; pr_shutdown := [] |})
  else
    exporter ← call (otlptracehttp_New (OTLPEndpoint cfg));
    mret (match exporter with
          | Err err => Err (Errorf "observability: otlp exporter: " err)
          | Ok tp => Ok {| pr_Logger := logger; pr_shutdown := [call (tp_Shutdown tp)] |}
          end).

(** [for _, fn := range p.shutdown { errs = append(errs, fn(ctx)) }] *)
Fixpoint shutdown_all (fns : list (Prog W (option error))) : Prog W (list (option error)) :=
  match fns with
  | [] => mret []
  | fn :: rest => err ← fn; errs ← shutdown_all rest; mret (err :: errs)
  end.
Definition Shutdown (p : Provider) : Prog W (option error) :=
  errs ← shutdown_all (pr_shutdown p);
  mret (Errorf "observability: shutdown: " <$> Join_errors errs).
End observability.
Arguments Provider W : clear implicits.

(** ** context.go

    A context is the values put in it, innermost first; the two keys are
    values of an unexported type, so nobody else's. *)
Inductive contextKey := loggerKey | wideEventKey.
#[export] Instance contextKey_eq_dec : EqDecision contextKey.
Proof. solve_decision. Defined.

(** Pointers, [None] when nil: to a logger, to an event. *)
Inductive ctxValue := VLogger (logger : option Logger) | VEvent (event : option N).
Definition Context : Type := list (contextKey * ctxValue).
Definition WithValue (ctx : Context) (key : contextKey) (v : ctxValue) : Context := (key, v) :: ctx.
Definition Value (ctx : Context) (key : contextKey) : option ctxValue :=
  snd <$> (snd <$> list_find (fun kv => kv.1 = key) ctx).

Definition WithLogger (ctx : Context) (logger : option Logger) : Context := WithValue ctx loggerKey (VLogger logger).
(** [slog_Default] is [slog.Default()]. *)
Definition LoggerFromContext (slog_Default : option Logger) (ctx : Context) : option Logger :=
  match Value ctx loggerKey with Some (VLogger logger) => logger | _ => slog_Default end.

(** What OpenTelemetry does: the trace ID of the span a context is in, the
    tracer of a name, and a span's methods. *)
Class Tracing (W : Type) := {
  SpanContextFromContext : Context -> option string;
  Tracer_Start : string -> Context -> string -> M W (Context * N);
  span_End : N -> M W unit;
  span_RecordError : N -> error -> M W unit;
  span_SetStatus : N -> string -> M W unit;
  span_SetString : N -> string -> string -> M W unit;
  span_SetInt64 : N -> string -> Z -> M W unit }.

Definition tracerName : string := "github.com/Orctatech-Engineering-Team/orcta-pay".

Section tracing.
Context {W : Type} `{!Runtime W} `{!Tracing W}.

Definition TraceIDFromContext (ctx : Context) : string := default "" (SpanContextFromContext (W:=W) ctx).
Definition NewTraceID : Prog W string := b ← rand_Read 16; mret (hex_EncodeToString (of_bytes b)).

Definition StartSpan (ctx : Context) (name : string) : Prog W (Context * N) := call (Tracer_Start tracerName ctx name).
Definition End_ (span : N) : Prog W unit := call (span_End span).
Definition RecordError (span : N) (err : option error) : Prog W unit :=
  match err with
  | None => mret tt
  | Some err => _ ← call (span_RecordError span err); call (span_SetStatus span (Error err))
  end.
Definition SetString (span : N) (key value : string) : Prog W unit := call (span_SetString span key value).
Definition SetInt (span : N) (key : string) (value : Z) : Prog W unit := call (span_SetInt64 span key value).
End tracing.

(** ** wide_event.go

    Events are shared: every context derived from one that carries an event
    points at it.  [ev_fields] is the heap of their fields, [slog_Info] what a
    logger writes. *)
Class WideEvents (W A : Type) := {
  ev_fields : W -> gmap N (gmap string A);
  set_fields : gmap N (gmap string A) -> W -> W;
  slog_Info : option Logger -> string -> list (string * A) -> M W unit }.

Section wide_event.
Context {W A : Type} `{!Runtime W} `{!WideEvents W A} (slog_Default : option Logger).

(** One critical section on the event at [l]. *)
Definition update_event (l : N) (f : gmap string A -> gmap string A) : Prog W unit :=
  call (fun w => (tt, set_fields (alter f l (ev_fields w)) w)).

Definition NewWideEvent : Prog W N :=
  call (fun w => let l := fresh (dom (ev_fields w)) in (l, set_fields (<[l := ∅]> (ev_fields w)) w)).
Definition Set_ (e : option N) (key : string) (value : A) : Prog W unit :=
  match e with None => mret tt | Some l => update_event l <[key := value]> end.
Definition SetAll (e : option N) (fields : gmap string A) : Prog W unit :=
  match e with None => mret tt | Some l => update_event l (fun fs => fields ∪ fs) end.
(** The fields in the order the map yields them. *)
Definition attrs (l : N) : Prog W (list (string * A)) :=
  locked (fs ← call (fun w => (default ∅ (ev_fields w !! l), w)); range_map (map_to_list fs)).

Definition WithWideEvent (ctx : Context) (event : option N) : Context := WithValue ctx wideEventKey (VEvent event).
Definition WideEventFromContext (ctx : Context) : option N :=
  match Value ctx wideEventKey with Some (VEvent event) => event | _ => None end.
Definition SetEventField (ctx : Context) (key : string) (value : A) : Prog W unit :=
  Set_ (WideEventFromContext ctx) key value.
Definition FlushWideEvent (ctx : Context) (name : string) : Prog W unit :=
  match WideEventFromContext ctx with
  | None => mret tt
  | Some event => fields ← attrs event; call (slog_Info (LoggerFromContext slog_Default ctx) name fields)
  end.
End wide_event.

(** ** metrics.go: the counters of gateways *)
Class GatewayMetrics (W : Type) := {
  GatewayRequestsTotal_Add : string -> string -> Z -> M W unit;
  GatewayRequestDuration_Observe : string -> string -> float64 -> M W unit }.

Section metrics.
Context {W : Type} `{!GatewayMetrics W}.

(** Every series exists from the start. *)
Definition init : Prog W unit :=
  forM_ ["hubtel"; "paystack"; "moolre"] (fun gw =>
    forM_ ["success"; "failure"] (fun result => call (GatewayRequestsTotal_Add gw result 0))).
Definition result_label (success : bool) : string := if success then "success" else "failure".
Definition ObserveGatewayResult (gateway : string) (success : bool) : Prog W unit :=
  call (GatewayRequestsTotal_Add gateway (result_label success) 1).
Definition ObserveGatewayDuration (gateway : string) (success : bool) (seconds : float64) : Prog W unit :=
  call (GatewayRequestDuration_Observe gateway (result_label success) seconds).
End metrics.
