(* ===== verification/Build.v ===== *)
(** * internal/platform: the composition root

    [Build] opens telemetry, Postgres and Valkey, falls back to memory where
    the environment allows it, and wires the services; [Close] gives
    everything back.  The drivers ([pgxpool], [valkey-go]) are parameters, of
    which the proofs use what becomes of the connections they open
    ([InfraSpec]).  Log lines are left out. *)
From S2P Require Import Prelude GoStrings Reference Money Config Ledger Gateway Router Http.
From S2P Require Import HubtelAdapter PaystackAdapter MoolreAdapter Worker Valkey Charges Webhooks Payouts Apps.
From S2P Require Import Database PgStore MemStore Observability.

(** ** The drivers *)
Record ClientOption := { InitAddress : list string; Password : string; SelectDB : Z }.
Abbreviation Conn := N (only parsing).

Class Infra (W : Type) := {
  pgxpool_ParseConfig : string -> option error;
  pgxpool_NewWithConfig : string -> Z -> M W (result Conn);
  pool_Ping : Conn -> M W (option error);
  pool_Close : Conn -> M W unit;
  valkey_NewClient : ClientOption -> M W (result Conn);
  valkey_Ping : Conn -> M W (option error);
  valkey_Close : Conn -> M W unit }.

(** ** The application *)
Record App (W : Type) := {
  app_Config : Config;
  app_Charges : Charges.Service W;
  app_Payouts : Payouts.Service W;
  app_Ledger : Ledger.Store W;
  app_Apps : Apps.Service W;
  app_Webhooks : Webhooks.Service W;
  app_Router : ChargerRouter W;
  app_Pool : option Conn;
  app_Valkey : option Conn;
  app_Observ : Provider W;
  app_Locker : Locker W;
  app_MemStore : bool;
  app_PgStore : bool }.
Arguments app_Config {W} _.
Arguments app_Charges {W} _.
Arguments app_Payouts {W} _.
Arguments app_Ledger {W} _.
Arguments app_Apps {W} _.
Arguments app_Webhooks {W} _.
Arguments app_Router {W} _.
Arguments app_Pool {W} _.
Arguments app_Valkey {W} _.
Arguments app_Observ {W} _.
Arguments app_Locker {W} _.
Arguments app_MemStore {W} _.
Arguments app_PgStore {W} _.

Section adapters.
Context {W : Type} `{!Runtime W} `{!Transport W}.

(** [adapters] *)
Definition platform_adapters (p : PaymentsConfig) : gmap string (AggregatorClient W) :=
  let callbackBase := CallbackBaseURL p in
  let cb path := if negb (String.eqb callbackBase "") then callbackBase ^^ path else "" in
  <[GatewayHubtel := Hubtel_client
      (NewHubtelAdapter (Hubtel p) [WithHubtelCallbackURL (cb "/webhooks/hubtel")])]>
  (<[GatewayPaystack := Paystack_client
      (NewPaystackAdapter (Paystack p) [WithPaystackCallbackURL (cb "/webhooks/paystack")])]>
  (<[GatewayMoolre := Moolre_client (NewMoolreAdapter (Moolre p) callbackBase [])]> ∅)).
End adapters.

Section build.
Context {W : Type} `{!Runtime W} `{!Transport W} `{!Postgres W} `{!HasMem W} `{!ValkeyClient W}.
Context `{!Telemetry W} `{!Infra W}.
Implicit Types (cfg : Config).

(** [x != nil] *)
Definition opened (x : option Conn) : bool := match x with Some _ => true | None => false end.

Definition is_production cfg : bool := String.eqb (cfg_Environment cfg) EnvProduction.

Definition newPool (cfg : DatabaseConfig) : Prog W (result Conn) :=
  match pgxpool_ParseConfig (DB_URL cfg) with
  | Some err => mret (Err err)
  | None => call (pgxpool_NewWithConfig (DB_URL cfg) (MaxConns cfg))
  end.

Definition newValkey (cfg : ValkeyConfig) : Prog W (result Conn) :=
  if String.eqb (VK_Addr cfg) "" then mret (Err (Fresh "valkey addr empty"))
  else call (valkey_NewClient
    {| InitAddress := [VK_Addr cfg]; Password := VK_Password cfg; SelectDB := VK_DB cfg |}).

Definition close_pool (pool : option Conn) : Prog W unit :=
  match pool with Some c => call (pool_Close c) | None => mret tt end.
Definition close_valkey (client : option Conn) : Prog W unit :=
  match client with Some c => call (valkey_Close c) | None => mret tt end.

(** The pool, or none outside production. *)
Definition open_pool cfg : Prog W (result (option Conn)) :=
  pool ← newPool (Config.Database cfg);
  match pool with
  | Err err => mret (if is_production cfg then Err (Errorf "platform: postgres: " err) else Ok None)
  | Ok pool =>
      pingErr ← call (pool_Ping pool);
      match pingErr with
      | Some err =>
          _ ← call (pool_Close pool);
          mret (if is_production cfg then Err (Errorf "platform: postgres ping: " err) else Ok None)
      | None => mret (Ok (Some pool))
      end
  end.

(** The client, or none outside production; a failure closes the pool. *)
Definition open_valkey cfg (pool : option Conn) : Prog W (result (option Conn)) :=
  client ← newValkey (Config.Valkey cfg);
  match client with
  | Err err =>
      if is_production cfg then _ ← close_pool pool; mret (Err (Errorf "platform: valkey: " err))
      else mret (Ok None)
  | Ok client =>
      pingErr ← call (valkey_Ping client);
      match pingErr with
      | Some err =>
          _ ← call (valkey_Close client);
          if is_production cfg then _ ← close_pool pool; mret (Err (Errorf "platform: valkey ping: " err))
          else mret (Ok None)
      | None => mret (Ok (Some client))
      end
  end.

(** [payouts.WithLedger] takes the three methods the interface names. *)
Definition ledger_writer (s : Ledger.Store W) : LedgerWriter W := {|
  lw_AppendEntry := Ledger.AppendEntry s; lw_SettleReservation := Ledger.SettleReservation s;
  lw_ReleaseReservation := Ledger.ReleaseReservation s |}.

(** The stores and services over what was opened. *)
Definition wire cfg (observ : Provider W) (pool client : option Conn) : App W :=
  let connected := opened client in
  let pg := opened pool in
  let health := Valkey_health (NewHealthStore connected) in
  let locker := Valkey_locker connected in
  let ledgerStore := if pg then pg_LedgerStore else mem_LedgerStore in
  let router := NewChargerRouter (Payments cfg) (Some health) (platform_adapters (Payments cfg)) in
  {| app_Config := cfg;
     app_Charges := Charges.NewService (if pg then pg_IntentStore else mem_IntentStore) router [];
     app_Payouts := Payouts.NewService (if pg then pg_ReservationStore else mem_ReservationStore) router
                      [WithLedger (ledger_writer ledgerStore); WithLocker locker];
     app_Ledger := ledgerStore;
     app_Apps := Apps.NewService (if pg then pg_AppStore else mem_AppStore) (cfg_Environment cfg);
     app_Webhooks := Webhooks.NewService (if pg then pg_WebhookStore else mem_WebhookStore) router;
     app_Router := router; app_Pool := pool; app_Valkey := client; app_Observ := observ;
     app_Locker := locker; app_MemStore := negb pg; app_PgStore := pg |}.

(** [postgresstore.NewMemoryStore()]: the process's own, empty. *)
Definition new_memory : Prog W unit := put NewMemoryStore.

Definition Build cfg : Prog W (result (App W)) :=
  observ ← Setup (Observ cfg);
  match observ with
  | Err err => mret (Err (Errorf "platform: observability: " err))
  | Ok observ =>
      pool ← open_pool cfg;
      match pool with
      | Err err => mret (Err err)
      | Ok pool =>
          if negb (opened pool) && is_production cfg
          then mret (Err (Fresh "platform: postgres: unavailable in production"))
          else
            client ← open_valkey cfg pool;
            match client with
            | Err err => mret (Err err)
            | Ok client =>
                if negb (opened client) && is_production cfg
                then _ ← close_pool pool; mret (Err (Fresh "platform: valkey: unavailable in production"))
                else
                  _ ← (if opened pool then mret tt else new_memory);
                  mret (Ok (wire cfg observ pool client))
            end
      end
  end.

Definition Close (a : App W) : Prog W unit :=
  _ ← close_valkey (app_Valkey a);
  _ ← close_pool (app_Pool a);
  _ ← Shutdown (app_Observ a);
  mret tt.
End build.
