(* ===== verification/Commands.v ===== *)
(** * cmd/api and cmd/worker: the processes

    What [run] of either command does from its configuration to its return.
    What the [select] of each loop receives is an argument; the requests a
    server answers meanwhile are [HttpRouter]'s.  [main] only turns an error
    into an exit status. *)
From S2P Require Import Prelude GoStrings Config Ledger Gateway Router Worker Valkey Http.
From S2P Require Import Database PgStore MemStore Observability Build.

Section commands.
Context {W : Type} `{!Runtime W} `{!Transport W} `{!Postgres W} `{!HasMem W} `{!ValkeyClient W}.
Context `{!Telemetry W} `{!Infra W}.

(** ** cmd/worker *)
Definition buildWorker (a : App W) : option (Worker W) :=
  let new store ledger := Some (New_Worker store (Some ledger) (app_Router a) (Some (app_Locker a))) in
  if app_PgStore a then new pg_OutboxStore PgStore.ListEntries
  else if app_MemStore a then new mem_OutboxStore MemStore.ListEntries
  else None.

Definition drainOutbox (a : App W) : Prog W unit :=
  match buildWorker a with
  | None => mret tt
  | Some wk => _ ← DrainOutbox wk; mret tt
  end.
Definition reconcile (a : App W) : Prog W unit :=
  match buildWorker a with
  | None => mret tt
  | Some wk => _ ← Reconcile wk; mret tt
  end.

(** What the [select] receives. *)
Inductive WorkerEvent := Tick | Done.

(** [None] when the loop still waits. *)
Fixpoint worker_loop (a : App W) (events : list WorkerEvent) : Prog W (option (option error)) :=
  match events with
  | [] => mret None
  | Done :: _ => mret (Some None)
  | Tick :: events =>
      _ ← drainOutbox a;
      _ ← reconcile a;
      worker_loop a events
  end.

(** [defer app.Close()] once the loop returns. *)
Definition closing (a : App W) (p : Prog W (option (option error))) : Prog W (option (option error)) :=
  returned ← p;
  match returned with
  | None => mret None
  | Some res => _ ← Close a; mret (Some res)
  end.

Definition run_worker (load : result Config) (events : list WorkerEvent) : Prog W (option (option error)) :=
  match load with
  | Err err => mret (Some (Some err))
  | Ok cfg =>
      app ← Build cfg;
      match app with
      | Err err => mret (Some (Some err))
      | Ok app => closing app (worker_loop app events)
      end
  end.

(** ** cmd/api *)
Inductive ServerEvent := Signalled | ListenFailed (err : error).

(** [srv.Shutdown(ctxShutdown)] *)
Context (srv_Shutdown : Z -> M W (option error)).

Definition server_loop (cfg : Config) (events : list ServerEvent) : Prog W (option (option error)) :=
  match events with
  | [] => mret None
  | ListenFailed err :: _ => mret (Some (Some err))
  | Signalled :: _ =>
      err ← call (srv_Shutdown (ShutdownTimeout (HTTP cfg)));
      mret (Some err)
  end.

Definition run_api (load : result Config) (events : list ServerEvent) : Prog W (option (option error)) :=
  match load with
  | Err err => mret (Some (Some err))
  | Ok cfg =>
      app ← Build cfg;
      match app with
      | Err err => mret (Some (Some err))
      | Ok app => closing app (server_loop cfg events)
      end
  end.
End commands.
