(* ===== verification/HttpRouter.v ===== *)
(** * internal/api/router.go: the routes and what stands before them

    [NewRouter]: the middlewares in order, the table of routes with the [/v1]
    group mounted in it, the readiness probe, the dashboard's files.  How chi
    matches a path against its patterns and what its middlewares and the CORS
    one do is theirs, and a parameter ([Chi], [Middlewares]); so are the
    metrics registry, the embedded API description, the templates of
    [promhttp] and the bytes of files. *)
From S2P Require Import Prelude GoStrings Json JsonCodec Reference Config Ledger Gateway Router Valkey Http.
From S2P Require Import Charges Webhooks Payouts Apps Api ApiWebhooks RateLimit Handlers ListHandlers.
From S2P Require Import Database MemStore Observability Build.
From Stdlib Require Import Ascii Floats.SpecFloat.

(** ** chi *)

(** A request's path matched: the route, the URL parameters, and what is left
    of the path below a mount point; or a known path under another method. *)
Inductive Match := Found (route : nat) (params : list (string * string)) (rest : string) | NotAllowed (allow : list string) | NoRoute.

Class Chi := {
  (** methods ([None]: any, a mount) and patterns, then method and path *)
  chi_find : list (option string * string) -> string -> string -> Match;
  chi_NotAllowed : list string -> Response }.

Record CorsOptions := {
  AllowedOrigins : list string; AllowedMethods : list string; AllowedHeaders : list string;
  ExposedHeaders : list string; AllowCredentials : bool; MaxAge : Z }.

Class Middlewares (W : Type) := {
  mw_RequestID : Handler W -> Handler W;
  mw_RealIP : Handler W -> Handler W;
  mw_Recoverer : Handler W -> Handler W;
  mw_Heartbeat : string -> Handler W -> Handler W;
  mw_cors : CorsOptions -> Handler W -> Handler W }.

Section mux.
Context {W : Type} `{!Chi}.

(** A route's handler, given the rest of the path. *)
Record Route := { rt_Method : option string; rt_Pattern : string; rt_Handler : string -> Handler W }.

Definition Get (pattern : string) (h : Handler W) : Route :=
  {| rt_Method := Some "GET"; rt_Pattern := pattern; rt_Handler _ := h |}.
Definition Post (pattern : string) (h : Handler W) : Route :=
  {| rt_Method := Some "POST"; rt_Pattern := pattern; rt_Handler _ := h |}.
Definition Delete (pattern : string) (h : Handler W) : Route :=
  {| rt_Method := Some "DELETE"; rt_Pattern := pattern; rt_Handler _ := h |}.

Definition with_params (ps : list (string * string)) (r : Request) : Request := {|
  rq_Method := rq_Method r; rq_Path := rq_Path r; rq_RemoteAddr := rq_RemoteAddr r; rq_Header := rq_Header r;
  rq_Cookies := rq_Cookies r; rq_Query := rq_Query r;
  rq_Param k := default (rq_Param r k) (snd <$> (snd <$> list_find (fun kv => kv.1 = k) ps));
  rq_Body := rq_Body r |}.

(** A multiplexer: its routes at a path, or the handler for what matches none. *)
Definition mux (routes : list Route) (notFound : Handler W) (path : string) : Handler W := fun r =>
  match chi_find (map (fun rt => (rt_Method rt, rt_Pattern rt)) routes) (rq_Method r) path with
  | Found i ps rest =>
      match routes !! i with
      | Some rt => rt_Handler rt rest (with_params ps r)
      | None => notFound r
      end
  | NotAllowed allow => mret (chi_NotAllowed allow)
  | NoRoute => notFound r
  end.

(** [r.Route(pattern, ...)]: a multiplexer of its own behind its own
    middlewares, which run before it looks at the rest of the path. *)
Definition Mount (pattern : string) (use : Handler W -> Handler W) (routes : list Route) (notFound : Handler W) : Route :=
  {| rt_Method := None; rt_Pattern := pattern; rt_Handler rest := use (mux routes notFound rest) |}.
End mux.
Arguments Route W : clear implicits.

(** ** The dashboard's files *)

(** [path.Clean] of [/]-separated elements: the stack of what is kept. *)
Fixpoint clean_go (rooted : bool) (elements kept : list string) : list string :=
  match elements with
  | [] => rev kept
  | e :: rest =>
      if String.eqb e "" || String.eqb e "." then clean_go rooted rest kept
      else if String.eqb e ".." then
        match kept with
        | [] => clean_go rooted rest (if rooted then [] else [".."])
        | k :: kept' => clean_go rooted rest (if String.eqb k ".." then ".." :: kept else kept')
        end
      else clean_go rooted rest (e :: kept)
  end.
Definition Clean (p : string) : string :=
  if String.eqb p "" then "."
  else
    let rooted := HasPrefix p "/" in
    let cleaned := Join (clean_go rooted (Split p "/") []) "/" in
    if rooted then "/" ^^ cleaned else if String.eqb cleaned "" then "." else cleaned.
(** [filepath.Join] on a system that separates with [/]. *)
Definition path_Join (parts : list string) : string :=
  match List.filter (fun p => negb (String.eqb p "")) parts with
  | [] => ""
  | parts => Clean (Join parts "/")
  end.
Definition Base (p : string) : string :=
  if String.eqb p "" then "."
  else match TrimRight p "/" with
       | "" => "/"
       | p => List.last (Split p "/") ""
       end.

(** [os.Stat]: whether there is something, and whether it is a directory;
    [http.ServeFile] and [http.FileServer]. *)
Class Files (W : Type) := {
  os_Stat : string -> M W (option bool);
  http_ServeFile : string -> Handler W;
  http_FileServer : string -> Handler W }.

Section dashboard.
Context {W : Type} `{!Files W}.

Definition http_NotFound : Response := {|
  rs_Status := 404; rs_Header := [("Content-Type", "text/plain; charset=utf-8"); ("X-Content-Type-Options", "nosniff")];
  rs_Cookie := None; rs_Body := "404 page not found" ^^ chr "010" |}.

Definition dashboard_dirs : list string := ["/usr/local/share/dashboard"; "dashboard/dist"; "../dashboard/dist"].

(** The first candidate with an [index.html] that is a file. *)
Fixpoint find_dashboard (candidates : list string) : Prog W string :=
  match candidates with
  | [] => mret ""
  | c :: rest =>
      st ← call (os_Stat (path_Join [c; "index.html"]));
      match st with
      | Some false => mret c
      | _ => find_dashboard rest
      end
  end.

(** What [dashboardHandler] returns, for the directory found. *)
Definition serve_dashboard (dir : string) : Handler W := fun r =>
  if String.eqb dir "" then mret http_NotFound
  else if negb (String.eqb (rq_Method r) "GET") then mret http_NotFound
  else
    st ← call (os_Stat (path_Join [dir; rq_Path r]));
    match st with
    | Some false => http_FileServer dir r
    | _ =>
        if negb (has_char "." (Base (rq_Path r)))
        then http_ServeFile (path_Join [dir; "index.html"]) r
        else http_FileServer dir r
    end.
End dashboard.

(** ** The routes *)
Definition default_origins : list string :=
  ["http://localhost:5173"; "http://127.0.0.1:5173"; "http://localhost:3000"; "http://127.0.0.1:3000"].
Definition allowedOrigins (env : string -> string) : list string :=
  let v := env "CORS_ALLOWED_ORIGINS" in
  if negb (String.eqb v "") then
    match List.filter (fun s => negb (String.eqb s "")) (map TrimSpace (Split v ",")) with
    | [] => default_origins
    | out => out
    end
  else default_origins.

Definition docsHTML : string := Join [
  "<!doctype html>";
  dq "<html><head><meta charset='utf-8'><title>Orcta Pay API</title>";
  dq "<script id='api-reference' data-url='/openapi.yaml'></script>";
  dq "<script src='https://cdn.jsdelivr.net/npm/@scalar/api-reference'></script>";
  "</head><body></body></html>"] (chr "010").

Definition page (content_type body : string) : Response :=
  {| rs_Status := 200; rs_Header := [("Content-Type", content_type)]; rs_Cookie := None; rs_Body := body |}.

(** [WithLabelValues(method, route, status)] of the counter and the histogram,
    and the pattern that the routing has left in the request's context, as far
    as it went. *)
Class Metrics (W : Type) := {
  chi_RoutePattern : Request -> M W string;
  HTTPRequestsTotal_Inc : string -> string -> string -> M W unit;
  HTTPRequestDuration_Observe : string -> string -> string -> float64 -> M W unit;
  promhttp_Handler : Handler W }.

Section router.
Context {W : Type} `{!Runtime W} `{!Transport W} `{!Postgres W} `{!HasMem W} `{!ValkeyClient W} `{!Infra W}.
Context `{!Pool W} `{!Chi} `{!Middlewares W} `{!Files W} `{!Metrics W}.
Context (json_error : string -> string) (uuid_Parse : string -> option UUID).
Context (env : string -> string) (OpenAPISpec : string).
Context (ip_get key_get : M W Buckets) (ip_put key_put : Buckets -> M W unit).

Definition prometheusMiddleware (next : Handler W) : Handler W := fun r =>
  start ← time_Now;
  resp ← next r;
  now ← time_Now;
  let duration := Seconds (time_Sub now start) in
  route ← call (chi_RoutePattern r);
  let route := if String.eqb route "" then rq_Path r else route in
  let status := FormatInt (rs_Status resp) in
  _ ← call (HTTPRequestsTotal_Inc (rq_Method r) route status);
  _ ← call (HTTPRequestDuration_Observe (rq_Method r) route status duration);
  mret resp.

(** What a probe of a connection that may be nil finds. *)
Definition probe (x : option Conn) (ping : Conn -> M W (option error)) : Prog W string :=
  match x with
  | None => mret "unavailable"
  | Some c => err ← call (ping c); mret (match err with None => "ok" | Some _ => "unavailable" end)
  end.
Definition readinessHandler (a : App W) : Handler W := fun _ =>
  postgres ← probe (app_Pool a) pool_Ping;
  valkey ← probe (app_Valkey a) valkey_Ping;
  let ready := String.eqb postgres "ok" && String.eqb valkey "ok" in
  mret (writeJSON (if ready then 200 else 503)
    (JObj [("checks", JObj [("postgres", JStr postgres); ("valkey", JStr valkey)]);
           ("status", JStr (if ready then "ready" else "not_ready"))])).

(** The [/v1] group. *)
Definition v1_routes (a : App W) : list (Route W) :=
  let pool := opened (app_Pool a) in
  [Post "/charges" (handleCreateCharge json_error (app_Charges a));
   Get "/charges" (handleListCharges pool);
   Get "/charges/{ref}/status" (handleChargeStatus (app_Charges a));
   Post "/charges/{ref}/refund" (handleRefundCharge json_error (app_Router a));
   Post "/payouts" (handleCreatePayout json_error (app_Payouts a));
   Get "/payouts" (handleListPayouts pool);
   Get "/ledger" (handleListLedger pool);
   Get "/webhooks" (handleListWebhooks pool);
   Get "/gateways/health" (handleGatewayHealth (Payments (app_Config a))
                             (opened (app_Valkey a)) (Some (app_Router a)));
   Post "/apps" (handleCreateApp json_error (app_Apps a));
   Get "/apps" (handleListApps (app_Apps a));
   Get "/apps/{id}" (handleGetApp uuid_Parse (app_Apps a));
   Post "/apps/{id}/keys/rotate" (handleRotateAppKey uuid_Parse (app_Apps a));
   Delete "/apps/{id}" (handleRevokeApp uuid_Parse (app_Apps a));
   Get "/apps/{appID}" (handleGetApp uuid_Parse (app_Apps a));
   Post "/apps/{appID}/keys/rotate" (handleRotateAppKey uuid_Parse (app_Apps a));
   Delete "/apps/{appID}" (handleRevokeApp uuid_Parse (app_Apps a))].

Definition limiters (a : App W) : RateLimiter W * RateLimiter W :=
  buildRateLimiters (RateLimit (app_Config a)) (opened (app_Valkey a)) ip_get key_get ip_put key_put.

(** The whole table, over the routes of the [/v1] group. *)
Definition routes (a : App W) (v1s : list (Route W)) (notFound : Handler W) : list (Route W) :=
  let cfg := app_Config a in
  [Get "/healthz" (fun _ => mret (page "application/json" (dq "{'status':'ok'}")));
   Get "/readyz" (readinessHandler a);
   Get "/metrics" promhttp_Handler;
   Get "/openapi.yaml" (fun _ => mret (page "text/yaml" OpenAPISpec));
   Get "/docs" (fun _ => mret (page "text/html" docsHTML));
   Post "/auth/login" (handleLogin json_error cfg);
   Get "/auth/session" (handleSession cfg);
   Post "/auth/logout" (handleLogout cfg);
   Mount "/v1" (v1 cfg (limiters a).2) v1s notFound;
   Get "/webhooks/paystack" (handlePaystackCallback (Some (app_Router a)));
   Post "/webhooks/hubtel" (handleWebhook cfg (app_Webhooks a) "hubtel");
   Post "/webhooks/paystack" (handleWebhook cfg (app_Webhooks a) "paystack");
   Post "/webhooks/moolre" (handleWebhook cfg (app_Webhooks a) "moolre")].

Definition cors_options : CorsOptions := {|
  AllowedOrigins := allowedOrigins env; AllowedMethods := ["GET"; "POST"; "PUT"; "DELETE"; "OPTIONS"];
  AllowedHeaders := ["Accept"; "Authorization"; "Content-Type"; "X-Request-Id"];
  ExposedHeaders := ["X-Request-Id"]; AllowCredentials := true; MaxAge := 300 |}.

Definition serve (a : App W) (v1s : list (Route W)) (notFound : Handler W) : Handler W :=
  mw_RequestID (mw_RealIP (rateLimitIPMiddleware (limiters a).1 (mw_Recoverer (prometheusMiddleware
    (mw_Heartbeat "/healthz" (mw_cors cors_options
      (fun r => mux (routes a v1s notFound) notFound (rq_Path r) r))))))).

(** [NewRouter]: the dashboard is looked for once. *)
Definition NewRouter (a : App W) : Prog W (Handler W) :=
  dir ← find_dashboard dashboard_dirs;
  mret (serve a (v1_routes a) (serve_dashboard dir)).
End router.
