(* ===== verification/HandlersSpec.v ===== *)
(** * What the operator's endpoints promise

    The answer to a charge says what happened to it; a refund is one exchange
    or none; [Validate] and [Load] decide what a usable configuration is, and
    in production that closes [/v1] to anyone without the key. *)
From S2P Require Import Prelude GoStrings Json JsonCodec Money Reference Ledger Config Gateway Router RouterProofs.
From S2P Require Import Valkey Http Charges ChargesSpec Payouts Apps Api RateLimit Handlers.
From Stdlib Require Import Ascii Floats.SpecFloat.

Lemma decodeJSON_refused {A} json_error (d : decoder A) zero body refused :
  decodeJSON json_error d zero body = inl refused -> rs_Status refused = 400%Z.
Proof.
  unfold decodeJSON. destruct (parse_value _ _ _) as [[v rest]|]; [destruct (d v zero)|]; by intros [= <-].
Qed.

(** ** Charges *)
Section charge.
Context {W : Type} `{!Runtime W} `{!RandBytes (W:=W)} (s : Charges.Service W).
Context {K : Type} `{Countable K} (scope : string -> string -> K).
Context (reg : W -> Register K) (log : W -> list Exchange).
Context `{!IntentStoreSpec (Charges.svc_store s) scope reg} `{!IntentStoreFrame (Charges.svc_store s) log}.
Context `{!Traced (adapters (Charges.svc_router s)) log} `{!AdaptersFrame (adapters (Charges.svc_router s)) reg}.
Context `{!RouterFrame (Charges.svc_router s) log} `{!RouterFrame (Charges.svc_router s) reg}.
Context `{!RuntimeFrame reg} `{!RuntimeFrame log}.

(** What the answer tells of a charge offered to the gateways [att]: one took
    it and it is registered there; one took it and the store did not; nobody
    did and the last is not configured; nobody did. *)
Definition status_tells (req : ChargeRequest) (first : Gateway) (ulid : string) (gs : list Gateway) (b b' : Register K)
    (att : list (Gateway * result InitiateResponse)) (answer : Response) : Prop :=
  (exists failed g resp, att = failed ++ [(g, Ok resp)] /\ rs_Status answer = 201%Z /\
     answer = charge_answer (pending_at req g ulid (is_ExternalRef resp) (is_AuthorizationURL resp)) /\
     b' = register_intent scope (BuildReference (cr_Product req) g ulid) req g b) \/
  (exists failed g resp e, att = failed ++ [(g, Ok resp)] /\
     rs_Status answer = (if errors_Is e Charges.ErrInvalidRequest then 400 else 500)%Z /\
     answer = charge_answer (Err (Errorf "charges: create intent: " e)) /\ b' = b) \/
  (Forall refused att /\ att.*1 = attemptable (Charges.svc_router s) gs /\ last_unconfigured att = true /\
     rs_Status answer = 201%Z /\
     answer = charge_answer (pending_at req first ulid (BuildReference (cr_Product req) first ulid) "") /\
     (b' = register_intent scope (BuildReference (cr_Product req) first ulid) req first b \/
      create_refused s req first ulid /\ reg_intents b ⊆ reg_intents b' /\ reg_keys b' = reg_keys b)) \/
  (Forall refused att /\ att.*1 = attemptable (Charges.svc_router s) gs /\ last_unconfigured att = false /\
     rs_Status answer = 502%Z /\ b' = b).

Lemma charged_tells req first ulid gs b att r b' :
  charged s scope req first ulid gs b att r b' -> status_tells req first ulid gs b b' att (charge_answer r).
Proof.
  intros [failed g resp later Hf Hgs Hg|failed g resp later e w Hf Hgs Hc|att' b'' Hf Hgs Hu Hb|att' Hf Hgs Hu];
    unfold status_tells.
  - left. by eexists failed, g, resp.
  - right. left. exists failed, g, resp, e. split_and!; [done| |done..]. cbn [charge_answer].
    unfold Charges.ErrInvalidRequest. rewrite errors_Is_Errorf. by destruct (errors_Is e _).
  - right. right. left. done.
  - right. right. right. done.
Qed.

(** C26: The answer to a charge request tells what happened.  An undecodable
    or invalid request gets 400 and touches nothing.  A replay of a known key
    answers its reference and touches nothing.  Otherwise the request is
    offered to distinct gateways, and: 201 names a charge that a gateway took
    and that is registered there under the reference named; or, when all
    refused and the last is not configured, a charge at the first-ranked
    gateway that nobody took, which is registered there too unless the store
    refused it.  502 means that all refused and nothing was registered; any
    other answer, that a gateway took the charge and the store did not. *)
Theorem handleCreateCharge_correct json_error r w :
  Valid (primary (Charges.svc_router s)) = true ->
  let out := run (handleCreateCharge json_error s r) w in
  match decodeJSON json_error dec_charge_body charge_body_zero (rq_Body r) with
  | inl refused => out = (refused, w) /\ rs_Status refused = 400%Z
  | inr body =>
      let req := charge_request body in
      match validate req with
      | Some _ => rs_Status out.1 = 400%Z /\ out.2 = w
      | None =>
          (exists ref, reg_keys (reg w) !! scope (cr_Product req) (cr_IdempotencyKey req) = Some ref /\
             out.1 = charge_answer (replay_of ref) /\ reg out.2 = reg w /\ log out.2 = log w) \/
          (unseen s scope reg req w /\ exists first others gs ulid att,
             ranking s (first :: others) /\ ranking s gs /\ NoDup att.*1 /\
             log out.2 = log w ++ map (attempt_exchange
               (base_request req (BuildReference (cr_Product req) first ulid))) att /\
             status_tells req first ulid gs (reg w) (reg out.2) att out.1)
      end
  end.
Proof.
  intros Hp out. subst out. unfold handleCreateCharge.
  destruct (decodeJSON _ _ _ _) as [refused|body] eqn:Ed.
  { split; [done|]. by eapply decodeJSON_refused. }
  cbv zeta. set (req := charge_request body). rewrite run_bind, run_ret. cbn [fst snd].
  destruct (validate req) as [e|] eqn:Hv.
  { unfold Charges.Initiate. rewrite Hv. rewrite run_ret. cbn [fst snd charge_answer]. done. }
  destruct (Initiate_spec s scope reg log req w Hp Hv) as
    [(ref & _ & Hk & -> & Hr & Hl)|(Hns & first & others & gs & ulid & att & Hfst & Hgs & _ & Hnd & Hl & Hc)].
  - left. by exists ref.
  - right. split; [done|]. exists first, others, gs, ulid, att. split_and!; [done..|]. by apply charged_tells.
Qed.
End charge.

(** ** Refunds *)
Section refund.
Context {W : Type} `{!Runtime W} (rt : ChargerRouter W) (log : W -> list Exchange) `{!Traced (adapters rt) log}.

(** A refund is asked for when the body decodes to a positive amount and the
    reference names a known gateway. *)
Definition refund_asked json_error (r : Request) (body : refund_body) (p : string) (gw : Gateway) (ulid : string) : Prop :=
  decodeJSON json_error dec_refund_body {| rb_AmountPesewas := 0; rb_Currency := "" |} (rq_Body r) = inr body
  /\ (0 < rb_AmountPesewas body)%Z
  /\ rq_Param r "ref" = BuildReference p gw ulid /\ p <> "" /\ Valid gw = true /\ has_char dash ulid = false.

(** C30: A refund is asked of a gateway exactly when the body is well formed,
    the amount positive and the reference names a gateway with an adapter;
    then once, of that gateway, for the charge's reference and that amount (in
    cedis unless another currency is named), and 200 is answered exactly when
    the gateway accepted.  When the gateway has no adapter the answer is 404,
    in every other case 400, and nothing is touched. *)
Theorem handleRefundCharge_correct json_error r (w : W) :
  let out := run (handleRefundCharge json_error rt r) w in
  (forall body p gw ulid, refund_asked json_error r body p gw ulid ->
     match adapters rt !! gw with
     | Some _ => exists res,
         log out.2 = log w ++ [XRefund gw (rq_Param r "ref") (New (rb_AmountPesewas body)
           (if String.eqb (rb_Currency body) "" then GHS else rb_Currency body)) res] /\
         out.1 = refund_answer (rq_Param r "ref") res /\ (rs_Status out.1 = 200%Z <-> res = Ok tt)
     | None => out.2 = w /\ rs_Status out.1 = 404%Z
     end)
  /\ ((forall body p gw ulid, ~ refund_asked json_error r body p gw ulid) -> out.2 = w /\ rs_Status out.1 = 400%Z).
Proof.
  intros out. subst out. unfold handleRefundCharge. set (ref := rq_Param r "ref"). split.
  - intros body p gw ulid (Hd & Hpos & Href & Hp & Hv & Hu). fold ref in Href.
    assert (Hparse : ParseReference ref = Some (p, gw, ulid)) by (rewrite Href; by apply Parse_Build).
    assert (Hne : String.eqb ref "" = false) by (destruct (String.eqb_spec ref "") as [E|]; [by rewrite E in Hparse|done]).
    rewrite Hne, Hd. destruct (Z.leb_spec (rb_AmountPesewas body) 0); [lia|]. rewrite Hparse. unfold Adapter.
    destruct (adapters rt !! gw) as [a|] eqn:Ea; [|done]. rewrite run_bind, run_ret. cbn [fst snd].
    pose proof (traced_refund (log:=log) gw a ref (refund_amount body) w Ea) as Hl. eexists.
    split_and!; [|reflexivity|].
    + rewrite Hl. unfold refund_amount. by destruct (String.eqb (rb_Currency body) "").
    + destruct (run (Refund a ref (refund_amount body)) w).1 as [[]|e]; cbn [refund_answer]; [done|].
      destruct (errors_Is e ErrNotSupported); (split; [discriminate | discriminate]).
  - intros Hnone. destruct (String.eqb ref ""); [done|].
    destruct (decodeJSON _ _ _ _) as [refused|body] eqn:Ed; [split; [done|by eapply decodeJSON_refused]|].
    destruct (Z.leb_spec (rb_AmountPesewas body) 0); [done|].
    destruct (ParseReference ref) as [[[p gw] ulid]|] eqn:Ep; [|done].
    apply Parse_sound in Ep as (Href & Hp & Hv & Hu). by destruct (Hnone body p gw ulid).
Qed.
End refund.

(** ** Configuration *)

(** A configuration the processes can run with. *)
Record usable (c : Config) : Prop := {
  us_env : cfg_Environment c = EnvDevelopment \/ cfg_Environment c = EnvStaging \/ cfg_Environment c = EnvProduction;
  us_database : DB_URL (Database c) <> "" /\ (1 <= MaxConns (Database c))%Z;
  us_port : (1 <= Port (HTTP c) <= 65535)%Z;
  us_valkey : VK_Addr (Config.Valkey c) <> "";
  us_log : validLogLevel (LogLevel (Observ c)) = true;
  us_ratio : SFltb (TraceSampleRatio (Observ c)) f64_0 = false /\ SFltb f64_1 (TraceSampleRatio (Observ c)) = false;
  us_primary : Primary (Payments c) = "" \/ Primary (Payments c) = "hubtel" \/ Primary (Payments c) = "paystack" \/
               Primary (Payments c) = "moolre";
  us_timeout : (0 < PendingTimeout (Payments c))%Z;
  us_production : cfg_Environment c = EnvProduction ->
    APIKey (Auth c) <> "" /\ EqualFold (LogLevel (Observ c)) "debug" = false }.

Lemma Join_errors_None errs : Join_errors errs = None <-> Forall (fun e => e = None) errs.
Proof.
  unfold Join_errors. induction errs as [|[e|] errs IH]; simpl.
  - split; [constructor | done].
  - split; [done|]. intros H. by inversion H.
  - rewrite IH. split; [by constructor|]. intros H. by inversion H.
Qed.

Lemma check_passes (b : bool) (e : error) : (if b then Some e else None) = None <-> b = false.
Proof. by destruct b. Qed.

Lemma Validate_usable c : Validate c = None <-> usable c.
Proof.
  unfold Validate. rewrite Join_errors_None. unfold validate_checks. cbv zeta.
  rewrite !List.Forall_cons_iff, !check_passes.
  rewrite !negb_false_iff, !orb_false_iff, !andb_false_iff, !String.eqb_neq, !Z.ltb_ge, !Z.leb_gt, !negb_false_iff.
  rewrite Z.gtb_ltb, Z.ltb_ge. unfold Environment_Valid. rewrite !orb_true_iff, !String.eqb_eq.
 
  split.
  - intros (He & Hd & [? ?] & Hm & Hv & Hl & Hr & Hdbg & Hpr & Ht & Hk & _).
    constructor; [tauto|done|lia|done|done|done|tauto|lia|]. intros Hp. tauto.
  - intros [He [? ?] Hp Hv Hl [? ?] Hpr Ht Hprod].
    destruct (String.eqb_spec (cfg_Environment c) EnvProduction) as [E|E];
      [specialize (Hprod E)|]; split_and!; first [done | lia | tauto | constructor].
Qed.

(** C35: [Validate] accepts exactly the usable configurations: a known
    environment, a database and a Valkey address, a port and a pool size in
    range, a known log level, a sampling ratio that is not outside 0 to 1, a
    known primary gateway or none, a positive pending timeout, and in
    production an API key and no debug logging. *)
Theorem Validate_correct c : Validate c = None <-> usable c.
Proof. apply Validate_usable. Qed.

Lemma Load_validated env cfg :
  Load env = Ok cfg ->
  Validate cfg = None /\ cfg_Environment cfg = stringVar env "ORCTA_ENV" EnvDevelopment.
Proof.
  unfold Load. repeat match goal with |- context [let '(_, _) := ?x in _] => destruct x as [? ?] end.
  match goal with |- context [Join_errors ?errs] => destruct (Join_errors errs) eqn:E end; [done|].
  intros [= <-]. split; [|done]. apply Join_errors_None in E. rewrite !List.Forall_cons_iff in E. by repeat destruct E as [? E].
Qed.

(** Without a session or the key the [/v1] chain stops at [bearerAuth],
    whatever is behind it. *)
Lemma v1_refuses {W} `{!Runtime W} `{!ValkeyClient W} cfg keyLimiter r (w : W) :
  APIKey (Auth cfg) <> "" ->
  ~ signed_cookie (APIKey (Auth cfg)) r (rt_now w).1 ->
  TrimPrefix (rq_Header r "Authorization") "Bearer " <> APIKey (Auth cfg) ->
  exists w', (w' = w \/ w' = (rt_now w).2) /\
    forall endpoint, run (v1 cfg keyLimiter endpoint r) w
    = (writeError 401 "unauthorized" "invalid or missing credentials", w').
Proof.
  intros Hkey Hcookie Htoken. unfold v1, bearerAuth. rewrite (proj2 (String.eqb_neq _ _) Hkey).
  destruct (run_hasValidSession r _ w Hkey) as (b & w' & E & Hw & Hb). exists w'. split; [done|].
  intros endpoint. rewrite run_bind, E. cbn [fst snd]. destruct b; [by destruct Hcookie; apply Hb|].
  destruct (validSecret (TrimPrefix (rq_Header r "Authorization") "Bearer ") (APIKey (Auth cfg))) eqn:Ev; [|done].
  by apply validSecret_iff in Ev.
Qed.

Section production.
Context {W : Type} `{!Runtime W} `{!ValkeyClient W} (json_error : string -> string).
Context (env : string -> string).

(** C27: In a deployment started with [ORCTA_ENV=production], whatever else
    the environment holds, a request to any [/v1] endpoint without a current
    session or the configured key gets a 401 and reaches neither the limiter
    nor the endpoint. *)
Theorem production_requires_key cfg keyLimiter (endpoint : Handler W) r (w : W) :
  Load env = Ok cfg -> env "ORCTA_ENV" = EnvProduction ->
  ~ signed_cookie (APIKey (Auth cfg)) r (rt_now w).1 ->
  TrimPrefix (rq_Header r "Authorization") "Bearer " <> APIKey (Auth cfg) ->
  exists w', (w' = w \/ w' = (rt_now w).2) /\
    run (v1 cfg keyLimiter endpoint r) w
    = (writeError 401 "unauthorized" "invalid or missing credentials", w').
Proof.
  intros [Hval Henv]%Load_validated Hprod Hcookie Htoken.
  assert (Hkey : APIKey (Auth cfg) <> "").
  { apply Validate_usable in Hval as [_ _ _ _ _ _ _ _ Hp]. apply Hp. rewrite Henv. unfold stringVar.
    by rewrite Hprod. }
  destruct (v1_refuses cfg keyLimiter r w Hkey Hcookie Htoken) as (w' & Hw & Hr). by exists w'.
Qed.
End production.
