(* ===== verification/HttpSpec.v ===== *)
(** * What stands before the endpoints

    Nothing but the key or a session opens [/v1]: the answer to any other
    request does not depend on the endpoints behind it.  The readiness probe
    says what it pinged.  The limit per address binds nobody who may choose
    the address. *)
From S2P Require Import Prelude GoStrings Json JsonCodec Reference Config Ledger Gateway Router Valkey LocksSpec Http.
From S2P Require Import Charges Webhooks Payouts Apps Api ApiWebhooks RateLimit Handlers HandlersSpec ListHandlers.
From S2P Require Import Database MemStore Observability Build HttpRouter.
From Stdlib Require Import Ascii.

(** ** Middlewares *)
Definition same_credentials (r r' : Request) : Prop :=
  rq_Header r' "Authorization" = rq_Header r "Authorization" /\ rq_Cookies r' = rq_Cookies r.

(** A middleware only calls the handler, with the caller's credentials. *)
Class Transparent {W} (m : Handler W -> Handler W) : Prop :=
  transparent h1 h2 r :
    (forall r' w, same_credentials r r' -> run (h1 r') w = run (h2 r') w) -> forall w, run (m h1 r) w = run (m h2 r) w.

(** What their documentation says of the five third-party ones. *)
Class MiddlewaresSpec (W : Type) `{!Middlewares W} : Prop := {
  requestID_transparent :: Transparent mw_RequestID;
  realIP_transparent :: Transparent mw_RealIP;
  recoverer_transparent :: Transparent mw_Recoverer;
  heartbeat_transparent path :: Transparent (mw_Heartbeat path);
  cors_transparent options :: Transparent (mw_cors options) }.

Lemma same_credentials_refl r : same_credentials r r.
Proof. done. Qed.
Lemma same_credentials_trans r1 r2 r3 : same_credentials r1 r2 -> same_credentials r2 r3 -> same_credentials r1 r3.
Proof. unfold same_credentials. intros [] []. split; congruence. Qed.

Lemma signed_cookie_same secret r r' now :
  same_credentials r r' -> signed_cookie secret r' now -> signed_cookie secret r now.
Proof. intros [_ Hc]. unfold signed_cookie, cookie_value. by rewrite Hc. Qed.

Section middlewares.
Context {W : Type} `{!Runtime W} `{!ValkeyClient W}.

#[export] Instance rateLimitIP_transparent l : Transparent (rateLimitIPMiddleware (W:=W) l).
Proof.
  intros h1 h2 r Hh w. unfold rateLimitIPMiddleware.
  assert (Hr : forall w, run (h1 r) w = run (h2 r) w) by (intros; apply Hh, same_credentials_refl).
  destruct (negb (rl_enabled l)); [apply Hr|]. destruct (existsb _ _); [apply Hr|].
  destruct (negb (isRateLimitedPath r)); [apply Hr|]. rewrite !run_bind. destruct (negb _); [done | apply Hr].
Qed.

#[export] Instance prometheus_transparent `{!Metrics W} : Transparent (prometheusMiddleware (W:=W)).
Proof.
  intros h1 h2 r Hh w. unfold prometheusMiddleware.
  assert (Hr : forall w, run (h1 r) w = run (h2 r) w) by (intros; apply Hh, same_credentials_refl).
  rewrite !run_bind. by rewrite Hr.
Qed.
End middlewares.

(** ** The router *)
Section router.
Context {W : Type} `{!Runtime W} `{!Transport W} `{!Postgres W} `{!HasMem W} `{!ValkeyClient W} `{!Infra W}.
Context `{!Pool W} `{!Chi} `{!Middlewares W} `{!MiddlewaresSpec W} `{!Files W} `{!Metrics W}.
Context (json_error : string -> string) (env : string -> string) (OpenAPISpec : string).
Context (ip_get key_get : M W (gmap string rateBucket)) (ip_put key_put : gmap string rateBucket -> M W unit).

Abbreviation served := (serve json_error env OpenAPISpec ip_get key_get ip_put key_put) (only parsing).
Abbreviation table := (routes json_error OpenAPISpec ip_get key_get ip_put key_put) (only parsing).

(** No cookie of a request is ever a session, and its token is not the key. *)
Definition stranger (cfg : Config) (r : Request) : Prop :=
  (forall now, ~ signed_cookie (APIKey (Auth cfg)) r now)
  /\ TrimPrefix (rq_Header r "Authorization") "Bearer " <> APIKey (Auth cfg).

Lemma stranger_same cfg r r' : same_credentials r r' -> stranger cfg r -> stranger cfg r'.
Proof.
  intros Hs [Hc Ht]. split; [intros now Hn; by eapply Hc, signed_cookie_same|]. by rewrite (proj1 Hs).
Qed.

(** Two [/v1] chains cannot be told apart by a stranger. *)
Lemma v1_same cfg l (h1 h2 : Handler W) r w :
  APIKey (Auth cfg) <> "" -> stranger cfg r -> run (v1 cfg l h1 r) w = run (v1 cfg l h2 r) w.
Proof.
  intros Hk [Hc Ht]. destruct (v1_refuses cfg l r w Hk (Hc _) Ht) as (w' & _ & Hr). by rewrite !Hr.
Qed.

(** Two tables that differ in their mounted routes match alike. *)
Lemma table_keys a rs1 rs2 nf :
  map (fun rt => (rt_Method rt, rt_Pattern rt)) (table a rs1 nf)
  = map (fun rt => (rt_Method rt, rt_Pattern rt)) (table a rs2 nf).
Proof. reflexivity. Qed.

Lemma table_route a rs1 rs2 nf i :
  table a rs1 nf !! i = table a rs2 nf !! i
  \/ exists use, table a rs1 nf !! i = Some (Mount "/v1" use rs1 nf) /\ table a rs2 nf !! i = Some (Mount "/v1" use rs2 nf)
     /\ use = v1 (app_Config a) (limiters ip_get key_get ip_put key_put a).2.
Proof. do 13 (destruct i as [|i]; [try (by left); right; by eexists|]). by left. Qed.

Lemma mux_same a rs1 rs2 nf path r w :
  APIKey (Auth (app_Config a)) <> "" -> stranger (app_Config a) r ->
  run (mux (table a rs1 nf) nf path r) w = run (mux (table a rs2 nf) nf path r) w.
Proof.
  intros Hk Hs. unfold mux. rewrite (table_keys a rs1 rs2 nf).
  destruct (chi_find _ _ _) as [i ps rest|allow|]; [|done..].
  destruct (table_route a rs1 rs2 nf i) as [-> | (use & -> & -> & ->)]; [done|].
  cbn [rt_Handler Mount]. apply v1_same; [done|]. by eapply stranger_same.
Qed.

(** What strangers cannot tell apart they cannot behind a middleware. *)
Definition alike cfg (h1 h2 : Handler W) : Prop :=
  forall r, stranger cfg r -> forall w, run (h1 r) w = run (h2 r) w.
Lemma alike_behind cfg m h1 h2 : Transparent m -> alike cfg h1 h2 -> alike cfg (m h1) (m h2).
Proof.
  intros Hm Hh r Hs w. apply Hm. intros r' w' Hr. apply Hh. by eapply stranger_same.
Qed.

(** C16: Nobody without the key or a session learns anything of [/v1]: whatever
    path and method such a request has, however it is spelled and whatever it
    carries besides, the whole router treats it the same, in its answer and in
    every effect, whichever endpoints stand behind [/v1]. *)
Theorem strangers_see_no_endpoint a rs1 rs2 notFound r w :
  APIKey (Auth (app_Config a)) <> "" -> stranger (app_Config a) r ->
  run (served a rs1 notFound r) w = run (served a rs2 notFound r) w.
Proof.
  intros Hk Hs. unfold serve. revert r Hs w. change (alike (app_Config a) (served a rs1 notFound) (served a rs2 notFound)).
  unfold serve. do 7 (apply alike_behind; [apply _|]). intros r Hs w. by apply mux_same.
Qed.

(** The probe is green exactly when both connections are there and answer. *)
Lemma readiness_iff (a : App W) r w :
  rs_Status (run (readinessHandler a r) w).1 = 200%Z <->
  exists p v, app_Pool a = Some p /\ app_Valkey a = Some v
    /\ (pool_Ping p w).1 = None /\ (valkey_Ping v (pool_Ping p w).2).1 = None.
Proof.
  unfold readinessHandler, probe. rewrite !run_bind.
  destruct (app_Pool a) as [p|]; [|split; [by destruct (app_Valkey a)|by intros (? & ? & [=] & _)]].
  rewrite run_bind, run_call, run_ret. cbn [fst snd].
  destruct (app_Valkey a) as [v|].
  - rewrite run_bind, run_call. rewrite !run_ret. cbn [fst snd].
    destruct (pool_Ping p w).1 eqn:Ep, (valkey_Ping v (pool_Ping p w).2).1 eqn:Ev; cbn; (split; [|]);
      try discriminate; try (intros (? & ? & [= <-] & [= <-] & ? & ?); congruence).
    intros _. by exists p, v.
  - rewrite !run_ret. cbn [fst snd]. split; [|by intros (? & ? & _ & [=] & _)]. by destruct (pool_Ping p w).1.
Qed.
End router.

(** ** The limit per address *)
Section spoofing.
Context {W : Type} `{!Runtime W} `{!ValkeyClient W} `{!Middlewares W}.
Context (l : RateLimiter W) (buckets : W -> gmap string rateBucket) (time : W -> Time) (db : W -> DB).

Definition with_RemoteAddr (addr : string) (r : Request) : Request := {|
  rq_Method := rq_Method r; rq_Path := rq_Path r; rq_RemoteAddr := addr; rq_Header := rq_Header r;
  rq_Cookies := rq_Cookies r; rq_Query := rq_Query r; rq_Param := rq_Param r; rq_Body := rq_Body r |}.

(** chi's [RealIP] takes the address from the True-Client-IP header when that
    holds one. *)
Class RealIPSpec (valid_ip : string -> bool) : Prop :=
  realIP_takes (h : Handler W) r w : valid_ip (rq_Header r "True-Client-IP") = true ->
    run (mw_RealIP h r) w = run (h (with_RemoteAddr (rq_Header r "True-Client-IP") r)) w.

(** The limiter's own map, read and written, apart from the server's data. *)
Class OwnMap : Prop := {
  own_get w : rl_get l w = (buckets w, w);
  own_put bs w : buckets (rl_put l bs w).2 = bs /\ db (rl_put l bs w).2 = db w;
  own_now w : buckets (rt_now w).2 = buckets w /\ db (rt_now w).2 = db w;
  own_Do c w : buckets (vk_Do c w).2 = buckets w }.
Context `{!OwnMap} `{!ValkeyCalls time db}.

(** No request has been counted under this key, in memory or in Valkey. *)
Definition uncounted (w : W) (key : string) : Prop := buckets w !! key = None /\ db w !! key = None.
(** Only the counter of [key] may differ. *)
Definition apart (key : string) (w w' : W) : Prop :=
  forall k, k <> key -> buckets w' !! k = buckets w !! k /\ db w' !! k = db w !! k.
#[local] Instance apart_preorder key : PreOrder (apart key).
Proof.
  split; [by intros w k|]. intros w1 w2 w3 H12 H23 k Hk. destruct (H12 k Hk) as [<- <-]. by apply H23.
Qed.

Lemma allowMemory_uncounted key w :
  buckets w !! key = None ->
  (run (allowMemory l key) w).1 = (true, 0%Z) /\ apart key w (run (allowMemory l key) w).2.
Proof.
  intros Hk. unfold allowMemory, time_Now. run_simpl. rewrite own_get. cbn [fst snd].
  destruct (own_now w) as [Hb Hd]. rewrite Hb. unfold take_token. rewrite Hk. cbn [fst snd]. split; [done|].
  intros k Hne. match goal with |- context [rl_put l ?bs ?w1] => destruct (own_put bs w1) as [-> ->] end.
  by rewrite lookup_insert_ne, Hd by done.
Qed.

(** A command on the key. *)
Lemma Do_apart key c w : touches c = [key] \/ touches c = [] -> apart key w (run (Do c) w).2.
Proof.
  intros Hc k Hne. unfold Do. rewrite run_call, own_Do. split; [done|].
  destruct (vk_calls (db:=db) c w) as (t & _ & Heff).
  assert (He : (exec t c (db w)).2 !! k = db w !! k).
  { apply exec_elsewhere. destruct Hc as [-> | ->]; [by rewrite list_elem_of_singleton|apply not_elem_of_nil]. }
  by destruct Heff as [[_ ->]|(e & _ & _ & [->| ->])].
Qed.

Lemma allowValkey_uncounted key w :
  (1 <= rl_limit l)%Z -> uncounted w key ->
  let out := run (allowValkey l key) w in
  (out.1 = Ok (true, 0%Z) \/ is_Ok out.1 = false /\ buckets out.2 = buckets w) /\ apart key w out.2.
Proof.
  intros Hl [Hb Hd]. cbv zeta. unfold allowValkey. run_simpl.
  destruct (Do_calls time db (INCR key) w) as (t & _ & Hc). pose proof (Do_apart key (INCR key) w (or_introl eq_refl)) as Ha.
  assert (Hbk : buckets (run (Do (INCR key)) w).2 = buckets w) by (unfold Do; rewrite run_call; apply own_Do).
  destruct (run (Do (INCR key)) w) as [reply w1]; cbn [fst snd] in *.
  assert (Hlive : live t (db w) key = None) by (unfold live; by rewrite Hd).
  destruct Hc as [[-> _]|(e & -> & _)]; [|cbn [reply_error]; run_simpl; auto].
  cbn [exec]. rewrite Hlive. cbn [fst reply_error AsInt64]. run_simpl. change (1 =? 1)%Z with true. cbv match.
  destruct (Z.gtb_spec 1 (rl_limit l)); [lia|]. run_simpl. split; [by left|]. etrans; [exact Ha|].
  apply Do_apart. by left.
Qed.

(** The first request counted under an address is let through. *)
Lemma Allow_uncounted addr w :
  uncounted w (rl_prefix l ^^ ":" ^^ addr) ->
  (run (Allow l addr) w).1 = (true, 0%Z) /\ apart (rl_prefix l ^^ ":" ^^ addr) w (run (Allow l addr) w).2.
Proof.
  intros Hu. unfold Allow. destruct (negb (rl_enabled l) || (rl_limit l <=? 0)%Z) eqn:E; [by split|].
  apply orb_false_iff in E as [_ Hl%Z.leb_gt]. set (key := rl_prefix l ^^ ":" ^^ addr) in *.
  destruct (rl_client l); [|apply allowMemory_uncounted, Hu]. run_simpl.
  destruct (allowValkey_uncounted key w ltac:(lia) Hu) as [Hans Ha].
  destruct (run (allowValkey l key) w) as [[ok|e] w1]; cbn [fst snd is_Ok] in *; run_simpl.
  - destruct Hans as [[= ->]|[[=] _]]. by split.
  - destruct Hans as [[=]|[_ Hb]]. destruct (allowMemory_uncounted key w1) as [H1 H2]; [rewrite Hb; apply Hu|].
    split; [exact H1|]. by etrans.
Qed.

(** An address, with no port. *)
Definition bare (addr : string) : Prop := addr <> "" /\ SplitHostPort addr = None.
Definition claiming (addr : string) (r : Request) : Request := {|
  rq_Method := rq_Method r; rq_Path := rq_Path r; rq_RemoteAddr := rq_RemoteAddr r;
  rq_Header k := if String.eqb k "True-Client-IP" then addr else rq_Header r k;
  rq_Cookies := rq_Cookies r; rq_Query := rq_Query r; rq_Param := rq_Param r; rq_Body := rq_Body r |}.

(** The requests of one sender who names a new address in each, in order: the
    answers, and what stood behind the limiter was asked and when. *)
Fixpoint answered (next : Handler W) (r : Request) (claims : list string) (w : W) : list Response :=
  match claims with
  | [] => []
  | addr :: rest =>
      let out := run (mw_RealIP (rateLimitIPMiddleware l next) (claiming addr r)) w in
      out.1 :: answered next r rest out.2
  end.

(** Who is let through next is the handler's business. *)
Lemma spoofed_passes (valid_ip : string -> bool) `{!RealIPSpec valid_ip} next r addr w :
  valid_ip addr = true -> bare addr -> uncounted w (rl_prefix l ^^ ":" ^^ addr) ->
  exists w', run (mw_RealIP (rateLimitIPMiddleware l next) (claiming addr r)) w
             = run (next (with_RemoteAddr addr (claiming addr r))) w'
    /\ apart (rl_prefix l ^^ ":" ^^ addr) w w'.
Proof.
  intros Hv [Hne Hport] Hu. rewrite (realIP_takes (valid_ip:=valid_ip)) by done.
  change (rq_Header (claiming addr r) "True-Client-IP") with addr. set (r' := with_RemoteAddr addr (claiming addr r)).
  apply String.eqb_neq in Hne. unfold rateLimitIPMiddleware.
  destruct (negb (rl_enabled l)); [by exists w|]. destruct (existsb _ _); [by exists w|].
  destruct (negb (isRateLimitedPath r')); [by exists w|].
  assert (Hip : clientIP r' = addr).
  { unfold clientIP, r'. cbn [rq_RemoteAddr with_RemoteAddr]. rewrite Hne, Hport. by destruct (has_char ":" addr). }
  rewrite Hip, Hne, run_bind. destruct (Allow_uncounted addr w Hu) as [-> Ha]. by eexists.
Qed.

(** C39: The limit per address binds nobody who may name the address.  Whoever
    claims in every request's True-Client-IP header, which [RealIP] believes,
    another address that was not counted yet is never stopped by it: each
    request is handed on to what stands behind the limiter, and the answer is
    that handler's, however many they are and however fast they come, and
    whether the requests are counted in Valkey, whose replies may get lost,
    or in memory. *)
Theorem ip_limit_evaded (valid_ip : string -> bool) `{!RealIPSpec valid_ip} next r claims w :
  NoDup claims ->
  (forall addr, addr ∈ claims -> valid_ip addr = true /\ bare addr /\ uncounted w (rl_prefix l ^^ ":" ^^ addr)) ->
  (forall r w addr, uncounted w (rl_prefix l ^^ ":" ^^ addr) -> uncounted (run (next r) w).2 (rl_prefix l ^^ ":" ^^ addr)) ->
  Forall2 (fun addr resp => exists w', resp = (run (next (with_RemoteAddr addr (claiming addr r))) w').1)
    claims (answered next r claims w).
Proof.
  intros Hnd Hall Hframe. revert w Hall. induction Hnd as [|addr claims Hin Hnd IH]; intros w Hall; [constructor|].
  destruct (Hall addr) as (Hv & Hbare & Hk); [left|]. cbn [answered].
  destruct (spoofed_passes valid_ip next r addr w Hv Hbare Hk) as (w1 & -> & Hw).
  constructor; [by exists w1|]. apply IH. intros addr' Hin'. destruct (Hall addr') as (Hv' & Hbare' & Hb & Hd); [by right|].
  split; [done|]. split; [done|]. apply Hframe. destruct (Hw (rl_prefix l ^^ ":" ^^ addr')) as [H1 H2].
  - intros E%append_inj_l%append_inj_l. by subst addr'.
  - split; congruence.
Qed.
End spoofing.
