(* ===== verification/AppsProofs.v ===== *)
(** * The application index

    The invariant of the maps [apps], [appHash] and [appName] of the in-memory
    store, its preservation, and what key creation and rotation guarantee. *)
From S2P Require Import Prelude GoStrings Crypto Money Reference Config Apps MemStore MemStoreProofs.
From S2P Require Import Scenario.

(** Hashes and names point to registered applications, one hash and exactly
    one name per application. *)
Record app_index (m : MemoryStore) : Prop := {
  ai_hash h id : appHash m !! h = Some id -> is_Some (apps m !! id);
  ai_unique h h' id : appHash m !! h = Some id -> appHash m !! h' = Some id -> h = h';
  ai_name n id : appName m !! n = Some id <-> exists a, apps m !! id = Some a /\ app_Name a = n }.

Lemma app_index_empty : app_index NewMemoryStore.
Proof.
  split; simpl; [done..|]. intros n id. split; [done|]. by intros (a & Ha & _).
Qed.

(** [m] with the key of [id] moved to [hash]: the effect of a rotation. *)
Definition rekey (id : UUID) (hash : string) (m : gmap string UUID) : gmap string UUID :=
  <[hash := id]> (filter (fun kv => kv.2 <> id) m).

Section apps.
Context {W : Type} `{!Runtime W} `{!HasMem W} `{!HasMemLaws W}.
Context `{!RuntimeOrder (W:=W)} `{!RuntimeFrame mem}.

Lemma old_hash_spec id (m : gmap string UUID) entries :
  entries ≡ₚ map_to_list m ->
  match old_hash id entries with
  | Some h => m !! h = Some id
  | None => forall h, m !! h <> Some id
  end.
Proof.
  intros Hp. unfold old_hash.
  destruct (List.find (fun e : string * UUID => bool_decide (e.2 = id)) entries) as [[h id']|] eqn:E; simpl.
  - apply List.find_some in E as [Hin Hid%bool_decide_eq_true]. simpl in Hid. subst id'.
    apply list_elem_of_In in Hin. rewrite Hp in Hin. by apply elem_of_map_to_list.
  - intros h Hh. apply elem_of_map_to_list in Hh. rewrite <- Hp, list_elem_of_In in Hh.
    apply (List.find_none _ _ E) in Hh. simpl in Hh. by apply bool_decide_eq_false in Hh.
Qed.

(** Dropping the one hash of [id] drops every hash of [id]. *)
Lemma drop_old_hash id m entries :
  app_index m -> entries ≡ₚ map_to_list (appHash m) ->
  match old_hash id entries with Some h => delete h (appHash m) | None => appHash m end
  = filter (fun kv => kv.2 <> id) (appHash m).
Proof.
  intros Hi Hp. pose proof (old_hash_spec id (appHash m) entries Hp) as Ho.
  apply map_eq. intros k. apply option_eq. intros v. rewrite map_lookup_filter_Some.
  destruct (old_hash id entries) as [h|].
  - rewrite lookup_delete_Some. split; intros [H1 H2]; split; try done.
    + simpl. intros ->. by apply H1, (ai_unique m Hi h k id).
    + simpl in H2. intros <-. congruence.
  - split; [|by intros [? _]]. intros Hv. split; [done|]. simpl. intros ->. by apply (Ho k).
Qed.

Definition update_spec (id : UUID) (newHash newPrefix : string) (m : MemoryStore)
  : result unit * MemoryStore :=
  match apps m !! id with
  | None => (Err Apps.ErrNotFound, m)
  | Some a =>
      let m1 := set_appHash (filter (fun kv => kv.2 <> id)) m in
      match appHash m1 !! newHash with
      | Some _ => (Err Apps.ErrConflict, m1)
      | None =>
          (Ok tt, set_appHash <[newHash := id]> (set_apps <[id :=
             {| app_ID := app_ID a; app_Name := app_Name a; app_Product := app_Product a;
                app_Prefix := newPrefix; app_CreatedAt := app_CreatedAt a;
                app_LastUsedAt := app_LastUsedAt a; app_RevokedAt := app_RevokedAt a;
                app_CreatedBy := app_CreatedBy a |}]> m1))
      end
  end.

(** Whatever the order of the range. *)
Lemma run_UpdateAppKeyHash id newHash newPrefix w :
  app_index (mem w) ->
  (run (UpdateAppKeyHash id newHash newPrefix) w).1 = (update_spec id newHash newPrefix (mem w)).1
  /\ mem (run (UpdateAppKeyHash id newHash newPrefix) w).2 = (update_spec id newHash newPrefix (mem w)).2.
Proof.
  intros Hi. unfold UpdateAppKeyHash, update_spec. run_mem.
  destruct (apps (mem w) !! id) as [a|]; [|done]. run_mem.
  pose proof (run_range_map (map_to_list (appHash (mem w))) w) as Hp.
  assert (Hs : forall h0, match h0 with Some h => set_appHash (delete h) (mem w) | None => mem w end
               = set_appHash (fun m => match h0 with Some h => delete h m | None => m end) (mem w))
    by (by intros [h|]; destruct (mem w)).
  rewrite Hs.
  assert (He : set_appHash (fun m => match old_hash id (run (range_map (map_to_list (appHash (mem w)))) w).1
                              with Some h => delete h m | None => m end) (mem w)
               = set_appHash (filter (fun kv => kv.2 <> id)) (mem w)).
  { unfold set_appHash. f_equal. by apply drop_old_hash. }
  rewrite He. destruct (appHash (set_appHash _ _) !! newHash) eqn:E; run_mem; by rewrite mem_set.
Qed.

Lemma update_spec_index id newHash newPrefix m :
  app_index m -> app_index (update_spec id newHash newPrefix m).2.
Proof.
  intros Hi. unfold update_spec. destruct (apps m !! id) as [a|] eqn:Ha; [|done].
  assert (Hflt : forall h v, appHash (set_appHash (filter (fun kv => kv.2 <> id)) m) !! h = Some v ->
                  appHash m !! h = Some v /\ v <> id)
    by (intros h v Hv; by apply map_lookup_filter_Some in Hv).
  destruct (appHash (set_appHash _ m) !! newHash) eqn:Hn; simpl.
  - split; [| |exact (ai_name m Hi)].
    + intros h v [Hv _]%Hflt. by apply (ai_hash m Hi h).
    + intros h h' v [Hv _]%Hflt [Hv' _]%Hflt. by apply (ai_unique m Hi _ _ v).
  - split; simpl.
    + intros h v. rewrite lookup_insert_Some. intros [[<- <-]|[_ [Hv Hne]%Hflt]].
      * rewrite lookup_insert_eq. eauto.
      * rewrite lookup_insert_ne by done. by apply (ai_hash m Hi h).
    + intros h h' v. rewrite !lookup_insert_Some.
      intros [[<- <-]|[_ [Hv Hne]%Hflt]] [[<- ?]|[_ [Hv' Hne']%Hflt]]; try done.
      by apply (ai_unique m Hi _ _ v).
    + intros n v. rewrite (ai_name m Hi). destruct (decide (id = v)) as [<-|Hne].
      * rewrite lookup_insert_eq, Ha. split; intros (b & [= <-] & <-); eauto.
      * by rewrite lookup_insert_ne.
Qed.

Lemma mem_generateKey env w : mem (run (generateKey env) w).2 = mem w.
Proof.
  apply (Preserves_run mem). unfold generateKey. guar.
Qed.
End apps.

Section app_service.
Context {W : Type} `{!Runtime W} `{!HasMem W} `{!HasMemLaws W}.
Context `{!RuntimeOrder (W:=W)} `{!RuntimeFrame mem}.

Definition app_service (env : Environment) : Apps.Service W :=
  {| svc_store := mem_AppStore; svc_env := env |}.

(** C31: a rotation that succeeds moves the application's entry of the index
    to the hash of the key it answers: the new key resolves to the
    application, no older key of it resolves any more, every other key
    resolves as before, and the index stays consistent.  Only a registered
    application that is not revoked can be rotated. *)
Theorem RotateKey_correct env id r (w : W) :
  app_index (mem w) -> (run (RotateKey (app_service env) id) w).1 = Ok r ->
  let m' := mem (run (RotateKey (app_service env) id) w).2 in
  let h := hashKey (ar_APIKey r) in
  app_index m' /\ appHash m' = rekey id h (appHash (mem w))
  /\ (exists a, apps (mem w) !! id = Some a /\ app_RevokedAt a = None)
  /\ (exists a', apps m' !! id = Some a' /\ app_Prefix a' = keyPrefix (ar_APIKey r)
      /\ forall w2, mem w2 = m' -> (run (GetAppByHash h) w2).1 = Ok a').
Proof.
  intros Hi. cbv zeta. unfold RotateKey, app_service. cbn [svc_store svc_env Apps.GetApp mem_AppStore].
  unfold GetApp. run_mem. destruct (apps (mem w) !! id) as [a|] eqn:Ha; [|done].
  destruct (app_RevokedAt a) eqn:Hrev; [done|]. run_mem.
  set (key := (run (generateKey env) w).1). set (w1 := (run (generateKey env) w).2).
  assert (Hm1 : mem w1 = mem w) by apply mem_generateKey.
  cbn [Apps.UpdateAppKeyHash mem_AppStore].
  destruct (run_UpdateAppKeyHash id (hashKey key) (keyPrefix key) w1) as [Hres Hmem]; [by rewrite Hm1|].
  rewrite Hm1 in Hres, Hmem. pose proof (update_spec_index id (hashKey key) (keyPrefix key) _ Hi) as Hi'.
  destruct (run (UpdateAppKeyHash id (hashKey key) (keyPrefix key)) w1) as [res w2]; cbn [fst snd] in *.
  subst res. unfold update_spec in *. rewrite Ha in *.
  destruct (appHash (set_appHash _ (mem w)) !! hashKey key) eqn:Hn; cbn [fst snd] in *; run_mem; [done|].
  intros [= <-]. cbn [ar_APIKey]. rewrite Hmem. split; [exact Hi'|]. split; [done|].
  split; [by exists a|]. eexists. split; [simpl; apply lookup_insert_eq|]. split; [done|].
  intros w3 Hw3. unfold GetAppByHash. run_mem. rewrite Hw3. simpl.
  by rewrite !lookup_insert_eq.
Qed.

(** A rotation whose new hash is already taken by another application
    fails with a conflict after the old hash has been dropped: the
    application is left without any key. *)
Theorem rotation_conflict_drops_key id id' newHash newPrefix a (w : W) :
  app_index (mem w) -> apps (mem w) !! id = Some a ->
  appHash (mem w) !! newHash = Some id' -> id' <> id ->
  (run (UpdateAppKeyHash id newHash newPrefix) w).1 = Err Apps.ErrConflict
  /\ forall h, appHash (mem (run (UpdateAppKeyHash id newHash newPrefix) w).2) !! h <> Some id.
Proof.
  intros Hi Ha Hn Hne. destruct (run_UpdateAppKeyHash id newHash newPrefix w Hi) as [-> ->].
  unfold update_spec. rewrite Ha.
  assert (Hf : appHash (set_appHash (filter (fun kv => kv.2 <> id)) (mem w)) !! newHash = Some id')
    by (apply map_lookup_filter_Some; done).
  rewrite Hf. split; [done|]. simpl. intros h Hh. by apply map_lookup_filter_Some in Hh as [_ Hh].
Qed.

(** Creation: with a fresh identifier, an application is registered
    exactly when its name and its key's hash are free, the answered key is
    then the one that resolves to it, and the index stays consistent; a taken
    name changes nothing and is a conflict. *)
Theorem InsertApp_correct app hash (w : W) :
  app_index (mem w) -> apps (mem w) !! app_ID app = None ->
  let m' := mem (run (InsertApp app hash) w).2 in
  app_index m'
  /\ if decide (appName (mem w) !! app_Name app = None /\ appHash (mem w) !! hash = None)
     then (run (InsertApp app hash) w).1 = Ok tt
          /\ (forall w2, mem w2 = m' -> (run (GetAppByHash hash) w2).1 = Ok app)
          /\ apps m' = <[app_ID app := app]> (apps (mem w))
     else (run (InsertApp app hash) w).1 = Err Apps.ErrConflict /\ m' = mem w.
Proof.
  intros Hi Hfresh. cbv zeta. unfold InsertApp. run_mem.
  destruct (appName (mem w) !! app_Name app) as [i|] eqn:Hn;
    [|destruct (appHash (mem w) !! hash) as [j|] eqn:Hh]; run_mem.
  - split; [done|]. rewrite decide_False by (by intros [? _]). done.
  - split; [done|]. rewrite decide_False by (by intros [_ ?]). done.
  - rewrite decide_True by done. rewrite mem_set.
    assert (Hnew : forall h, appHash (mem w) !! h <> Some (app_ID app)).
    { intros h Hx%(ai_hash _ Hi). rewrite Hfresh in Hx. by destruct Hx. }
    split; [|split; [done|split; [|done]]].
    + split; simpl.
      * intros h v. rewrite lookup_insert_Some. intros [[<- <-]|[_ Hv]].
        -- rewrite lookup_insert_eq. eauto.
        -- apply (ai_hash _ Hi) in Hv. rewrite lookup_insert_is_Some. destruct (decide (app_ID app = v)); eauto.
      * intros h h' v. rewrite !lookup_insert_Some.
        intros [[<- <-]|[_ Hv]] [[<- Hx]|[_ Hv']]; try done; [by apply Hnew in Hv'|subst v; by apply Hnew in Hv|].
        by apply (ai_unique _ Hi _ _ v).
      * intros n v. rewrite lookup_insert_Some. split.
        -- intros [[<- <-]|[Hne Hv]]; [exists app; by rewrite lookup_insert_eq|].
           apply (ai_name _ Hi) in Hv as (b & Hb & <-). exists b.
           rewrite lookup_insert_ne; [done|]. intros <-. congruence.
        -- intros (b & Hb & <-). apply lookup_insert_Some in Hb as [[<- <-]|[Hne Hb]]; [by left|].
           right. assert (Hv : appName (mem w) !! app_Name b = Some v) by (apply (ai_name _ Hi); eauto).
           split; [|done]. congruence.
    + intros w2 Hw2. unfold GetAppByHash. run_mem. rewrite Hw2. simpl. by rewrite !lookup_insert_eq.
Qed.
End app_service.
