(* ===== verification/BuildSpec.v ===== *)
(** * What the composition root and the processes promise

    No connection is lost: what [Build] opened is held by the application it
    answers or closed again, and a process that returns has closed all.  In
    production there is no application without Postgres and Valkey; elsewhere
    a worker without Postgres has a memory of its own, and nothing to do. *)
From S2P Require Import Prelude GoStrings Config Ledger Gateway Router RouterProofs Worker WorkerFrames WorkerSpec Valkey Http AdaptersSpec.
From S2P Require Import HubtelAdapter PaystackAdapter MoolreAdapter Charges Webhooks Payouts Apps.
From S2P Require Import Database PgStore PgSpec MemStore MemStoreProofs Observability Build Commands.

(** The connections to Postgres and Valkey that are open. *)
Class InfraSpec {W} `{!Infra W} (conns : W -> gset Conn) : Prop := {
  pool_opens url n w :
    match (pgxpool_NewWithConfig url n w).1 with
    | Ok c => (c ∉ conns w) /\ conns (pgxpool_NewWithConfig url n w).2 = {[c]} ∪ conns w
    | Err _ => conns (pgxpool_NewWithConfig url n w).2 = conns w
    end;
  client_opens o w :
    match (valkey_NewClient o w).1 with
    | Ok c => (c ∉ conns w) /\ conns (valkey_NewClient o w).2 = {[c]} ∪ conns w
    | Err _ => conns (valkey_NewClient o w).2 = conns w
    end;
  pool_pings c w : conns (pool_Ping c w).2 = conns w;
  client_pings c w : conns (valkey_Ping c w).2 = conns w;
  pool_closes c w : conns (pool_Close c w).2 = conns w ∖ {[c]};
  client_closes c w : conns (valkey_Close c w).2 = conns w ∖ {[c]} }.

(** The trace exporters that run. *)
Class TelemetrySpec {W} `{!Telemetry W} (exporters : W -> gset N) : Prop := {
  exporter_starts url w :
    match (otlptracehttp_New url w).1 with
    | Ok tp => (tp ∉ exporters w) /\ exporters (otlptracehttp_New url w).2 = {[tp]} ∪ exporters w
    | Err _ => exporters (otlptracehttp_New url w).2 = exporters w
    end;
  exporter_stops tp w : exporters (tp_Shutdown tp w).2 = exporters w ∖ {[tp]} }.

(** Views that the telemetry, or the drivers, leave alone. *)
Class TelemetryFrame {W V} `{!Telemetry W} (view : W -> V) : Prop := {
  frame_exporter url w : view (otlptracehttp_New url w).2 = view w;
  frame_tp_shutdown c w : view (tp_Shutdown c w).2 = view w }.

Class InfraFrame {W V} `{!Infra W} (view : W -> V) : Prop := {
  frame_new_pool url n w : view (pgxpool_NewWithConfig url n w).2 = view w;
  frame_pool_ping c w : view (pool_Ping c w).2 = view w;
  frame_pool_close c w : view (pool_Close c w).2 = view w;
  frame_new_client o w : view (valkey_NewClient o w).2 = view w;
  frame_valkey_ping c w : view (valkey_Ping c w).2 = view w;
  frame_valkey_close c w : view (valkey_Close c w).2 = view w }.
(** The client leaves a view of the world alone. *)
Class ValkeyFrame {W V} `{!ValkeyClient W} (view : W -> V) : Prop :=
  frame_vk c w : view (vk_Do c w).2 = view w.

Definition conn_set (x : option Conn) : gset Conn := match x with Some c => {[c]} | None => ∅ end.

(** ** Opening and closing *)
Lemma undo (X s : gset Conn) : X ## s -> (X ∪ s) ∖ X = s.
Proof. set_solver. Qed.
Lemma singleton_fresh (c : Conn) (s : gset Conn) : (c ∉ s) -> {[c]} ## s.
Proof. set_solver. Qed.
Lemma minus_none (s : gset Conn) : s = s ∖ conn_set None.
Proof. simpl. set_solver. Qed.
Lemma with_none (s : gset Conn) : conn_set None ## s /\ s = conn_set None ∪ s.
Proof. simpl. set_solver. Qed.
Lemma two_opens (X Y s : gset Conn) : X ## s -> Y ## X ∪ s -> (X ∪ Y) ## s /\ Y ∪ (X ∪ s) = X ∪ Y ∪ s.
Proof. set_solver. Qed.
Lemma undo_two (X Y s : gset Conn) : (X ∪ Y) ## s -> ((X ∪ Y ∪ s) ∖ Y) ∖ X = s.
Proof. set_solver. Qed.

Section opening.
Context {W : Type} `{!Infra W} (conns : W -> gset Conn) `{!InfraSpec conns}.

(** What a step that may open one more connection leaves behind. *)
Definition opens (w : W) (out : result (option Conn) * W) : Prop :=
  match out.1 with
  | Ok x => conn_set x ## conns w /\ conns out.2 = conn_set x ∪ conns w
  | Err _ => conns out.2 = conns w
  end.

Lemma close_pool_conns x w : conns (run (close_pool x) w).2 = conns w ∖ conn_set x.
Proof.
  destruct x as [c|]; unfold close_pool; [rewrite run_call; apply pool_closes|]. apply minus_none.
Qed.
Lemma close_valkey_conns x w : conns (run (close_valkey x) w).2 = conns w ∖ conn_set x.
Proof.
  destruct x as [c|]; unfold close_valkey; [rewrite run_call; apply client_closes|]. apply minus_none.
Qed.

Lemma newPool_opens cfg w : opens w (let out := run (newPool cfg) w in
  (match out.1 with Ok c => Ok (Some c) | Err e => Err e end, out.2)).
Proof.
  unfold opens, newPool. destruct (pgxpool_ParseConfig _); [done|]. rewrite run_call. cbn [fst snd].
  pose proof (pool_opens (DB_URL cfg) (MaxConns cfg) w) as H. destruct (pgxpool_NewWithConfig _ _ _).1; [|done].
  destruct H as [Hf Hc]. split; [by apply singleton_fresh|exact Hc].
Qed.

Lemma newValkey_opens cfg w : opens w (let out := run (newValkey cfg) w in
  (match out.1 with Ok c => Ok (Some c) | Err e => Err e end, out.2)).
Proof.
  unfold opens, newValkey. destruct (String.eqb _ _); [done|]. rewrite run_call. cbn [fst snd].
  match goal with |- context [valkey_NewClient ?o w] => pose proof (client_opens o w) as H end.
  destruct (valkey_NewClient _ _).1; [|done].
  destruct H as [Hf Hc]. split; [by apply singleton_fresh|exact Hc].
Qed.

Lemma open_pool_opens cfg w :
  let out := run (open_pool cfg) w in
  opens w out
  /\ (is_production cfg = true -> out.1 <> Ok None) /\ (is_production cfg = false -> is_Ok out.1 = true).
Proof.
  cbv zeta. unfold open_pool. rewrite run_bind. pose proof (newPool_opens (Config.Database cfg) w) as H.
  destruct (run (newPool _) w) as [[c|e] w1]; unfold opens in *; cbn [fst snd conn_set] in *.
  - rewrite run_bind, run_call. pose proof (pool_pings c w1) as Hp.
    destruct (pool_Ping c w1) as [[e|] w2]; cbn [fst snd] in *.
    + rewrite run_bind, run_call, run_ret. pose proof (pool_closes c w2) as Hc. cbn [fst snd].
      assert (Hw : conns (pool_Close c w2).2 = conns w) by (rewrite Hc, Hp, (proj2 H); apply undo, H).
      destruct (is_production cfg); (split; [|done]); [exact Hw|]. cbn [fst snd]. rewrite Hw. apply with_none.
    + rewrite run_ret. cbn [fst snd]. rewrite Hp. done.
  - rewrite run_ret. destruct (is_production cfg); (split; [|done]); [exact H|]. cbn [fst snd]. rewrite H. apply with_none.
Qed.

Lemma open_valkey_opens cfg pool w :
  let out := run (open_valkey cfg pool) w in
  match out.1 with
  | Ok x => opens w out /\ (is_production cfg = true -> x <> None)
  | Err _ => conns out.2 = conns w ∖ conn_set pool /\ is_production cfg = true
  end.
Proof.
  cbv zeta. unfold open_valkey. rewrite run_bind. pose proof (newValkey_opens (Config.Valkey cfg) w) as H.
  destruct (run (newValkey _) w) as [[c|e] w1]; unfold opens in *; cbn [fst snd conn_set] in *.
  - rewrite run_bind, run_call. pose proof (client_pings c w1) as Hp.
    destruct (valkey_Ping c w1) as [[e|] w2]; cbn [fst snd] in *.
    + rewrite run_bind, run_call. pose proof (client_closes c w2) as Hc.
      assert (Hw : conns (valkey_Close c w2).2 = conns w) by (rewrite Hc, Hp, (proj2 H); apply undo, H).
      destruct (is_production cfg); [rewrite run_bind | ]; rewrite run_ret; cbn [fst snd].
      * by rewrite close_pool_conns, Hw.
      * split; [|done]. rewrite Hw. apply with_none.
    + rewrite run_ret. cbn [fst snd]. rewrite Hp. done.
  - destruct (is_production cfg); [rewrite run_bind|]; rewrite run_ret; cbn [fst snd].
    + by rewrite close_pool_conns, H.
    + split; [|done]. rewrite H. apply with_none.
Qed.
End opening.

(** ** The application *)
Section build.
Context {W : Type} `{!Runtime W} `{!Transport W} `{!Postgres W} `{!HasMem W} `{!ValkeyClient W}.
Context `{!Telemetry W} `{!Infra W}.
Context (conns : W -> gset Conn) `{!InfraSpec conns} `{!TelemetryFrame conns} `{!MemFrame conns}.
Context `{!HasMemLaws W}.

Definition held_by (a : App W) : gset Conn := conn_set (app_Pool a) ∪ conn_set (app_Valkey a).

Lemma run_Setup cfg (w : W) : conns (run (Setup cfg) w).2 = conns w.
Proof.
  apply Preserves_run. unfold Setup. destruct (negb _); guar.
  apply Guar_call. intros w'. apply frame_exporter.
Qed.

(** The providers that [Setup] makes shut down without touching a connection. *)
Definition quiet (p : Provider W) : Prop := Preserves conns (Shutdown p).
Lemma Setup_quiet cfg (w : W) p : (run (Setup cfg) w).1 = Ok p -> quiet p.
Proof.
  unfold Setup, quiet, Shutdown. destruct (negb _).
  - intros [= <-]. simpl. guar.
  - rewrite run_bind, run_call, run_ret. cbn [fst snd]. destruct (otlptracehttp_New _ w).1; [|done].
    intros [= <-]. cbn [pr_shutdown shutdown_all]. guar. apply Guar_call. intros w'. apply frame_tp_shutdown.
Qed.

(** What a successful [Build] answers, and what it leaves. *)
Definition built (cfg : Config) (w : W) (a : App W) (w' : W) : Prop :=
  (exists p pool client, a = wire cfg p pool client /\ quiet p /\ (run (Setup (Observ cfg)) w).1 = Ok p)
  /\ (is_production cfg = true -> app_Pool a <> None /\ app_Valkey a <> None)
  /\ held_by a ## conns w /\ conns w' = held_by a ∪ conns w
  /\ (app_Pool a = None -> mem w' = NewMemoryStore).

Lemma Build_spec cfg w :
  let out := run (Build cfg) w in
  match out.1 with
  | Ok a => built cfg w a out.2
  | Err _ => conns out.2 = conns w
             /\ (is_production cfg = true \/ is_Ok (run (Setup (Observ cfg)) w).1 = false)
  end.
Proof.
  cbv zeta. unfold Build. rewrite run_bind. pose proof (run_Setup (Observ cfg) w) as Hs.
  pose proof (Setup_quiet (Observ cfg) w) as Hq. unfold built.
  destruct (run (Setup (Observ cfg)) w) as [[p|e] w1]; cbn [fst snd] in *; [|simpl; auto].
  rewrite run_bind. destruct (open_pool_opens conns cfg w1) as (Ho & Hp1 & Hp2).
  destruct (run (open_pool cfg) w1) as [[pool|e] w2]; unfold opens in Ho; cbn [fst snd] in *.
  2:{ simpl. split; [congruence|]. left. destruct (is_production cfg); [done|]. by discriminate Hp2. }
  assert (Hpool : negb (opened pool) && is_production cfg = false).
  { destruct pool; [done|]. destruct (is_production cfg); [by destruct Hp1|done]. }
  rewrite Hpool. cbn match. rewrite run_bind. pose proof (open_valkey_opens conns cfg pool w2) as Hv. cbv zeta in Hv.
  destruct (run (open_valkey cfg pool) w2) as [[client|e] w3]; unfold opens in Hv; cbn [fst snd] in *.
  2:{ destruct Hv as [Hv Hprod]. rewrite run_ret. cbn [fst snd]. split; [|by left]. rewrite Hv, (proj2 Ho), Hs. apply undo. rewrite <- Hs. apply Ho. }
  destruct Hv as [[Hd Hc] Hcl].
  assert (Hclient : negb (opened client) && is_production cfg = false).
  { destruct client; [done|]. destruct (is_production cfg); [by destruct Hcl|done]. }
  rewrite Hclient. cbn match. rewrite run_bind, run_ret.
  assert (Hm : conns (run (if opened pool then mret tt else new_memory) w3).2 = conns w3).
  { destruct (opened pool); [done|]. unfold new_memory. apply mem_frame. }
  assert (Hmem : pool = None -> mem (run (if opened pool then mret tt else new_memory) w3).2 = NewMemoryStore).
  { intros ->. apply mem_set. }
  cbn [fst snd]. unfold held_by. cbn [app_Pool app_Valkey wire]. rewrite Hm. split_and!.
  - exists p, pool, client. split; [done|]. split; [by apply Hq|done].
  - intros E. rewrite E, andb_true_r in Hpool, Hclient. by destruct pool, client.
  - rewrite <- Hs. rewrite (proj2 Ho) in Hd. apply two_opens; [apply Ho | exact Hd].
  - rewrite Hc, (proj2 Ho), <- Hs. rewrite (proj2 Ho) in Hd. apply two_opens; [apply Ho | exact Hd].
  - exact Hmem.
Qed.

Lemma Close_conns cfg w a w' : built cfg w a w' -> forall w2, conns w2 = conns w' -> conns (run (Close a) w2).2 = conns w.
Proof.
  intros ((p & pool & client & Ha & Hq & _) & _ & Hd & Hc & _) w2 H2. unfold Close. rewrite !run_bind, run_ret. cbn [fst snd].
  rewrite (Preserves_run conns) by (rewrite Ha; exact Hq).
  rewrite close_pool_conns, close_valkey_conns, H2, Hc by done. by apply undo_two.
Qed.

(** The stores of an application with a pool are the Postgres ones. *)
Definition over_postgres (a : App W) : Prop :=
  Charges.svc_store (app_Charges a) = pg_IntentStore
  /\ Webhooks.svc_store (app_Webhooks a) = pg_WebhookStore
  /\ Payouts.svc_store (app_Payouts a) = pg_ReservationStore
  /\ Apps.svc_store (app_Apps a) = pg_AppStore
  /\ app_Ledger a = pg_LedgerStore /\ app_PgStore a = true.

Lemma built_over_postgres cfg w a w' : built cfg w a w' -> app_Pool a <> None -> over_postgres a.
Proof. intros ((p & [pool|] & client & -> & _) & _) Hp; [by repeat split | done]. Qed.
End build.

(** ** The trace exporter *)
Section telemetry.
Context {W : Type} `{!Runtime W} `{!Transport W} `{!Postgres W} `{!HasMem W} `{!ValkeyClient W}.
Context `{!Telemetry W} `{!Infra W}.
Context (exporters : W -> gset N) `{!TelemetrySpec exporters} `{!InfraFrame exporters} `{!MemFrame exporters}.

(** What [Setup] leaves running: one more exporter, when tracing is enabled. *)
Definition started (cfg : Config) (w w' : W) : Prop :=
  if TracingEnabled (Observ cfg) then exists tp, (tp ∉ exporters w) /\ exporters w' = {[tp]} ∪ exporters w
  else exporters w' = exporters w.

Lemma Setup_exporters cfg w :
  let out := run (Setup (Observ cfg)) w in
  match out.1 with
  | Ok p => started cfg w out.2
      /\ forall w2, exporters w2 = exporters out.2 -> exporters (run (Shutdown p) w2).2 = exporters w
  | Err _ => exporters out.2 = exporters w
  end.
Proof.
  cbv zeta. unfold Setup, started. destruct (TracingEnabled (Observ cfg)); cbn [negb]; [|by split].
  run_simpl. pose proof (exporter_starts (OTLPEndpoint (Observ cfg)) w) as H.
  destruct (otlptracehttp_New (OTLPEndpoint (Observ cfg)) w) as [[tp|e] w1]; cbn [fst snd] in *; [|done].
  destruct H as [Hf Hw]. split; [by exists tp|]. intros w2 H2. unfold Shutdown. cbn [pr_shutdown shutdown_all].
  run_simpl. rewrite exporter_stops, H2, Hw. apply undo. set_solver.
Qed.

Lemma Preserves_close_pool x : Preserves exporters (close_pool x).
Proof. destruct x; unfold close_pool; [|guar]. apply Guar_call. intros w. apply frame_pool_close. Qed.
Lemma Preserves_close_valkey x : Preserves exporters (close_valkey x).
Proof. destruct x; unfold close_valkey; [|guar]. apply Guar_call. intros w. apply frame_valkey_close. Qed.
Lemma Preserves_open_pool cfg : Preserves exporters (open_pool cfg).
Proof.
  unfold open_pool, newPool. destruct (pgxpool_ParseConfig _); guar; apply Guar_call; intros w;
    first [apply frame_new_pool | apply frame_pool_ping | apply frame_pool_close].
Qed.
#[local] Hint Resolve Preserves_close_pool Preserves_close_valkey Preserves_open_pool : guar.
Lemma Preserves_open_valkey cfg pool : Preserves exporters (open_valkey cfg pool).
Proof.
  unfold open_valkey, newValkey. destruct (String.eqb _ _); guar; try (destruct (is_production cfg); guar);
    apply Guar_call; intros w; first [apply frame_new_client | apply frame_valkey_ping | apply frame_valkey_close].
Qed.
#[local] Hint Resolve Preserves_open_valkey : guar.

(** Whatever comes of the rest of [Build], it stops no exporter. *)
Lemma Build_exporters cfg w : exporters (run (Build cfg) w).2 = exporters (run (Setup (Observ cfg)) w).2.
Proof.
  unfold Build. rewrite run_bind. destruct (run (Setup (Observ cfg)) w) as [[p|e] w1]; cbn [fst snd]; [|done].
  apply (Preserves_run exporters). guar. unfold new_memory. apply Guar_call. intros w2. apply mem_frame.
Qed.

Lemma Close_exporters cfg p pool client w2 :
  exporters (run (Close (wire cfg p pool client)) w2).2
  = exporters (run (Shutdown p) (run (_ ← close_valkey client; close_pool pool) w2).2).2
  /\ exporters (run (_ ← close_valkey client; close_pool pool) w2).2 = exporters w2.
Proof. split; [unfold Close; by run_simpl | apply (Preserves_run exporters); guar]. Qed.
End telemetry.

(** ** The worker's process *)
Section worker.
Context {W : Type} `{!Runtime W} `{!Transport W} `{!Postgres W} `{!HasMem W} `{!ValkeyClient W}.
Context `{!Telemetry W} `{!Infra W}.

Lemma Preserves_locker {V} (view : W -> V) connected :
  ValkeyFrame view -> LockerFrame (Valkey_locker connected) view.
Proof.
  intros Hv. split; intros; simpl; unfold lock_TryAcquire, lock_Release, Do; destruct (negb connected); guar;
    apply Guar_call; intros; apply frame_vk.
Qed.

(** One round of the worker: a drain and a reconciliation. *)
Definition round (a : App W) : Prog W unit := _ ← drainOutbox a; reconcile a.

Lemma Preserves_round {V} (view : W -> V) cfg p pool client :
  RuntimeFrame view -> TransportFrame view -> PostgresFrame view -> MemFrame view -> ValkeyFrame view ->
  Preserves view (round (wire cfg p pool client)).
Proof.
  intros Hr Ht Hp Hm Hv. set (a := wire cfg p pool client).
  assert (H : match buildWorker a with
              | Some wk => Preserves view (DrainOutbox wk) /\ Preserves view (Reconcile wk) | None => True end).
  { unfold buildWorker, a. cbn [app_PgStore app_MemStore app_Router app_Locker wire].
    assert (Hads : AdaptersFrame (adapters (NewChargerRouter (Payments cfg) (Some (Valkey_health
      (NewHealthStore (opened client)))) (platform_adapters (Payments cfg)))) view)
      by (cbn [adapters NewChargerRouter]; unfold platform_adapters; apply _).
    pose proof (Preserves_locker view (opened client) Hv) as Hl.
    destruct (opened pool); cbn match; (split; [eapply Preserves_DrainOutbox; [exact Hr | apply _ | exact Hads |]
      | eapply Preserves_Reconcile; apply _]); intros l [= <-]; exact Hl. }
  unfold round, drainOutbox, reconcile. destruct (buildWorker a) as [wk|]; [|guar]. destruct H. guar.
Qed.

Lemma worker_loop_ticks (a : App W) n events w :
  run (worker_loop a (replicate n Tick ++ events)) w
  = run (worker_loop a events) (Nat.iter n (fun w => (run (round a) w).2) w).
Proof.
  revert w. induction n as [|n IH]; intros w; [done|]. rewrite Nat.iter_succ_r.
  change (replicate (S n) Tick ++ events) with (Tick :: replicate n Tick ++ events).
  cbn [worker_loop]. unfold round. rewrite !run_bind. apply IH.
Qed.
End worker.

(** ** A worker without Postgres *)
Section memory_worker.
Context {W : Type} `{!Runtime W} `{!Transport W} `{!Postgres W} `{!HasMem W} `{!ValkeyClient W}.
Context {V : Type} (view : W -> V) `{!RuntimeFrame view} `{!RuntimeFrame mem}.

Lemma claim_empty n w :
  outbox (mem w) = ∅ ->
  let out := run (MemStore.ClaimPending n) w in out.1 = Ok [] /\ mem out.2 = mem w /\ view out.2 = view w.
Proof.
  intros He. cbv zeta. unfold MemStore.ClaimPending, range_map. run_mem. rewrite He, map_to_list_empty. run_mem.
  assert (Hn : forall order, omap (M:=list) (fun i => (@nil (UUID * Worker.GatewayEvent)).*2 !! i) order = [])
    by (induction order; done).
  rewrite Hn.
  split; [|split; [apply frame_order | apply frame_order]]. simpl. by destruct (_ >? _)%Z; rewrite ?take_nil.
Qed.

Lemma idle_round cfg p client w :
  outbox (mem w) = ∅ ->
  let w' := (run (round (wire cfg p None client)) w).2 in mem w' = mem w /\ view w' = view w.
Proof.
  intros He. cbv zeta. unfold round, drainOutbox, reconcile, buildWorker, New_Worker.
  cbn [app_PgStore app_MemStore app_Router app_Locker wire opened negb].
  unfold DrainOutbox, Reconcile. cbn [wk_store wk_ledger mem_OutboxStore Worker.ClaimPending Worker.CountPending].
  destruct (claim_empty 50 w He) as (Hr & Hm & Hv). rewrite !run_bind.
  destruct (run (MemStore.ClaimPending 50) w) as [r w1]. cbn [fst snd] in *. subst r. rewrite !run_ret. cbn [fst snd].
  unfold MemStore.CountPending. run_mem. destruct (claim_empty 5 w1) as (_ & Hm2 & Hv2); [by rewrite Hm|].
  by rewrite Hm2, Hv2.
Qed.
End memory_worker.

(** ** Properties *)
Section properties.
Context {W : Type} `{!Runtime W} `{!Transport W} `{!Postgres W} `{!HasMem W} `{!HasMemLaws W} `{!ValkeyClient W}.
Context `{!Telemetry W} `{!Infra W}.
Context (conns : W -> gset Conn) `{!InfraSpec conns} `{!TelemetryFrame conns} `{!MemFrame conns}.

Lemma is_production_iff cfg : is_production cfg = true <-> cfg_Environment cfg = EnvProduction.
Proof. apply String.eqb_eq. Qed.

(** C17: What [Build] opens, and in production it settles for nothing less than
    Postgres and Valkey.  An application it answers holds exactly the
    connections that were opened, and with tracing enabled one trace exporter
    runs; [Close] gives exactly that back, the exporter included; in
    production all five stores of the application are the Postgres ones and
    Valkey is connected.  When [Build] answers an error, which it does only in
    production or for want of telemetry, every connection to Postgres and
    Valkey that it had opened is closed again; but an exporter that [Setup]
    started is not shut down: it is left running, and nobody holds it. *)
Theorem Build_correct (exporters : W -> gset N) `{!TelemetrySpec exporters} `{!InfraFrame exporters} `{!MemFrame exporters}
    cfg w :
  let out := run (Build cfg) w in
  match out.1 with
  | Ok a =>
      held_by a ## conns w /\ conns out.2 = held_by a ∪ conns w /\ started exporters cfg w out.2
      /\ conns (run (Close a) out.2).2 = conns w /\ exporters (run (Close a) out.2).2 = exporters w
      /\ (cfg_Environment cfg = EnvProduction -> over_postgres a /\ app_Valkey a <> None)
  | Err _ =>
      conns out.2 = conns w
      /\ (if is_Ok (run (Setup (Observ cfg)) w).1 then cfg_Environment cfg = EnvProduction /\ started exporters cfg w out.2
          else exporters out.2 = exporters w)
  end.
Proof.
  cbv zeta. pose proof (Build_spec conns cfg w) as H. cbv zeta in H.
  pose proof (Build_exporters exporters cfg w) as Hx. pose proof (Setup_exporters exporters cfg w) as Hs. cbv zeta in Hs.
  destruct (run (Build cfg) w) as [[a|e] w1]; cbn [fst snd] in *.
  - pose proof (Close_conns conns cfg w a w1 H w1 eq_refl) as Hclose.
    pose proof (built_over_postgres conns cfg w a w1 H) as Hpg.
    destruct H as ((p & pool & client & -> & _ & Hp) & Hprod & Hd & Hc & Hm). rewrite Hp in Hs. destruct Hs as [Hs Hsd].
    assert (Hst : started exporters cfg w w1) by (unfold started in *; by rewrite Hx).
    destruct (Close_exporters exporters cfg p pool client w1) as [-> Hc2]. split_and!; [done..| |].
    + apply Hsd. by rewrite Hc2.
    + intros E%is_production_iff. destruct (Hprod E) as [Hpool Hv]. auto.
  - destruct H as [Hc Hwhy]. split; [done|]. rewrite is_production_iff in Hwhy.
    destruct (run (Setup (Observ cfg)) w) as [[p|e'] w2]; cbn [fst snd is_Ok] in *; [|by rewrite Hx].
    split; [by destruct Hwhy|]. destruct Hs as [Hs _]. unfold started in *. by rewrite Hx.
Qed.

Context `{!RuntimeFrame conns} `{!TransportFrame conns} `{!PostgresFrame conns} `{!ValkeyFrame conns}.

(** C18: The worker's process ends when it is told to: after any number of ticks,
    each a drain and a reconciliation whose errors stop nothing, the first
    [Done] makes it return without error, and it returns with no connection
    left open, also when it could not be configured or built. *)
Theorem run_worker_returns load n rest w :
  let out := run (run_worker load (replicate n Tick ++ Done :: rest)) w in
  conns out.2 = conns w
  /\ match load with
     | Err err => out = (Some (Some err), w)
     | Ok cfg =>
         let '(app, w1) := run (Build cfg) w in
         match app with
         | Err err => out = (Some (Some err), w1)
         | Ok a => out = (Some None, (run (Close a) (Nat.iter n (fun w => (run (round a) w).2) w1)).2)
         end
     end.
Proof.
  cbv zeta. unfold run_worker. destruct load as [cfg|err]; [|done]. rewrite run_bind.
  pose proof (Build_spec conns cfg w) as H. cbv zeta in H.
  destruct (run (Build cfg) w) as [[a|err] w1]; cbn [fst snd] in *; [|by destruct H].
  unfold closing. rewrite run_bind, worker_loop_ticks. cbn [worker_loop]. rewrite run_ret. cbn [fst snd].
  rewrite run_bind, run_ret. cbn [fst snd]. split; [|done].
  apply (Close_conns conns cfg w a w1 H).
  destruct H as ((p & pool & client & -> & _) & _). induction n as [|n IH]; [done|]. rewrite Nat.iter_succ.
  cbv beta. rewrite (Preserves_run conns) by (apply Preserves_round; apply _). exact IH.
Qed.

(** C38: A worker that falls back to memory settles nothing, ever: its memory is
    its own and empty, so however many rounds it makes, whatever charges the
    API's process has pending in its own memory, its memory stays as it was
    and no view that only the run-time services could change, the exchanges
    with the gateways for one, moves. *)
Theorem memory_worker_idle {V} (view : W -> V) `{!RuntimeFrame view} `{!RuntimeFrame mem} cfg w a n :
  (run (Build cfg) w).1 = Ok a -> app_Pool a = None ->
  let w1 := (run (Build cfg) w).2 in
  let w2 := Nat.iter n (fun w => (run (round a) w).2) w1 in
  mem w2 = NewMemoryStore /\ view w2 = view w1.
Proof.
  intros Ha Hp. pose proof (Build_spec conns cfg w) as H. cbv zeta in *. rewrite Ha in H.
  set (w1 := (run (Build cfg) w).2) in *.
  destruct H as ((p & pool & client & -> & _) & _ & _ & _ & Hm). cbn [app_Pool wire] in *. subst pool.
  specialize (Hm eq_refl). induction n as [|n [IHm IHv]]; [done|]. rewrite Nat.iter_succ.
  destruct (idle_round view cfg p client _ (eq_trans (f_equal outbox IHm) eq_refl)) as [Hm2 Hv2].
  by rewrite Hm2, Hv2.
Qed.
End properties.
