(* ===== verification/ObservabilitySpec.v ===== *)
(** * One line per unit of work

    The wide event of a request is contributed to by every goroutine that
    works on it and flushed once.  No contribution is lost, whatever the
    interleaving, and the line has each field once. *)
From S2P Require Import Prelude GoStrings Config Scenario RelyGuarantee Observability.

Class WideEventsLaws {W A} `{!Runtime W} `{!WideEvents W A} : Prop := {
  fields_set m w : ev_fields (set_fields m w) = m;
  fields_order n w : ev_fields (rt_order n w).2 = ev_fields w }.

Section wide_events.
Context {W A : Type} `{!Runtime W} `{!RuntimeOrder (W:=W)} `{!WideEvents W A} `{!WideEventsLaws (W:=W) (A:=A)}.
Context (slog_Default : option Logger) (l : N).

(** A goroutine that sets fields in order, through its own context. *)
Definition contribute (t : Context * list (string * A)) : Prog W unit :=
  forM_ t.2 (fun kv => SetEventField t.1 kv.1 kv.2).

(** Fields are added, or set again, to values that are somebody's. *)
Definition contributed (said : string -> A -> Prop) (v v' : option (gmap string A)) : Prop :=
  (is_Some v -> is_Some v')
  /\ forall fs fs', v = Some fs -> v' = Some fs' ->
       dom fs ⊆ dom fs' /\ forall k x, fs' !! k = Some x -> fs !! k = Some x \/ said k x.
#[export] Instance contributed_preorder said : PreOrder (contributed said).
Proof.
  split; [split; [done|]; intros fs fs' -> [= ->]; naive_solver|].
  intros v1 v2 v3 [Hs1 H1] [Hs2 H2]. split; [auto|]. intros f1 f3 E1 E3.
  destruct Hs1 as [f2 E2]; [by rewrite E1|]. destruct (H1 _ _ E1 E2) as [D1 X1], (H2 _ _ E2 E3) as [D2 X2].
  split; [by etrans|]. intros k x [Hk|Hk]%X2; [by apply X1|by right].
Qed.

Definition event_at (w : W) : option (gmap string A) := ev_fields w !! l.
(** The event is there and has these fields. *)
Definition has_fields (ks : list string) (v : option (gmap string A)) : Prop :=
  exists fs, v = Some fs /\ forall k, k ∈ ks -> k ∈ dom fs.

Lemma has_fields_stable said ks : Stable (contributed said) (has_fields ks).
Proof.
  intros v v' [Hs Hc] (fs & -> & Hk). destruct Hs as [fs' E]; [done|]. exists fs'. split; [done|].
  intros k Hin. destruct (Hc fs fs' eq_refl E) as [Hd _]. by apply Hd, Hk.
Qed.

Lemma set_field_safe said ctx key value ks : WideEventFromContext ctx = Some l -> said key value ->
  Safe event_at (contributed said) (has_fields ks) (SetEventField ctx key value) (fun _ => has_fields (key :: ks)).
Proof.
  intros Hctx Hsaid. unfold SetEventField, Set_, update_event. rewrite Hctx.
  apply Safe_call; [intros _; apply has_fields_stable|]. intros w (fs & Hfs & Hk). cbn [fst snd]. unfold event_at in *.
  rewrite fields_set, lookup_alter_eq, Hfs. cbn. split.
  - split; [done|]. intros ? ? [= <-] [= <-]. split; [rewrite dom_insert; set_solver|].
    intros k x. destruct (decide (key = k)) as [<-|].
    + rewrite lookup_insert_eq. intros [= <-]. by right.
    + rewrite lookup_insert_ne by done. by left.
  - eexists. split; [done|]. intros k Hin. rewrite dom_insert. apply elem_of_cons in Hin as [E|Hin]; [rewrite E|]; set_solver.
Qed.

Lemma contribute_safe said t ks : WideEventFromContext t.1 = Some l -> (forall k x, (k, x) ∈ t.2 -> said k x) ->
  Safe event_at (contributed said) (has_fields ks) (contribute t) (fun _ => has_fields (t.2.*1 ++ ks)).
Proof.
  destruct t as [ctx kvs]. unfold contribute. cbn [fst snd]. intros Hctx. revert ks.
  induction kvs as [|[k x] kvs IH]; intros ks Hs; cbn [forM_]; [by apply Safe_ret|].
  eapply Safe_bind; [apply set_field_safe; [done|apply Hs; left]|]. intros u.
  eapply Safe_post; [|apply IH; intros k' x' Hin; apply Hs; by right].
  intros _ v (fs & Hv & Hk). exists fs. split; [done|]. intros k'. cbn. rewrite elem_of_cons, !elem_of_app.
  intros H. apply Hk. rewrite elem_of_app, elem_of_cons. tauto.
Qed.

Lemma run_attrs fs w : event_at w = Some fs ->
  (run (attrs (A:=A) l) w).1 ≡ₚ map_to_list fs /\ event_at (run (attrs (A:=A) l) w).2 = Some fs.
Proof.
  unfold attrs, event_at. intros Hfs. rewrite run_locked. run_simpl. rewrite Hfs. cbn [default].
  split; [apply run_range_map|]. unfold range_map. run_simpl. by rewrite fields_order.
Qed.

(** Whatever goroutines contribute to an event and however they interleave:
    every field a finished one set is there, every value is one somebody set,
    and flushing writes one line that has each field once. *)
Theorem wide_event_loses_nothing sch threads ctx name w fs0 :
  Forall (fun t => WideEventFromContext t.1 = Some l) threads -> WideEventFromContext ctx = Some l ->
  ev_fields w !! l = Some fs0 ->
  let out := sched sch (map contribute threads) w in
  exists fs line w', ev_fields out.2 !! l = Some fs
    /\ (forall k x, fs !! k = Some x -> fs0 !! k = Some x \/ exists t, t ∈ threads /\ (k, x) ∈ t.2)
    /\ (forall i t k x, threads !! i = Some t -> (out.1 !! i) ≫= finished = Some tt -> (k, x) ∈ t.2 -> k ∈ dom fs)
    /\ dom fs0 ⊆ dom fs
    /\ run (FlushWideEvent slog_Default ctx name) out.2 = slog_Info (LoggerFromContext slog_Default ctx) name line w'
    /\ line ≡ₚ map_to_list fs /\ List.NoDup line.*1.
Proof.
  intros Hts Hctx Hw out. set (said := fun k x => exists t, t ∈ threads /\ (k, x) ∈ t.2).
  assert (Hok : Forall2 (thread_ok event_at (contributed said) (event_at w)) (map contribute threads)
                  (map (fun t _ => has_fields (t.2.*1 ++ [])) threads)).
  { apply Forall2_fmap_2, Forall_Forall2_diag, list.Forall_forall. intros t Ht.
    exists (has_fields []). split; [apply has_fields_stable|]. split; [exists fs0; split; [done|]; by intros k ?%not_elem_of_nil|].
    apply contribute_safe; [by eapply list.Forall_forall in Hts|]. intros k x Hin. by exists t. }
  destruct (sched_Safe event_at (contributed said) sch _ _ w Hok) as [[Hs Hc] Hf]. fold out in Hs, Hc, Hf.
  destruct Hs as [fs Hfs]; [by exists fs0|]. destruct (Hc fs0 fs Hw Hfs) as [Hd Hx].
  destruct (run_attrs fs out.2 Hfs) as [Hp _].
  exists fs, (run (attrs l) out.2).1, (run (attrs l) out.2).2. split; [done|]. split; [done|]. split; [|split; [done|]].
  - intros i t k x Ht Fi Hin.
    destruct (finished_ok _ _ _ _ _ i tt (fun _ => has_fields (t.2.*1 ++ [])) Hf) as (fs' & E & Hk);
      [by rewrite list_lookup_fmap, Ht|exact Fi|]. rewrite Hfs in E. injection E as <-. apply Hk.
    rewrite app_nil_r. apply list_elem_of_fmap. by exists (k, x).
  - unfold FlushWideEvent. rewrite Hctx, run_bind, run_call. split; [done|]. split; [done|].
    apply NoDup_ListNoDup. rewrite Hp. apply NoDup_fst_map_to_list.
Qed.
End wide_events.

(** ** A request's event, set by two goroutines *)
Abbreviation Board := (World (gmap N (gmap string string) * list (string * list (string * string)))) (only parsing).
#[export] Instance board_events : WideEvents Board string := {
  ev_fields w := (store w).1;
  set_fields m w := mkWorld (clock w) (uuids w) (entropy w) (script w) (exchanges w) (results w) (locks w) (m, (store w).2);
  slog_Info _ name line := fun w =>
    (tt, mkWorld (clock w) (uuids w) (entropy w) (script w) (exchanges w) (results w) (locks w)
           ((store w).1, (store w).2 ++ [(name, line)])) }.
#[export] Instance board_laws : WideEventsLaws (W:=Board) (A:=string).
Proof. by split. Qed.

Definition no_gateways : Script := {|
  on_initiate _ _ := Err (Fresh ""); on_verify _ _ := Err (Fresh ""); on_refund _ _ := Err (Fresh "");
  on_payout _ _ := Err (Fresh ""); circuit_of _ := Ok false |}.
Definition board : Board := mkWorld 0 0 0 no_gateways [] [] ∅ ({[7%N := {["request_id" := "r-1"]}]}, []).
(** A context derived from the request's, with a logger of its own. *)
Definition request_ctx : Context := WithWideEvent [] (Some 7%N).
Definition worker_ctx : Context := WithLogger request_ctx None.
Definition contributors : list (Context * list (string * string)) :=
  [(request_ctx, [("charge_ref", "optd-1"); ("status", "pending")]); (worker_ctx, [("charge_ref", "optd-2")])].

(** The contributions interleaved, then the line. *)
Lemma wide_event_loses_nothing_witness :
  let out := sched [0; 1; 0; 0] (map contribute contributors) board in
  exists line w', run (FlushWideEvent None request_ctx "request") out.2 = slog_Info None "request" line w'
    /\ List.NoDup line.*1 /\ (("status", "pending") ∈ line) /\ (("request_id", "r-1") ∈ line)
    /\ (("charge_ref", "optd-1") ∈ line \/ ("charge_ref", "optd-2") ∈ line).
Proof.
  cbv zeta.
  destruct (wide_event_loses_nothing (W:=Board) (A:=string) None 7%N [0; 1; 0; 0] contributors request_ctx "request" board
    {["request_id" := "r-1"]}) as (fs & line & w' & Hfs & _ & _ & _ & Hrun & Hline & Hdup).
  - apply Forall_cons; [reflexivity|]. apply Forall_cons; [reflexivity|apply Forall_nil].
  - reflexivity.
  - reflexivity.
  - exists line, w'. split; [exact Hrun|]. split; [exact Hdup|].
    assert (E : fs = <["status" := "pending"]> (<["charge_ref" := "optd-2"]> {["request_id" := "r-1"]}))
      by (apply (f_equal (default ∅)) in Hfs; symmetry; exact Hfs).
    assert (Hm : forall k x, fs !! k = Some x -> (k, x) ∈ line)
      by (intros k x Hk; rewrite Hline; by apply elem_of_map_to_list).
    rewrite E in Hm. split; [by apply Hm|]. split; [by apply Hm|]. right. by apply Hm.
Defined.
