(* ===== verification/PayoutsSpec.v ===== *)
(** * What payout batches promise

    The total of a batch, its outbox keys, and the exchanges and locks of one
    [Dispatch]. *)
From S2P Require Import Prelude GoStrings Money Reference Ledger Gateway Router RouterProofs.
From S2P Require Import Worker WorkerFrames LocksSpec Payouts.

(** ** The total *)
Definition amounts (es : list Entry) : Z := fold_right Z.add 0%Z (map (fun e => minorUnits (pe_Amount e)) es).

(** One currency fits [c] and every entry; the empty currency fits any. *)
Definition fits (c c' : Currency) : Prop := c = "" \/ c' = "" \/ c = c'.

Lemma Add_spec m o :
  match Add m o with
  | Ok t => fits (currency m) (currency o)
            /\ minorUnits t = wrap64 (minorUnits m + minorUnits o)
            /\ currency t = if String.eqb (currency m) "" then currency o else currency m
  | Err _ => ~ fits (currency m) (currency o)
  end.
Proof.
  unfold Add, combine, fits.
  destruct (String.eqb_spec (currency m) (currency o)) as [E1|E1]; simpl.
  { rewrite <- E1. repeat split; [auto|]. by destruct (String.eqb_spec (currency m) "") as [->|]. }
  destruct (String.eqb_spec (currency m) "") as [E2|E2]; simpl; [auto|].
  destruct (String.eqb_spec (currency o) "") as [E3|E3]; simpl; [auto|]. tauto.
Qed.

Definition compatible (cs : list Currency) : Prop := forall a b, a ∈ cs -> b ∈ cs -> fits a b.

Definition currencies (es : list Entry) : list Currency := map (fun e => currency (pe_Amount e)) es.

Lemma compatible_merge c c' cs :
  fits c c' -> compatible ((if String.eqb c "" then c' else c) :: cs) <-> compatible (c :: c' :: cs).
Proof.
  intros Hf. unfold compatible, fits in *. setoid_rewrite elem_of_cons. setoid_rewrite elem_of_cons.
  destruct (String.eqb_spec c "") as [->|Hc]; split; intros Hall a b Ha Hb.
  - destruct Ha as [->|Ha]; [auto|]. destruct Hb as [->|Hb]; [auto|]. auto.
  - apply Hall; auto.
  - assert (Hcc : forall x, x = c \/ x = c' \/ x ∈ cs -> x = "" \/ x = c \/ x ∈ cs)
      by (intros x [->|[->|Hx]]; intuition congruence).
    apply Hcc in Ha, Hb. destruct Ha as [->|Ha]; [auto|]. destruct Hb as [->|Hb]; auto.
  - apply Hall; tauto.
Qed.

(** [sum_entries] answers exactly for positive amounts of compatible
    currencies, and then the sum modulo 2^64. *)
Lemma sum_entries_spec es total :
  int64 (minorUnits total) ->
  match sum_entries total es with
  | Ok t => Forall (fun e => (0 < minorUnits (pe_Amount e))%Z) es
            /\ compatible (currency total :: currencies es)
            /\ minorUnits t = wrap64 (minorUnits total + amounts es)
  | Err _ => ~ (Forall (fun e => (0 < minorUnits (pe_Amount e))%Z) es
                /\ compatible (currency total :: currencies es))
  end.
Proof.
  revert total. induction es as [|e es IH]; intros total Ht; cbn [sum_entries].
  { split; [constructor|]. split; [|unfold amounts; simpl; by rewrite Z.add_0_r, wrap64_id].
    intros a b. rewrite !list_elem_of_singleton. intros -> ->. unfold fits. auto. }
  unfold IsNegative, IsZero.
  destruct (Z.ltb_spec (minorUnits (pe_Amount e)) 0), (Z.eqb_spec (minorUnits (pe_Amount e)) 0);
    cbn [orb]; try (intros [Hp _]; inversion_clear Hp; lia).
  pose proof (Add_spec total (pe_Amount e)) as Ha. destruct (Add total (pe_Amount e)) as [t|err].
  2: { intros [_ Hc]. apply Ha, Hc; cbn; rewrite ?elem_of_cons; auto. }
  destruct Ha as (Hf & Hm & Hcur). specialize (IH t). rewrite Hm, Hcur in IH.
  specialize (IH (wrap64_int64 _)).
  assert (Hpos : Forall (fun e => (0 < minorUnits (pe_Amount e))%Z) (e :: es)
                 <-> Forall (fun e => (0 < minorUnits (pe_Amount e))%Z) es)
    by (rewrite Forall_cons_iff; intuition lia).
  pose proof (compatible_merge _ _ (currencies es) Hf) as Hcm.
  destruct (sum_entries t es) as [t'|err].
  - destruct IH as (Hp & Hc & ->). rewrite Hpos, <- Hcm. split; [done|]. split; [done|].
    apply wrap64_congr. destruct (wrap64_eqm (minorUnits total + minorUnits (pe_Amount e))) as [k ->].
    exists k. unfold amounts. simpl. lia.
  - rewrite Hpos, <- Hcm. exact IH.
Qed.

(** ** Dispatch *)
Class LedgerWriterFrame {W V} (l : LedgerWriter W) (view : W -> V) : Prop := {
  lwf_append e : Preserves view (lw_AppendEntry l e);
  lwf_release id : Preserves view (lw_ReleaseReservation l id) }.

(** The successful payouts for a reference. *)
Definition pays (ref : string) (x : Exchange) : bool :=
  match x with XPayout _ _ _ ref' (Ok _) => String.eqb ref' ref | _ => false end.
Definition paid (ref : string) (xs : list Exchange) : nat := length (List.filter (pays ref) xs).

(** [x] is an attempt to pay [e]. *)
Definition attempts (e : Entry) (x : Exchange) : Prop :=
  exists g res, x = XPayout g (pe_Recipient e) (pe_Amount e) (pe_Reference e) res.

Lemma paid_app ref xs ys : paid ref (xs ++ ys) = paid ref xs + paid ref ys.
Proof. unfold paid. by rewrite List.filter_app, length_app. Qed.

Lemma paid_other e ref xs : Forall (attempts e) xs -> ref <> pe_Reference e -> paid ref xs = 0.
Proof.
  intros Hx Hne. induction Hx as [|x xs (g & res & ->) Hx IH]; [done|]. unfold paid in *. simpl.
  destruct res as [u|err]; [|done]. by rewrite (proj2 (String.eqb_neq _ _)).
Qed.

(** What every step of a dispatch respects when its parts do. *)
Section guarantee.
Context {W : Type} `{!Runtime W} (R : W -> W -> Prop) (s : Service W).
Hypothesis Hnow : Guar R time_Now.
Hypothesis Huuid : Guar R uuid_New.
Hypothesis Hroute : Guar R (Route (svc_router s)).
Hypothesis Hpayout : forall g a to m ref, adapters (svc_router s) !! g = Some a -> Guar R (Payout a to m ref).
Hypothesis Hledger : forall lw, svc_ledger s = Some lw ->
  (forall e, Guar R (lw_AppendEntry lw e)) /\ (forall id, Guar R (lw_ReleaseReservation lw id)).

Lemma Guar_pay batch e gs err : Guar R (pay s batch e gs err).
Proof.
  revert err. induction gs as [|g gs IH]; intros err; cbn [pay]; [guar|].
  unfold Adapter. destruct (adapters (svc_router s) !! g) as [a|] eqn:Ha; [|apply IH].
  destruct (svc_ledger s) as [lw|] eqn:E; [destruct (Hledger lw eq_refl)|]; guar; by eapply Hpayout.
Qed.

Lemma Guar_dispatch_entry batch e : Guar R (dispatch_entry s batch e).
Proof.
  unfold dispatch_entry. apply Guar_bind; [exact Hroute|]. intros gs.
  apply Guar_bind; [apply Guar_pay|]. intros err.
  destruct err, (svc_ledger s) as [lw|] eqn:E; guar. by apply Hledger.
Qed.

Lemma Guar_Dispatch batch :
  (forall l, svc_locker s = Some l -> (forall k ttl, Guar R (TryAcquire l k ttl)) /\ (forall k, Guar R (Release l k))) ->
  Guar R (Dispatch s batch).
Proof.
  intros Hlocker. unfold Dispatch. apply Guar_bind.
  - generalize (@nil string). induction (pb_Entries batch) as [|e es IH]; intros ks; cbn [dispatch_entries]; [guar|].
    destruct (svc_locker s) as [l|] eqn:E.
    + apply Guar_bind; [by apply Hlocker|]. intros [[|]|err]; [|apply IH..].
      apply Guar_bind; [apply Guar_dispatch_entry|]. intros _. apply IH.
    + apply Guar_bind; [apply Guar_dispatch_entry|]. intros _. apply IH.
  - intros ks. apply Guar_bind; [|guar]. destruct (svc_locker s) as [l|] eqn:E; [|guar].
    apply Guar_forM. intros k _. apply Guar_bind; [by apply Hlocker|guar].
Qed.
End guarantee.

Section dispatch.
Context {W : Type} `{!Runtime W} (s : Service W) (locks : W -> LockTable) (log : W -> list Exchange).
Context `{!Traced (adapters (svc_router s)) log} `{!AdaptersFrame (adapters (svc_router s)) locks}.
Context `{!RouterFrame (svc_router s) log} `{!RouterFrame (svc_router s) locks}.
Context `{!RuntimeFrame locks} `{!RuntimeFrame log}.
Hypothesis Hledger_log : forall lw, svc_ledger s = Some lw -> LedgerWriterFrame lw log.
Hypothesis Hledger_locks : forall lw, svc_ledger s = Some lw -> LedgerWriterFrame lw locks.

Lemma pay_log batch e gs err w :
  exists xs, log (run (pay s batch e gs err) w).2 = log w ++ xs
    /\ Forall (attempts e) xs /\ paid (pe_Reference e) xs <= 1.
Proof.
  revert err w. induction gs as [|g gs IH]; intros err w; cbn [pay].
  { exists []. rewrite app_nil_r. split; [done|]. split; [constructor|]. cbn. lia. }
  unfold Adapter. destruct (adapters (svc_router s) !! g) as [a|] eqn:Ha; [|apply IH]. run_simpl.
  assert (Hnow : forall w0, log (run time_Now w0).2 = log w0)
    by (intros w0; apply Preserves_run, Preserves_now, _).
  pose proof (traced_payout (log:=log) g a (pe_Recipient e) (pe_Amount e) (pe_Reference e)
                (run time_Now w).2 Ha) as Hl. rewrite Hnow in Hl.
  destruct (run (Payout a (pe_Recipient e) (pe_Amount e) (pe_Reference e)) (run time_Now w).2)
    as [[u|err'] w1]; cbn [fst snd] in *.
  - eexists. split; [|split].
    + run_simpl. rewrite <- Hl, <- (Hnow w1). apply (Preserves_run log).
      destruct (svc_ledger s) as [lw|] eqn:E; [|guar]. pose proof (Hledger_log lw eq_refl). guar.
      apply lwf_append.
    + repeat constructor. by eexists _, _.
    + unfold paid. cbn. by rewrite String.eqb_refl.
  - destruct (errors_Is err' ErrNotConfigured); run_simpl; rewrite ?Hnow.
    + eexists. split; [exact Hl|]. split; [repeat constructor; by eexists _, _|]. cbn. lia.
    + destruct (IH (Some err') (run time_Now w1).2) as (xs & Hl2 & Hx & Hp).
      rewrite Hl2, Hnow, Hl, <- app_assoc. eexists. split; [reflexivity|].
      split; [constructor; [by eexists _, _|done]|]. rewrite paid_app. cbn. lia.
Qed.

Lemma dispatch_entry_spec batch e w :
  locks (run (dispatch_entry s batch e) w).2 = locks w
  /\ exists xs, log (run (dispatch_entry s batch e) w).2 = log w ++ xs
     /\ Forall (attempts e) xs /\ paid (pe_Reference e) xs <= 1.
Proof.
  split.
  - apply (Preserves_run locks), Guar_dispatch_entry.
    + apply Preserves_now, _.
    + apply Preserves_uuid, _.
    + apply Preserves_Route; apply _.
    + intros g a to m ref Ha. by eapply frame_payout.
    + intros lw Hlw. pose proof (Hledger_locks lw Hlw). split; intros; [apply lwf_append|apply lwf_release].
  - unfold dispatch_entry. run_simpl. set (w1 := (run (Route (svc_router s)) w).2).
    assert (Hl1 : log w1 = log w) by (apply Preserves_run, Preserves_Route; apply _).
    destruct (pay_log batch e (run (Route (svc_router s)) w).1 None w1) as (xs & Hl & Hx & Hp).
    exists xs. split; [|done]. rewrite <- Hl1, <- Hl.
    destruct (run (pay s batch e _ None) w1) as [err w2]; cbn [fst snd].
    apply (Preserves_run log). destruct err, (svc_ledger s) as [lw|] eqn:E; guar.
    by apply Hledger_log.
Qed.
End dispatch.

(** ** The locks of one dispatch *)
Definition lock_key (e : Entry) : string := "payout:" ^^ pe_Reference e.

Lemma lock_key_inj e e' : lock_key e = lock_key e' -> pe_Reference e = pe_Reference e'.
Proof. apply (append_inj_l "payout:"). Qed.
Lemma lock_key_name e : lock_name (lock_key e) = true.
Proof. unfold lock_key, lock_name. simpl. by destruct (pe_Reference e). Qed.

(** The first instant from [now] on at which the lock can be taken. *)
Definition free_from (ls : LockTable) (now : Time) (key : string) : option Time :=
  match ls !! key with
  | None => Some now
  | Some (Some d) => Some (Z.max d now)
  | Some None => None
  end.

(** [n] takings of a lock that is asked for thirty seconds each, from the
    state of the table at [now] to the instant [last]. *)
Definition paced (ls : LockTable) (now last : Time) (key : string) (n : nat) : Prop :=
  n = 0 \/ exists t, free_from ls now key = Some t /\ (t + 30 * Second * (Z.of_nat n - 1) <= last)%Z.

Lemma paced_earlier ls now now' last key n :
  (now <= now')%Z -> paced ls now' last key n -> paced ls now last key n.
Proof.
  intros Hle [->|(t & Ht & Hl)]; [by left|right]. unfold free_from in *.
  destruct (ls !! key) as [[d|]|]; simplify_eq; eexists; (split; [done|lia]).
Qed.
Lemma paced_ext ls ls' now last key n : ls' !! key = ls !! key -> paced ls now last key n -> paced ls' now last key n.
Proof. unfold paced, free_from. by intros ->. Qed.
Lemma paced_fewer ls now last key n m : m <= n -> paced ls now last key n -> paced ls now last key m.
Proof.
  intros Hm [->|(t & Ht & Hl)]; [left; lia|right]. exists t. split; [done|]. unfold Second in *. nia.
Qed.

(** One more taking, before the others. *)
Lemma paced_granted ls ls' from to last key n :
  granted ls ls' from to key (30 * Second) -> (to <= last)%Z ->
  paced ls' to last key n -> paced ls from last key (S n).
Proof.
  intros (t & d & Ht & Hfree & -> & Hd) Hlast Hp. right. unfold free_from, held_at in *.
  assert (Hf : exists f, match ls !! key with None => Some from | Some (Some d) => Some (Z.max d from) | Some None => None end
                         = Some f /\ (f <= t)%Z).
  { destruct (ls !! key) as [[d'|]|]; [eexists; split; [done|lia]|tauto|eexists; split; [done|lia]]. }
  destruct Hf as (f & Hf & Hft). exists f. split; [exact Hf|].
  destruct Hp as [->|(t' & Ht' & Hl)]; [unfold Second in *; lia|].
  unfold free_from in Ht'. rewrite lookup_insert_eq in Ht'. destruct d as [d|]; [|done]. simplify_eq. simpl in Hd.
  unfold Second in *. lia.
Qed.
Lemma paced_kept ls ls' from to last key k n :
  granted ls ls' from to key (30 * Second) -> (from <= to)%Z -> (to <= last)%Z -> paced ls' to last k n -> paced ls from last k n.
Proof.
  intros Hg Ht Hlast Hp. destruct (decide (k = key)) as [->|Hne].
  - eapply paced_fewer, paced_granted; eauto.
  - apply (paced_earlier ls from to); [done|]. destruct Hg as (_ & d & _ & _ & -> & _).
    apply (paced_ext (<[key := d]> ls)); [by rewrite lookup_insert_ne|done].
Qed.

(** A lock taken from a table whose lock had lapsed or was free. *)
Definition lapsed (ls : LockTable) (last : Time) (key : string) : Prop := ~ held_at ls last key.

Lemma granted_lapsed ls ls' from to key ttl last : granted ls ls' from to key ttl -> (to <= last)%Z -> lapsed ls last key.
Proof. intros (t & d & Ht & Hfree & _) Hl Hh. apply Hfree, (held_at_earlier _ _ last); [lia|done]. Qed.

Section release.
Context {W : Type} (l : Locker W) (locks : W -> LockTable) (time : W -> Time) (log : W -> list Exchange).
Context `{!LockerSpec l locks time} `{!LockerFrame l log}.

Definition release_each (ks : list string) : Prog W unit := forM_ ks (fun k => _ ← Release l k; mret tt).

Lemma release_each_log ks w : log (run (release_each ks) w).2 = log w.
Proof. apply (Preserves_run log), Guar_forM. intros k _. guar. apply lf_release. Qed.

(** Releases touch the locks they name, and remove those that answer. *)
Lemma release_each_spec ks w :
  Forall (fun k => lock_name k = true) ks ->
  let w' := run (release_each ks) w in
  (forall k, ~ (k ∈ ks) -> locks w'.2 !! k = locks w !! k)
  /\ (releasing l -> forall k, k ∈ ks -> locks w'.2 !! k = None).
Proof.
  cbv zeta. unfold release_each. revert w. induction ks as [|k0 ks IH]; intros w Hks; cbn [forM_].
  { split; [done|]. intros _ k Hk. by apply not_elem_of_nil in Hk. }
  apply list.Forall_cons in Hks as [Hk0 Hks]. run_simpl.
  pose proof (lk_release (locks:=locks) (time:=time) k0 w Hk0) as Hr. cbv zeta in Hr.
  specialize (IH (run (Release l k0) w).2 Hks). destruct IH as (Hout & Hall).
  assert (Hne : forall k, k <> k0 -> locks (run (Release l k0) w).2 !! k = locks w !! k).
  { intros k Hk. destruct (run (Release l k0) w).1; [|destruct Hr as [Hr|Hr]]; rewrite Hr;
      rewrite ?lookup_delete_ne by done; done. }
  split.
  - intros k [Hk Hks']%not_elem_of_cons. by rewrite Hout, Hne.
  - intros Hrel k Hk. destruct (decide (k ∈ ks)) as [Hks'|Hks']; [by apply Hall|].
    apply elem_of_cons in Hk as [->|]; [|done]. rewrite Hout by done.
    pose proof (Hrel k0 w) as Hok. destruct (run (Release l k0) w).1; [|done]. by rewrite Hr, lookup_delete_eq.
Qed.
End release.

Section dispatch_all.
Context {W : Type} `{!Runtime W} (s : Service W) (l : Locker W) (locks : W -> LockTable) (time : W -> Time).
Context (log : W -> list Exchange).
Context `{!Traced (adapters (svc_router s)) log} `{!AdaptersFrame (adapters (svc_router s)) locks}.
Context `{!RouterFrame (svc_router s) log} `{!RouterFrame (svc_router s) locks}.
Context `{!RuntimeFrame locks} `{!RuntimeFrame log} `{!LockerSpec l locks time} `{!LockerFrame l log}.
Hypothesis Hledger_log : forall lw, svc_ledger s = Some lw -> LedgerWriterFrame lw log.
Hypothesis Hledger_locks : forall lw, svc_ledger s = Some lw -> LedgerWriterFrame lw locks.
Hypothesis Hlocker : svc_locker s = Some l.

(** The exchanges [xs] and the keys [deferred] of a loop over [entries] from
    [w] to [w']. *)
Record dispatched (entries : list Entry) (w w' : W) (deferred : list string) (xs : list Exchange) : Prop := {
  ds_log : log w' = log w ++ xs;
  ds_attempts : Forall (fun x => exists e, e ∈ entries /\ attempts e x /\ lapsed (locks w) (time w') (lock_key e)) xs;
  ds_pace e : paced (locks w) (time w) (time w') (lock_key e) (paid (pe_Reference e) xs);
  ds_deferred : Forall (fun k => (exists e, e ∈ entries /\ k = lock_key e) /\ lapsed (locks w) (time w') k) deferred;
  ds_others k : (forall e, e ∈ entries -> k <> lock_key e) -> locks w' !! k = locks w !! k;
  ds_untaken k : reliable l -> ~ (k ∈ deferred) -> locks w' !! k = locks w !! k }.

Lemma dispatched_nil w : dispatched [] w w [] [].
Proof.
  split; try done; [by rewrite app_nil_r|by left].
Qed.

(** An entry that is skipped: its lock is another's, or the locker failed. *)
Lemma dispatched_skip e entries w w1 w' deferred xs :
  log w1 = log w -> (time w <= time w1 <= time w')%Z ->
  locks w1 = locks w \/ ~ reliable l /\ granted (locks w) (locks w1) (time w) (time w1) (lock_key e) (30 * Second) ->
  dispatched entries w1 w' deferred xs -> dispatched (e :: entries) w w' deferred xs.
Proof.
  intros Hl Ht Hls [Hlog Hx Hp Hd Ho Htk].
  assert (Hlap : forall k, lapsed (locks w1) (time w') k -> lapsed (locks w) (time w') k).
  { intros k Hk. destruct Hls as [E|[_ Hg]]; [by rewrite E in Hk|]. destruct (decide (k = lock_key e)) as [->|Hne].
    - eapply granted_lapsed; [exact Hg|lia].
    - destruct Hg as (_ & d & _ & _ & E & _). unfold lapsed, held_at in *. by rewrite E, lookup_insert_ne in Hk by done. }
  split.
  - by rewrite Hlog, Hl.
  - revert Hx. apply Forall_impl. intros x (e' & He' & Hx & Hk). exists e'. split; [by right|]. auto.
  - intros e'. specialize (Hp e'). destruct Hls as [E|[_ Hg]].
    + rewrite E in Hp. apply (paced_earlier _ _ (time w1)); [lia|done].
    + eapply paced_kept; [exact Hg|lia..|exact Hp].
  - revert Hd. apply Forall_impl. intros k [(e' & He' & ->) Hk]. split; [exists e'; split; [by right|done]|auto].
  - intros k Hk. rewrite Ho by (intros e' He'; apply Hk; by right). destruct Hls as [->|[_ Hg]]; [done|].
    destruct Hg as (_ & d & _ & _ & -> & _). rewrite lookup_insert_ne; [done|]. intros <-. apply (Hk e); [by left|done].
  - intros k Hr. destruct Hls as [E|[Hnr _]]; [|done]. rewrite <- E. by apply Htk.
Qed.

(** An entry whose lock is taken, with the exchanges [ys] of its payout. *)
Lemma dispatched_taken e entries w w1 w2 w' deferred ys xs :
  log w1 = log w -> log w2 = log w1 ++ ys -> locks w2 = locks w1 -> (time w1 <= time w2 <= time w')%Z ->
  granted (locks w) (locks w1) (time w) (time w1) (lock_key e) (30 * Second) ->
  Forall (attempts e) ys -> paid (pe_Reference e) ys <= 1 ->
  dispatched entries w2 w' deferred xs -> dispatched (e :: entries) w w' (deferred ++ [lock_key e]) (ys ++ xs).
Proof.
  intros Hl1 Hl2 Hls Ht Hg Hys Hpaid [Hlog Hx Hp Hd Ho Htk]. rewrite Hls in *.
  assert (Hown : lapsed (locks w) (time w') (lock_key e)) by (eapply granted_lapsed; [exact Hg|lia]).
  assert (Hne : forall k, k <> lock_key e -> locks w1 !! k = locks w !! k).
  { intros k Hk. destruct Hg as (_ & d & _ & _ & -> & _). by rewrite lookup_insert_ne. }
  assert (Hlap : forall k, lapsed (locks w1) (time w') k -> lapsed (locks w) (time w') k).
  { intros k Hk. destruct (decide (k = lock_key e)) as [->|Hk0]; [done|]. unfold lapsed, held_at in *. by rewrite Hne in Hk. }
  assert (Hstart : (time w <= time w1)%Z) by (destruct Hg as (t & d & Hrange & _); lia).
  split.
  - by rewrite Hlog, Hl2, Hl1, app_assoc.
  - apply Forall_app. split.
    + revert Hys. apply Forall_impl. intros x Hxe. exists e. split; [by left|done].
    + revert Hx. apply Forall_impl. intros x (e' & He' & Hxe & Hk). exists e'. split; [by right|]. auto.
  - intros e'. specialize (Hp e'). rewrite paid_app. apply (paced_earlier _ (time w1)) in Hp; [|lia].
    destruct (decide (pe_Reference e' = pe_Reference e)) as [E|E].
    + rewrite E in *. assert (Ek : lock_key e' = lock_key e) by (unfold lock_key; by rewrite E). rewrite Ek in *.
      apply (paced_fewer _ _ _ _ (S (paid (pe_Reference e) xs))); [lia|]. eapply paced_granted; [exact Hg|lia|exact Hp].
    + rewrite (paid_other e) by done. eapply paced_kept; [exact Hg|lia..|exact Hp].
  - apply Forall_app. split; [|constructor; [|constructor]].
    + revert Hd. apply Forall_impl. intros k [(e' & He' & ->) Hk]. split; [exists e'; split; [by right|done]|auto].
    + split; [exists e; split; [by left|done]|done].
  - intros k Hk. rewrite Ho by (intros e' He'; apply Hk; by right). apply Hne, Hk. by left.
  - intros k Hr Hni. apply not_elem_of_app in Hni as [Hk Hk0]. rewrite Htk by done. apply Hne. set_solver.
Qed.

Lemma dispatch_entries_spec batch entries deferred w :
  Forward time (dispatch_entries s batch entries deferred) ->
  let out := run (dispatch_entries s batch entries deferred) w in
  (time w <= time out.2)%Z /\ exists taken xs, out.1 = taken ++ deferred /\ dispatched entries w out.2 taken xs.
Proof.
  cbv zeta. intros Hfw. split; [exact (Guar_run _ _ w Hfw)|]. revert deferred w Hfw.
  induction entries as [|e entries IH]; intros deferred w Hfw; cbn [dispatch_entries] in *.
  { exists [], []. split; [done|]. apply dispatched_nil. }
  rewrite Hlocker in *. fold (lock_key e) in *. run_simpl. apply Guar_bind_inv in Hfw as [Hacq Hfw].
  pose proof (lk_acquire (locks:=locks) (time:=time) (lock_key e) (30 * Second) w (lock_key_name e) eq_refl) as Ha.
  cbv zeta in Ha. assert (Hl : log (run (TryAcquire l (lock_key e) (30 * Second)) w).2 = log w)
    by apply (Preserves_run log), lf_acquire.
  pose proof (Guar_run _ _ w Hacq) as Ht. specialize (Hfw w).
  destruct (run (TryAcquire l (lock_key e) (30 * Second)) w) as [got w1] eqn:Eacq; cbn [fst snd] in *.
  assert (Hskip : Forward time (dispatch_entries s batch entries deferred) ->
    locks w1 = locks w \/ ~ reliable l /\ granted (locks w) (locks w1) (time w) (time w1) (lock_key e) (30 * Second) ->
    exists taken xs, (run (dispatch_entries s batch entries deferred) w1).1 = taken ++ deferred
      /\ dispatched (e :: entries) w (run (dispatch_entries s batch entries deferred) w1).2 taken xs).
  { intros Hf Hls. destruct (IH deferred w1 Hf) as (taken & xs & Ed & Hd). exists taken, xs. split; [exact Ed|].
    eapply dispatched_skip; [exact Hl| |exact Hls|exact Hd]. split; [exact Ht|exact (Guar_run _ _ w1 Hf)]. }
  destruct got as [[|]|err]; [|apply Hskip; [done|tauto]|apply Hskip; [done|]].
  - run_simpl. apply Guar_bind_inv in Hfw as [Hone Hfw]. specialize (Hfw w1).
    destruct (dispatch_entry_spec s locks log Hledger_log Hledger_locks batch e w1) as (Hh2 & ys & Hl2 & Hys & Hp).
    pose proof (Guar_run _ _ w1 Hone) as Ht2.
    destruct (run (dispatch_entry s batch e) w1) as [u w2]; cbn [fst snd] in *.
    destruct (IH (lock_key e :: deferred) w2 Hfw) as (taken & xs & Ed & Hd).
    exists (taken ++ [lock_key e]), (ys ++ xs). split; [by rewrite Ed, <- app_assoc|].
    eapply dispatched_taken; [exact Hl|exact Hl2|exact Hh2| |exact Ha|exact Hys|exact Hp|exact Hd].
    split; [exact Ht2|exact (Guar_run _ _ w2 Hfw)].
  - destruct Ha as [Ha|Ha]; [by left|right]. split; [|done]. intros [Hok _].
    specialize (Hok (lock_key e) (30 * Second)%Z w). by rewrite Eacq in Hok.
Qed.
End dispatch_all.

(** ** Properties *)

(** The total of a batch: [Create] gets past its first loop exactly when
    every amount is positive and all currencies agree (the empty one agrees
    with any), and the total is then the sum of the amounts modulo 2^64. *)
Theorem batch_total_correct es :
  (is_Ok (sum_entries Money_zero es) = true <->
     Forall (fun e => (0 < minorUnits (pe_Amount e))%Z) es /\ compatible (currencies es))
  /\ forall t, sum_entries Money_zero es = Ok t -> minorUnits t = wrap64 (amounts es).
Proof.
  pose proof (sum_entries_spec es Money_zero ltac:(done)) as H.
  assert (Hc : compatible (currency Money_zero :: currencies es) <-> compatible (currencies es)).
  { split; intros Hall a b Ha Hb; [apply Hall; by right|].
    apply elem_of_cons in Ha as [->|Ha]; [by left|].
    apply elem_of_cons in Hb as [->|Hb]; [by right; left|]. auto. }
  destruct (sum_entries Money_zero es) as [t|e]; rewrite Hc in H; simpl.
  - destruct H as (Hp & Hcomp & Hm). split; [done|]. by intros t' [= <-].
  - split; [|done]. split; [done|]. by intros [Hp Hcomp]; destruct H.
Qed.

(** The total is not guarded against overflow: a batch of two positive
    amounts can be created with a negative total. *)
Theorem batch_total_overflows :
  exists es t, sum_entries Money_zero es = Ok t
    /\ Forall (fun e => (0 < minorUnits (pe_Amount e))%Z) es /\ (minorUnits t < 0)%Z.
Proof.
  exists [{| pe_Recipient := "a"; pe_Amount := New (2 ^ 62) GHS; pe_Reference := "r1"; pe_VendorID := "" |};
          {| pe_Recipient := "b"; pe_Amount := New (2 ^ 62) GHS; pe_Reference := "r2"; pe_VendorID := "" |}],
    (New (- 2 ^ 63) GHS).
  split; [vm_compute; reflexivity|]. split; [|vm_compute; reflexivity].
  repeat constructor; vm_compute; reflexivity.
Qed.

Lemma Format_date_not_empty t : Format_date t <> "".
Proof.
  unfold Format_date. destruct (civil t) as [[y m] d].
  set (ys := if (y <? 0)%Z then _ else _). by destruct ys.
Qed.

(** The guard [key == ":"] of [Create] never holds, because the date is
    always in the key: all entries without a vendor, whoever their recipients
    are, get one and the same outbox idempotency key. *)
Theorem outbox_key_ignores_recipient k d e1 e2 :
  pe_VendorID e1 = "" -> pe_VendorID e2 = "" ->
  outbox_key k d e1 = outbox_key k d e2
  /\ outbox_key k d e1 = (if String.eqb k "" then "" else k ^^ ":") ^^ ":" ^^ Format_date d.
Proof.
  intros H1 H2. unfold outbox_key. rewrite H1, H2.
  assert (Hg : String.eqb ("" ^^ ":" ^^ Format_date d) ":" = false).
  { apply String.eqb_neq. simpl. intros E. injection E as E. by apply Format_date_not_empty in E. }
  rewrite Hg. split; [done|]. destruct (String.eqb k ""); [done|]. by rewrite append_assoc.
Qed.

