(* ===== verification/Integrity.v ===== *)
(** * What the services do to the books, among others

    The services of charges, webhooks, worker, payouts and apps in the logic
    of [RelyGuarantee]: over stores that keep the contracts below, their
    actions move the books along [G] whatever other goroutines do.  What a
    body has read stays true because [G] never takes it back: an intent and
    its product ([intent]), the reference an idempotency key is registered
    under ([registered]). *)
From S2P Require Import Prelude GoStrings Money Reference Ledger Gateway Router RouterProofs RelyGuarantee.
From S2P Require Import Charges Payload Webhooks WebhooksSpec Worker WorkerFrames Payouts PayoutsSpec Apps.

Create HintDb safe discriminated.

(** The entry that books the collection of a charge. *)
Definition collection_of (ref product : string) (e : LedgerEntry) : Prop :=
  le_Kind e = KindCollection /\ le_Ref e = ref /\ le_Product e = product.

Section contracts.
Context {W V : Type} (view : W -> V) (G : V -> V -> Prop).
Context (intent : V -> string -> string -> Prop) (registered : V -> string -> string -> string -> Prop).

Abbreviation Moves p := (Guar (fun w w' => G (view w) (view w')) p) (only parsing).

Class BooksRelation : Prop := {
  books_preorder :: PreOrder G;
  intent_stable ref product : Stable G (fun v => intent v ref product);
  registered_stable product key ref : Stable G (fun v => registered v product key ref) }.

Class WebhookStoreSafe (s : Webhooks.Store W) : Prop := {
  ws_insert id gw payload : Moves (InsertWebhookInbox s id gw payload);
  ws_delete id : Moves (DeleteWebhookInbox s id);
  ws_find ref : Safe view G (fun _ => True) (FindIntent s ref)
    (fun r v => match r with Ok i => intent v ref (in_Product i) | Err _ => True end);
  ws_fail ref : Moves (ApplyChargeOutcome s ref "failed" []);
  ws_succeed ref product e : collection_of ref product e ->
    Safe view G (fun v => intent v ref product) (ApplyChargeOutcome s ref "succeeded" [e]) (fun _ _ => True) }.

Class IntentStoreSafe (s : Charges.IntentStore W) : Prop := {
  ins_create ref req gw amount url : Safe view G (fun _ => True) (CreateIntent s ref req gw amount url)
    (fun r v => match r with
                | Ok _ => intent v ref (cr_Product req)
                          /\ (cr_IdempotencyKey req <> "" -> registered v (cr_Product req) (cr_IdempotencyKey req) ref)
                | Err _ => True end);
  ins_find_key product key : Safe view G (fun _ => True) (FindByIdempotencyKey s product key)
    (fun r v => match r with Ok (ref, true) => registered v product key ref | _ => True end);
  ins_outbox f ref gw : as_outboxWriter s = Some f -> Moves (f ref gw) }.

Class OutboxStoreSafe (s : OutboxStore W) : Prop := {
  os_claim n : Moves (ClaimPending s n);
  os_intent ref : Safe view G (fun _ => True) (GetIntent s ref)
    (fun r v => match r with Ok i => intent v ref (wi_Product i) | Err _ => True end);
  os_succeeded id ref res i : Safe view G (fun v => intent v ref (wi_Product i)) (CompleteSucceeded s id ref res i)
    (fun _ _ => True);
  os_failed id ref res : Moves (CompleteFailed s id ref res);
  os_retry id : Moves (MarkPendingRetry s id);
  os_count : Moves (CountPending s) }.

Class ReservationStoreSafe (s : ReservationStore W) : Prop := {
  rs_create b : Moves (CreateBatchWithReservations s b);
  rs_find id : Moves (FindBatch s id) }.

Class LedgerWriterSafe (l : LedgerWriter W) : Prop := {
  ls_append e : le_Kind e = KindVendorPayout -> Moves (lw_AppendEntry l e);
  ls_settle id t : Moves (lw_SettleReservation l id t);
  ls_release id : Moves (lw_ReleaseReservation l id) }.

Class AppStoreSafe (s : Apps.Store W) : Prop := {
  as_insert a hash : Moves (InsertApp s a hash);
  as_get id : Moves (GetApp s id);
  as_list : Moves (ListApps s);
  as_update id hash prefix : Moves (UpdateAppKeyHash s id hash prefix);
  as_revoke id : Moves (RevokeApp s id);
  as_by_hash hash : Moves (GetAppByHash s hash) }.
End contracts.

(** ** The services *)
Section services.
Context {W V : Type} `{!Runtime W} (view : W -> V) (G : V -> V -> Prop) `{!RuntimeFrame view}.
Context (intent : V -> string -> string -> Prop) (registered : V -> string -> string -> string -> Prop).
Context `{!BooksRelation G intent registered}.
Context (rt : ChargerRouter W) `{!RouterFrame rt view} `{!AdaptersFrame (adapters rt) view}.

Abbreviation Moves p := (Guar (fun w w' => G (view w) (view w')) p) (only parsing).
Abbreviation safe P p Q := (Safe view G P p Q) (only parsing).
(** Nothing is assumed and nothing promised, but the moves are along [G]. *)
Abbreviation Trusted p := (Safe view G (fun _ => True) p (fun _ _ => True)) (only parsing).

Lemma stable_True : Stable G (fun _ => True).
Proof. done. Qed.
Lemma stable_and P Q : Stable G P -> Stable G Q -> Stable G (fun v => P v /\ Q v).
Proof. intros HP HQ v v' Hg [Hp Hq]. split; [by eapply HP|by eapply HQ]. Qed.
Lemma stable_given (phi : Prop) P : Stable G P -> Stable G (fun v => phi -> P v).
Proof. intros HP v v' Hg Hp H. eapply HP; [done|by apply Hp]. Qed.
#[local] Hint Resolve stable_True stable_and stable_given intent_stable registered_stable : safe.

Lemma Moves_safe {A} (p : Prog W A) P : Moves p -> safe P p (fun _ _ => True).
Proof. intros Hp. apply (Safe_pre _ _ _ (fun _ => True)); [done|]. by apply Guar_Safe. Qed.

#[local] Hint Resolve ws_insert ws_delete ws_fail ins_outbox os_claim os_failed os_retry os_count rs_create rs_find
  ls_settle ls_release as_insert as_get as_list as_update as_revoke as_by_hash : guar.
#[local] Hint Resolve Preserves_parsePayload frame_verify frame_initiate frame_refund frame_payout : guar.

(** Along a body: answers, steps that promise nothing, branches. *)
Ltac safe_step :=
  lazymatch goal with
  | |- Safe _ _ _ (mret _) _ => apply Safe_ret; by auto
  | |- Safe _ _ _ (match ?x with _ => _ end) _ => destruct x eqn:?
  | |- Safe _ _ _ (mbind _ (match ?x with _ => _ end)) _ => destruct x eqn:?
  | |- Safe _ _ _ (mbind _ _) _ =>
      first [ apply (Safe_quiet view G); [solve [guar] | solve [eauto with safe] | intros ?]
            | apply (Safe_then view G); [solve [guar] | solve [eauto with safe] | intros ?] ]
  end.
Ltac safe := repeat first [ assumption | progress (cbv beta zeta) | safe_step ].

(** *** webhooks *)
Lemma apply_truth_safe s ref product v :
  WebhookStoreSafe view G intent s -> safe (fun b => intent b ref product) (apply_truth s ref product v) (fun _ _ => True).
Proof.
  intros Hs. unfold apply_truth. safe.
  eapply Safe_bind; [by eapply ws_succeed|]. intros r. by apply Safe_ret.
Qed.

Lemma Process_safe (s : Webhooks.Service W) gw payload :
  WebhookStoreSafe view G intent (Webhooks.svc_store s) -> Webhooks.svc_router s = rt ->
  Trusted (Process s gw payload).
Proof.
  intros Hs Hr. unfold Process. safe. unfold process_recorded.
  eapply Safe_bind; [apply (ws_find view G intent)|]. intros [i|e]; [|safe]. unfold Adapter. rewrite Hr. safe.
  by apply apply_truth_safe.
Qed.

(** *** charges *)
Lemma insert_outbox_moves s ref gw : IntentStoreSafe view G intent registered s -> Moves (insert_outbox s ref gw).
Proof. intros Hs. unfold insert_outbox. destruct (as_outboxWriter s) eqn:E; guar. Qed.
#[local] Hint Resolve insert_outbox_moves : guar.

(** What the fallback may fail with. *)
Context (fails : error -> Prop).
Hypothesis Hfails : forall req,
  Yields (InitiateWithFallback rt req) (fun r => match r with Err e => fails e | Ok _ => True end).

(** The reference answered is registered under the caller's key, unless no
    gateway was configured: that answer does not wait for the store's. *)
Definition answered (req : ChargeRequest) (r : result ChargeResult) (v : V) : Prop :=
  match r with
  | Ok (Pending p) => cr_IdempotencyKey req <> "" ->
      registered v (cr_Product req) (cr_IdempotencyKey req) (cp_Ref p)
      \/ exists e, fails e /\ errors_Is e ErrNotConfigured = true
  | _ => True
  end.

Lemma charge_new_safe (s : Charges.Service W) req :
  IntentStoreSafe view G intent registered (Charges.svc_store s) -> Charges.svc_router s = rt ->
  safe (fun _ => True) (charge_new s req) (answered req).
Proof.
  intros Hs Hr. unfold charge_new. rewrite Hr. apply (Safe_quiet view G); [guar|done|]. intros [|first gs]; [by apply Safe_ret|].
  apply (Safe_quiet view G); [guar|done|]. intros ulid. cbv zeta. eapply Safe_bind.
  { apply (Yields_Safe _ _ (fun _ => True)); [|apply Hfails|done]. apply (Moves_quiet view G). guar. }
  intros [[resp chosen]|e].
  - unfold charge_accepted. eapply Safe_bind.
    { apply (Safe_pre _ _ _ (fun _ => True)); [done|]. apply (ins_create view G intent registered). }
    intros [u|e]; [|by apply Safe_ret]. safe. apply Safe_ret. intros v [_ H] Hk. left. by apply H.
  - apply (Safe_pure _ _ (fails e)); [by intros v []|]. intros He. unfold charge_refused.
    destruct (errors_Is e ErrNotConfigured) eqn:En; [|by apply Safe_ret].
    eapply Safe_bind; [apply (Safe_pre _ _ _ (fun _ => True)), (ins_create view G intent registered); done|].
    intros r. apply (Safe_pre _ _ _ (fun _ => True)); [done|]. safe. apply Safe_ret. intros v _ Hk. right. by exists e.
Qed.

Lemma Initiate_safe (s : Charges.Service W) req :
  IntentStoreSafe view G intent registered (Charges.svc_store s) -> Charges.svc_router s = rt ->
  safe (fun _ => True) (Charges.Initiate s req) (answered req).
Proof.
  intros Hs Hr. unfold Charges.Initiate. destruct (validate req); [by apply Safe_ret|].
  eapply (Safe_bind _ _ _ _ _ (fun found v => forall ref, found = Some ref -> cr_IdempotencyKey req <> "" ->
    registered v (cr_Product req) (cr_IdempotencyKey req) ref)).
  { unfold seen. destruct (String.eqb_spec (cr_IdempotencyKey req) ""); [by apply Safe_ret|].
    eapply Safe_bind; [apply (ins_find_key view G intent registered)|]. intros [[ref []]|e]; apply Safe_ret; naive_solver. }
  intros [ref|]; [apply Safe_ret; intros v H; simpl; intros Hk; left; by apply H|].
  apply (Safe_pre _ _ _ (fun _ => True)); [done|]. by apply charge_new_safe.
Qed.

Lemma Status_moves (s : Charges.Service W) ref : Charges.svc_router s = rt -> Moves (Status s ref).
Proof.
  intros Hr. apply (Moves_quiet view G). unfold Status, Adapter. rewrite Hr.
  destruct (ParseReference ref) as [[[p gw] ulid]|]; [|guar].
  destruct (adapters rt !! gw) eqn:E; guar; by eapply frame_verify.
Qed.

(** *** worker *)
Section worker.
Context (wk : Worker W) (Hstore : OutboxStoreSafe view G intent (wk_store wk)) (Hrt : wk_router wk = rt).
Context (Hlock : forall l, wk_locker wk = Some l -> LockerFrame l view).

Lemma settle_safe ev i res :
  safe (fun v => intent v (ge_Ref ev) (wi_Product i)) (settle wk ev i res) (fun _ _ => True).
Proof.
  unfold settle. safe.
  eapply Safe_bind; [apply (os_succeeded view G intent)|]. intros r. by apply Safe_ret.
Qed.

Lemma process_locked_safe ev : Trusted (process_locked wk ev).
Proof.
  unfold process_locked, Adapter. rewrite Hrt. destruct (adapters rt !! ge_Gateway ev) as [a|] eqn:Ha; [|by apply Safe_ret].
  eapply Safe_bind; [apply (os_intent view G intent)|]. intros [i|e]; [|safe].
  cbn [shouldTryInitiate]. safe.
  - eapply Safe_bind; [apply (os_succeeded view G intent)|]. intros r. by apply Safe_ret.
  - by apply settle_safe.
Qed.

Lemma processOne_safe ev : Trusted (processOne wk ev).
Proof.
  unfold processOne. destruct (wk_locker wk) as [l|] eqn:El; [|apply process_locked_safe].
  pose proof (Hlock l eq_refl) as Hl. apply (Safe_quiet view G); [apply lf_acquire|done|]. intros [[|]|e]; [|by apply Safe_ret..].
  eapply Safe_bind; [apply process_locked_safe|]. intros r. apply (Safe_quiet view G); [apply lf_release|done|]. intros _. by apply Safe_ret.
Qed.

Lemma drain_safe events n : Trusted (drain wk events n).
Proof.
  revert n. induction events as [|ev events IH]; intros n; cbn [drain]; [by apply Safe_ret|].
  eapply Safe_bind; [apply processOne_safe|]. intros r. apply IH.
Qed.

Lemma DrainOutbox_safe : Trusted (DrainOutbox wk).
Proof.
  unfold DrainOutbox. safe. eapply Safe_bind; [apply drain_safe|]. intros k. by apply Safe_ret.
Qed.
Lemma Reconcile_safe : Trusted (Reconcile wk).
Proof. unfold Reconcile. safe. Qed.
End worker.

(** *** payouts *)
Section payouts.
Context (s : Payouts.Service W) (Hrt : Payouts.svc_router s = rt).
Context (Hstore : ReservationStoreSafe view G (Payouts.svc_store s)) (Hout : svc_outbox s = None).
Context (Hledger : forall l, svc_ledger s = Some l -> LedgerWriterSafe view G l).
Context (Hlock : forall l, svc_locker s = Some l -> LockerFrame l view).

Lemma Preserves_assign_references product es : Preserves view (assign_references product es).
Proof. induction es as [|e es IH]; cbn [assign_references]; [exact I|]. unfold assign_reference. guar. Qed.

Lemma Create_moves req : Moves (Payouts.Create s req).
Proof.
  pose proof (Preserves_assign_references (pc_Product req) (pc_Entries req)) as Ha.
  unfold Payouts.Create. rewrite Hout. guar; apply (Moves_quiet view G); guar.
Qed.

Lemma Get_moves id : Moves (Payouts.Get s id).
Proof. unfold Payouts.Get. guar. Qed.

Lemma pay_moves batch e gs err : Moves (pay s batch e gs err).
Proof.
  revert err. induction gs as [|g gs IH]; intros err; cbn [pay]; [exact I|].
  unfold Adapter. rewrite Hrt. destruct (adapters rt !! g) as [a|] eqn:Ha; [|apply IH].
  guar; try (apply (Moves_quiet view G); solve [guar]).
  match goal with l : LedgerWriter W |- _ => pose proof (Hledger l eq_refl) end. by apply (ls_append view G).
Qed.

Lemma dispatch_entry_moves batch e : Moves (dispatch_entry s batch e).
Proof.
  unfold dispatch_entry. rewrite Hrt. apply Guar_bind; [apply (Moves_quiet view G); guar|]. intros gs.
  apply Guar_bind; [apply pay_moves|]. intros [err|]; [|guar].
  destruct (svc_ledger s) as [l|] eqn:E; [|guar]. pose proof (Hledger l eq_refl). guar.
Qed.

Lemma dispatch_entries_moves batch es deferred : Moves (dispatch_entries s batch es deferred).
Proof.
  revert deferred. induction es as [|e es IH]; intros deferred; cbn [dispatch_entries]; [exact I|].
  pose proof (dispatch_entry_moves batch e). destruct (svc_locker s) as [l|] eqn:E; [|guar].
  pose proof (Hlock l eq_refl). guar. apply (Moves_quiet view G), lf_acquire.
Qed.

Lemma Dispatch_moves batch : Moves (Dispatch s batch).
Proof.
  unfold Dispatch. pose proof (dispatch_entries_moves batch (pb_Entries batch) []).
  destruct (svc_locker s) as [l|] eqn:E; guar. pose proof (Hlock l eq_refl).
  apply (Moves_quiet view G), Guar_forM. intros k _. apply Guar_bind; [apply lf_release|by intros].
Qed.
End payouts.

(** *** apps *)
Section apps.
Context (s : Apps.Service W) (Hstore : AppStoreSafe view G (Apps.svc_store s)).

Lemma Preserves_generateKey env : Preserves view (generateKey env).
Proof. unfold generateKey. guar. Qed.
Lemma generateKey_moves env : Moves (generateKey env).
Proof. apply (Moves_quiet view G), Preserves_generateKey. Qed.
#[local] Hint Resolve generateKey_moves : guar.

Lemma CreateApp_moves req : Moves (CreateApp s req).
Proof. unfold CreateApp. guar; apply (Moves_quiet view G); guar. Qed.
Lemma List_moves : Moves (Apps.List s).
Proof. unfold Apps.List. guar. Qed.
Lemma Get_app_moves id : Moves (Apps.Get s id).
Proof. unfold Apps.Get. guar. Qed.
Lemma RotateKey_moves id : Moves (RotateKey s id).
Proof. unfold RotateKey. guar. Qed.
Lemma Revoke_moves id : Moves (Revoke s id).
Proof. unfold Revoke. guar. Qed.
End apps.
End services.
