(* ===== verification/PgIntegrity.v ===== *)
(** * The books in Postgres

    [consistent]: the tables meet the schema, an intent that succeeded has
    the ledger entry of its collection, and a collection is one of an intent
    of the same product.  A statement of the code moves the tables along
    [moves]: it keeps them [consistent] and takes nothing back ([grows]).
    The stores of pg_store.go meet the contracts of [Integrity] with it. *)
From S2P Require Import Prelude GoStrings Money Reference Ledger Gateway Router RelyGuarantee.
From S2P Require Import Charges Payload Webhooks Worker WorkerFrames Payouts Apps.
From S2P Require Import Database DatabaseProofs History PgStore PgSpec PgOutbox Integrity Build.

(** ** What the books keep *)
Record booked (t : Tables) : Prop := {
  bo_succeeded ref i : t_intents t !! ref = Some i -> pi_Status i = "succeeded" ->
    Exists (collection_of ref (pi_Product i)) (t_ledger t);
  bo_collections : Forall (fun e => le_Kind e = KindCollection ->
    exists i, t_intents t !! le_Ref e = Some i /\ pi_Product i = le_Product e) (t_ledger t) }.
Record consistent (t : Tables) : Prop := { co_schema : schema_ok t; co_booked : booked t }.

Record moves (t t' : Tables) : Prop := {
  mv_grows : grows t t';
  mv_consistent : consistent t -> consistent t' }.
#[export] Instance moves_preorder : PreOrder moves.
Proof. split; [intros t; by split|]. intros t1 t2 t3 [] []. split; [by etrans|auto]. Qed.

Definition intent (t : Tables) (ref product : string) : Prop :=
  exists i, t_intents t !! ref = Some i /\ pi_Product i = product.
Definition registered (t : Tables) (product key ref : string) : Prop :=
  t_intent_keys t !! (product, key) = Some ref.

Lemma same_terms_product i i' : same_terms i i' -> pi_Product i' = pi_Product i.
Proof. intros E. exact (f_equal pi_Product E). Qed.
Lemma grows_intent t t' ref product : grows t t' -> intent t ref product -> intent t' ref product.
Proof.
  intros Hg (i & Hi & <-). destruct (gr_intents _ _ Hg ref i Hi) as (i' & Hi' & Hs). exists i'. split; [done|].
  by apply same_terms_product.
Qed.

#[export] Instance pg_books : BooksRelation moves intent registered.
Proof.
  split; [apply _|..]; intros; intros t t' [Hg _]; [by apply grows_intent|].
  intros Hr. by apply (lookup_weaken _ _ _ _ Hr), gr_keys.
Qed.

Lemma intent_moves ref product : Stable moves (fun t => intent t ref product).
Proof. exact (intent_stable moves intent registered ref product). Qed.
Lemma registered_moves product key ref : Stable moves (fun t => registered t product key ref).
Proof. exact (registered_stable moves intent registered product key ref). Qed.

(** ** Statements that keep the books *)
Definition Booked {A} (P : Tables -> Prop) (s : Sql A) : Prop :=
  forall now t a t', s now t = Ok (a, t') -> P t -> booked t -> booked t'.

(** Collections survive in a ledger that grows. *)
Lemma settles_collection ref product e e' : settles e e' -> collection_of ref product e -> collection_of ref product e'.
Proof. by intros [->|(_ & at_ & ->)]. Qed.
Lemma extends_Exists {A} (R : A -> A -> Prop) (P : A -> Prop) l l' :
  (forall x y, R x y -> P x -> P y) -> extends R l l' -> Exists P l -> Exists P l'.
Proof.
  intros HR (kept & new & -> & Hk) Hl. apply Exists_app. left. revert kept Hk.
  induction Hl as [x l Hx|x l Hl IH]; intros kept Hk; apply Forall2_cons_inv_l in Hk as (y & k & Hy & Hk & ->);
    [apply Exists_cons_hd; by eapply HR|apply Exists_cons_tl; by apply IH].
Qed.

(** Intents keep their product, none newly succeeded without its collection;
    entries keep what they are, a new collection is of an intent. *)
Lemma booked_grows t t' :
  grows t t' -> booked t ->
  (forall ref i', t_intents t' !! ref = Some i' -> pi_Status i' = "succeeded" ->
     Exists (collection_of ref (pi_Product i')) (t_ledger t')
     \/ exists i, t_intents t !! ref = Some i /\ pi_Status i = "succeeded") ->
  (forall kept new, t_ledger t' = kept ++ new -> length kept = length (t_ledger t) ->
     Forall (fun e => le_Kind e = KindCollection -> intent t (le_Ref e) (le_Product e)) new) ->
  booked t'.
Proof.
  intros Hg [Hs Hc] Hnew Hent. split.
  - intros ref i' Hi' Hst. destruct (Hnew ref i' Hi' Hst) as [H|(i & Hi & Hsi)]; [done|].
    destruct (gr_intents _ _ Hg ref i Hi) as (j & Hj & Ht). simplify_eq. rewrite (same_terms_product _ _ Ht).
    apply (extends_Exists settles _ (t_ledger t)); [by intros ??; apply settles_collection|apply Hg|by apply Hs].
  - destruct (gr_ledger _ _ Hg) as (kept & new & E & Hk). pose proof (Forall2_length Hk) as Hl.
    specialize (Hent kept new E (eq_sym Hl)). rewrite E. apply Forall_app. split.
    + clear Hent E Hl Hs Hnew. induction Hk as [|e e' l k He Hk IH]; [done|].
      apply Forall_cons_1 in Hc as [He0 Hc]. constructor; [|by apply IH].
      intros Hkind. apply (grows_intent t); [done|]. destruct He as [->|(_ & at_ & ->)]; by apply He0.
    + eapply Forall_impl; [|exact Hent]. intros e He Hkind. by apply (grows_intent t), He.
Qed.

(** A statement that touches neither the status of intents nor the ledger. *)
Lemma Booked_same {A} P (s : Sql A) :
  (forall now t a t', s now t = Ok (a, t') -> t_intents t' = t_intents t /\ t_ledger t' = t_ledger t) -> Booked P s.
Proof. intros Hs now t a t' H _ [H1 H2]. destruct (Hs _ _ _ _ H) as [Ei El]. split; by rewrite ?Ei, ?El. Qed.
Lemma Booked_Reads {A} P (s : Sql A) : Reads s -> Booked P s.
Proof. intros Hs. apply Booked_same. intros now t a t' H. by rewrite (Hs _ _ _ _ H). Qed.
Lemma Booked_weaken {A} (P P' : Tables -> Prop) (s : Sql A) : (forall t, P t -> P' t) -> Booked P' s -> Booked P s.
Proof. intros HP Hs now t a t' H Hp. eapply Hs; eauto. Qed.
#[local] Ltac same := apply Booked_same; keeps; try done.

Lemma no_new (t t' : Tables) (R : LedgerEntry -> Prop) kept new :
  t_ledger t' = t_ledger t -> t_ledger t' = kept ++ new -> length kept = length (t_ledger t) -> Forall R new.
Proof. intros -> E Hl. apply (f_equal length) in E. rewrite length_app in E. destruct new; [done|simpl in E; lia]. Qed.

Section statements.
Context (P : Tables -> Prop).
Lemma Booked_InsertWebhookInboxDedup id g p : Booked P (InsertWebhookInboxDedup id g p).
Proof. same. by destruct (bool_decide (is_Some (t_inbox t !! id))); sql_inv. Qed.
Lemma Booked_DeleteWebhookInbox id : Booked P (Database.DeleteWebhookInbox id).
Proof. same. Qed.
Lemma Booked_InsertGatewayEvent e : Booked P (InsertGatewayEvent e).
Proof. same. Qed.
Lemma Booked_UpdateGatewayEvent id status raw : Booked P (UpdateGatewayEvent id status raw).
Proof. same. Qed.
Lemma Booked_TouchGatewayEvent id : Booked P (TouchGatewayEvent id).
Proof. same. Qed.
Lemma Booked_SettlePayoutReservation id at_ : Booked P (SettlePayoutReservation id at_).
Proof. same. Qed.
Lemma Booked_ReleasePayoutReservation id : Booked P (ReleasePayoutReservation id).
Proof. same. Qed.
Lemma Booked_InsertApp r : Booked P (Database.InsertApp r).
Proof. same. Qed.
Lemma Booked_UpdateAppKeyHash id hash prefix : Booked P (Database.UpdateAppKeyHash id hash prefix).
Proof. same. Qed.
Lemma Booked_RevokeApp id : Booked P (Database.RevokeApp id).
Proof.
  same. destruct (t_apps t !! id) as [row|]; [|by sql_inv]. by destruct (bool_decide (is_Some (ap_RevokedAt row))); sql_inv.
Qed.
Lemma Booked_CreatePayoutBatch b : Booked P (CreatePayoutBatch b).
Proof. same. Qed.
Lemma Booked_CreatePayoutReservation r : Booked P (CreatePayoutReservation r).
Proof. same. Qed.

Lemma Booked_ApplyFailed ref status : status <> "succeeded" -> Booked P (UpdatePaymentIntentStatus ref status).
Proof.
  intros Hst now t a t' H _ Hb. assert (Hg : grows t t') by by eapply Keeps_UpdatePaymentIntentStatus.
  unfold UpdatePaymentIntentStatus in H. sql_inv. apply (booked_grows t); [done|done|..].
  - simpl. intros r i'. destruct (decide (ref = r)) as [<-|]; [rewrite lookup_alter_eq|rewrite lookup_alter_ne by done; eauto].
    destruct (t_intents t !! ref); [|done]. by intros [= <-].
  - intros kept new. by apply no_new.
Qed.

Lemma Booked_CreatePaymentIntent p : pi_Status p <> "succeeded" -> Booked P (CreatePaymentIntent p).
Proof.
  intros Hst now t a t' H _ Hb. assert (Hg : grows t t') by by eapply Keeps_CreatePaymentIntent.
  assert (Hi : t_ledger t' = t_ledger t /\ exists row, pi_Status row = pi_Status p /\ t_intents t' = <[pi_Ref p := row]> (t_intents t)).
  { unfold CreatePaymentIntent in H. sql_inv. destruct (pi_IdempotencyKey p); sql_inv;
      (split; [done|]; eexists; split; [|done]; done). }
  destruct Hi as (El & row & Es & Ei). apply (booked_grows t); [done|done|..].
  - intros r i'. rewrite Ei. destruct (decide (pi_Ref p = r)) as [<-|]; [rewrite lookup_insert_eq|rewrite lookup_insert_ne by done; eauto].
    intros [= <-]. congruence.
  - intros kept new. by apply no_new.
Qed.

Lemma Booked_Payout e : le_Kind e = KindVendorPayout -> Booked P (InsertLedgerEntry e).
Proof.
  intros Hk now t a t' H _ Hb. assert (Hg : grows t t') by by eapply Keeps_InsertLedgerEntry.
  unfold InsertLedgerEntry in H. sql_inv. apply (booked_grows t); [done|done|intros r i Hi Hs; right; by exists i|]; simpl.
  intros kept new E Hl. apply app_inj_1 in E as [_ <-]; [|done]. repeat constructor. simpl. by rewrite Hk.
Qed.
End statements.

(** The settlement of a charge: its status and its collection, in one transaction. *)
Lemma booked_settlement ref product e now t u t1 u' t2 :
  UpdatePaymentIntentStatus ref "succeeded" now t = Ok (u, t1) -> InsertLedgerEntry e now t1 = Ok (u', t2) ->
  intent t ref product -> collection_of ref product e -> booked t -> booked t2.
Proof.
  intros Hu He Hi (Hk & Hr & Hp) Hb.
  assert (Hg : grows t t2) by (etrans; [by eapply Keeps_UpdatePaymentIntentStatus|by eapply Keeps_InsertLedgerEntry]).
  unfold UpdatePaymentIntentStatus in Hu. unfold InsertLedgerEntry in He. sql_inv.
  apply (booked_grows t); [done|done|..]; simpl.
  - intros r i' Hi' Hs. destruct (decide (ref = r)) as [<-|].
    + left. apply Exists_app. right. apply Exists_cons_hd. destruct Hi as (i & Hi & Hpi).
      rewrite lookup_alter_eq, Hi in Hi'. injection Hi' as <-. split_and!; simpl; congruence.
    + right. rewrite lookup_alter_ne in Hi' by done. by exists i'.
  - intros kept new E Hl. apply app_inj_1 in E as [_ <-]; [|done]. repeat constructor. simpl. by rewrite Hr, Hp.
Qed.

Lemma Booked_ApplySucceeded ref product e : collection_of ref product e ->
  Booked (fun t => intent t ref product)
    (_ ← UpdatePaymentIntentStatus ref "succeeded"; sql_each [e] InsertLedgerEntry).
Proof. intros He now t a t' H Hi. simpl in H. sql_inv. by eapply booked_settlement. Qed.

Lemma UpdateGatewayEvent_intents id status raw now t a t' :
  UpdateGatewayEvent id status raw now t = Ok (a, t') -> t_intents t' = t_intents t.
Proof. intros H. unfold UpdateGatewayEvent in H. by sql_inv. Qed.

Lemma Booked_CompleteSucceeded id v ref product e : collection_of ref product e ->
  Booked (fun t => intent t ref product)
    (_ ← update_event id "succeeded" v; _ ← UpdatePaymentIntentStatus ref "succeeded"; InsertLedgerEntry e).
Proof.
  intros He now t a t' H Hi Hb. sql_inv. apply update_event_inv in Hs.
  eapply booked_settlement; [done|done| |done|by eapply Booked_UpdateGatewayEvent].
  unfold intent. by rewrite (UpdateGatewayEvent_intents _ _ _ _ _ _ _ Hs).
Qed.
Lemma Booked_CompleteFailed P id v ref :
  Booked P (_ ← update_event id "failed" v; UpdatePaymentIntentStatus ref "failed").
Proof.
  intros now t a t' H _ Hb. sql_inv. apply update_event_inv in Hs.
  eapply (Booked_ApplyFailed (fun _ => True)); [|done|done|by eapply Booked_UpdateGatewayEvent]. done.
Qed.
Lemma Booked_bind {A B} (s : Sql A) (f : A -> Sql B) :
  Booked (fun _ => True) s -> (forall a, Booked (fun _ => True) (f a)) -> Booked (fun _ => True) (s ≫= f).
Proof. intros Hs Hf now t a t' H _ Hb. sql_inv. eapply Hf; [done..|]. by eapply Hs. Qed.
Lemma Booked_none P {A} (body : A -> Sql unit) : Booked P (sql_each [] body).
Proof. intros now t a t' H. by injection H as _ <-. Qed.
Lemma Booked_each {A} (l : list A) (body : A -> Sql unit) :
  (forall x, Booked (fun _ => True) (body x)) -> Booked (fun _ => True) (sql_each l body).
Proof.
  intros Hb. induction l as [|x l IH]; simpl; [|by apply Booked_bind].
  intros now t a t' H. by sql_inv.
Qed.

#[export] Hint Resolve Booked_Reads Booked_bind Booked_none Booked_each Booked_InsertWebhookInboxDedup Booked_DeleteWebhookInbox
  Booked_InsertGatewayEvent Booked_TouchGatewayEvent Booked_SettlePayoutReservation Booked_ReleasePayoutReservation
  Booked_InsertApp Booked_UpdateAppKeyHash Booked_RevokeApp Booked_CreatePayoutBatch Booked_CreatePayoutReservation
  Booked_ApplyFailed Booked_Payout Booked_CompleteFailed Sound_update_event Keeps_update_event : sound.
#[local] Hint Extern 1 (_ <> _) => discriminate : sound.

(** ** A statement on the server *)
Section server.
Context {W : Type} `{!Runtime W} `{!Postgres W} (tables : W -> Tables) `{!PostgresSpec tables} `{!RuntimeFrame tables}.
Abbreviation Moves p := (Guar (fun w w' => moves (tables w) (tables w')) p) (only parsing).

Lemma query_Safe {A} P (s : Sql A) (Q : result A -> Tables -> Prop) :
  Sound s -> Keeps s -> Booked P s -> (forall r, Stable moves (Q r)) ->
  (forall now t a t', s now t = Ok (a, t') -> P t -> Q (Ok a) t') -> (forall e t, Q (Err e) t) ->
  Safe tables moves P (call (pg_exec A s)) Q.
Proof.
  intros Hs Hk Hb HQ Hok Herr. apply Safe_call; [done|]. intros w Hw. pg_cases tables s w.
  - split; [|by eapply Hok]. split; [by eapply Hk|]. intros [Hsc Hbo]. split; [by eapply Hs|by eapply Hb].
  - rewrite Hpg. split; [done|apply Herr].
Qed.
Lemma query_Trusted {A} P (s : Sql A) :
  Sound s -> Keeps s -> Booked P s -> Safe tables moves P (call (pg_exec A s)) (fun _ _ => True).
Proof. intros. by apply query_Safe. Qed.
Lemma query_Moves {A} (s : Sql A) : Sound s -> Keeps s -> Booked (fun _ => True) s -> Moves (call (pg_exec A s)).
Proof.
  intros Hs Hk Hb. apply Guar_call. intros w. pg_cases tables s w; [|by rewrite Hpg].
  split; [by eapply Hk|]. intros [Hsc Hbo]. split; [by eapply Hs|by eapply Hb].
Qed.

Lemma Moves_frame {A} (p : Prog W A) : Preserves tables p -> Moves p.
Proof. apply Guar_mono. intros w w' E. by rewrite E. Qed.
Lemma with_ids_Moves {A} (l : list A) : Moves (with_ids l).
Proof.
  apply Moves_frame. induction l as [|x l IH]; cbn [with_ids]; [exact I|]. guar.
Qed.

(** A method: statements that keep the books, clocks and identifiers. *)
#[local] Ltac moving := repeat first
  [ progress intros
  | apply Guar_ret
  | apply query_Moves; solve [eauto 10 with sound]
  | apply with_ids_Moves
  | apply Moves_frame; solve [guar]
  | apply Guar_bind
  | case_match ].

Lemma pg_fail ref : Moves (ApplyChargeOutcome ref "failed" []).
Proof. unfold ApplyChargeOutcome, WithTx. moving. Qed.

#[export] Instance pg_webhook_safe : WebhookStoreSafe tables moves intent pg_WebhookStore.
Proof.
  split; simpl; intros.
  - unfold InsertWebhookInbox, query. moving.
  - unfold DeleteWebhookInbox, query. moving.
  - unfold FindIntent, query. eapply Safe_bind; [apply (query_Safe (fun _ => True) _
      (fun r t => match r with Ok (_, _, _, product) => intent t ref product | Err _ => True end)); eauto with sound|].
    + intros [[[[]?]?]|e] t t' Hm; [by apply grows_intent, Hm|done].
    + intros now t [[[r g] st] pr] t' H _. unfold GetPaymentIntentForWebhook in H. sql_inv. apply bind_Some in H as (row & Hr & [= <- <- <- <-]).
      by exists row.
    + intros [[[[r g] st] pr]|e]; apply Safe_ret; [done|]. by destruct (errors_Is e ErrNoRows).
  - apply pg_fail.
  - unfold ApplyChargeOutcome, WithTx. eapply Safe_bind; [apply query_Trusted; eauto 10 with sound|].
    + by apply Booked_ApplySucceeded.
    + intros r. by apply Safe_ret.
Qed.

#[export] Instance pg_intent_safe : IntentStoreSafe tables moves intent registered pg_IntentStore.
Proof.
  split; simpl; intros.
  - unfold CreateIntent, query. set (row := Build_PaymentIntent _ _ _ _ _ _ _ _ _ _).
    eapply Safe_bind; [apply (query_Safe (fun _ => True) _ (fun r t => match r with
      | Ok _ => intent t ref (cr_Product req)
                /\ (cr_IdempotencyKey req <> "" -> registered t (cr_Product req) (cr_IdempotencyKey req) ref)
      | Err _ => True end)); eauto with sound|].
    + by apply Booked_CreatePaymentIntent.
    + intros [u|e] t t' Hm; [|done]. intros [Hi Hr]. split; [by eapply intent_moves|].
      intros Hk. eapply registered_moves; [done|by apply Hr].
    + intros now t u t' H _. unfold CreatePaymentIntent in H. sql_inv. simpl in H. unfold nullString in H.
      destruct (String.eqb_spec (cr_IdempotencyKey req) "") as [Hk|Hk]; sql_inv; (split; [eexists; simpl; by rewrite lookup_insert_eq|]);
        [done|]. intros _. unfold registered. simpl. by rewrite lookup_insert_eq.
    + intros [u|e]; by apply Safe_ret.
  - unfold FindByIdempotencyKey, query. eapply Safe_bind; [apply (query_Safe (fun _ => True) _ (fun r t => match r with
      | Ok ref => registered t product key ref | Err _ => True end)); eauto with sound|].
    + intros [ref|e]; [apply registered_moves|done].
    + intros now t ref t' H _. unfold GetPaymentIntentByIdempotencyKey in H. sql_inv. unfold nullString in H.
      by destruct (String.eqb key "").
    + intros [ref|e]; apply Safe_ret; [done|]. by destruct (errors_Is e ErrNoRows).
  - simplify_eq/=. unfold InsertOutboxEvent, query. moving.
Qed.

#[export] Instance pg_outbox_safe : OutboxStoreSafe tables moves intent pg_OutboxStore.
Proof.
  split; simpl; intros.
  - unfold ClaimPending, query. moving.
  - unfold GetIntent, query. eapply Safe_bind; [apply (query_Safe (fun _ => True) _ (fun r t => match r with
      | Ok row => intent t ref (pi_Product row) | Err _ => True end)); eauto with sound|].
    + intros [row|e]; [apply intent_moves|done].
    + intros now t row t' H _. unfold GetPaymentIntentByRef in H. sql_inv. by exists row.
    + intros [row|e]; apply Safe_ret; [done|]. by destruct (errors_Is e ErrNoRows).
  - unfold CompleteSucceeded, WithTx.
    eapply Safe_bind; [apply Guar_Safe; [apply Moves_frame; guar|apply intent_moves]|]. intros u.
    eapply Safe_bind; [apply Guar_Safe; [apply Moves_frame; guar|apply intent_moves]|]. intros t.
    apply query_Trusted; [eauto 10 with sound..|]. by apply Booked_CompleteSucceeded.
  - unfold CompleteFailed, WithTx. moving.
  - unfold MarkPendingRetry, query. moving.
  - unfold CountPending, query. moving.
Qed.

#[export] Instance pg_reservation_safe : ReservationStoreSafe tables moves pg_ReservationStore.
Proof.
  split; simpl; intros; [unfold CreateBatchWithReservations, WithTx|unfold FindBatch, query]; moving.
Qed.
#[export] Instance pg_ledger_writer_safe : LedgerWriterSafe tables moves (ledger_writer pg_LedgerStore).
Proof.
  split; simpl; intros; [unfold AppendEntry|unfold SettleReservation, reservationRowsChecked
    |unfold ReleaseReservation, reservationRowsChecked]; unfold query; moving.
Qed.
#[export] Instance pg_app_safe : AppStoreSafe tables moves pg_AppStore.
Proof.
  split; simpl; intros; [unfold InsertApp|unfold GetApp|unfold ListApps|unfold UpdateAppKeyHash|unfold RevokeApp
    |unfold GetAppByHash]; unfold query; moving.
Qed.
End server.
