(* ===== verification/Fleet.v ===== *)
(** * Production processes on one database

    The composition of [Build], the router, the worker and the services over
    the Postgres stores, in the logic of [RelyGuarantee]: every endpoint,
    every middleware, every round of a worker and every dispatch moves the
    tables along [moves].  [fleet_keeps_books] then holds of any number of
    processes, interleaved in any way and stopped at any point. *)
From S2P Require Import Prelude GoStrings Json JsonCodec Money Reference Config Ledger Gateway Router RouterProofs.
From S2P Require Import RelyGuarantee Valkey Http AdaptersSpec Worker WorkerFrames Charges Webhooks WebhooksSpec Payouts PayoutsSpec Apps.
From S2P Require Import Api ApiWebhooks RateLimit Handlers ListHandlers Database DatabaseProofs History PgStore PgSpec MemStore.
From S2P Require Import Observability Build BuildSpec Commands HttpRouter Integrity PgIntegrity.

(** ** What the drivers and third parties leave alone *)
Class SequenceFrame {W V} `{!ValkeyClient W} (view : W -> V) : Prop := frame_seq w : view (vk_seq w).2 = view w.
(** A query of the listings reads. *)
Class PoolFrame {W V} `{!Pool W} (view : W -> V) : Prop := frame_query q args w : view (pool_Query q args w).2 = view w.
Class FilesFrame {W V} `{!Files W} (view : W -> V) : Prop := {
  frame_stat p w : view (os_Stat p w).2 = view w;
  frame_file p r : Preserves view (http_ServeFile p r);
  frame_dir p r : Preserves view (http_FileServer p r) }.
Class MetricsFrame {W V} `{!Metrics W} (view : W -> V) : Prop := {
  frame_pattern r w : view (chi_RoutePattern r w).2 = view w;
  frame_requests a b c w : view (HTTPRequestsTotal_Inc a b c w).2 = view w;
  frame_duration a b c d w : view (HTTPRequestDuration_Observe a b c d w).2 = view w;
  frame_metrics r : Preserves view (promhttp_Handler r) }.
(** A limiter's own map is no part of the view. *)
Class BucketsFrame {W V} (get : M W Buckets) (put : Buckets -> M W unit) (view : W -> V) : Prop := {
  frame_get w : view (get w).2 = view w;
  frame_put bs w : view (put bs w).2 = view w }.

Section valkey.
Context {W V : Type} `{!Runtime W} `{!ValkeyClient W} (view : W -> V).
Context `{!RuntimeFrame view} `{!ValkeyFrame view} `{!SequenceFrame view}.

Lemma Preserves_Do c : Preserves view (Do c).
Proof. apply Guar_call. intros w. apply frame_vk. Qed.
Lemma Preserves_seq : Preserves view (call vk_seq).
Proof. apply Guar_call. intros w. apply frame_seq. Qed.
#[local] Hint Resolve Preserves_Do Preserves_seq : guar.
Lemma Preserves_DoMulti cs : Preserves view (DoMulti cs).
Proof. induction cs as [|c cs IH]; cbn [DoMulti]; guar. Qed.
#[local] Hint Resolve Preserves_DoMulti : guar.

Lemma Preserves_SuccessRate s gw : Preserves view (SuccessRate s gw).
Proof. unfold SuccessRate. guar. Qed.
Lemma Preserves_IsCircuitOpen s gw : Preserves view (IsCircuitOpen s gw).
Proof. unfold IsCircuitOpen. guar. Qed.
Lemma Preserves_P95Latency s gw : Preserves view (P95Latency s gw).
Proof. unfold P95Latency. guar. Qed.
#[export] Instance valkey_health_frame s : HealthFrame (Valkey_health s) view.
Proof.
  split; [apply Preserves_IsCircuitOpen|..]; intros f g x [= <-];
    [unfold RecordResult, maybeOpenCircuit|unfold RecordLatency]; guar.
Qed.

Lemma Preserves_Allow (l : RateLimiter W) key : BucketsFrame (rl_get l) (rl_put l) view -> Preserves view (Allow l key).
Proof.
  intros Hl.
  assert (Hg : Preserves view (call (rl_get l))) by (apply Guar_call; apply frame_get).
  assert (Hp : forall bs, Preserves view (call (rl_put l bs))) by (intros; apply Guar_call; apply frame_put).
  assert (Hm : forall k, Preserves view (allowMemory l k)) by (intros k; apply Guar_locked; [apply _|]; cbv zeta; guar).
  unfold Allow, allowValkey. guar.
Qed.
End valkey.

(** ** The payouts that [Build] wires in production

    Over Postgres and Valkey they meet the side conditions of
    [Dispatch_correct] for any view that the drivers leave alone, the table of
    the locks in the Valkey server ([LocksSpec.lock_view]) for one. *)
Section wired_payouts.
Context {W V : Type} `{!Runtime W} `{!Transport W} `{!Postgres W} `{!HasMem W} `{!ValkeyClient W} (view : W -> V).
Context `{!RuntimeFrame view} `{!TransportFrame view} `{!PostgresFrame view}.

Lemma wired_payouts cfg p pool client :
  HealthFrame (Valkey_health (NewHealthStore true)) view ->
  let s := app_Payouts (wire cfg p (Some pool) (Some client)) in
  svc_locker s = Some (Valkey_locker true)
  /\ AdaptersFrame (adapters (Payouts.svc_router s)) view /\ RouterFrame (Payouts.svc_router s) view
  /\ forall lw, svc_ledger s = Some lw -> LedgerWriterFrame lw view.
Proof.
  intros Hh. cbv zeta. split; [done|]. split; [|split].
  - cbn [app_Payouts wire Payouts.NewService fold_left Payouts.svc_router adapters NewChargerRouter].
    unfold platform_adapters. apply _.
  - intros h [= <-]. exact Hh.
  - intros lw [= <-]. split.
    + intros e. change (Preserves view (PgStore.AppendEntry e)). apply Guar_bind; [by apply Preserves_query|guar].
    + intros id. change (Preserves view (PgStore.ReleaseReservation id)). apply Guar_bind; [by apply Preserves_query|].
      intros [n|e]; [unfold reservationRowsChecked|]; guar; by apply Preserves_query.
Qed.
End wired_payouts.

(** ** Bodies that move the tables along [moves], whatever others do *)
Section trusted.
Context {W : Type} (tables : W -> Tables).

Definition Trusted {A} (p : Prog W A) : Prop := Safe tables moves (fun _ => True) p (fun _ _ => True).
Definition Serves (h : Handler W) : Prop := forall r, Trusted (h r).
(** A middleware hands requests on and touches no table itself. *)
Class Passes (m : Handler W -> Handler W) : Prop := passes h : Serves h -> Serves (m h).

Lemma Trusted_ret {A} (a : A) : Trusted (mret a).
Proof. by apply Safe_ret. Qed.
Lemma Trusted_bind {A B} (p : Prog W A) (f : A -> Prog W B) :
  Trusted p -> (forall a, Trusted (f a)) -> Trusted (p ≫= f).
Proof. intros Hp Hf. by eapply Safe_bind. Qed.
Lemma Trusted_Moves {A} (p : Prog W A) : Guar (fun w w' => moves (tables w) (tables w')) p -> Trusted p.
Proof. intros Hp. by apply Guar_Safe. Qed.
Lemma Trusted_quiet {A} (p : Prog W A) : Preserves tables p -> Trusted p.
Proof. intros Hp. apply Trusted_Moves. eapply Guar_mono, Hp. intros w w' E. by rewrite E. Qed.
Lemma Trusted_of {A} (p : Prog W A) Q : Safe tables moves (fun _ => True) p Q -> Trusted p.
Proof. apply Safe_post. done. Qed.
Lemma Trusted_forM {A} (l : list A) (body : A -> Prog W unit) :
  (forall x, Trusted (body x)) -> Trusted (forM_ l body).
Proof. intros Hb. induction l as [|x l IH]; simpl; [apply Trusted_ret|]. by apply Trusted_bind. Qed.
(** A body whose answers are known, and what follows from them. *)
Lemma Trusted_Yields {A B} (p : Prog W A) (f : A -> Prog W B) phi :
  Preserves tables p -> Yields p phi -> (forall a, phi a -> Trusted (f a)) -> Trusted (p ≫= f).
Proof.
  intros Hp Hy Hf. eapply Safe_bind.
  { eapply (Yields_Safe _ _ (fun _ => True)); [|exact Hy|done]. eapply Guar_mono, Hp. intros w w' E. by rewrite E. }
  intros a. apply (Safe_pure _ _ (phi a)); [by intros v []|]. intros Ha.
  apply (Safe_pre _ _ _ (fun _ => True)); [done|]. by apply Hf.
Qed.
End trusted.

(** The five middlewares of other packages. *)
Class MiddlewaresPass {W} `{!Middlewares W} (tables : W -> Tables) : Prop := {
  requestID_passes :: Passes tables mw_RequestID;
  realIP_passes :: Passes tables mw_RealIP;
  recoverer_passes :: Passes tables mw_Recoverer;
  heartbeat_passes path :: Passes tables (mw_Heartbeat path);
  cors_passes options :: Passes tables (mw_cors options) }.

Create HintDb fleet discriminated.
#[export] Hint Resolve Trusted_ret : fleet.
Ltac trusted := repeat first
  [ assumption | solve [eauto with fleet] | apply Trusted_ret
  | apply Trusted_quiet; solve [guar]
  | match goal with |- Trusted _ (mbind _ _) => apply Trusted_bind; [| intros ?] end
  | match goal with |- Trusted _ (match ?x with _ => _ end) => destruct x eqn:? end ].

Section fleet.
Context {W : Type} `{!Runtime W} `{!Transport W} `{!Postgres W} `{!HasMem W} `{!ValkeyClient W} `{!Telemetry W} `{!Infra W}.
Context `{!Pool W} `{!Chi} `{!Middlewares W} `{!Files W} `{!Metrics W}.
Context (tables : W -> Tables) `{!PostgresSpec tables} `{!RuntimeFrame tables} `{!TransportFrame tables}.
Context `{!ValkeyFrame tables} `{!SequenceFrame tables} `{!InfraFrame tables} `{!TelemetryFrame tables}.
Context `{!PoolFrame tables} `{!MiddlewaresPass tables} `{!FilesFrame tables} `{!MetricsFrame tables}.
Context (json_error : string -> string) (uuid_Parse : string -> option UUID) (env : string -> string) (OpenAPISpec : string).
Context (ip_get key_get : M W Buckets) (ip_put key_put : Buckets -> M W unit).
Context `{!BucketsFrame ip_get ip_put tables} `{!BucketsFrame key_get key_put tables}.

Abbreviation trusted p := (Trusted tables p) (only parsing).

(** ** The application over Postgres *)
Section application.
Context (cfg : Config) (p : Provider W) (pool : Conn) (client : option Conn).
Let a := wire cfg p (Some pool) client.

#[export] Instance app_router_frame : RouterFrame (app_Router a) tables.
Proof. intros h [= <-]. apply _. Qed.
#[export] Instance app_adapters_frame : AdaptersFrame (adapters (app_Router a)) tables.
Proof. cbn [app_Router a wire adapters NewChargerRouter]. unfold platform_adapters. apply _. Qed.

Lemma charge_trusted req : trusted (Charges.Initiate (app_Charges a) req).
Proof.
  eapply Trusted_of, (Initiate_safe tables moves intent registered (app_Router a) (fun _ => True)); [|apply _|done].
  intros r. eapply Yields_mono, Yields_True. by intros [].
Qed.
Lemma status_trusted ref : trusted (Charges.Status (app_Charges a) ref).
Proof. apply Trusted_Moves. by apply (Status_moves tables moves intent registered (app_Router a)). Qed.
Lemma callback_trusted gw payload : trusted (Process (app_Webhooks a) gw payload).
Proof. apply (Process_safe tables moves intent registered (app_Router a)); [apply _|done]. Qed.

Lemma payout_trusted req : trusted (Payouts.Create (app_Payouts a) req).
Proof. apply Trusted_Moves. apply (Create_moves tables moves intent registered); [apply _|done]. Qed.
Lemma dispatch_trusted batch : trusted (Dispatch (app_Payouts a) batch).
Proof.
  apply Trusted_Moves. apply (Dispatch_moves tables moves intent registered (app_Router a)); [done|..].
  - intros l [= <-]. apply _.
  - intros l [= <-]. apply Preserves_locker, _.
Qed.
Lemma create_app_trusted req : trusted (CreateApp (app_Apps a) req).
Proof. apply Trusted_Moves. apply (CreateApp_moves tables moves intent registered), _. Qed.
Lemma list_apps_trusted : trusted (Apps.List (app_Apps a)).
Proof. apply Trusted_Moves. apply (List_moves tables moves), _. Qed.
Lemma get_app_trusted id : trusted (Apps.Get (app_Apps a) id).
Proof. apply Trusted_Moves. apply (Get_app_moves tables moves), _. Qed.
Lemma rotate_trusted id : trusted (RotateKey (app_Apps a) id).
Proof. apply Trusted_Moves. apply (RotateKey_moves tables moves intent registered), _. Qed.
Lemma revoke_trusted id : trusted (Revoke (app_Apps a) id).
Proof. apply Trusted_Moves. apply (Revoke_moves tables moves), _. Qed.
#[local] Hint Resolve charge_trusted status_trusted callback_trusted payout_trusted dispatch_trusted create_app_trusted
  list_apps_trusted get_app_trusted rotate_trusted revoke_trusted : fleet.

(** ** The endpoints *)
Lemma create_charge_serves : Serves tables (handleCreateCharge json_error (app_Charges a)).
Proof. intros r. unfold handleCreateCharge. trusted. Qed.
Lemma charge_status_serves : Serves tables (handleChargeStatus (app_Charges a)).
Proof. intros r. unfold handleChargeStatus. trusted. Qed.
Lemma refund_serves : Serves tables (handleRefundCharge json_error (app_Router a)).
Proof.
  intros r. unfold handleRefundCharge, Adapter. trusted. apply Trusted_quiet. by eapply frame_refund.
Qed.
Lemma create_payout_serves : Serves tables (handleCreatePayout json_error (app_Payouts a)).
Proof. intros r. unfold handleCreatePayout. trusted. Qed.
Lemma create_app_serves : Serves tables (handleCreateApp json_error (app_Apps a)).
Proof. intros r. unfold handleCreateApp. trusted. Qed.
Lemma list_apps_serves : Serves tables (handleListApps (app_Apps a)).
Proof. intros r. unfold handleListApps. trusted. Qed.
Lemma get_app_serves : Serves tables (handleGetApp uuid_Parse (app_Apps a)).
Proof. intros r. unfold handleGetApp, with_app_id. trusted. Qed.
Lemma rotate_serves : Serves tables (handleRotateAppKey uuid_Parse (app_Apps a)).
Proof. intros r. unfold handleRotateAppKey, with_app_id. trusted. Qed.
Lemma revoke_serves : Serves tables (handleRevokeApp uuid_Parse (app_Apps a)).
Proof. intros r. unfold handleRevokeApp, with_app_id. trusted. Qed.
Lemma webhook_serves gw : Serves tables (handleWebhook cfg (app_Webhooks a) gw).
Proof. intros r. unfold handleWebhook, verifyWebhook, verify_standard. trusted. Qed.
Lemma paystack_callback_serves : Serves tables (handlePaystackCallback (Some (app_Router a))).
Proof.
  intros r. unfold handlePaystackCallback. cbn [mbind option_bind].
  destruct (String.eqb _ ""); [apply Trusted_ret|].
  destruct (callback_adapter (app_Router a) _) as [ad|] eqn:E; [|apply Trusted_ret].
  assert (Hg : exists g, adapters (app_Router a) !! g = Some ad).
  { unfold callback_adapter, Adapter in E. destruct (adapters (app_Router a) !! GatewayPaystack) eqn:Ep; [simplify_eq; eauto|].
    destruct (ParseReference _) as [[[? g] ?]|]; [eauto|done]. }
  destruct Hg as [g Hg]. apply Trusted_bind; [|intros; apply Trusted_ret]. apply Trusted_quiet. by eapply frame_verify.
Qed.

(** ** Listings and health *)
Lemma Preserves_query_pool q args : Preserves tables (call (pool_Query q args)).
Proof. apply Guar_call. intros w. apply frame_query. Qed.
#[local] Hint Resolve Preserves_query_pool : guar.
Lemma list_charges_serves b : Serves tables (handleListCharges b).
Proof. intros r. unfold handleListCharges, when_pool, list_rows. destruct (charges_query _ _ _ _). trusted. Qed.
Lemma list_ledger_serves b : Serves tables (handleListLedger b).
Proof. intros r. unfold handleListLedger, when_pool, list_rows. destruct (ledger_query _ _). trusted. Qed.
Lemma list_webhooks_serves b : Serves tables (handleListWebhooks b).
Proof. intros r. unfold handleListWebhooks, when_pool, list_rows. destruct (webhooks_query _). trusted. Qed.
Lemma Preserves_batch_rows rows : Preserves tables (batch_rows rows).
Proof. induction rows as [|x rows IH]; cbn [batch_rows]; unfold vendor_count; guar. Qed.
#[local] Hint Resolve Preserves_batch_rows : guar.
Lemma list_payouts_serves b : Serves tables (handleListPayouts b).
Proof. intros r. unfold handleListPayouts, when_pool. trusted. Qed.
#[local] Hint Resolve Preserves_SuccessRate Preserves_IsCircuitOpen Preserves_P95Latency : guar.
Lemma gateway_health_serves b : Serves tables (handleGatewayHealth (Payments cfg) b (Some (app_Router a))).
Proof.
  pose proof (Preserves_Route (app_Router a) tables) as Hr. intros r. unfold handleGatewayHealth, health_row. trusted.
Qed.
Lemma readiness_serves : Serves tables (readinessHandler a).
Proof.
  intros r. unfold readinessHandler, probe.
  assert (Hp : forall c, Preserves tables (call (pool_Ping c))) by (intros c; apply Guar_call, frame_pool_ping).
  assert (Hv : forall c, Preserves tables (call (valkey_Ping c))) by (intros c; apply Guar_call, frame_valkey_ping).
  trusted.
Qed.
Lemma login_serves : Serves tables (handleLogin json_error cfg).
Proof. intros r. unfold handleLogin. trusted. Qed.
Lemma session_serves : Serves tables (handleSession cfg).
Proof. intros r. unfold handleSession, hasValidSession. trusted. Qed.
Lemma logout_serves : Serves tables (handleLogout (W:=W) cfg).
Proof. intros r. apply Trusted_ret. Qed.
Lemma page_serves resp : Serves tables (fun _ => mret resp).
Proof. intros r. apply Trusted_ret. Qed.
Lemma metrics_serves : Serves tables promhttp_Handler.
Proof. intros r. apply Trusted_quiet, frame_metrics. Qed.

(** ** Routing *)
Lemma mux_serves rs notFound path :
  Forall (fun rt => forall rest, Serves tables (rt_Handler rt rest)) rs -> Serves tables notFound ->
  Serves tables (mux rs notFound path).
Proof.
  intros Hrs Hnf r. unfold mux. destruct (chi_find _ _ _) as [i ps rest|allow|]; [|apply Trusted_ret|apply Hnf].
  destruct (rs !! i) as [rt|] eqn:Hi; [|apply Hnf]. by apply (Forall_lookup_1 _ _ _ _ Hrs Hi).
Qed.

Lemma v1_passes l : BucketsFrame (rl_get l) (rl_put l) tables -> Passes tables (v1 cfg l).
Proof.
  intros Hl h Hh r. pose proof (Preserves_Allow tables l) as Ha.
  assert (Hk : Serves tables (rateLimitAPIKeyMiddleware l h)).
  { intros r'. specialize (Hh r'). unfold rateLimitAPIKeyMiddleware. trusted. }
  specialize (Hk r). unfold v1, bearerAuth, hasValidSession. trusted.
Qed.
#[local] Instance rate_limit_passes l : BucketsFrame (rl_get l) (rl_put l) tables -> Passes tables (rateLimitIPMiddleware l).
Proof.
  intros Hl h Hh r. pose proof (Preserves_Allow tables l) as Ha. specialize (Hh r). unfold rateLimitIPMiddleware. trusted.
Qed.
#[local] Instance prometheus_passes : Passes tables prometheusMiddleware.
Proof.
  intros h Hh r. specialize (Hh r). unfold prometheusMiddleware.
  assert (Hp : Preserves tables (call (chi_RoutePattern r))) by (apply Guar_call; intros w; apply frame_pattern).
  assert (Hc : forall x y z, Preserves tables (call (HTTPRequestsTotal_Inc x y z)))
    by (intros; apply Guar_call; intros w; apply frame_requests).
  assert (Hd : forall x y z d, Preserves tables (call (HTTPRequestDuration_Observe x y z d)))
    by (intros; apply Guar_call; intros w; apply frame_duration).
  trusted.
Qed.

Lemma limiters_frames :
  let ls := limiters ip_get key_get ip_put key_put a in
  BucketsFrame (rl_get ls.1) (rl_put ls.1) tables /\ BucketsFrame (rl_get ls.2) (rl_put ls.2) tables.
Proof.
  unfold limiters, buildRateLimiters, newRateLimiter. destruct (negb _); simpl; [done|].
  by destruct (_ <=? 0)%Z, (_ <=? 0)%Z.
Qed.

Lemma v1_routes_serve :
  Forall (fun rt => forall rest, Serves tables (rt_Handler rt rest)) (v1_routes json_error uuid_Parse a).
Proof.
  unfold v1_routes. rewrite !list.Forall_cons, list.Forall_nil. split_and!; [intros rest; cbn [rt_Handler HttpRouter.Get Post Delete]..|done];
    [apply create_charge_serves|apply list_charges_serves|apply charge_status_serves|apply refund_serves
    |apply create_payout_serves|apply list_payouts_serves|apply list_ledger_serves|apply list_webhooks_serves
    |apply gateway_health_serves|apply create_app_serves|apply list_apps_serves
    |apply get_app_serves|apply rotate_serves|apply revoke_serves
    |apply get_app_serves|apply rotate_serves|apply revoke_serves].
Qed.

Lemma routes_serve notFound : Serves tables notFound ->
  Forall (fun rt => forall rest, Serves tables (rt_Handler rt rest))
    (routes json_error OpenAPISpec ip_get key_get ip_put key_put a (v1_routes json_error uuid_Parse a) notFound).
Proof.
  intros Hnf. unfold routes. rewrite !list.Forall_cons, list.Forall_nil.
  split_and!; [intros rest; cbn [rt_Handler HttpRouter.Get Post Mount]..|done];
    [apply page_serves|apply readiness_serves|apply metrics_serves|apply page_serves|apply page_serves
    |apply login_serves|apply session_serves|apply logout_serves| |apply paystack_callback_serves
    |apply webhook_serves..].
  apply v1_passes; [apply limiters_frames|]. by apply mux_serves; [apply v1_routes_serve|].
Qed.

Lemma dashboard_serves dir : Serves tables (serve_dashboard dir).
Proof.
  assert (Hs : forall x, Preserves tables (call (os_Stat x))) by (intros; apply Guar_call, frame_stat).
  assert (Hf : forall x y, Preserves tables (http_ServeFile x y)) by (intros; apply frame_file).
  assert (Hd : forall x y, Preserves tables (http_FileServer x y)) by (intros; apply frame_dir).
  intros r. unfold serve_dashboard. trusted.
Qed.

Lemma serve_serves notFound : Serves tables notFound ->
  Serves tables (serve json_error env OpenAPISpec ip_get key_get ip_put key_put a (v1_routes json_error uuid_Parse a) notFound).
Proof.
  intros Hnf. unfold serve. pose proof (proj1 limiters_frames).
  do 7 (apply passes; [apply _|]). intros r. by apply mux_serves; [apply routes_serve|].
Qed.

(** ** Worker rounds *)
Lemma app_locker_frame l : Some (app_Locker a) = Some l -> LockerFrame l tables.
Proof. intros [= <-]. by apply Preserves_locker. Qed.
Lemma drain_trusted : trusted (drainOutbox a).
Proof.
  unfold drainOutbox, buildWorker. cbn [app_PgStore a wire opened]. apply Trusted_bind; [|intros; apply Trusted_ret].
  apply (DrainOutbox_safe tables moves intent registered (app_Router a)); [apply _|done|apply app_locker_frame].
Qed.
Lemma reconcile_trusted : trusted (reconcile a).
Proof.
  unfold reconcile, buildWorker. cbn [app_PgStore a wire opened]. apply Trusted_bind; [|intros; apply Trusted_ret].
  apply (Reconcile_safe tables moves intent), _.
Qed.
End application.

(** ** Processes *)
Lemma find_dashboard_frame dirs : Preserves tables (find_dashboard dirs).
Proof.
  assert (Hs : forall x, Preserves tables (call (os_Stat x))) by (intros; apply Guar_call, frame_stat).
  induction dirs as [|d dirs IH]; cbn [find_dashboard]; guar.
Qed.

Lemma Setup_frame cfg : Preserves tables (Setup cfg).
Proof.
  assert (He : forall url, Preserves tables (call (otlptracehttp_New url))) by (intros; apply Guar_call, frame_exporter).
  unfold Setup. guar.
Qed.
(** The provider's shutdown touches no table. *)
Lemma Setup_yields cfg : Yields (Setup cfg) (fun r => match r with Ok p => Preserves tables (Shutdown p) | Err _ => True end).
Proof.
  assert (Ht : forall tp, Preserves tables (call (tp_Shutdown tp))) by (intros; apply Guar_call, frame_tp_shutdown).
  unfold Setup, Shutdown. destruct (negb _); [apply Yields_ret; cbn [pr_shutdown shutdown_all]; guar|].
  eapply Yields_bind; [apply Yields_True|]. intros [tp|e] _; apply Yields_ret; [cbn [pr_shutdown shutdown_all]; guar|done].
Qed.

Lemma infra_frames :
  (forall url n, Preserves tables (call (pgxpool_NewWithConfig url n))) /\ (forall c, Preserves tables (call (pool_Ping c)))
  /\ (forall c, Preserves tables (call (pool_Close c))) /\ (forall o, Preserves tables (call (valkey_NewClient o)))
  /\ (forall c, Preserves tables (call (valkey_Ping c))) /\ (forall c, Preserves tables (call (valkey_Close c))).
Proof. split_and!; intros; apply Guar_call; intros w; apply InfraFrame0. Qed.
Lemma close_pool_frame x : Preserves tables (close_pool x).
Proof. destruct x; [apply infra_frames|exact I]. Qed.
Lemma close_valkey_frame x : Preserves tables (close_valkey x).
Proof. destruct x; [apply infra_frames|exact I]. Qed.
#[local] Hint Resolve close_pool_frame close_valkey_frame find_dashboard_frame : guar.
Lemma open_pool_frame cfg : Preserves tables (open_pool cfg).
Proof. destruct infra_frames as (? & ? & ? & ? & ? & ?). unfold open_pool, newPool. guar. Qed.
Lemma open_valkey_frame cfg pool : Preserves tables (open_valkey cfg pool).
Proof. destruct infra_frames as (? & ? & ? & ? & ? & ?). unfold open_valkey, newValkey. guar. Qed.

(** What [Build] answers in production. *)
Definition production_app (cfg : Config) (r : result (App W)) : Prop :=
  match r with
  | Ok a => exists p pool client, a = wire cfg p (Some pool) client /\ Preserves tables (Shutdown p)
  | Err _ => True
  end.
Lemma Build_frame cfg : is_production cfg = true -> Preserves tables (Build cfg).
Proof.
  intros Hprod. pose proof (Setup_frame (Observ cfg)). pose proof (open_pool_frame cfg). pose proof (open_valkey_frame cfg).
  unfold Build. rewrite Hprod. apply Guar_bind; [done|]. intros [p|e]; [|guar].
  apply Guar_bind; [done|]. intros [[pool|]|e]; cbn [opened negb andb]; guar.
Qed.
Lemma Build_yields cfg : is_production cfg = true -> Yields (Build cfg) (production_app cfg).
Proof.
  intros Hprod. unfold Build. rewrite Hprod. eapply Yields_bind; [apply Setup_yields|]. intros [p|e] Hp; [|by apply Yields_ret].
  eapply Yields_bind; [apply Yields_True|]. intros [[pool|]|e] _; cbn [opened negb andb]; [|by apply Yields_ret..].
  eapply Yields_bind; [apply Yields_True|]. intros [client|e] _; [|by apply Yields_ret].
  destruct (negb (opened client)); cbn [andb].
  - eapply Yields_bind; [apply Yields_True|]. intros _ _. by apply Yields_ret.
  - eapply Yields_bind; [apply Yields_True|]. intros _ _. apply Yields_ret. by exists p, pool, client.
Qed.
Lemma Build_trusted {A} cfg (k : result (App W) -> Prog W A) :
  is_production cfg = true -> (forall r, production_app cfg r -> trusted (k r)) -> trusted (Build cfg ≫= k).
Proof. intros Hprod. apply Trusted_Yields; [by apply Build_frame|by apply Build_yields]. Qed.

Lemma Close_trusted cfg p pool client :
  Preserves tables (Shutdown p) -> trusted (Close (wire cfg p (Some pool) client)).
Proof. intros Hp. unfold Close. cbn [app_Valkey app_Pool app_Observ wire]. apply Trusted_quiet. guar. Qed.

Lemma closing_trusted cfg p pool client body :
  Preserves tables (Shutdown p) -> trusted body -> trusted (closing (wire cfg p (Some pool) client) body).
Proof.
  intros Hp Hb. unfold closing. apply Trusted_bind; [done|]. intros [res|]; [|apply Trusted_ret].
  apply Trusted_bind; [by apply Close_trusted|]. intros _. apply Trusted_ret.
Qed.

(** [run] of cmd/worker. *)
Lemma run_worker_trusted cfg events : is_production cfg = true -> trusted (run_worker (Ok cfg) events).
Proof.
  intros Hprod. unfold run_worker. apply Build_trusted; [done|]. intros [a|e] Ha; [|apply Trusted_ret].
  destruct Ha as (p & pool & client & -> & Hp). apply closing_trusted; [done|].
  induction events as [|[] events IH]; cbn [worker_loop]; [apply Trusted_ret| |apply Trusted_ret].
  apply Trusted_bind; [apply drain_trusted|]. intros _. apply Trusted_bind; [apply reconcile_trusted|]. by intros _.
Qed.

(** ** Actors *)

(** Whatever production processes run: a worker from its start to its end,
    [Build] itself, and on an application that it answered, requests through
    the router and dispatches of batches. *)
Inductive actor : Prog W unit -> Prop :=
| ac_worker cfg events : is_production cfg = true -> actor (forget (run_worker (Ok cfg) events))
| ac_build cfg : is_production cfg = true -> actor (forget (Build cfg))
| ac_request cfg a dir r : production_app cfg (Ok a) ->
    actor (forget (serve json_error env OpenAPISpec ip_get key_get ip_put key_put a
                     (v1_routes json_error uuid_Parse a) (serve_dashboard dir) r))
| ac_dispatch cfg a batch : production_app cfg (Ok a) -> actor (forget (Dispatch (app_Payouts a) batch)).

Lemma actor_trusted q : actor q -> trusted q.
Proof.
  destruct 1 as [cfg events Hp|cfg Hp|cfg a dir r Ha|cfg a batch Ha]; unfold forget.
  - apply Trusted_bind; [by apply run_worker_trusted|]. intros. apply Trusted_ret.
  - apply Build_trusted; [done|]. intros. apply Trusted_ret.
  - destruct Ha as (p & pool & client & -> & _). apply Trusted_bind; [|intros; apply Trusted_ret].
    apply serve_serves, dashboard_serves.
  - destruct Ha as (p & pool & client & -> & _). apply Trusted_bind; [apply dispatch_trusted|]. intros. apply Trusted_ret.
Qed.

(** C3: However many production processes run on one database, whatever they
    serve, drain and pay out, in any interleaving and stopped at any point,
    nothing that was stored is taken back, and [consistent] tables stay so:
    they meet the schema, every succeeded charge has the entry of its
    collection, and every collection is one of a known charge of its product. *)
Theorem fleet_keeps_books sch actors w :
  Forall actor actors ->
  let w' := (sched sch actors w).2 in
  grows (tables w) (tables w') /\ (consistent (tables w) -> consistent (tables w')).
Proof.
  intros Hs. destruct (sched_Safe tables moves sch actors (map (fun _ _ _ => True) actors) w) as [[] _]; [|done].
  apply Forall2_fmap_r, Forall_Forall2_diag. eapply Forall_impl; [|exact Hs]. intros q Hq.
  exists (fun _ => True). split; [done|]. split; [done|]. by apply actor_trusted.
Qed.
End fleet.
