(* ===== verification/FleetCharges.v ===== *)
(** * One idempotency key, one charge

    Charges made at the same time under one key, by any processes: those that
    are answered as pending are answered with one reference, the one the key
    is registered under in Postgres.  This needs every gateway configured: the
    answer to a charge that no gateway could take does not wait for the
    store's ([answered]). *)
From S2P Require Import Prelude GoStrings Json JsonCodec Money Reference Config Ledger Gateway Router RouterProofs.
From S2P Require Import RelyGuarantee Valkey Http HubtelAdapter PaystackAdapter MoolreAdapter AdaptersSpec Worker Charges Payouts.
From S2P Require Import Api RateLimit ListHandlers Database DatabaseProofs History PgStore PgSpec MemStore.
From S2P Require Import Observability Build BuildSpec Commands HttpRouter Integrity PgIntegrity Fleet.

(** An error that is not the adapters' own "not configured". *)
Definition configured_error (e : error) : Prop := errors_Is e ErrNotConfigured = false.
Abbreviation reached r := (match r with Ok _ => True | Err e => configured_error e end) (only parsing).

(** No error of the network or of [url.Parse] is the package's sentinel. *)
Class TransportErrors {W} `{!Transport W} : Prop := {
  network_error rq w e : (client_Do rq w).1 = Err e -> configured_error e;
  url_error u e : bad_URL u = Some e -> configured_error e }.

Lemma configured_Errorf p e : configured_error e -> configured_error (Errorf p e).
Proof. unfold configured_error, ErrNotConfigured. by rewrite errors_Is_Errorf. Qed.

(** All three gateways have their credentials. *)
Definition all_configured (cfg : PaymentsConfig) : Prop :=
  Hubtel_Disabled (Hubtel cfg) = false /\ Paystack_Disabled (Paystack cfg) = false /\ Moolre_Disabled (Moolre cfg) = false.

Section errors.
Context {W : Type} `{!Runtime W} `{!Transport W} `{!TransportErrors (W:=W)}.

Lemma send_reached p q rq : Yields (send (W:=W) p q rq) (fun r => reached r).
Proof.
  unfold send. destruct (bad_URL (hq_URL rq)) eqn:E; [by apply Yields_ret, configured_Errorf, (url_error _ _ E)|].
  eapply (Yields_bind _ _ (fun r => reached r)).
  { apply Yields_call. intros w. destruct (client_Do rq w).1 eqn:E2; [done|]. by eapply network_error. }
  intros [resp|e] He; apply Yields_ret; [done|]. by apply configured_Errorf.
Qed.

(** The rest of an [Initiate], after the exchange. *)
Lemma initiate_reached p q rq (f : result (Z * string) -> result InitiateResponse) :
  (forall e, configured_error e -> f (Err e) = Err e) -> (forall x, reached (f (Ok x))) ->
  Yields (res ← send (W:=W) p q rq; mret (f res)) (fun r => reached r).
Proof.
  intros He Hok. eapply Yields_bind; [apply send_reached|]. intros [x|e] H; apply Yields_ret; [apply Hok|].
  by rewrite He.
Qed.

Lemma hubtel_reached a req : Hubtel_Disabled (ha_cfg a) = false -> Yields (hubtel_Initiate (W:=W) a req) (fun r => reached r).
Proof.
  intros Ha. unfold hubtel_Initiate. rewrite Ha. apply initiate_reached; [done|]. intros [status body].
  destruct (status >=? 500)%Z; [done|]. destruct (status >=? 400)%Z; [done|].
  unfold hubtel_accepted. destruct (read_hubtel body) as [hr|]; [|done]. by destruct (negb _).
Qed.
Lemma paystack_reached a req : Paystack_Disabled (pa_cfg a) = false -> Yields (paystack_Initiate (W:=W) a req) (fun r => reached r).
Proof.
  intros Ha. unfold paystack_Initiate. rewrite Ha. apply initiate_reached; [done|]. intros [status body].
  destruct (status >=? 500)%Z; [done|]. destruct (status >=? 400)%Z; [done|].
  unfold paystack_accepted. destruct (Unmarshal _ _ body) as [pr|]; [|done]. by destruct (negb _).
Qed.
Lemma moolre_reached a req : Moolre_Disabled (ma_cfg a) = false -> Yields (moolre_Initiate (W:=W) a req) (fun r => reached r).
Proof.
  intros Ha. unfold moolre_Initiate. rewrite Ha. apply initiate_reached; [done|]. intros [status body].
  destruct (status >=? 500)%Z; [done|]. destruct (status >=? 400)%Z; [done|].
  unfold moolre_accepted. destruct (read_moolre body) as [env|]; [|done]. by destruct (negb _).
Qed.

Lemma adapters_reached cfg g a req :
  all_configured cfg -> platform_adapters (W:=W) cfg !! g = Some a -> Yields (Gateway.Initiate a req) (fun r => reached r).
Proof.
  intros (Hh & Hp & Hm) Ha. unfold platform_adapters in Ha. cbv zeta in Ha.
  repeat (apply lookup_insert_Some in Ha as [[_ <-]|[_ Ha]]); [apply hubtel_reached|apply paystack_reached
    |apply moolre_reached|by apply lookup_empty_Some in Ha];
    cbn [fold_left ha_cfg pa_cfg ma_cfg NewHubtelAdapter NewPaystackAdapter NewMoolreAdapter
         WithHubtelCallbackURL WithPaystackCallbackURL];
    [by destruct (String.eqb (H_BaseURL _) "")|by destruct (String.eqb (P_BaseURL _) "")|by destruct (String.eqb (M_BaseURL _) "")].
Qed.

Lemma fallback_reached (rt : ChargerRouter W) req gs last :
  (forall g a r, adapters rt !! g = Some a -> Yields (Gateway.Initiate a r) (fun r => reached r)) ->
  (forall e, last = Some e -> configured_error e) -> Yields (fallback rt req gs last) (fun r => reached r).
Proof.
  intros Hads. revert last. induction gs as [|g gs IH]; intros last Hl; cbn [fallback].
  { apply Yields_ret. destruct last as [e|]; [by apply Hl|done]. }
  destruct (adapters rt !! g) as [a|] eqn:Ea; [|by apply IH].
  eapply Yields_bind; [apply Yields_True|]. intros start _. eapply Yields_bind; [by eapply Hads|]. intros res Hres.
  eapply Yields_bind; [apply Yields_True|]. intros stop _. cbv zeta. destruct res as [resp|e].
  - eapply Yields_bind; [apply Yields_True|]. intros _ _. by apply Yields_ret.
  - rewrite Hres. eapply Yields_bind; [apply Yields_True|]. intros _ _. apply IH. intros e' [= <-]. by apply configured_Errorf.
Qed.
Lemma router_reached cfg (h : option (Router.HealthStore W)) req :
  all_configured cfg -> Yields (InitiateWithFallback (NewChargerRouter cfg h (platform_adapters cfg)) req) (fun r => reached r).
Proof.
  intros Hc. unfold InitiateWithFallback. eapply Yields_bind; [apply Yields_True|]. intros gs _.
  apply fallback_reached; [|done]. intros g a r. by apply adapters_reached.
Qed.
End errors.

(** ** Charges among the other actors *)
Section charges.
Context {W : Type} `{!Runtime W} `{!Transport W} `{!Postgres W} `{!HasMem W} `{!ValkeyClient W} `{!Telemetry W} `{!Infra W}.
Context `{!Pool W} `{!Chi} `{!Middlewares W} `{!Files W} `{!Metrics W}.
Context (tables : W -> Tables) `{!PostgresSpec tables} `{!RuntimeFrame tables} `{!TransportFrame tables}.
Context `{!ValkeyFrame tables} `{!SequenceFrame tables} `{!InfraFrame tables} `{!TelemetryFrame tables}.
Context `{!PoolFrame tables} `{!MiddlewaresPass tables} `{!FilesFrame tables} `{!MetricsFrame tables}.
Context (json_error : string -> string) (uuid_Parse : string -> option UUID) (env : string -> string) (OpenAPISpec : string).
Context (ip_get key_get : M W Buckets) (ip_put key_put : Buckets -> M W unit).
Context `{!BucketsFrame ip_get ip_put tables} `{!BucketsFrame key_get key_put tables} `{!TransportErrors (W:=W)}.

(** A charge on an application, or anything else of a fleet. *)
Inductive Task := Charging (a : App W) (req : ChargeRequest) | Aside (q : Prog W unit).
Definition body (t : Task) : Prog W (option (result ChargeResult)) :=
  match t with
  | Charging a req => r ← Charges.Initiate (app_Charges a) req; mret (Some r)
  | Aside q => _ ← q; mret None
  end.
Definition allowed (t : Task) : Prop :=
  match t with
  | Charging a req => exists cfg, production_app tables cfg (Ok a) /\ all_configured (Payments cfg)
  | Aside q => actor tables json_error uuid_Parse env OpenAPISpec ip_get key_get ip_put key_put q
  end.

(** What a task promises of its answer. *)
Definition promises (t : Task) (r : option (result ChargeResult)) (v : Tables) : Prop :=
  match t, r with
  | Charging a req, Some (Ok (Pending p)) =>
      cr_IdempotencyKey req <> "" -> registered v (cr_Product req) (cr_IdempotencyKey req) (cp_Ref p)
  | _, _ => True
  end.

Lemma body_ok t w : allowed t -> thread_ok tables moves (tables w) (body t) (promises t).
Proof.
  intros Ht. exists (fun _ => True). split; [done|]. split; [done|]. destruct t as [a req|q]; cbn [body].
  - destruct Ht as (cfg & (p & pool & client & -> & _) & Hc). set (a := wire cfg p (Some pool) client).
    eapply Safe_bind.
    + apply (Initiate_safe tables moves intent registered (app_Router a) configured_error); [|apply _|done].
      intros r. by apply router_reached.
    + intros r. apply Safe_ret. intros v Hv. destruct r as [[]|e]; try done. intros Hk.
      destruct (Hv Hk) as [|(e & He & Hn)]; [done|]. unfold configured_error in He. congruence.
  - eapply (Safe_bind _ _ _ _ _ (fun _ _ => True)); [|intros u; by apply Safe_ret].
    exact (actor_trusted tables json_error uuid_Parse env OpenAPISpec ip_get key_get ip_put key_put q Ht).
Qed.

(** C4: Of charges made under one product and idempotency key, at the same time
    or not, by any processes among any others, those answered as pending are
    answered with one reference, the one the key is registered under in
    Postgres, as long as every gateway is configured. *)
Theorem one_key_one_charge sch tasks w i j a a' req req' p p' :
  Forall allowed tasks ->
  tasks !! i = Some (Charging a req) -> tasks !! j = Some (Charging a' req') ->
  cr_Product req' = cr_Product req -> cr_IdempotencyKey req' = cr_IdempotencyKey req -> cr_IdempotencyKey req <> "" ->
  let out := sched sch (map body tasks) w in
  (out.1 !! i) ≫= finished = Some (Some (Ok (Pending p))) ->
  (out.1 !! j) ≫= finished = Some (Some (Ok (Pending p'))) ->
  cp_Ref p' = cp_Ref p
  /\ t_intent_keys (tables out.2) !! (cr_Product req, cr_IdempotencyKey req) = Some (cp_Ref p).
Proof.
  intros Hall Hi Hj Hp Hk Hne out Fi Fj.
  assert (Hok : Forall2 (thread_ok tables moves (tables w)) (map body tasks) (map promises tasks)).
  { apply Forall2_fmap_2, Forall_Forall2_diag. eapply Forall_impl; [|exact Hall]. intros t. apply body_ok. }
  destruct (sched_Safe tables moves sch _ _ w Hok) as [_ Hf].
  assert (Hreg : forall n a req p, tasks !! n = Some (Charging a req) ->
    (out.1 !! n) ≫= finished = Some (Some (Ok (Pending p))) -> cr_IdempotencyKey req <> "" ->
    registered (tables out.2) (cr_Product req) (cr_IdempotencyKey req) (cp_Ref p)).
  { intros n b rq q Hn Fn.
    refine (finished_ok tables moves (tables out.2) out.1 (map promises tasks) n _ (promises (Charging b rq)) Hf _ Fn).
    by rewrite list_lookup_fmap, Hn. }
  pose proof (Hreg i a req p Hi Fi Hne) as Ri. pose proof (Hreg j a' req' p' Hj Fj) as Rj. rewrite Hp, Hk in Rj.
  specialize (Rj Hne). unfold registered in *. split; [congruence|done].
Qed.
End charges.
