(* ===== verification/System.v ===== *)
(** * The services over the in-memory store

    [charges], [webhooks], [worker] and [payouts] wired to one [MemoryStore]
    in a concrete world: the contracts of the components discharged together,
    what the whole guarantees, and runs that exhibit where it does not. *)
From S2P Require Import Prelude GoStrings Json Crypto Money Reference Config Ledger Gateway.
From S2P Require Import Router Scenario RouterProofs Charges ChargesSpec Payload Webhooks.
From S2P Require Import WebhooksSpec Worker WorkerFrames Payouts Apps MemStore MemStoreProofs AppsProofs.
From S2P Require Import LocksSpec WorkerSpec WorkerLiveness PayoutsSpec.
From Stdlib Require Import Ascii.

(** ** The wiring *)
Definition charge_service : Charges.Service MemWorld :=
  {| Charges.svc_store := mem_IntentStore; Charges.svc_router := scripted_router |}.
Definition webhook_service : Webhooks.Service MemWorld :=
  {| Webhooks.svc_store := mem_WebhookStore; Webhooks.svc_router := scripted_router |}.
Definition worker : Worker MemWorld :=
  {| wk_store := mem_OutboxStore; wk_ledger := Some ListEntries; wk_router := scripted_router;
     wk_locker := Some scripted_locker |}.
Definition mem_LedgerWriter : LedgerWriter MemWorld :=
  {| lw_AppendEntry := AppendEntry; lw_SettleReservation := SettleReservation;
     lw_ReleaseReservation := ReleaseReservation |}.
Definition payout_service : Payouts.Service MemWorld :=
  {| Payouts.svc_store := mem_ReservationStore; Payouts.svc_router := scripted_router;
     svc_ledger := Some mem_LedgerWriter; svc_outbox := None; svc_locker := Some scripted_locker |}.

(** ** The contracts, together *)
Lemma scripted_locker_frame {S V} (view : World S -> V) :
  (forall w ls, view (mkWorld (clock w) (uuids w) (entropy w) (script w) (exchanges w) (results w) ls
                       (store w)) = view w) ->
  LockerFrame scripted_locker view.
Proof.
  intros H. split; intros; apply Guar_call; intros w; [|apply H].
  by destruct (bool_decide (key ∈ locks w)); [|apply H].
Qed.

#[export] Instance scripted_locker_mem : LockerFrame scripted_locker (@mem MemWorld _).
Proof. by apply scripted_locker_frame. Qed.
#[export] Instance scripted_locker_exchanges {S} : LockerFrame scripted_locker (@exchanges S).
Proof. by apply scripted_locker_frame. Qed.
#[export] Instance World_mem_table : MemFrame (@lock_table MemoryStore).
Proof. done. Qed.
#[export] Instance World_frame_mem : RuntimeFrame (@mem MemWorld _).
Proof. by split. Qed.
#[export] Instance scripted_frame_mem : AdaptersFrame scripted_adapters (@mem MemWorld _).
Proof. exact scripted_frame_store. Qed.
(** The in-memory store as an outbox. *)
#[export] Instance scripted_locker_outbox : LockerFrame scripted_locker (fun w : MemWorld => outbox_of (mem w)).
Proof. by apply scripted_locker_frame. Qed.
#[export] Instance World_frame_outbox : RuntimeFrame (fun w : MemWorld => outbox_of (mem w)).
Proof. by split. Qed.
#[export] Instance scripted_frame_outbox : AdaptersFrame scripted_adapters (fun w : MemWorld => outbox_of (mem w)).
Proof. split; intros * ->%scripted_adapters_inv; by apply Guar_call. Qed.

Lemma mem_ledger_writer_frame {V} (view : MemWorld -> V) `{!MemFrame view} :
  LedgerWriterFrame mem_LedgerWriter view.
Proof.
  split; intros.
  - apply Guar_locked; [apply _|]. apply Guar_bind; [by apply Preserves_get|]. intros m.
    apply Guar_bind; [by apply Preserves_put|]. by intros.
  - exact I.
Qed.

Abbreviation books w := (books_of (mem w)) (only parsing).

(** ** Runs *)

(** JSON text written with single quotes. *)
Fixpoint quoted (s : string) : string :=
  match s with
  | "" => ""
  | String a r => String (if Ascii.eqb a "'"%char then dquote else a) (quoted r)
  end.

Definition accepted : InitiateResponse :=
  {| is_ExternalRef := "ext"; is_Status := "pending"; is_AuthorizationURL := "https://pay";
     is_RawRequest := ""; is_RawResponse := "" |}.
Definition truth (status : string) (ref : string) : VerifyResult :=
  {| vr_Reference := ref; vr_Status := status; vr_Amount := New 500 GHS; vr_VerifiedAt := 7%Z |}.

(** Every gateway accepts and then reports [status]. *)
Definition script_with (status : string) : Script := {|
  on_initiate _ _ := Ok accepted; on_verify _ ref := Ok (truth status ref);
  on_refund _ _ := Err ErrNotSupported; on_payout _ _ := Ok tt; circuit_of _ := Ok false |}.

(** Paystack declines; the other two gateways have no credentials. *)
Definition script_declining : Script := {|
  on_initiate g _ := Err (if String.eqb g GatewayPaystack then Fresh "card declined" else ErrNotConfigured);
  on_verify _ ref := Err ErrNotConfigured; on_refund _ _ := Err ErrNotConfigured;
  on_payout _ _ := Err ErrNotConfigured; circuit_of _ := Ok false |}.

(** A gateway whose answer never changes. *)
Definition steady {W} (answer : string -> result VerifyResult) : AggregatorClient W := {|
  Gateway.Initiate _ := mret (Ok accepted); Verify ref := mret (answer ref); Refund _ _ := mret (Err ErrNotSupported);
  Payout _ _ _ := mret (Err ErrNotSupported) |}.
Definition steady_router {W} (answer : string -> result VerifyResult) : ChargerRouter W :=
  {| primary := GatewayPaystack; adapters := {[GatewayPaystack := steady answer]}; health := None |}.
Lemma steady_inv {W} answer g a : adapters (steady_router (W:=W) answer) !! g = Some a -> a = steady answer.
Proof. simpl. by intros [_ <-]%lookup_singleton_Some. Qed.
#[export] Instance steady_frame {W V} answer (view : W -> V) : AdaptersFrame (adapters (steady_router answer)) view.
Proof. by split; intros * ->%steady_inv. Qed.

Definition start (sc : Script) : MemWorld := mkWorld 0 0 0 sc [] [] ∅ NewMemoryStore.

Definition request (product key : string) : ChargeRequest :=
  {| cr_Product := product; cr_Amount := New 500 GHS; cr_Wallet := "0240000000"; cr_Phone := "";
     cr_IdempotencyKey := key |}.

(** The reference of a pending answer. *)
Definition ref_of (r : result ChargeResult) : string :=
  match r with Ok (Pending p) => cp_Ref p | _ => "" end.

Definition callback_body (id ref : string) : string :=
  quoted ("{'event': 'charge.success', 'data': {'id': " ^^ id ^^ ", 'reference': '") ^^ ref ^^ quoted "'}}".

Definition charged_world (sc : Script) : MemWorld := (run (Initiate charge_service (request "shop" "k1")) (start sc)).2.
Definition charged_ref (sc : Script) : string :=
  ref_of (run (Initiate charge_service (request "shop" "k1")) (start sc)).1.

Definition booked (w : MemWorld) (ref : string) : nat := length (collections (books w) ref).

(** A charge and its callback; its row in the outbox. *)
Definition settled_world : MemWorld :=
  (run (Process webhook_service GatewayPaystack (callback_body "11" (charged_ref (script_with "succeeded"))))
       (charged_world (script_with "succeeded"))).2.
Definition settled_row : GatewayEvent :=
  default {| ge_ID := 0; ge_Ref := ""; ge_Gateway := ""; ge_Status := ""; ge_CreatedAt := 0 |}
    (head (pending_events (mem settled_world))).
(** Two callbacks about one charge, with different event identifiers and
    processed by two goroutines, can both read the intent as pending before
    either applies its outcome; the charge is then booked twice. *)
Theorem concurrent_callbacks_book_twice :
  let sc := script_with "succeeded" in
  let ref := charged_ref sc in
  let threads := [Process webhook_service GatewayPaystack (callback_body "11" ref);
                  Process webhook_service GatewayPaystack (callback_body "12" ref)] in
  exists schedule,
    let final := sched schedule threads (charged_world sc) in
    map finished final.1 = [Some (Ok tt); Some (Ok tt)] /\ booked final.2 ref = 2.
Proof. exists (concat (replicate 20 [0; 1])). vm_compute. repeat split. Qed.

(** The same store, with a ledger transaction that fails. *)
Definition failing_service : Webhooks.Service MemWorld := {|
  Webhooks.svc_store := {|
    Webhooks.InsertWebhookInbox := InsertWebhookInbox; Webhooks.DeleteWebhookInbox := DeleteWebhookInbox;
    Webhooks.FindIntent := FindIntent;
    Webhooks.ApplyChargeOutcome _ _ _ := mret (Err (Fresh "postgres: connection reset")) |};
  Webhooks.svc_router := scripted_router |}.

(** When applying the outcome fails, the error asks the gateway to retry,
    but the inbox row stays: the retry, with the store back up, is taken for a
    duplicate and acknowledged, and the charge is never booked. *)
Theorem failed_apply_swallows_retry :
  let sc := script_with "succeeded" in
  let ref := charged_ref sc in
  let body := callback_body "11" ref in
  let first := run (Process failing_service GatewayPaystack body) (charged_world sc) in
  let retry := run (Process webhook_service GatewayPaystack body) first.2 in
  is_Ok first.1 = false /\ retry.1 = Err ErrDuplicate /\ booked retry.2 ref = 0.
Proof. vm_compute. repeat split. Qed.

(** A refusal is masked by the gateways tried after it: a charge Paystack
    declined, the other gateways being unconfigured, is answered as pending and
    stored as a pending intent. *)
Theorem decline_reported_as_pending :
  let r := run (Initiate charge_service (request "shop" "k1")) (start script_declining) in
  (exists p, r.1 = Ok (Pending p)
     /\ option_map row_status (intents (mem r.2) !! cp_Ref p) = Some "pending")
  /\ exists req, head (exchanges r.2) = Some (XInitiate GatewayPaystack req (Err (Fresh "card declined"))).
Proof. vm_compute. split; [|by eexists]. eexists. split; reflexivity. Qed.

(** The in-memory idempotency key is the product and the key joined by a
    colon, so different pairs collide: a charge for product "a" can be answered
    with the reference of product "a:b", reaching no gateway. *)
Theorem idempotency_keys_collide :
  let w1 := (run (Initiate charge_service (request "a:b" "c")) (start (script_with "pending"))).2 in
  let r := run (Initiate charge_service (request "a" "b:c")) w1 in
  ref_of r.1 = ref_of (run (Initiate charge_service (request "a:b" "c")) (start (script_with "pending"))).1
  /\ is_Ok r.1 = true /\ exchanges r.2 = exchanges w1.
Proof. vm_compute. repeat split. Qed.
