(* ===== verification/Wire.v ===== *)
(** * The adapters over a scripted network

    A world whose client answers from a script and logs every exchange; the
    production adapters as [platform.Build] wires them ([Build]); the adapters'
    theorems at concrete inputs; and runs that exhibit how the adapters
    disagree about what an answer means. *)
From S2P Require Import Prelude GoStrings Json JsonCodec Money Reference Ledger Config Gateway Cedis Http.
From S2P Require Import HubtelAdapter PaystackAdapter MoolreAdapter AdaptersSpec Router Worker Scenario Payouts Build.
From Stdlib Require Import Ascii.

Definition WireLog : Type := list (HttpRequest * result HttpResponse).
Abbreviation WireWorld := (World WireLog) (only parsing).

(** A client that answers from [reply] and logs. *)
Definition scripted_transport (reply : HttpRequest -> result HttpResponse) : Transport WireWorld := {|
  client_Do rq := fun w =>
    (reply rq, mkWorld (clock w) (uuids w) (entropy w) (script w) (exchanges w) (results w) (locks w)
                       (store w ++ [(rq, reply rq)]));
  bad_URL _ := None |}.

#[export] Instance scripted_transport_log reply :
  @TransportLog WireWorld (scripted_transport reply) store.
Proof. done. Qed.

Definition payments : PaymentsConfig := {|
  Primary := "hubtel"; PendingTimeout := (5 * Minute)%Z;
  Hubtel := {| ClientID := "id"; ClientSecret := "secret"; MerchantAccount := ""; H_BaseURL := "" |};
  Paystack := {| SecretKey := "sk"; P_BaseURL := "" |};
  Moolre := {| APIUser := "u"; MAPIKey := "k"; APIPubKey := "p"; AccountNumber := "acct"; M_BaseURL := "" |};
  CallbackBaseURL := ""; Secrets := {| WS_Hubtel := ""; WS_Paystack := ""; WS_Moolre := "" |} |}.

Definition hubtel_live : HubtelAdapter := NewHubtelAdapter (Hubtel payments) [].
Definition paystack_live : PaystackAdapter := NewPaystackAdapter (Paystack payments) [].
Definition moolre_live : MoolreAdapter := NewMoolreAdapter (Moolre payments) "" [].

Definition answers (status : Z) (body : string) : HttpRequest -> result HttpResponse :=
  fun _ => Ok {| hr_StatusCode := status; hr_Body := dq body |}.

Definition no_script : Script := {|
  on_initiate _ _ := Err ErrGatewayUnavailable; on_verify _ _ := Err ErrGatewayUnavailable;
  on_refund _ _ := Err ErrGatewayUnavailable; on_payout _ _ := Err ErrGatewayUnavailable;
  circuit_of _ := Ok false |}.
Definition wire_world : WireWorld := mkWorld 0%Z 0%N 0%Z no_script [] [] ∅ [].

Definition momo_charge : InitiateRequest := {|
  ir_Reference := "ORCTA-shop-hubtel-01"; ir_Amount := New 1800 GHS; ir_Wallet := "0240000001";
  ir_Product := "shop"; ir_IdempotencyKey := "" |}.


Lemma Payout_on_the_wire_witness :
  exists rq, carries rq [("ClientReference", JStr "r1"); ("RecipientMsisdn", JStr "0240000001");
                         ("Amount", JStr "18.00")].
Proof.
  destruct (@Payout_on_the_wire WireWorld _ (scripted_transport (answers 200 "{}")) store _
    hubtel_live paystack_live moolre_live "0240000001" (New 1800 GHS) "r1") as ((rq & _ & Hc) & _ & _);
    try reflexivity.
  exists rq. exact Hc.
Defined.

Lemma Verify_on_the_wire_witness :
  exists rq ans, carries rq [("id", JStr "r1")] /\
    @store WireLog (run (@moolre_Verify WireWorld _ (scripted_transport (answers 500 "")) moolre_live "r1") wire_world).2
    = [(rq, ans)].
Proof.
  destruct (@Verify_on_the_wire WireWorld _ (scripted_transport (answers 500 "")) store _ _
    hubtel_live paystack_live moolre_live "r1") as (_ & _ & rq & H & Hc); try reflexivity.
  destruct (H wire_world eq_refl) as (ans & Hs & _). exists rq, ans. split; [exact Hc | exact Hs].
Defined.

(** ** The adapters disagree about declines *)

(** Hubtel's answer codes 000 and 01 are a success for a charge or a refund
    and a failure for a payout. *)
Lemma hubtel_code_000_fails_payouts :
  let t := scripted_transport (answers 200 "{'ResponseCode':'000'}") in
  is_Ok (run (@hubtel_Refund WireWorld t hubtel_live "r1" (New 1800 GHS)) wire_world).1 = true /\
  is_Ok (run (@hubtel_Payout WireWorld t hubtel_live "0240000001" (New 1800 GHS) "r1") wire_world).1 = false.
Proof. split; vm_compute; reflexivity. Qed.

(** A transfer that Paystack declines in a 200 answer is a payout made. *)
Lemma paystack_declined_transfer_is_paid :
  let t := scripted_transport (answers 200 "{'status':false,'message':'Transfer declined'}") in
  (run (@paystack_Payout WireWorld t paystack_live "0240000001" (New 1800 GHS) "r1") wire_world).1 = Ok tt.
Proof. vm_compute. reflexivity. Qed.

(** Any answer of Moolre that is not a success, a rate limit say, is a failed charge. *)
Lemma moolre_error_is_failed_charge :
  let t := scripted_transport (answers 200 "{'status':0,'code':'TR429','message':'too many requests'}") in
  exists v, (run (@moolre_Verify WireWorld _ t moolre_live "r1") wire_world).1 = Ok v /\ vr_Status v = "failed".
Proof. eexists. split; vm_compute; reflexivity. Qed.

(** The status of Hubtel's envelope wins over the transaction's own. *)
Lemma hubtel_envelope_hides_failure :
  let t := scripted_transport (answers 200 "{'Status':'Success','Data':{'Status':'Failed'}}") in
  exists v, (run (@hubtel_Verify WireWorld _ t hubtel_live "r1") wire_world).1 = Ok v /\ vr_Status v = "succeeded".
Proof. eexists. split; vm_compute; reflexivity. Qed.

(** ** A payout made twice *)

(** Hubtel takes the payout, with the code 000; Paystack takes any. *)
Definition two_takers (rq : HttpRequest) : result HttpResponse :=
  Ok {| hr_StatusCode := 200;
        hr_Body := if String.eqb (hq_URL rq) "https://payproxyapi.hubtel.com/send/money"
                   then dq "{'ResponseCode':'000','ResponseText':'accepted'}" else dq "{'status':true}" |}.

Definition wire_router : ChargerRouter WireWorld :=
  NewChargerRouter payments None (@platform_adapters WireWorld _ (scripted_transport two_takers) payments).
Definition wire_payouts : Payouts.Service WireWorld := {|
  Payouts.svc_store := {| CreateBatchWithReservations _ := mret (Ok tt); FindBatch _ := mret (Err ErrGatewayUnavailable) |};
  Payouts.svc_router := wire_router; svc_ledger := None; svc_outbox := None; svc_locker := None |}.
Definition vendor_entry : Payouts.Entry := {|
  pe_Recipient := "0240000001"; pe_Amount := New 5000 GHS; pe_Reference := "ORCTA-shop-moolre-01";
  pe_VendorID := "v1" |}.
Definition vendor_batch : PayoutBatch := {|
  pb_ID := 1%N; pb_Product := "shop"; pb_Entries := [vendor_entry]; pb_Status := "pending";
  pb_Total := New 5000 GHS; pb_CreatedAt := 0%Z; pb_BatchDate := 0%Z; pb_IdempotencyKey := "" |}.

(** A payout that Hubtel takes with the answer code 000, which the
    adapter's other methods count as a success, is sent again to Paystack by
    the same [Dispatch]: the recipient is paid by both. *)
Theorem code_000_pays_twice :
  let out := run (Payouts.Dispatch wire_payouts vendor_batch) wire_world in
  out.1 = Ok tt /\
  map (fun x => hq_URL x.1) (store out.2)
  = ["https://payproxyapi.hubtel.com/send/money"; "https://api.paystack.co/transferrecipient";
     "https://api.paystack.co/transfer"] /\
  Forall (fun x => exists r, x.2 = Ok r /\ hr_StatusCode r = 200%Z) (store out.2).
Proof. vm_compute. split_and!; [done..|]. repeat constructor; eauto. Qed.
