(* ===== verification/Platform.v ===== *)
(** * internal/platform.Build: the production adapters over the store

    One world with a [MemoryStore] and a scripted network: [charges],
    [webhooks] and [worker] wired to the adapters that [platform.Build]
    registers.  What the books then say a charge was worth. *)
From S2P Require Import Prelude GoStrings Json JsonCodec Money Reference Config Ledger Gateway Router Scenario.
From S2P Require Import Charges Payload Webhooks Worker MemStore Http HubtelAdapter PaystackAdapter MoolreAdapter Build Wire.
From Stdlib Require Import Ascii.

Abbreviation PlatformWorld := (World (MemoryStore * WireLog)) (only parsing).

Definition with_store (s : MemoryStore * WireLog) (w : PlatformWorld) : PlatformWorld :=
  mkWorld (clock w) (uuids w) (entropy w) (script w) (exchanges w) (results w) (locks w) s.

#[export] Instance platform_mem : HasMem PlatformWorld := {
  mem w := (store w).1; set_mem s w := with_store (s, (store w).2) w }.

Definition network (reply : HttpRequest -> result HttpResponse) : Transport PlatformWorld := {|
  client_Do rq := fun w => (reply rq, with_store ((store w).1, (store w).2 ++ [(rq, reply rq)]) w);
  bad_URL _ := None |}.

Section build.
Context (reply : HttpRequest -> result HttpResponse) (p : PaymentsConfig).

Definition platform_router : ChargerRouter PlatformWorld :=
  NewChargerRouter p None (@platform_adapters PlatformWorld _ (network reply) p).
Definition platform_charges : Charges.Service PlatformWorld :=
  {| Charges.svc_store := mem_IntentStore; Charges.svc_router := platform_router |}.
Definition platform_webhooks : Webhooks.Service PlatformWorld :=
  {| Webhooks.svc_store := mem_WebhookStore; Webhooks.svc_router := platform_router |}.
Definition platform_worker : Worker PlatformWorld :=
  {| wk_store := mem_OutboxStore; wk_ledger := Some ListEntries; wk_router := platform_router;
     wk_locker := None |}.
End build.

(** ** Hubtel and Moolre never say how much *)
Section amounts.
Context {W : Type} `{!Runtime W} `{!Transport W}.

Definition no_amount (r : result VerifyResult) : Prop :=
  match r with Ok v => vr_Amount v = Money_zero | Err _ => True end.

Lemma verified_now_amount ref status (w : W) : no_amount (run (verified_now ref status Money_zero) w).1.
Proof. unfold verified_now, time_Now. by run_simpl. Qed.

Lemma hubtel_verifies_no_amount ha ref (w : W) : no_amount (run (hubtel_Verify ha ref) w).1.
Proof.
  unfold hubtel_Verify. repeat first [apply verified_now_amount | case_match | rewrite run_bind | done].
Qed.

Lemma moolre_verifies_no_amount ma ref (w : W) : no_amount (run (moolre_Verify ma ref) w).1.
Proof.
  unfold moolre_Verify. repeat first [apply verified_now_amount | case_match | rewrite run_bind | done].
Qed.
End amounts.

(** ** A charge of 50.00 that Hubtel collected *)
Definition hubtel_collected (rq : HttpRequest) : result HttpResponse :=
  Ok {| hr_StatusCode := 200;
        hr_Body := dq (if String.eqb (hq_Method rq) POST then "{'ResponseCode':'0000'}"
                       else "{'ResponseCode':'0000','Status':'Success','Data':{'Status':'Success','Amount':'50.00'}}") |}.

Definition fifty : ChargeRequest := {|
  cr_Product := "shop"; cr_Amount := New 5000 GHS; cr_Wallet := "0240000001"; cr_Phone := "";
  cr_IdempotencyKey := "" |}.
Definition platform_start : PlatformWorld := mkWorld 0 0 0 no_script [] [] ∅ (NewMemoryStore, []).
Definition charged_fifty : result ChargeResult * PlatformWorld :=
  run (Charges.Initiate (platform_charges hubtel_collected payments) fifty) platform_start.
Definition fifty_ref : string := match charged_fifty.1 with Ok (Pending p) => cp_Ref p | _ => "" end.
Definition hubtel_callback : string :=
  dq "{'TransactionId':'t1','ClientReference':'" ^^ fifty_ref ^^ dq "'}".
Definition amounts (w : PlatformWorld) : list Money := map le_Amount (ledger_of (mem w) fifty_ref).

(** No amount reaches the books from Hubtel or Moolre, whose [Verify] never
    fills one in: a charge of GHS 50.00 that Hubtel reports as paid is booked
    as zero by the webhook, and as the fixed GHS 18.00 by the worker. *)
Theorem collected_amount_is_lost :
  (forall W (rt : Runtime W) (t : Transport W) ha ma ref w,
     no_amount (run (hubtel_Verify ha ref) w).1 /\ no_amount (run (moolre_Verify ma ref) w).1) /\
  (exists p, charged_fifty.1 = Ok (Pending p) /\ cp_Gateway p = GatewayHubtel) /\
  (let out := run (Process (platform_webhooks hubtel_collected payments) GatewayHubtel hubtel_callback) charged_fifty.2 in
   out.1 = Ok tt /\ amounts out.2 = [Money_zero]) /\
  (let out := run (DrainOutbox (platform_worker hubtel_collected payments)) charged_fifty.2 in
   amounts out.2 = [New 1800 GHS]).
Proof.
  split; [intros; split; [apply hubtel_verifies_no_amount | apply moolre_verifies_no_amount]|].
  split; [eexists; split; vm_compute; reflexivity|]. split; [split; vm_compute; reflexivity | vm_compute; reflexivity].
Qed.
