(* ===== verification/PgCallbacks.v ===== *)
(** * Callbacks of Hubtel and Moolre over Postgres

    Their [Verify] never says how much was paid, so the entry of the outcome
    has neither amount nor currency and the table refuses it: a callback may
    fail such a charge, never settle it as paid.  Proved for any number of
    callbacks, interleaved in any way, by the logic of [RelyGuarantee] with
    [unpaid] as what every goroutine keeps to. *)
From S2P Require Import Prelude GoStrings Json JsonCodec Money Reference Config Ledger Gateway Router RelyGuarantee.
From S2P Require Import Charges Payload Webhooks WebhooksSpec Http HubtelAdapter PaystackAdapter MoolreAdapter AdaptersSpec Build.
From S2P Require Import Valkey MemStore Database DatabaseProofs History PgStore PgSpec PgProps Integrity Platform.

(** The gateways whose [Verify] fills in no amount. *)
Definition amountless (g : Gateway) : Prop := g = GatewayHubtel \/ g = GatewayMoolre.

(** No charge of theirs is paid between [t] and [t']: its row stays or fails,
    and its entries stay. *)
Definition unpaid (t t' : Tables) : Prop :=
  forall ref row, t_intents t !! ref = Some row ->
    exists row', t_intents t' !! ref = Some row' /\ pi_Gateway row' = pi_Gateway row
      /\ (amountless (pi_Gateway row) ->
          (row' = row \/ row' = intent_with_status "failed" row)
          /\ entries_for (t_ledger t') ref = entries_for (t_ledger t) ref).

#[export] Instance unpaid_preorder : PreOrder unpaid.
Proof.
  split; [intros t ref row Hr; exists row; naive_solver|].
  intros t1 t2 t3 H12 H23 ref row Hr. destruct (H12 ref row Hr) as (r2 & Hr2 & Hg2 & Ha2).
  destruct (H23 ref r2 Hr2) as (r3 & Hr3 & Hg3 & Ha3). exists r3. split; [done|]. split; [congruence|].
  intros Ha. destruct (Ha2 Ha) as [Hrow2 He2]. rewrite Hg2 in Ha3. destruct (Ha3 Ha) as [Hrow3 He3].
  split; [|congruence]. destruct Hrow2 as [-> | ->], Hrow3 as [-> | ->]; auto.
Qed.

(** What a callback has read of a charge holds for good. *)
Definition charged_at (ref : string) (g : Gateway) (t : Tables) : Prop :=
  exists row, t_intents t !! ref = Some row /\ pi_Gateway row = g.
Lemma charged_at_stable ref g : Stable unpaid (charged_at ref g).
Proof. intros t t' Ht (row & Hr & Hg). destruct (Ht ref row Hr) as (r' & Hr' & Hg' & _). exists r'. split; [done|congruence]. Qed.

Lemma unpaid_same t t' : t_intents t' = t_intents t -> t_ledger t' = t_ledger t -> unpaid t t'.
Proof. intros Hi Hl ref row Hr. exists row. rewrite Hi, Hl. auto. Qed.

(** A new row disturbs none that is there. *)
Lemma unpaid_new t t' ref row :
  t_intents t !! ref = None -> t_intents t' = <[ref := row]> (t_intents t) -> t_ledger t' = t_ledger t -> unpaid t t'.
Proof.
  intros Hn Hi Hl r old Hr. exists old. rewrite Hi, Hl, lookup_insert_ne by congruence. auto.
Qed.

(** An outcome applied: of no amountless charge unless it failed. *)
Lemma unpaid_outcome ref status es g now t u t' :
  (_ ← UpdatePaymentIntentStatus ref status; sql_each es InsertLedgerEntry) now t = Ok (u, t') ->
  Forall (fun e => le_Ref e = ref) es -> charged_at ref g t ->
  (amountless g -> status = "failed" /\ es = []) -> unpaid t t'.
Proof.
  intros H Hes (row & Hrow & Hg) Hf. sql_inv. unfold UpdatePaymentIntentStatus in Hs. sql_inv.
  apply insert_entries_spec in H as (kept & Hk & ->). intros r old Hr. simpl.
  pose proof (recorded_refs _ _ _ Hk Hes) as Hrefs.
  unfold entries_for. rewrite List.filter_app, (entries_for_one kept ref r Hrefs : List.filter _ _ = _).
  destruct (decide (ref = r)) as [<-|Hne].
  - rewrite lookup_alter_eq, Hr. eexists. split; [done|]. split; [done|]. intros Ha. simplify_eq.
    destruct (Hf Ha) as [-> ->]. inversion Hk; subst kept.
    split; [by right|]. by destruct (String.eqb ref ref); rewrite app_nil_r.
  - rewrite lookup_alter_ne by done. exists old. rewrite (proj2 (String.eqb_neq ref r) Hne), app_nil_r. auto.
Qed.

Section verify.
Context {W : Type} `{!Runtime W} `{!Transport W}.
Abbreviation says_no_amount p := (Yields p no_amount) (only parsing).

Lemma verified_yields ref status : says_no_amount (verified_now (W:=W) ref status Money_zero).
Proof. unfold verified_now. eapply Yields_bind; [apply Yields_True|]. intros at_ _. by apply Yields_ret. Qed.

Lemma platform_says_no_amount p g a ref :
  amountless g -> platform_adapters (W:=W) p !! g = Some a -> says_no_amount (Verify a ref).
Proof.
  intros Hg Ha. unfold platform_adapters in Ha. cbv zeta in Ha.
  repeat (apply lookup_insert_Some in Ha as [[E <-]|[_ Ha]]);
    [|by destruct Hg; subst| |by apply lookup_empty_Some in Ha];
    cbn [Verify Hubtel_client Moolre_client].
  all: unfold hubtel_Verify, moolre_Verify.
  all: repeat first
    [ apply verified_yields | by apply Yields_ret | (eapply Yields_bind; [apply Yields_True|]; intros ? _) | case_match ].
Qed.
End verify.

Section callbacks.
Context {W : Type} `{!Runtime W} `{!Transport W} `{!Postgres W} (tables : W -> Tables).
Context `{!PostgresSpec tables} `{!RuntimeFrame tables} `{!TransportFrame tables}.
Abbreviation Unpaid p := (Guar (fun w w' => unpaid (tables w) (tables w')) p) (only parsing).

Lemma Unpaid_call {A} (s : Sql A) :
  (forall now t a t', s now t = Ok (a, t') -> unpaid t t') -> Unpaid (call (pg_exec A s)).
Proof. intros Hs. apply Guar_call. intros w. pg_cases tables s w; [by eapply Hs|by rewrite Hpg]. Qed.

Lemma Unpaid_inbox id g payload : Unpaid (InsertWebhookInbox id g payload).
Proof.
  unfold InsertWebhookInbox, query. apply Guar_bind; [|by intros; apply Guar_ret]. apply Unpaid_call.
  intros now t a t' H. unfold InsertWebhookInboxDedup in H. sql_inv.
  destruct (bool_decide _); sql_inv; by apply unpaid_same.
Qed.
Lemma Unpaid_forget id : Unpaid (DeleteWebhookInbox id).
Proof.
  unfold DeleteWebhookInbox, query. apply Guar_bind; [|by intros; apply Guar_ret]. apply Unpaid_call.
  intros now t a t' H. unfold Database.DeleteWebhookInbox in H. sql_inv. by apply unpaid_same.
Qed.
Lemma Unpaid_create ref req g amount url : Unpaid (CreateIntent ref req g amount url).
Proof.
  unfold CreateIntent, query. apply Guar_bind; [|by intros; apply Guar_ret]. apply Unpaid_call.
  intros now t a t' H. unfold CreatePaymentIntent in H. sql_inv. simpl in *.
  destruct (nullString (cr_IdempotencyKey req)); sql_inv; (eapply unpaid_new; [eassumption|reflexivity..]).
Qed.

(** The row that [FindIntent] answers with is of the charge's gateway for good. *)
Lemma find_charged_at ref :
  Safe tables unpaid (fun _ => True) (FindIntent ref)
    (fun r t => match r with Ok i => charged_at ref (in_Gateway i) t | Err _ => True end).
Proof.
  unfold FindIntent, query. eapply (Safe_bind _ _ _ _ _ (fun row t =>
    match row with Ok (_, g, _, _) => charged_at ref g t | Err _ => True end)).
  - apply Safe_call.
    + intros [[[[r g] st] pr]|e]; [apply charged_at_stable|done].
    + intros w _. pg_cases tables (GetPaymentIntentForWebhook ref) w; [|by rewrite Hpg].
      pose proof (Reads_GetPaymentIntentForWebhook ref _ _ _ _ Hpg) as Hr. rewrite Hr in *. split; [done|].
      unfold GetPaymentIntentForWebhook in Hpg. sql_inv. destruct a as [[[r g] st] pr].
      destruct (t_intents (tables w) !! ref) as [row|] eqn:E; [|done]. simpl in *. simplify_eq. by exists row.
  - intros [[[[r g] st] pr]|e]; apply Safe_ret; intros t Ht; [exact Ht|]. by destruct (errors_Is e ErrNoRows).
Qed.

(** An outcome that says no amount of an amountless charge is refused, or fails it. *)
Lemma apply_unpaid ref status es g :
  Forall (fun e => le_Ref e = ref) es ->
  (amountless g -> status = "failed" /\ es = [] \/ exists e, e ∈ es /\ currency (le_Amount e) <> "GHS") ->
  Safe tables unpaid (charged_at ref g) (ApplyChargeOutcome ref status es) (fun _ _ => True).
Proof.
  intros Hes Hg. unfold ApplyChargeOutcome, WithTx.
  eapply (Safe_bind _ _ _ _ _ (fun _ _ => True)); [|by intros; apply Safe_ret].
  apply Safe_call; [done|]. intros w Hw. split; [|done].
  match goal with |- context [pg_exec _ ?s w] => pg_cases tables s w end; [|by rewrite Hpg].
  eapply unpaid_outcome; [exact Hpg|done..|]. intros Ha. destruct (Hg Ha) as [H|(e & He & Hc)]; [done|].
  exfalso. sql_inv. eapply each_refused in Hpg; [done|exact He|]. intros. by apply entry_refused.
Qed.

Lemma apply_truth_unpaid ref product g v :
  (amountless g -> vr_Amount v = Money_zero) ->
  Safe tables unpaid (charged_at ref g) (apply_truth pg_WebhookStore ref product v) (fun _ _ => True).
Proof.
  intros Hv. assert (Hst : Stable unpaid (charged_at ref g)) by apply charged_at_stable. unfold apply_truth.
  destruct (String.eqb (vr_Status v) "succeeded"); [|destruct (String.eqb (vr_Status v) "failed"); [|by apply Safe_ret]].
  - apply (Safe_quiet tables unpaid); [guar|done|intros id]. apply (Safe_quiet tables unpaid); [guar|done|intros at_].
    eapply Safe_bind; [apply apply_unpaid|intros r; by apply Safe_ret]; [by repeat constructor|].
    intros Ha. right. eexists. split; [by left|]. simpl. by rewrite (Hv Ha).
  - eapply Safe_bind; [apply apply_unpaid|intros r; by apply Safe_ret]; [constructor|auto].
Qed.

(** [webhooks.Service] as [platform.Build] wires it to Postgres. *)
Definition pg_webhooks_of (p : PaymentsConfig) (h : option (Router.HealthStore W)) : Webhooks.Service W :=
  {| svc_store := pg_WebhookStore; svc_router := NewChargerRouter p h (platform_adapters p) |}.

Lemma wired_webhooks `{!HasMem W} `{!ValkeyClient W} cfg pr pool client :
  app_Webhooks (wire cfg pr (Some pool) client)
  = pg_webhooks_of (Payments cfg) (Some (Valkey_health (NewHealthStore (opened client)))).
Proof. reflexivity. Qed.

Lemma process_unpaid p h gw payload :
  Safe tables unpaid (fun _ => True) (Process (pg_webhooks_of p h) gw payload) (fun _ _ => True).
Proof.
  assert (Hads : AdaptersFrame (platform_adapters (W:=W) p) tables) by (unfold platform_adapters; apply _).
  unfold Process. cbn [svc_store svc_router pg_webhooks_of pg_WebhookStore Webhooks.InsertWebhookInbox].
  apply (Safe_quiet tables unpaid); [apply Preserves_parsePayload, _|done|]. intros [ev|err]; [|by apply Safe_ret].
  apply (Safe_then tables unpaid); [apply Unpaid_inbox|done|]. intros [[|]|err]; [|by apply Safe_ret..].
  unfold process_recorded. cbn [svc_store svc_router pg_webhooks_of pg_WebhookStore Webhooks.FindIntent Webhooks.DeleteWebhookInbox].
  eapply Safe_bind; [apply find_charged_at|].
  assert (Hdrop : forall P r, Safe tables unpaid P (_ ← DeleteWebhookInbox (W:=W) (EventID ev); mret (r : result unit)) (fun _ _ => True)).
  { intros P r. apply (Safe_pre tables unpaid P (fun _ => True)); [done|].
    apply (Safe_then tables unpaid); [apply Unpaid_forget|done|]. intros _. by apply Safe_ret. }
  intros [i|err]; [|apply Hdrop]. destruct (negb _); [by apply Safe_ret|].
  unfold Adapter. cbn [adapters NewChargerRouter]. destruct (platform_adapters p !! in_Gateway i) as [a|] eqn:Ea; [|apply Hdrop].
  eapply Safe_bind.
  { apply (Yields_Safe tables unpaid _ _ (fun r => amountless (in_Gateway i) -> no_amount r)).
    - eapply (Moves_quiet tables unpaid), frame_verify, Ea.
    - destruct (decide (in_Gateway i = GatewayHubtel \/ in_Gateway i = GatewayMoolre)) as [Hg|Hg].
      + eapply Yields_mono; [|by eapply platform_says_no_amount]. by auto.
      + eapply Yields_mono; [|apply Yields_True]. by intros r _ H.
    - apply charged_at_stable. }
  intros [v|err]; [|apply Hdrop].
  apply (Safe_pure tables unpaid (amountless (in_Gateway i) -> vr_Amount v = Money_zero)); [by intros t [_ H]|].
  intros Hv. apply (Safe_pre tables unpaid _ (charged_at (ev_Reference ev) (in_Gateway i))); [by intros t []|].
  by apply apply_truth_unpaid.
Qed.

(** A callback, of any gateway and with any payload, or anything that itself
    settles no charge of Hubtel or Moolre as paid. *)
Definition calls_back (p : PaymentsConfig) (q : Prog W unit) : Prop :=
  (exists h gw payload, q = forget (Process (pg_webhooks_of p h) gw payload)) \/ Unpaid q.

Lemma calls_back_safe p q : calls_back p q -> Safe tables unpaid (fun _ => True) q (fun _ _ => True).
Proof.
  intros [(h & gw & payload & ->)|Hq]; [|by apply (Guar_Safe tables unpaid)].
  eapply Safe_bind; [apply process_unpaid|]. intros r. by apply Safe_ret.
Qed.
End callbacks.

(** C40: Over Postgres no webhook settles a charge of Hubtel or of Moolre as
    paid.  However many callbacks arrive, from whichever gateways and with
    whatever payloads, interleaved with each other and with anything else that
    does not itself settle such a charge, and whatever the gateways answer
    when they are asked: each of their charges keeps its row, or is marked
    failed, and has the ledger entries it had.  Neither adapter's [Verify]
    fills in the amount, so the entry has no currency and its transaction is
    refused. *)
Theorem pg_callback_never_settles {W} `{!Runtime W} `{!Transport W} `{!Postgres W} (tables : W -> Tables)
    `{!PostgresSpec tables} `{!RuntimeFrame tables} `{!TransportFrame tables} (p : PaymentsConfig) sch callbacks w :
  Forall (calls_back tables p) callbacks ->
  let t' := tables (sched sch callbacks w).2 in
  forall ref row, t_intents (tables w) !! ref = Some row ->
    pi_Gateway row = GatewayHubtel \/ pi_Gateway row = GatewayMoolre ->
    (t_intents t' !! ref = Some row \/ t_intents t' !! ref = Some (intent_with_status "failed" row))
    /\ entries_for (t_ledger t') ref = entries_for (t_ledger (tables w)) ref.
Proof.
  intros Hcs t' ref row Hr Hg.
  destruct (sched_Safe tables unpaid sch callbacks (map (fun _ _ _ => True) callbacks) w) as [H _].
  - apply Forall2_fmap_r, Forall_Forall2_diag. eapply Forall_impl; [|exact Hcs]. intros q Hq.
    exists (fun _ => True). split; [done|]. split; [done|]. by eapply calls_back_safe.
  - destruct (H ref row Hr) as (row' & Hr' & _ & Ha). destruct (Ha Hg) as [[-> | ->] He]; auto.
Qed.
