(* ===== verification/PgScenario.v ===== *)
(** * The services over Postgres, in a concrete world

    A server that answers every statement on the tables in the world's store;
    the properties of the Postgres store at concrete inputs; and runs of the
    charge, webhook and worker services wired to it and to the production
    adapters, as [platform.Build] does with a DATABASE_URL. *)
From S2P Require Import Prelude GoStrings Json JsonCodec Money Reference Config Ledger Gateway Router RouterProofs Scenario.
From S2P Require Import Charges ChargesSpec Payload Webhooks WebhooksSpec Worker Payouts Apps.
From S2P Require Import Http HubtelAdapter PaystackAdapter MoolreAdapter Build Wire Api ApiWebhooks.
From S2P Require Import AdaptersSpec Database DatabaseProofs History PgStore PgSpec PgOutbox PgProps PgTyped PgCallbacks ListHandlers ListSpec.
From Stdlib Require Import Ascii.

(** ** The server *)
Section server.
Context {L : Type}.
Abbreviation PgWorld := (World (Tables * L)) (only parsing).

Definition pg_tables (w : PgWorld) : Tables := (store w).1.
Definition with_tables (t : Tables) (w : PgWorld) : PgWorld :=
  mkWorld (clock w) (uuids w) (entropy w) (script w) (exchanges w) (results w) (locks w) (t, (store w).2).

#[export] Instance pg_server : Postgres PgWorld := {
  pg_exec A s := fun w =>
    match s (clock w) (pg_tables w) with
    | Ok (a, t) => (Ok a, with_tables t w)
    | Err e => (Err e, w)
    end }.

#[export] Instance pg_server_spec : PostgresSpec pg_tables.
Proof.
  split. intros A s w. simpl. destruct (s (clock w) (pg_tables w)) as [[a t]|e] eqn:E; simpl.
  - by exists (clock w).
  - split; [done|]. right. by exists (clock w).
Qed.
#[export] Instance pg_server_up : PostgresUp pg_tables.
Proof.
  split. intros A s w. exists (clock w). simpl. by destruct (s (clock w) (pg_tables w)) as [[a t]|e].
Qed.
#[export] Instance pg_server_exchanges : PostgresFrame (@exchanges (Tables * L)).
Proof. intros A s w. simpl. by destruct (s (clock w) (pg_tables w)) as [[a t]|e]. Qed.
#[export] Instance pg_runtime_frame : RuntimeFrame pg_tables.
Proof. by split. Qed.

(** The same server asked for rows by text. *)
Definition number_of (u : N) : string := FormatInt (Z.of_N u).
#[export] Instance pg_pool : Pool PgWorld := {
  pool_Query text args := fun w =>
    match list_find (fun q => sel_text q = text) listings with
    | Some (_, q) => (Ok {| rows_data := sel_eval FormatInt number_of q args (map_to_list (t_intents (pg_tables w))).*2 (t_ledger (pg_tables w)); rows_Err := None |}, w)
    | None => (Err (Fresh "syntax error"), w)
    end }.
#[export, refine] Instance pg_scans : Scans pg_tables := {
  intents_met _ _ w := (map_to_list (t_intents (pg_tables w))).*2; entries_met _ _ w := t_ledger (pg_tables w) }.
Proof. all: done. Defined.
#[export] Instance pg_pool_spec : PoolSpec FormatInt number_of pg_tables.
Proof.
  split.
  - intros s args w. unfold pool_Query, pg_pool.
    match goal with |- context [list_find ?P ?l] => by destruct (list_find P l) as [[i q]|] end.
  - intros q args w Hq. unfold pool_Query, pg_pool.
    assert (Hf : exists i, list_find (fun q' => sel_text q' = sel_text q) listings = Some (i, q)).
    { unfold listings in Hq. simpl in Hq.
      repeat (apply elem_of_cons in Hq as [->|Hq]; [eexists; vm_compute; reflexivity|]). by apply not_elem_of_nil in Hq. }
    destruct Hf as [i ->]. by split.
Qed.
End server.

(** ** The stores with scripted gateways *)
Abbreviation PgWorld := (World (Tables * unit)) (only parsing).
Definition pg_start (sc : Script) : PgWorld := mkWorld 0 0 0 sc [] [] ∅ (no_tables, tt).
Definition pg_charges : Charges.Service PgWorld :=
  {| Charges.svc_store := pg_IntentStore; Charges.svc_router := scripted_router |}.
Definition pg_webhooks : Webhooks.Service PgWorld :=
  {| Webhooks.svc_store := pg_WebhookStore; Webhooks.svc_router := scripted_router |}.

#[export] Instance scripted_frame_tables : AdaptersFrame scripted_adapters (@pg_tables unit).
Proof. split; intros * ->%scripted_adapters_inv; by apply Guar_call. Qed.

(** ** The properties at concrete inputs *)
Definition pg_request : ChargeRequest := {|
  cr_Product := "shop"; cr_Amount := New 500 GHS; cr_Wallet := "0240000000"; cr_Phone := "";
  cr_IdempotencyKey := "k1" |}.
Definition two_threads : list (list (Prog PgWorld unit)) :=
  [[forget (CreateIntent "r1" pg_request "paystack" (New 500 GHS) ""); forget (UpdateStatus "r1" "refunded")];
   [forget (CreateIntent "r2" pg_request "paystack" (New 500 GHS) ""); forget (InsertOutboxEvent "r2" "paystack")]].
Definition turns : list nat := concat (replicate 8 [0; 1]).
Lemma two_threads_calls : Forall (Forall (pg_call (W:=PgWorld))) two_threads.
Proof.
  apply Forall_cons; [|apply Forall_cons; [|by apply Forall_nil]].
  - apply Forall_cons; [apply pc_CreateIntent|]. apply Forall_cons; [apply pc_UpdateStatus|by apply Forall_nil].
  - apply Forall_cons; [apply pc_CreateIntent|]. apply Forall_cons; [apply pc_InsertOutboxEvent|by apply Forall_nil].
Qed.
Definition raced : PgWorld :=
  (sched turns (map (fun calls => forM_ calls (fun c => c)) two_threads) (pg_start no_script)).2.

(** Of two intents racing for one key only the first is kept. *)
Lemma raced_schema :
  schema_ok (pg_tables raced)
  /\ map_to_list (t_intent_keys (pg_tables raced)) = [(("shop", "k1"), "r1")]
  /\ elements (dom (t_intents (pg_tables raced))) = ["r1"] /\ t_events (pg_tables raced) = ∅.
Proof.
  split; [|cbv zeta; split_and!; vm_compute; reflexivity].
  apply (pg_schema_preserved pg_tables turns two_threads (pg_start no_script)).
  - exact two_threads_calls.
  - exact schema_no_tables.
Defined.

(** Three goroutines: the second intent's key is taken and so its event's
    charge is missing; no answer is a value refused. *)
Definition refused_charge : VerifyResult := {|
  vr_Reference := "r1"; vr_Status := "failed"; vr_Amount := Money_zero; vr_VerifiedAt := 5%Z |}.
Definition typed_threads : list (list (Prog PgWorld (option error))) :=
  [[failure (CreateIntent "r1" pg_request "paystack" (New 500 GHS) ""); failure (InsertOutboxEvent "r1" "paystack");
    failure (CompleteFailed 1%N "r1" refused_charge)];
   [failure (CreateIntent "r2" pg_request "paystack" (New 500 GHS) ""); failure (InsertOutboxEvent "r2" "paystack")];
   [failure (SettleReservation 9%N 0%Z)]].
Lemma typed_threads_calls : Forall (Forall (typed_call (W:=PgWorld))) typed_threads.
Proof.
  apply Forall_cons; [|apply Forall_cons; [|apply Forall_cons; [|by apply Forall_nil]]].
  - apply Forall_cons; [by apply tc_CreateIntent|]. apply Forall_cons; [by apply tc_InsertOutboxEvent|].
    apply Forall_cons; [apply tc_CompleteFailed|by apply Forall_nil].
  - apply Forall_cons; [by apply tc_CreateIntent|]. apply Forall_cons; [by apply tc_InsertOutboxEvent|by apply Forall_nil].
  - apply Forall_cons; [apply tc_SettleReservation|by apply Forall_nil].
Qed.

Lemma pg_calls_well_typed_witness :
  let out := sched (concat (replicate 12 [0; 1; 2])) (map outcomes typed_threads) (pg_start no_script) in
  schema_ok (pg_tables out.2) /\ option_map pi_Status (t_intents (pg_tables out.2) !! "r1") = Some "failed"
  /\ exists taken missing unknown,
       out.1 !! 1 ≫= finished = Some [Some taken; Some missing] /\ isUniqueViolation taken = true
       /\ errors_Is missing foreign_key_violation = true
       /\ out.1 !! 2 ≫= finished = Some [Some unknown] /\ errors_Is unknown Ledger.ErrNotFound = true
       /\ map refused_value [taken; missing; unknown] = [false; false; false].
Proof.
  cbv zeta.
  destruct (pg_calls_well_typed pg_tables (concat (replicate 12 [0; 1; 2])) typed_threads (pg_start no_script)
    typed_threads_calls schema_no_tables) as [Hs Hr].
  split; [exact Hs|]. split; [vm_compute; reflexivity|]. eexists _, _, _.
  split; [vm_compute; reflexivity|]. split; [vm_compute; reflexivity|]. split; [vm_compute; reflexivity|].
  split; [vm_compute; reflexivity|]. split; [vm_compute; reflexivity|].
  pose proof (Hr 1 [_; _] ltac:(vm_compute; reflexivity)) as H1. pose proof (Hr 2 [_] ltac:(vm_compute; reflexivity)) as H2.
  apply Forall_cons_1 in H1 as [H1 H1']. apply Forall_cons_1 in H1' as [H1' _]. apply Forall_cons_1 in H2 as [H2 _].
  simpl in H1, H1', H2. cbn [map]. by rewrite H1, H1', H2.
Defined.

Lemma pg_append_only_witness : grows no_tables (pg_tables raced).
Proof. exact (pg_append_only pg_tables turns two_threads (pg_start no_script) two_threads_calls). Defined.

Lemma pg_meets_contracts_witness :
  WebhookStoreSpec (pg_WebhookStore (W:=PgWorld)) (fun w => PgSpec.books_of (pg_tables w)).
Proof. exact (proj1 (pg_meets_contracts pg_tables)). Defined.

Definition sample_batch : Payouts.PayoutBatch := {|
  pb_ID := 77%N; pb_Product := "shop";
  pb_Entries := [{| pe_Recipient := "024"; pe_Amount := New 300 GHS; pe_Reference := "a"; pe_VendorID := "v1" |};
                 {| pe_Recipient := "025"; pe_Amount := New 200 GHS; pe_Reference := ""; pe_VendorID := "v2" |}];
  pb_Status := "pending"; pb_Total := New 500 GHS; pb_CreatedAt := 0; pb_BatchDate := (3 * Hour)%Z;
  pb_IdempotencyKey := "shop:1970-01-01" |}.

Lemma pg_batch_roundtrip_witness :
  exists got, (run (FindBatch 77%N) (run (CreateBatchWithReservations sample_batch) (pg_start no_script)).2).1 = Ok got
    /\ pb_Total got = New 500 GHS /\ pb_BatchDate got = 0%Z
    /\ pb_Entries got ≡ₚ map stored_entry (pb_Entries sample_batch).
Proof.
  destruct (pg_batch_roundtrip pg_tables sample_batch (pg_start no_script)) as (got & Hr & _ & _ & _ & Ht & Hd & _ & He).
  - exact schema_no_tables.
  - vm_compute. reflexivity.
  - exists got. split; [exact Hr|]. split; [exact Ht|]. split; [rewrite Hd; reflexivity|exact He].
Defined.

Lemma pg_refuses_amount_witness :
  exists e, (run (CreateIntent "r1" pg_request "paystack" (New 500 "USD") "") (pg_start no_script)).1 = Err e.
Proof.
  destruct (proj1 (pg_refuses_amount pg_tables (pg_start no_script)) "r1" pg_request "paystack" (New 500 "USD") "")
    as (e & He & _); [left; discriminate|]. exists e. exact He.
Defined.

Definition batch_made : PgWorld := (run (CreateBatchWithReservations sample_batch) (pg_start no_script)).2.
Lemma pg_reservation_closes_once_witness :
  let w1 := (run (SettleReservation 1%N 9000%Z) batch_made).2 in
  (run (ReleaseReservation 1%N) w1).1 = Ok tt
  /\ map re_Status (t_reservations (pg_tables (run (ReleaseReservation 1%N) w1).2)) = ["open"; "settled"].
Proof.
  cbv zeta. split; [|vm_compute; reflexivity].
  apply (pg_reservation_closes_once pg_tables 1%N 9000%Z 0%Z batch_made (SettleReservation 1%N 9000%Z) (ReleaseReservation 1%N)).
  - left. reflexivity.
  - right. reflexivity.
  - vm_compute. reflexivity.
Defined.

(** ** The production adapters over Postgres *)
Abbreviation PgPlatform := (World (Tables * WireLog)) (only parsing).

Definition pg_network (reply : HttpRequest -> result HttpResponse) : Transport PgPlatform := {|
  client_Do rq := fun w => (reply rq, mkWorld (clock w) (uuids w) (entropy w) (script w) (exchanges w)
    (results w) (locks w) ((store w).1, (store w).2 ++ [(rq, reply rq)]));
  bad_URL _ := None |}.

Section build.
Context (reply : HttpRequest -> result HttpResponse).
Definition pg_router : ChargerRouter PgPlatform :=
  NewChargerRouter payments None (@platform_adapters PgPlatform _ (pg_network reply) payments).
Definition platform_pg_charges : Charges.Service PgPlatform :=
  {| Charges.svc_store := pg_IntentStore; Charges.svc_router := pg_router |}.
Definition platform_pg_webhooks : Webhooks.Service PgPlatform :=
  {| Webhooks.svc_store := pg_WebhookStore; Webhooks.svc_router := pg_router |}.
Definition platform_pg_worker : Worker PgPlatform :=
  {| wk_store := pg_OutboxStore; wk_ledger := Some ListEntries; wk_router := pg_router; wk_locker := None |}.
End build.

(** Hubtel reports every charge as collected. *)
Definition collects (rq : HttpRequest) : result HttpResponse :=
  Ok {| hr_StatusCode := 200;
        hr_Body := dq (if String.eqb (hq_Method rq) POST then "{'ResponseCode':'0000'}"
                       else "{'ResponseCode':'0000','Status':'Success','Data':{'Status':'Success','Amount':'50.00'}}") |}.
Definition pg_platform_start : PgPlatform := mkWorld 0 0 0 no_script [] [] ∅ (no_tables, []).
Definition charge_of (c : Currency) : ChargeRequest := {|
  cr_Product := "shop"; cr_Amount := New 5000 c; cr_Wallet := "0240000001"; cr_Phone := ""; cr_IdempotencyKey := "" |}.
Definition pg_charged (c : Currency) : result ChargeResult * PgPlatform :=
  run (Charges.Initiate (platform_pg_charges collects) (charge_of c)) pg_platform_start.
Definition pg_ref : string := match (pg_charged GHS).1 with Ok (Pending p) => cp_Ref p | _ => "" end.
Definition pg_callback : Prog PgPlatform (result unit) :=
  Process (platform_pg_webhooks collects) GatewayHubtel
    (dq "{'TransactionId':'t1','ClientReference':'" ^^ pg_ref ^^ dq "'}").
Definition pg_status (ref : string) (w : PgPlatform) : option string := pi_Status <$> t_intents (pg_tables w) !! ref.
Definition pg_amounts (w : PgPlatform) : list Money := map le_Amount (t_ledger (pg_tables w)).

#[export] Instance pg_network_frame reply : TransportFrame (Transport0:=pg_network reply) (@pg_tables WireLog).
Proof. done. Qed.

(** A charge of GHS 50.00 that Hubtel collected: its callback is answered 500
    and its retry is taken for a duplicate, beside the next charge being
    stored; only the outbox settles it. *)
Definition callbacks : list (Prog PgPlatform unit) :=
  [forget pg_callback; forget pg_callback; forget (CreateIntent "r9" pg_request "moolre" (New 700 GHS) "")].
Lemma callbacks_call_back : Forall (calls_back (Transport0:=pg_network collects) pg_tables payments) callbacks.
Proof.
  assert (H : calls_back (Transport0:=pg_network collects) pg_tables payments (forget pg_callback)).
  { left. exists None. eexists _, _. reflexivity. }
  apply Forall_cons; [exact H|]. apply Forall_cons; [exact H|]. apply Forall_cons; [|by apply Forall_nil].
  right. apply Guar_bind; [exact (Unpaid_create pg_tables "r9" pg_request "moolre" (New 700 GHS) "")|]. intros r. by apply Guar_ret.
Qed.

Lemma pg_callback_never_settles_witness :
  let w0 := (pg_charged GHS).2 in
  let called := (sched (concat (replicate 12 [0; 1; 2])) callbacks w0).2 in
  let first := run pg_callback w0 in
  pg_status pg_ref called = Some "pending" /\ pg_status "r9" called = Some "pending" /\ pg_amounts called = []
  /\ rs_Status (webhook_answer first.1) = 500%Z /\ (run pg_callback first.2).1 = Err ErrDuplicate
  /\ (let drained := (run (DrainOutbox (platform_pg_worker collects)) called).2 in
      pg_status pg_ref drained = Some "succeeded" /\ pg_amounts drained = [New 5000 GHS]).
Proof.
  cbv zeta. split; [|split_and!; vm_compute; reflexivity].
  assert (Hrow : exists row, t_intents (pg_tables (pg_charged GHS).2) !! pg_ref = Some row
    /\ pi_Gateway row = GatewayHubtel /\ pi_Status row = "pending")
    by (eexists; split_and!; vm_compute; reflexivity).
  destruct Hrow as (row & Hrow & Hg & Hs).
  destruct (pg_callback_never_settles (Transport0:=pg_network collects) pg_tables payments (concat (replicate 12 [0; 1; 2])) callbacks
    (pg_charged GHS).2 callbacks_call_back pg_ref row Hrow (or_introl Hg)) as [[H|H] _].
  - unfold pg_status. rewrite H. simpl. by rewrite Hs.
  - exfalso. revert H. vm_compute. discriminate.
Defined.

(** Moolre's too; and a callback about a charge that was refused fails it. *)
Definition moolre_says (txstatus : string) (rq : HttpRequest) : result HttpResponse :=
  Ok {| hr_StatusCode := 200; hr_Body := dq ("{'status':1,'data':{'txstatus':" ^^ txstatus ^^ ",'amount':'7.00'}}") |}.
Definition moolre_called (txstatus : string) : result unit * PgPlatform :=
  run (_ ← CreateIntent "r9" pg_request GatewayMoolre (New 700 GHS) "";
       Process (platform_pg_webhooks (moolre_says txstatus)) GatewayMoolre (dq "{'transactionid':'t9','externalref':'r9'}"))
    pg_platform_start.
Example moolre_callback_refused :
  let paid := moolre_called "1" in
  rs_Status (webhook_answer paid.1) = 500%Z /\ pg_status "r9" paid.2 = Some "pending" /\ pg_amounts paid.2 = [].
Proof. cbv zeta. split_and!; vm_compute; reflexivity. Qed.
Example moolre_callback_fails :
  let failed := moolre_called "2" in
  failed.1 = Ok tt /\ pg_status "r9" failed.2 = Some "failed" /\ pg_amounts failed.2 = [].
Proof. cbv zeta. split_and!; vm_compute; reflexivity. Qed.

(** A charge whose currency is left out, or is not GHS, is sent to the gateway
    in GHS and collected, and then cannot be stored: the caller is told the
    service failed, and nothing of the charge is on record. *)
Theorem pg_foreign_charge_is_orphaned :
  let orphaned c :=
    let out := pg_charged c in
    is_Ok out.1 = false /\ pg_tables out.2 = no_tables
    /\ exists rq, map fst (store out.2).2 = [rq] /\ hq_Method rq = POST in
  orphaned "" /\ orphaned "USD".
Proof. split; cbv zeta; (split_and!; [vm_compute; reflexivity..|]); eexists; split; vm_compute; reflexivity. Qed.

(** ** The listings *)
Definition get_request (query : list (string * string)) : Request := {|
  rq_Method := "GET"; rq_Path := "/v1/charges"; rq_RemoteAddr := ""; rq_Header _ := ""; rq_Cookies := [];
  rq_Query k := default "" (snd <$> (snd <$> list_find (fun kv => kv.1 = k) query)); rq_Param _ := ""; rq_Body := "" |}.
Definition listed_world : PgWorld :=
  (run (AppendEntry {| le_ID := 5%N; le_Kind := "platform_commission"; le_Ref := "r9"; le_Amount := New 90 GHS;
     le_ValueTime := 0; le_BookingTime := 0; le_SettlementTime := None; le_Product := "shop"; le_CreatedAt := 0 |})
   (run (CreateIntent "r1" pg_request "paystack" (New 500 GHS) "https://pay") (pg_start no_script)).2).2.

Lemma listed_schema : schema_ok (pg_tables listed_world).
Proof.
  assert (H : forall w (p : Prog PgWorld unit), pg_call p -> schema_ok (pg_tables w) -> schema_ok (pg_tables (run p w).2)).
  { intros w p Hp Hw. pose proof (pg_call_safe pg_tables p Hp) as Hs.
    exact (proj1 (Guar_run (safe_step pg_tables) p w Hs) Hw). }
  unfold listed_world.
  match goal with |- context [run (AppendEntry ?e) (run (CreateIntent ?a ?b ?c ?d ?f) ?w).2] =>
    pose proof (H _ _ (pc_AppendEntry e) (H w _ (pc_CreateIntent a b c d f) schema_no_tables)) as Hs end.
  exact Hs.
Qed.

Lemma handleListCharges_correct_witness :
  exists n, (run (handleListCharges true (get_request [("gateway", "paystack"); ("limit", "0")])) listed_world).1
    = writeJSON 200 (JArr (map (charge_json FormatInt)
        (take n (charges_listed "" "paystack" "" 100 (map_to_list (t_intents (pg_tables listed_world))).*2)))).
Proof.
  pose proof (handleListCharges_correct pg_tables FormatInt number_of
    (get_request [("gateway", "paystack"); ("limit", "0")]) listed_world) as H.
  cbv beta iota zeta delta [charges_query] in H. destruct H as (_ & _ & _ & H).
  match type of H with match ?x with _ => _ end =>
    assert (Hx : is_Ok x = true) by (vm_compute; reflexivity); destruct x as [rows|e]; [|discriminate Hx] end.
  destruct H as (n & H & _). exists n. exact H.
Defined.

Lemma handleListLedger_never_debits_witness :
  let out := run (handleListLedger true (get_request [("ref", "r9")])) listed_world in
  out.1 = writeError 500 "internal_error" "query failed"
  \/ exists n met, met ≡ₚ t_ledger (pg_tables listed_world)
       /\ out.1 = writeJSON 200 (JArr (map (ledger_json FormatInt number_of) (take n (ledger_listed "r9" 100 met)))).
Proof.
  destruct (handleListLedger_never_debits pg_tables FormatInt number_of (get_request [("ref", "r9")]) listed_world) as [H|H].
  - exact listed_schema.
  - left. exact H.
  - destruct H as (n & met & Hm & H & _). right. exists n, met. split; [exact Hm|exact H].
Defined.
