(* ===== verification/OutboxRuns.v ===== *)
(** * The outbox in Postgres, drained

    A world whose identifiers do not repeat, two charges in Postgres whose
    callbacks never came, a worker that settles them, and two that
    settle them twice. *)
From S2P Require Import Prelude GoStrings Money Reference Ledger Gateway Router RouterProofs Scenario.
From S2P Require Import Charges Webhooks WebhooksSpec Worker WorkerFrames LocksSpec WorkerSpec WorkerLiveness.
From S2P Require Import Database DatabaseProofs PgStore PgSpec PgOutbox System Wire PgScenario.

(** [uuid.New] answers an identifier that no row has. *)
Definition ids_of (t : Tables) : list UUID := (le_ID <$> t_ledger t) ++ (map_to_list (t_events t)).*1.
Definition next_id (w : PgWorld) : UUID := (1 + foldr N.max 0 (ids_of (pg_tables w)))%N.
#[local] Instance fresh_runtime : Runtime PgWorld := {
  rt_now := tick; rt_uuid := fun w => (next_id w, w); rt_rand := next_bytes; rt_order n := fun w => (seq 0 n, w);
  uuid_String := fun u => "uuid-" ^^ FormatInt (Z.of_N u) }.

Lemma max_above l x : x ∈ l -> (x <= foldr N.max 0 l)%N.
Proof. induction 1; simpl; lia. Qed.
#[local] Instance fresh_ids : FreshIDs pg_tables.
Proof.
  intros w Hin. assert (Hx : (next_id w <= foldr N.max 0 (ids_of (pg_tables w)))%N); [|unfold next_id in Hx; lia].
  apply max_above, elem_of_app. by left.
Qed.
#[local] Instance fresh_frame {V} (view : Tables -> V) : RuntimeFrame (fun w => view (pg_tables w)).
Proof. by split. Qed.
#[local] Instance fresh_tables : RuntimeFrame (@pg_tables unit).
Proof. by split. Qed.
#[local] Instance fresh_locks : RuntimeFrame (@lock_table (Tables * unit)).
Proof. by split. Qed.
#[local] Instance pg_server_locks : PostgresFrame (@lock_table (Tables * unit)).
Proof. intros A s w. simpl. by destruct (s (clock w) (pg_tables w)) as [[a t]|e]. Qed.
#[local] Instance locker_outbox : LockerFrame scripted_locker (fun w : PgWorld => PgOutbox.outbox_of (pg_tables w)).
Proof. by apply scripted_locker_frame. Qed.

(** Two charges, made through the service. *)
Definition paystack_charges : Charges.Service PgWorld :=
  {| Charges.svc_store := pg_IntentStore; Charges.svc_router := steady_router (fun ref => Ok (truth "succeeded" ref)) |}.
Definition two_charged : PgWorld :=
  (run (_ ← Charges.Initiate paystack_charges (request "shop" "k1");
        Charges.Initiate paystack_charges (request "shop" "k2")) (pg_start no_script)).2.
Definition pg_worker : Worker PgWorld :=
  {| wk_store := pg_OutboxStore; wk_ledger := Some ListEntries;
     wk_router := steady_router (fun ref => Ok (truth "succeeded" ref)); wk_locker := Some scripted_locker |}.

Lemma two_charged_drainable :
  drainable (fun w => PgOutbox.outbox_of (pg_tables w)) in_cedis pg_worker lock_table two_charged.
Proof.
  assert (Hk : keyed (PgOutbox.outbox_of (pg_tables two_charged))) by (refine (bool_decide_unpack _ _); vm_compute; exact I).
  split; [done|]. split; [|split; [|apply lock_table_empty; vm_compute; reflexivity]].
  - assert (H : map_Forall (fun _ i => pi_Currency i = GHS) (t_intents (pg_tables two_charged)))
      by (refine (bool_decide_unpack _ _); vm_compute; exact I).
    intros ref amt. simpl. rewrite lookup_fmap_Some. intros (i & <- & Hi). exact (H _ _ Hi).
  - intros ev [Hev _].
    assert (H : map_Forall (fun _ ev => is_Some (adapters (wk_router pg_worker) !! ge_Gateway ev))
                  (ob_rows (PgOutbox.outbox_of (pg_tables two_charged))))
      by (refine (bool_decide_unpack _ _); vm_compute; exact I).
    exact (H _ _ Hev).
Qed.

Lemma outbox_empties_witness :
  length (waiting_rows (PgOutbox.outbox_of (pg_tables two_charged))) = 2
  /\ waiting_rows (PgOutbox.outbox_of (pg_tables (drains pg_worker 1 two_charged))) = []
  /\ map le_Amount (t_ledger (pg_tables (drains pg_worker 1 two_charged))) = [New 500 GHS; New 500 GHS].
Proof.
  split; [vm_compute; reflexivity|]. split; [|vm_compute; reflexivity].
  apply (outbox_empties pg_OutboxStore (fun w => PgOutbox.outbox_of (pg_tables w)) in_cedis pg_worker scripted_locker
           lock_table clock 1 two_charged).
  - reflexivity.
  - reflexivity.
  - apply scripted_grants.
  - apply scripted_releases.
  - intros g a ref w ->%(steady_inv (W:=PgWorld)). eexists. split; [reflexivity|]. split; [by left|]. by intros _.
  - exact two_charged_drainable.
  - vm_compute. reflexivity.
  - apply Nat.leb_le. vm_compute. reflexivity.
Defined.

(** The lock of a row does not keep two workers apart: the second claimed the
    row while it was pending, gets the lock once the first gives it back, and
    does not look at the row again; the charge, settled by then, is booked a
    second time. *)
Theorem two_workers_book_twice :
  exists schedule,
    let final := sched schedule [DrainOutbox pg_worker; DrainOutbox pg_worker] two_charged in
    map finished final.1 = [Some (Ok 2%Z); Some (Ok 2%Z)]
    /\ map le_Amount (t_ledger (pg_tables final.2)) = [New 500 GHS; New 500 GHS; New 500 GHS; New 500 GHS]
    /\ locks final.2 = ∅.
Proof. exists ([0; 1] ++ replicate 30 0 ++ replicate 30 1). vm_compute. repeat split. Qed.
