(* ===== verification/Edge.v ===== *)
(** * A concrete Valkey server, and the edge's theorems at concrete inputs

    The scripted world with a server's data as its store: commands take
    effect by [exec], as [ValkeySpec] asks.  The theorems about the breaker,
    the locks, the sessions and the rate limiter are applied here. *)
From S2P Require Import Prelude GoStrings Json JsonCodec Crypto Reference Config Router Worker Valkey HealthSpec.
From S2P Require Import Money Ledger Gateway RouterProofs WorkerFrames LocksSpec Payouts PayoutsSpec.
From S2P Require Import Scenario Http Api RateLimit Handlers HandlersSpec Wire.
From Stdlib Require Import Ascii Floats.SpecFloat.

Abbreviation ServerWorld := (World (gmap string Valkey.Entry)) (only parsing).

#[export] Instance server_client : ValkeyClient ServerWorld := {
  vk_Do c := fun w =>
    let r := exec (clock w) c (store w) in
    (r.1, mkWorld (clock w) (uuids w) (entropy w) (script w) (exchanges w) (results w) (locks w) r.2);
  vk_seq := fun w => (uuids w, mkWorld (clock w) (uuids w + 1)%N (entropy w) (script w) (exchanges w)
                                       (results w) (locks w) (store w)) }.

#[export] Instance server_spec : @ValkeySpec ServerWorld server_client clock store.
Proof. split; reflexivity. Qed.

Definition server_world : ServerWorld := mkWorld 0%Z 0%N 0%Z no_script [] [] ∅ ∅.
Definition live_health : Valkey.HealthStore := NewHealthStore true.

Definition failed_once (w : ServerWorld) : ServerWorld :=
  (run (RecordResult live_health GatewayHubtel false) w).2.
Definition five_failures : ServerWorld := Nat.iter 5 failed_once server_world.

Lemma circuit_open_iff_witness :
  (run (IsCircuitOpen live_health GatewayHubtel) five_failures).1 = Ok true /\
  tripped (replicate 5 (0%Z, false)) 0.
Proof.
  assert (H : @Served ServerWorld _ clock store live_health GatewayHubtel
                (replicate 5 (0%Z, false)) five_failures).
  { assert (Hstep : forall h (w : ServerWorld), @Served ServerWorld _ clock store live_health GatewayHubtel h w ->
      clock w = 0%Z -> @Served ServerWorld _ clock store live_health GatewayHubtel ((0%Z, false) :: h) (failed_once w)).
    { intros h w Hw Ht. rewrite <- Ht. by apply served_result. }
    unfold five_failures. cbn [replicate Nat.iter nat_rect].
    do 5 (apply Hstep; [|vm_compute; reflexivity]). apply served_fresh. intros k _. apply lookup_empty. }
  destruct (@circuit_open_iff ServerWorld _ clock store _ live_health GatewayHubtel eq_refl
              (replicate 5 (0%Z, false)) five_failures H ltac:(vm_compute; reflexivity))
    as (b & Hb & Hiff & _).
  assert (Ht : tripped (replicate 5 (0%Z, false)) 0).
  { exists 0%Z, (replicate 4 (0%Z, false)), []. split_and!; [reflexivity | cbn; lia | reflexivity]. }
  split; [|exact Ht]. rewrite Hb. cbn [fst]. f_equal. apply Hiff. exact Ht.
Defined.

(** ** Locks

    Payouts over the locks in this server: a batch with one reference twice. *)
Definition server_locks (w : ServerWorld) : LockTable := lock_view (store w).
#[export] Instance server_locks_adapters : AdaptersFrame (@scripted_adapters (gmap string Valkey.Entry)) server_locks.
Proof. split; intros * ->%scripted_adapters_inv; by apply Guar_call. Qed.
#[export] Instance server_locks_router : RouterFrame (@scripted_router (gmap string Valkey.Entry)) server_locks.
Proof. intros h [= <-]. split; intros; simplify_eq/=; by repeat split. Qed.
#[export] Instance server_locks_runtime : RuntimeFrame server_locks.
Proof. by split. Qed.
#[export] Instance server_locker_log : LockerFrame (Valkey_locker (W:=ServerWorld) true) exchanges.
Proof. split; intros; simpl; unfold lock_TryAcquire, lock_Release, Do; simpl; guar; by apply Guar_call. Qed.

Definition payouts_over (r : ChargerRouter ServerWorld) : Payouts.Service ServerWorld := {|
  Payouts.svc_store := {| CreateBatchWithReservations _ := mret (Ok tt); FindBatch _ := mret (Err ErrGatewayUnavailable) |};
  Payouts.svc_router := r; svc_ledger := None; svc_outbox := None; svc_locker := Some (Valkey_locker true) |}.
Definition batch_of (refs : list string) : PayoutBatch := {|
  pb_ID := 9%N; pb_Product := "shop"; pb_Status := "pending"; pb_Total := New 200 GHS; pb_CreatedAt := 0%Z;
  pb_Entries := map (fun ref => {| pe_Recipient := "024"; pe_Amount := New 100 GHS; pe_Reference := ref; pe_VendorID := "" |}) refs;
  pb_BatchDate := 0%Z; pb_IdempotencyKey := "" |}.

Ltac ticks := apply Guar_call; intros w; simpl; lia.
Lemma server_forward r batch :
  Forward clock (Route r) -> (forall g a to m ref, adapters r !! g = Some a -> Forward clock (Payout a to m ref)) ->
  Forward (@clock (gmap string Valkey.Entry)) (Dispatch (payouts_over r) batch).
Proof.
  intros Hr Hp. apply Guar_Dispatch; [ticks|ticks|exact Hr|exact Hp|done|].
  intros l [= <-]. split; intros; simpl; unfold lock_TryAcquire, lock_Release, Do; simpl;
    (split; [intros w; simpl; lia|intros; exact I]).
Qed.

Definition paying : Script := {|
  on_initiate := on_initiate no_script; on_verify := on_verify no_script; on_refund := on_refund no_script;
  on_payout _ _ := Ok tt; circuit_of _ := Ok false |}.
Definition paying_world : ServerWorld := mkWorld 0%Z 0%N 0%Z paying [] [] ∅ ∅.


(** A gateway that takes eight seconds a payout, well within its client's ten. *)
Definition slow : AggregatorClient ServerWorld := {|
  Initiate req := mret (Err ErrGatewayUnavailable); Verify ref := mret (Err ErrGatewayUnavailable);
  Refund ref m := mret (Err ErrGatewayUnavailable);
  Payout to m ref := call (fun w =>
    (Ok tt, mkWorld (clock w + 8 * Second)%Z (uuids w) (entropy w) (script w)
                    (exchanges w ++ [XPayout GatewayMoolre to m ref (Ok tt)]) (results w) (locks w) (store w))) |}.
Definition slow_router : ChargerRouter ServerWorld :=
  {| primary := GatewayMoolre; adapters := {[GatewayMoolre := slow]}; health := None |}.

(** Four payouts later the lock of the first has lapsed, and the reference is
    paid again. *)
Example slow_gateway_pays_twice :
  let w' := (run (Dispatch (payouts_over slow_router) (batch_of ["p1"; "p2"; "p3"; "p4"; "p1"])) paying_world).2 in
  paid "p1" (exchanges w') = 2 /\ paid "p2" (exchanges w') = 1.
Proof. vm_compute. split; reflexivity. Qed.

(** ** Sessions *)
Definition operator_config : Config.Config := {|
  cfg_Environment := EnvProduction;
  HTTP := {| Port := 8080; ReadTimeout := 0; WriteTimeout := 0; IdleTimeout := 0; ShutdownTimeout := 0;
             HandlerTimeout := 0 |};
  Database := {| DB_URL := "postgres://db"; MaxConns := 20 |};
  Config.Valkey := {| VK_Addr := "valkey:6379"; VK_Password := ""; VK_DB := 0 |};
  Observ := {| ServiceName := "orcta-pay"; LogLevel := "info"; OTLPEndpoint := "";
               TraceSampleRatio := f64_1 |};
  Payments := payments; Config.Worker := {| JobTimeout := Minute |};
  Auth := {| Config.APIKey := "s3cret"; VaultAddr := "" |};
  Config.RateLimit := RateLimitConfig_zero |}.

Definition no_cookie : Request := {|
  rq_Method := "POST"; rq_Path := "/auth/login"; rq_RemoteAddr := "10.0.0.1:1"; rq_Header _ := "";
  rq_Cookies := []; rq_Query _ := ""; rq_Param _ := ""; rq_Body := dq "{'api_key':'s3cret'}" |}.
Definition with_session (c : Cookie) : Request := {|
  rq_Method := "GET"; rq_Path := "/v1/charges"; rq_RemoteAddr := "10.0.0.1:1"; rq_Header _ := "";
  rq_Cookies := [(ck_Name c, ck_Value c)]; rq_Query _ := ""; rq_Param _ := ""; rq_Body := "" |}.
Definition at_time (t : Time) : ServerWorld := mkWorld t 0%N 0%Z no_script [] [] ∅ ∅.

Lemma login_session_correct_witness :
  exists c, rs_Cookie (run (handleLogin (fun _ => "") operator_config no_cookie) server_world).1 = Some c /\
    (run (hasValidSession (with_session c) "s3cret") (at_time (11 * Hour))).1 = true /\
    (run (hasValidSession (with_session c) "s3cret") (at_time (12 * Hour))).1 = false.
Proof.
  destruct (@login_session_correct ServerWorld _ (fun _ => "") operator_config (rq_Body no_cookie) "s3cret"
    server_world ltac:(discriminate) ltac:(vm_compute; reflexivity) ltac:(vm_compute; split; congruence)
    no_cookie eq_refl) as (_ & c & Hc & Hs).
  exists c. split; [exact Hc|]. destruct (rs_Cookie _) as [c'|] eqn:E; [|discriminate Hc].
  assert (Hv : ck_Name c = operatorCookie) by (injection Hc as <-; vm_compute in E; injection E as <-; reflexivity).
  split.
  - refine (eq_trans (Hs (with_session c) (at_time (11 * Hour)) _ _) _);
      [unfold cookie_value; cbn; rewrite Hv; reflexivity | vm_compute; split; congruence | reflexivity].
  - refine (eq_trans (Hs (with_session c) (at_time (12 * Hour)) _ _) _);
      [unfold cookie_value; cbn; rewrite Hv; reflexivity | vm_compute; split; congruence | reflexivity].
Defined.

(** ** Rate limits *)
Lemma allowed_at_most_twice_limit_witness :
  (allowed_within 50 100 [0; 60; 61; 99; 100; 101; 140; 149]%Z
     (RateLimit.answers 2 100 "k" [0; 60; 61; 99; 100; 101; 140; 149]%Z ∅) <= 4)%Z.
Proof.
  apply (allowed_at_most_twice_limit 2 100 "k" ltac:(lia) ltac:(lia) 50); [cbn; lia | cbn; lia].
Defined.

Lemma first_limit_allowed_witness : RateLimit.answers 2 100 "k" [0; 60; 61; 99]%Z ∅ = [true; true; false; false].
Proof.
  refine (eq_trans (first_limit_allowed 2 100 "k" ltac:(lia) ltac:(lia) 0 [60; 61; 99]%Z _ _ _) _).
  - cbn; lia.
  - intros t Ht. set_solver by lia.
  - cbn; lia.
  - reflexivity.
Defined.

(** ** JSON *)
Lemma parse_Marshal_witness :
  parse (Marshal (JObj [("ref", JStr "optd-1"); ("amount", JNum "1800"); ("ok", JBool true)]))
  = Some (JObj [("ref", JStr "optd-1"); ("amount", JNum "1800"); ("ok", JBool true)]).
Proof.
  refine (eq_trans (parse_Marshal _ _ _) _); [|vm_compute; congruence | vm_compute; reflexivity].
  cbn. repeat split. exact (FormatInt_literal 1800).
Defined.

(** ** Production *)
Definition production_env (key : string) : string :=
  if String.eqb key "ORCTA_ENV" then "production"
  else if String.eqb key "ORCTA_PAY_API_KEY" then "s3cret"
  else if String.eqb key "DATABASE_URL" then "postgres://db"
  else if String.eqb key "PAYMENT_PENDING_TIMEOUT" then "1h30m"
  else if String.eqb key "PAYSTACK_SECRET_KEY" then "sk_live" else "".

Definition production_config : Config.Config :=
  match Load production_env with Ok c => c | Err _ => operator_config end.

Definition no_limiter : RateLimiter ServerWorld :=
  newRateLimiter false 0 Minute "" false (fun w => (∅, w)) (fun _ w => (tt, w)).

Lemma production_requires_key_witness :
  (run (v1 production_config no_limiter (fun _ => mret (writeJSON 200 JNull)) no_cookie) server_world).1
  = writeError 401 "unauthorized" "invalid or missing credentials".
Proof.
  destruct (@production_requires_key ServerWorld _ _ production_env
    production_config no_limiter (fun _ => mret (writeJSON 200 JNull)) no_cookie server_world)
    as (w' & _ & H); [vm_compute; reflexivity | reflexivity | | vm_compute; discriminate | exact (f_equal fst H)].
  intros (v & e & Hv & _). vm_compute in Hv. discriminate Hv.
Defined.
