(* ===== verification/Deployment.v ===== *)
(** * A deployment, concretely

    A world with everything the processes touch: a Postgres and a Valkey
    server that can be down, a process's memory, its limiters' maps, the open
    connections, a network of gateways.  The composition root, the processes,
    the router and the client run here from end to end, and their theorems
    are applied. *)
From S2P Require Import Prelude GoStrings Json JsonCodec Money Reference Config Ledger Gateway Router Scenario Worker Valkey LocksSpec.
From S2P Require Import Client ClientSpec Charges Webhooks Payouts Apps Http AdaptersSpec Api RateLimit Handlers HandlersSpec.
From S2P Require Import Database DatabaseProofs PgStore ListHandlers ListSpec MemStore MemStoreProofs.
From S2P Require Import Observability Build BuildSpec Commands HttpRouter HttpSpec Wire Edge.
From Stdlib Require Import Ascii.

Record Env := mkEnv {
  env_tables : Tables; env_mem : MemoryStore; env_db : gmap string Valkey.Entry; env_conns : gset N;
  env_traces : gset N; env_buckets : gmap string rateBucket; env_wire : WireLog; env_pg_up : bool; env_vk_up : bool }.
Abbreviation Site := (World Env) (only parsing).

Definition on (f : Env -> Env) (w : Site) : Site :=
  mkWorld (clock w) (uuids w) (entropy w) (script w) (exchanges w) (results w) (locks w) (f (store w)).
Definition put_tables t e := mkEnv t (env_mem e) (env_db e) (env_conns e) (env_traces e) (env_buckets e) (env_wire e) (env_pg_up e) (env_vk_up e).
Definition put_mem m e := mkEnv (env_tables e) m (env_db e) (env_conns e) (env_traces e) (env_buckets e) (env_wire e) (env_pg_up e) (env_vk_up e).
Definition put_db d e := mkEnv (env_tables e) (env_mem e) d (env_conns e) (env_traces e) (env_buckets e) (env_wire e) (env_pg_up e) (env_vk_up e).
Definition put_conns c e := mkEnv (env_tables e) (env_mem e) (env_db e) c (env_traces e) (env_buckets e) (env_wire e) (env_pg_up e) (env_vk_up e).
Definition put_traces c e := mkEnv (env_tables e) (env_mem e) (env_db e) (env_conns e) c (env_buckets e) (env_wire e) (env_pg_up e) (env_vk_up e).
Definition put_buckets b e := mkEnv (env_tables e) (env_mem e) (env_db e) (env_conns e) (env_traces e) b (env_wire e) (env_pg_up e) (env_vk_up e).
Definition put_wire l e := mkEnv (env_tables e) (env_mem e) (env_db e) (env_conns e) (env_traces e) (env_buckets e) l (env_pg_up e) (env_vk_up e).

Definition conns_of (w : Site) : gset N := env_conns (store w).
Definition traces_of (w : Site) : gset N := env_traces (store w).
Definition tables_of (w : Site) : Tables := env_tables (store w).

(** ** The servers and the network *)
#[export] Instance site_postgres : Postgres Site := {
  pg_exec A s := fun w =>
    match s (clock w) (tables_of w) with
    | Ok (a, t) => (Ok a, on (put_tables t) w)
    | Err e => (Err e, w)
    end }.
#[export] Instance site_mem : HasMem Site := { mem w := env_mem (store w); set_mem m w := on (put_mem m) w }.
#[export] Instance site_mem_laws : HasMemLaws Site.
Proof. by split. Qed.
#[export] Instance site_valkey : ValkeyClient Site := {
  vk_Do c := fun w => let r := exec (clock w) c (env_db (store w)) in (r.1, on (put_db r.2) w);
  vk_seq := fun w => (0%N, w) }.

Definition takes_all (rq : HttpRequest) : result HttpResponse :=
  Ok {| hr_StatusCode := 200; hr_Body := dq "{'ResponseCode':'0000'}" |}.
#[export] Instance site_network : Transport Site := {
  client_Do rq := fun w => (takes_all rq, on (fun e => put_wire (env_wire e ++ [(rq, takes_all rq)]) e) w);
  bad_URL _ := None }.

#[export] Instance site_telemetry : Telemetry Site := {
  otlptracehttp_New _ := fun w =>
    let tp := fresh (env_traces (store w)) in (Ok tp, on (fun e => put_traces ({[tp]} ∪ env_traces e) e) w);
  tp_Shutdown tp := fun w => (None, on (fun e => put_traces (env_traces e ∖ {[tp]}) e) w) }.
#[export] Instance site_telemetry_spec : TelemetrySpec traces_of.
Proof. split; [|done]. intros url w. split; [apply (is_fresh (env_traces (store w))) | done]. Qed.

(** A connection never open before. *)
Definition fresh_conn (w : Site) : N := fresh (env_conns (store w)).
Definition open_conn : M Site (result N) := fun w =>
  (Ok (fresh_conn w), on (fun e => put_conns ({[fresh_conn w]} ∪ env_conns e) e) w).
Definition close_conn (c : N) : M Site unit := fun w => (tt, on (fun e => put_conns (env_conns e ∖ {[c]}) e) w).
Definition ping (up : Env -> bool) : M Site (option error) := fun w =>
  (if up (store w) then None else Some (Fresh "connection refused"), w).

#[export] Instance site_infra : Infra Site := {
  pgxpool_ParseConfig _ := None;
  pgxpool_NewWithConfig _ _ := open_conn;
  pool_Ping _ := ping env_pg_up;
  pool_Close := close_conn;
  valkey_NewClient _ := fun w => if env_vk_up (store w) then open_conn w else (Err (Fresh "dial tcp"), w);
  valkey_Ping _ := ping env_vk_up;
  valkey_Close := close_conn }.

#[export] Instance site_infra_spec : InfraSpec conns_of.
Proof.
  split; try done.
  - intros url n w. split; [apply (is_fresh (env_conns (store w))) | done].
  - intros o w. cbn [valkey_NewClient site_infra]. destruct (env_vk_up (store w)); [|done].
    split; [apply (is_fresh (env_conns (store w))) | done].
Qed.
#[export] Instance site_frames_telemetry : TelemetryFrame conns_of.
Proof. by split. Qed.
#[export] Instance site_traces_infra : InfraFrame traces_of.
Proof. split; try done. intros o w. simpl. by destruct (env_vk_up (store w)). Qed.
#[export] Instance site_traces_mem : MemFrame traces_of.
Proof. done. Qed.
#[export] Instance site_frames_mem : MemFrame conns_of.
Proof. done. Qed.
#[export] Instance site_frames_runtime : RuntimeFrame conns_of.
Proof. by split. Qed.
#[export] Instance site_frames_network : TransportFrame conns_of.
Proof. done. Qed.
#[export] Instance site_frames_postgres : PostgresFrame conns_of.
Proof. intros A s w. simpl. by destruct (s (clock w) (tables_of w)) as [[a t]|e]. Qed.
#[export] Instance site_frames_valkey : ValkeyFrame conns_of.
Proof. done. Qed.

(** ** Processes *)
Definition site (pg vk : bool) : Site :=
  mkWorld 0 0 0 no_script [] [] ∅ (mkEnv no_tables NewMemoryStore ∅ ∅ ∅ ∅ [] pg vk).
Definition development : Config.Config := {|
  cfg_Environment := EnvDevelopment; HTTP := HTTP operator_config; Config.Database := Config.Database operator_config;
  Config.Valkey := Config.Valkey operator_config; Observ := Observ operator_config; Payments := Payments operator_config;
  Config.Worker := Config.Worker operator_config; Auth := Auth operator_config;
  Config.RateLimit := Config.RateLimit operator_config |}.

(** In production, with tracing on and Valkey down: no connection is left open,
    and the exporter runs on. *)
Definition traced_config : Config.Config := {|
  cfg_Environment := EnvProduction; HTTP := HTTP operator_config; Config.Database := Config.Database operator_config;
  Config.Valkey := Config.Valkey operator_config; Payments := Payments operator_config;
  Observ := {| ServiceName := "orcta-pay"; LogLevel := "info"; OTLPEndpoint := "http://collector:4318";
               TraceSampleRatio := f64_1 |};
  Config.Worker := Config.Worker operator_config; Auth := Auth operator_config;
  Config.RateLimit := Config.RateLimit operator_config |}.

Lemma Build_correct_witness :
  let failed := run (Build traced_config) (site true false) in
  is_Ok failed.1 = false /\ conns_of failed.2 = ∅ /\ (exists tp, traces_of failed.2 = {[tp]} ∪ ∅)
  /\ is_Ok (run (Build traced_config) (site true true)).1 = true.
Proof.
  cbv zeta. pose proof (Build_correct conns_of traces_of traced_config (site true false)) as H. cbv zeta in H.
  assert (E : is_Ok (run (Build traced_config) (site true false)).1 = false) by (vm_compute; reflexivity).
  assert (Es : is_Ok (run (Setup (Observ traced_config)) (site true false)).1 = true) by (vm_compute; reflexivity).
  split; [exact E|]. rewrite Es in H.
  destruct (run (Build traced_config) (site true false)) as [[a|e] w1]; [discriminate E|].
  destruct H as (Hc & _ & tp & _ & Ht). split; [exact Hc|]. split; [by exists tp|vm_compute; reflexivity].
Defined.

Lemma run_worker_returns_witness :
  let out := run (run_worker (Ok operator_config) (replicate 3 Tick ++ [Done])) (site true true) in
  out.1 = Some None /\ conns_of out.2 = ∅.
Proof.
  cbv zeta. split; [vm_compute; reflexivity|].
  exact (proj1 (run_worker_returns conns_of (Ok operator_config) 3 [] (site true true))).
Defined.

Definition idle_app : option (App Site) :=
  match (run (Build development) (site false true)).1 with Ok a => Some a | Err _ => None end.
Lemma memory_worker_idle_witness :
  match idle_app with
  | Some a =>
      let w1 := (run (Build development) (site false true)).2 in
      let w2 := Nat.iter 4 (fun w => (run (round a) w).2) w1 in
      app_Pool a = None /\ mem w2 = NewMemoryStore /\ exchanges w2 = exchanges w1
  | None => False
  end.
Proof.
  unfold idle_app.
  pose proof (@memory_worker_idle Site _ _ _ _ _ _ _ _ conns_of _ _ _ _ (@exchanges Env) _ ltac:(by split)
    development (site false true)) as H.
  assert (E : exists a, (run (Build development) (site false true)).1 = Ok a /\ app_Pool a = None)
    by (eexists; split; reflexivity).
  destruct E as (a & E & Hp). rewrite E. cbv zeta. split; [exact Hp|]. exact (H a 4 E Hp).
Defined.

(** ** The router *)

(** A pattern's segments against a path's: the parameters and what is left. *)
Fixpoint segments (pattern path : list string) : option (list (string * string) * list string) :=
  match pattern, path with
  | [], rest => Some ([], rest)
  | p :: pattern, s :: path =>
      match p with
      | String "{" name => '(ps, rest) ← segments pattern path; Some ((TrimRight name "}", s) :: ps, rest)
      | _ => if String.eqb p s then segments pattern path else None
      end
  | _ :: _, [] => None
  end.
Definition route_matches (method path : string) (route : option string * string) : option (list (string * string) * string) :=
  '(ps, rest) ← segments (Split route.2 "/") (Split path "/");
  match route.1 with
  | None => Some (ps, "/" ^^ Join rest "/")
  | Some m => if String.eqb m method then match rest with [] => Some (ps, "") | _ => None end else None
  end.
#[export] Instance site_chi : Chi := {
  chi_find routes method path :=
    match list_find (fun r => is_Some (route_matches method path r)) routes with
    | Some (i, r) => match route_matches method path r with Some (ps, rest) => Found i ps rest | None => NoRoute end
    | None => NoRoute
    end;
  chi_NotAllowed _ := {| rs_Status := 405; rs_Header := []; rs_Cookie := None; rs_Body := "" |}}.

(** The middlewares on requests that are neither probes nor preflights. *)
Definition heartbeat {W} (path : string) (next : Handler W) : Handler W := fun r =>
  if String.eqb (rq_Method r) "GET" && String.eqb (rq_Path r) path then mret (page "text/plain" ".") else next r.
Definition believes (valid : string -> bool) {W} (next : Handler W) : Handler W := fun r =>
  let addr := rq_Header r "True-Client-IP" in
  if valid addr then next (with_RemoteAddr addr r) else next r.
Definition dotted (s : string) : bool := (length (Split s ".") =? 4) && negb (has_char ":" s).
#[export] Instance site_middlewares : Middlewares Site := {
  mw_RequestID := fun next => next; mw_RealIP := believes dotted; mw_Recoverer := fun next => next;
  mw_Heartbeat := heartbeat; mw_cors _ := fun next => next }.
#[export] Instance site_middlewares_spec : MiddlewaresSpec Site.
Proof.
  split; intros; intros h1 h2 r H w.
  - by apply H.
  - simpl. unfold believes. destruct (dotted _); by apply H.
  - by apply H.
  - simpl. unfold heartbeat. destruct (_ && _); [done|by apply H].
  - by apply H.
Qed.
#[export] Instance site_files : Files Site := {
  os_Stat _ := fun w => (None, w); http_ServeFile _ := fun _ => mret http_NotFound;
  http_FileServer _ := fun _ => mret http_NotFound }.
#[export] Instance site_metrics : Metrics Site := {
  chi_RoutePattern r := fun w => (rq_Path r, w);
  HTTPRequestsTotal_Inc _ _ _ := fun w => (tt, w); HTTPRequestDuration_Observe _ _ _ _ := fun w => (tt, w);
  promhttp_Handler := fun _ => mret (page "text/plain" "") }.
#[export] Instance site_pool : Pool Site := { pool_Query _ _ := fun w => (Err (Fresh "syntax error"), w) }.

Definition own_buckets : M Site (gmap string rateBucket) := fun w => (env_buckets (store w), w).
Definition put_own (bs : gmap string rateBucket) : M Site unit := fun w => (tt, on (put_buckets bs) w).
Definition no_env (name : string) : string := "".
Definition site_served : App Site -> list (Route Site) -> Handler Site -> Handler Site :=
  serve (fun s => s) no_env "openapi: 3.1.0" own_buckets own_buckets put_own put_own.
Definition site_router (a : App Site) : Prog Site (Handler Site) :=
  NewRouter (fun s => s) (fun _ => None) no_env "openapi: 3.1.0"
    own_buckets own_buckets put_own put_own a.

Definition asking (method path : string) (headers : list (string * string)) (body : string) : Request := {|
  rq_Method := method; rq_Path := path; rq_RemoteAddr := "10.0.0.9:4000";
  rq_Header k := default "" (snd <$> (snd <$> list_find (fun h => h.1 = k) headers));
  rq_Cookies := []; rq_Query _ := ""; rq_Param _ := ""; rq_Body := body |}.

(** Build, route, serve one request. *)
Definition served_once (pg : bool) (r : Request) : option Response :=
  let out := run (app ← Build operator_config;
                  match app with
                  | Err _ => mret None
                  | Ok a => h ← site_router a; resp ← h r; mret (Some resp)
                  end) (site pg true) in
  out.1.
Definition with_key : list (string * string) := [("Authorization", "Bearer s3cret")].

Example served_examples :
  rs_Status <$> served_once true (asking "GET" "/readyz" [] "") = Some 200%Z
  /\ rs_Body <$> served_once true (asking "GET" "/healthz" [] "") = Some "."
  /\ rs_Status <$> served_once true (asking "GET" "/v1/apps" [] "") = Some 401%Z
  /\ rs_Status <$> served_once true (asking "GET" "/v1/apps" with_key "") = Some 200%Z
  /\ rs_Status <$> served_once true (asking "GET" "/v1/nothing" [] "") = Some 401%Z
  /\ rs_Status <$> served_once true (asking "GET" "/v1/nothing" with_key "") = Some 404%Z
  /\ rs_Status <$> served_once true (asking "POST" "/v1/charges" with_key
       (dq "{'product':'shop','amount_pesewas':500,'currency':'GHS','wallet':'0240000001'}")) = Some 201%Z.
Proof. split_and!; vm_compute; reflexivity. Qed.

Definition live_app : App Site :=
  wire operator_config {| pr_Logger := NewLogger (Observ operator_config); pr_shutdown := [] |} (Some 0%N) (Some 1%N).
Definition knock : Request := asking "POST" "/v1//charges/../charges" [("Authorization", "Bearer guess")] "{}".

Lemma knock_stranger : stranger operator_config knock.
Proof. split; [intros now (v & e & Hc & _); discriminate Hc | vm_compute; discriminate]. Qed.

Lemma strangers_see_no_endpoint_witness :
  run (site_served live_app [] (fun _ => mret http_NotFound) knock) (site true true)
  = run (site_served live_app [Post "/charges" (handleCreateCharge (fun s => s) (app_Charges live_app))]
           (fun _ => mret http_NotFound) knock) (site true true).
Proof.
  exact (strangers_see_no_endpoint (fun s => s) no_env "openapi: 3.1.0" own_buckets own_buckets put_own put_own
    live_app [] [Post "/charges" (handleCreateCharge (fun s => s) (app_Charges live_app))]
    (fun _ => mret http_NotFound) knock (site true true) ltac:(discriminate) knock_stranger).
Defined.

Definition one_a_minute (client : bool) : RateLimiter Site :=
  newRateLimiter client 1 Minute "ratelimit:ip" true own_buckets put_own.
#[export] Instance site_believes : RealIPSpec (W:=Site) dotted.
Proof.
  intros h r w Hv. change (mw_RealIP h r) with (believes dotted h r). unfold believes. by rewrite Hv.
Qed.
Definition db_of (w : Site) : gmap string Valkey.Entry := env_db (store w).
#[export] Instance one_a_minute_map client : OwnMap (one_a_minute client) (fun w => env_buckets (store w)) db_of.
Proof. by split. Qed.
#[export] Instance site_valkey_spec : ValkeySpec (W:=Site) clock db_of.
Proof. by split. Qed.

(** Four charges in a row from one connection, against a limit of one, counted
    in Valkey; without the header all but the first are stopped. *)
Lemma ip_limit_evaded_witness :
  let ok : Handler Site := fun _ => mret (page "text/plain" "ok") in
  let charge := asking "POST" "/v1/charges" [] "" in
  let statuses claims := map rs_Status (answered (one_a_minute true) ok charge claims (site true true)) in
  statuses ["41.0.0.1"; "41.0.0.2"; "41.0.0.3"; "41.0.0.4"] = [200; 200; 200; 200]%Z
  /\ statuses ["41.0.0.1"; "41.0.0.1"; "41.0.0.1"; "41.0.0.1"] = [200; 429; 429; 429]%Z
  /\ isRateLimitedPath charge = true.
Proof.
  cbv zeta. split; [|split; [vm_compute; reflexivity|reflexivity]].
  assert (H := ip_limit_evaded (one_a_minute true) (fun w => env_buckets (store w)) clock db_of dotted
    (fun _ => mret (page "text/plain" "ok")) (asking "POST" "/v1/charges" [] "")
    ["41.0.0.1"; "41.0.0.2"; "41.0.0.3"; "41.0.0.4"] (site true true)).
  set (answers := answered _ _ _ _ _) in *. clearbody answers.
  assert (H4 : Forall2 (fun addr resp => exists w', resp = (run ((fun _ => mret (page "text/plain" "ok") : Prog Site Response)
      (with_RemoteAddr addr (claiming addr (asking "POST" "/v1/charges" [] "")))) w').1)
      ["41.0.0.1"; "41.0.0.2"; "41.0.0.3"; "41.0.0.4"] answers).
  { apply H; [refine (bool_decide_unpack _ _); vm_compute; exact I| |done].
    intros addr Hin. repeat (apply elem_of_cons in Hin as [->|Hin]; [split_and!; try discriminate; vm_compute; split; (reflexivity || discriminate)|]).
    by apply not_elem_of_nil in Hin. }
  clear H. repeat match goal with H : Forall2 _ (_ :: _) _ |- _ => inversion H; clear H; subst | H : Forall2 _ [] _ |- _ => inversion H; clear H; subst end.
  repeat match goal with H : exists _, _ |- _ => destruct H as [? ->] end. reflexivity.
Defined.

(** ** The client *)
Definition till : Client.Client := NewClient no_env "https://pay.example/" "s3cret" [].
Definition till_charge : Client.CreateChargeRequest := {|
  cc_Product := "shop"; cc_AmountPesewas := 500; cc_Currency := ""; cc_Wallet := ""; cc_Phone := "0240000001";
  cc_IdempotencyKey := "order-7"; cc_Metadata := None |}.

Lemma CreateCharge_is_Initiate_witness :
  let out := run (CreateCharge (ApiTransport0 := served_by (fun _ => "") (cl_baseURL till)
    (bearerAuth operator_config (handleCreateCharge (fun s => s) (app_Charges live_app)))) till till_charge) (site true true) in
  let local := run (Charges.Initiate (app_Charges live_app) (asked till_charge "order-7")) (site true true) in
  out.2 = local.2 /\ told local.1 out.1.
Proof.
  apply (CreateCharge_is_Initiate (fun s => s) (fun _ => "") till till_charge operator_config (app_Charges live_app)
    (site true true)).
  - reflexivity.
  - unfold int64. cbn. lia.
  - exact I.
  - intros v [= <-]. apply N.leb_le. vm_compute. reflexivity.
Defined.

(** Through the whole router: the charge is in Postgres under the client's key. *)
Example charged_over_the_wire :
  let through := served_by (fun _ => "") (cl_baseURL till)
                   (site_served live_app (v1_routes (fun s => s) (fun _ => None) live_app)
                      (fun _ => mret http_NotFound)) in
  let out := run (CreateCharge (ApiTransport0 := through) till till_charge) (site true true) in
  let again := run (CreateCharge (ApiTransport0 := through) till till_charge) out.2 in
  exists ref, out.1 = (Some (Client.ChargePending ref GatewayHubtel ref), None)
    /\ again.1 = (Some (Client.ChargePending ref "" ""), None)
    /\ map_to_list (t_intent_keys (tables_of again.2)) = [(("shop", "order-7"), ref)].
Proof. eexists. split_and!; vm_compute; reflexivity. Qed.
