(* ===== verification/FleetRuns.v ===== *)
(** * Fleets, concretely

    The deployment's world meets what [Fleet] and [FleetCharges] assume of
    the servers, the drivers and the packages around the router; their
    theorems at concrete fleets; and the schedule in which two charges under
    one key both reach the gateway. *)
From S2P Require Import Prelude GoStrings Json JsonCodec Money Reference Config Ledger Gateway Router Scenario Worker WorkerFrames Valkey HealthSpec.
From S2P Require Import RelyGuarantee RouterProofs Charges ChargesSpec Webhooks LocksSpec Payouts PayoutsSpec Apps Http AdaptersSpec Api ApiWebhooks RateLimit Handlers ListHandlers.
From S2P Require Import Database DatabaseProofs History PgStore PgSpec MemStore MemStoreProofs.
From S2P Require Import Observability Build BuildSpec Commands HttpRouter Integrity PgIntegrity Fleet FleetCharges Wire Edge Deployment.

(** Gateways that take every charge and report it as collected. *)
Definition reports_collected (rq : HttpRequest) : result HttpResponse :=
  Ok {| hr_StatusCode := 200;
        hr_Body := dq (if String.eqb (hq_Method rq) POST then "{'ResponseCode':'0000'}"
                       else "{'ResponseCode':'0000','Status':'Success','Data':{'Status':'Success','Amount':'5.00'}}") |}.
#[export] Instance paid_network : Transport Site := {
  client_Do rq := fun w =>
    (reports_collected rq, on (fun e => put_wire (env_wire e ++ [(rq, reports_collected rq)]) e) w);
  bad_URL _ := None }.
Definition paid_app : App Site :=
  wire operator_config {| pr_Logger := NewLogger (Observ operator_config); pr_shutdown := [] |} (Some 0%N) (Some 1%N).
Definition paid_served : Handler Site :=
  serve (fun s => s) no_env "openapi: 3.1.0" own_buckets own_buckets put_own put_own paid_app
    (v1_routes (fun s => s) (fun _ => None) paid_app) (serve_dashboard "").

(** ** The assumptions hold *)
#[export] Instance site_postgres_spec : PostgresSpec tables_of.
Proof.
  split. intros A s w. simpl. destruct (s (clock w) (tables_of w)) as [[a t]|e] eqn:E; simpl.
  - by exists (clock w).
  - split; [done|]. right. by exists (clock w).
Qed.
#[export] Instance site_tables_runtime : RuntimeFrame tables_of.
Proof. by split. Qed.
#[export] Instance site_tables_network : TransportFrame tables_of.
Proof. done. Qed.
#[export] Instance site_tables_valkey : ValkeyFrame tables_of.
Proof. done. Qed.
#[export] Instance site_tables_sequence : SequenceFrame tables_of.
Proof. done. Qed.
#[export] Instance site_tables_telemetry : TelemetryFrame tables_of.
Proof. by split. Qed.
#[export] Instance site_tables_infra : InfraFrame tables_of.
Proof. split; try done. intros o w. simpl. by destruct (env_vk_up (store w)). Qed.
#[export] Instance site_tables_pool : PoolFrame tables_of.
Proof. done. Qed.
#[export] Instance site_tables_files : FilesFrame tables_of.
Proof. by split. Qed.
#[export] Instance site_tables_metrics : MetricsFrame tables_of.
Proof. by split. Qed.
#[export] Instance site_tables_buckets : BucketsFrame own_buckets put_own tables_of.
Proof. by split. Qed.
#[export] Instance site_network_errors : TransportErrors (W:=Site).
Proof. by split. Qed.
#[export] Instance site_middlewares_pass : MiddlewaresPass tables_of.
Proof.
  split; intros; intros h Hh r; simpl.
  - apply Hh.
  - unfold believes. destruct (dotted _); apply Hh.
  - apply Hh.
  - unfold heartbeat. destruct (_ && _); [apply Trusted_ret|apply Hh].
  - apply Hh.
Qed.

Lemma paid_production : production_app tables_of operator_config (Ok paid_app).
Proof. eexists _, 0%N, (Some 1%N). split; [reflexivity|]. exact I. Qed.

Lemma consistent_no_tables : consistent no_tables.
Proof. split; [exact schema_no_tables|]. split; [done|]. by apply Forall_nil. Qed.

(** ** A fleet: a worker, a charge over HTTP, a dispatch, another process starting *)
Definition charge_post : Request := asking "POST" "/v1/charges" with_key
  (dq "{'product':'shop','amount_pesewas':500,'currency':'GHS','wallet':'0240000001'}").
Definition empty_batch : Payouts.PayoutBatch := {|
  pb_ID := 1%N; pb_Product := "shop"; pb_Entries := []; pb_Status := "pending"; pb_Total := New 500 GHS;
  pb_CreatedAt := 0%Z; pb_BatchDate := 0%Z; pb_IdempotencyKey := "" |}.
Definition fleet : list (Prog Site unit) :=
  [forget (run_worker (Ok operator_config) [Tick; Tick; Done]);
   forget (paid_served charge_post);
   forget (Dispatch (app_Payouts paid_app) empty_batch);
   forget (Build operator_config)].
Definition fleet_turns : list nat := concat (replicate 5 [1; 0; 2; 3]) ++ replicate 30 1 ++ concat (replicate 60 [0; 3]).

Lemma fleet_actors : Forall (actor tables_of (fun s => s) (fun _ => None) no_env "openapi: 3.1.0"
                               own_buckets own_buckets put_own put_own) fleet.
Proof.
  apply Forall_cons; [by apply ac_worker|]. apply Forall_cons; [by eapply ac_request, paid_production|].
  apply Forall_cons; [by eapply ac_dispatch, paid_production|]. apply Forall_cons; [by apply ac_build|by apply Forall_nil].
Qed.

(** The charge is made and settled. *)
Lemma fleet_keeps_books_witness :
  let w' := (sched fleet_turns fleet (site true true)).2 in
  consistent (tables_of w') /\ map (fun kv => pi_Status kv.2) (map_to_list (t_intents (tables_of w'))) = ["succeeded"]
  /\ length (t_ledger (tables_of w')) = 1.
Proof.
  split; [|split; vm_compute; reflexivity].
  exact (proj2 (fleet_keeps_books tables_of (fun s => s) (fun _ => None) no_env "openapi: 3.1.0"
    own_buckets own_buckets put_own put_own fleet_turns fleet (site true true) fleet_actors) consistent_no_tables).
Defined.

(** ** The payouts that [Build] wires are those of [Dispatch_correct]

    Locks among Valkey's keys, whose server answers and lets them lapse; the
    other drivers leave them alone. *)
Definition site_locks (w : Site) : LockTable := lock_view (db_of w).
#[export] Instance site_locks_runtime : RuntimeFrame site_locks.
Proof. by split. Qed.
#[export] Instance site_locks_network : TransportFrame site_locks.
Proof. done. Qed.
#[export] Instance site_locks_postgres : PostgresFrame site_locks.
Proof. intros A s w. unfold site_locks, db_of. simpl. by destruct (s (clock w) (tables_of w)) as [[a t]|e]. Qed.
Lemma paid_payouts_wired :
  LockerSpec (Valkey_locker (W:=Site) true) site_locks clock
  /\ svc_locker (app_Payouts paid_app) = Some (Valkey_locker true)
  /\ AdaptersFrame (adapters (Payouts.svc_router (app_Payouts paid_app))) site_locks
  /\ RouterFrame (Payouts.svc_router (app_Payouts paid_app)) site_locks
  /\ forall lw, svc_ledger (app_Payouts paid_app) = Some lw -> LedgerWriterFrame lw site_locks.
Proof.
  split; [exact (Valkey_locker_spec clock db_of (ValkeyCalls0:=_))|].
  apply (wired_payouts site_locks operator_config _ 0%N 1%N). exact (Valkey_health_locks clock db_of true _ (fun w => eq_refl)).
Qed.

(** ** Two charges under one key *)
Definition order_7 : ChargeRequest := {|
  cr_Product := "shop"; cr_Amount := New 500 GHS; cr_Wallet := "0240000001"; cr_Phone := ""; cr_IdempotencyKey := "order-7" |}.
Definition both : list Task := [Charging paid_app order_7; Charging paid_app order_7].
Definition race : list (Prog Site (option (result ChargeResult))) * Site :=
  sched (concat (replicate 30 [0; 1])) (map body both) (site true true).
Definition turn_by_turn : list (Prog Site (option (result ChargeResult))) * Site :=
  sched (replicate 30 0 ++ replicate 30 1) (map body both) (site true true).

Lemma both_allowed : Forall (allowed tables_of (fun s => s) (fun _ => None) no_env "openapi: 3.1.0"
                               own_buckets own_buckets put_own put_own) both.
Proof.
  assert (H : allowed tables_of (fun s => s) (fun _ => None) no_env "openapi: 3.1.0"
                own_buckets own_buckets put_own put_own (Charging paid_app order_7)).
  { exists operator_config. split; [exact paid_production|]. by repeat split. }
  apply Forall_cons; [exact H|]. apply Forall_cons; [exact H|by apply Forall_nil].
Qed.

Definition pending_of (x : option (option (result ChargeResult))) : option ChargePending :=
  match x with Some (Some (Ok (Pending p))) => Some p | _ => None end.

(** Taken in turns, the second charge is the first one's replay. *)
Lemma one_key_one_charge_witness :
  exists p p', map (fun q => pending_of (finished q)) turn_by_turn.1 = [Some p; Some p'] /\ cp_Ref p' = cp_Ref p
    /\ length (env_wire (store turn_by_turn.2)) = 1.
Proof.
  eexists _, _. split; [vm_compute; reflexivity|]. split; [|vm_compute; reflexivity].
  refine (proj1 (one_key_one_charge tables_of (fun s => s) (fun _ => None) no_env "openapi: 3.1.0"
    own_buckets own_buckets put_own put_own (replicate 30 0 ++ replicate 30 1) both (site true true)
    0 1 paid_app paid_app order_7 order_7 _ _ both_allowed eq_refl eq_refl eq_refl eq_refl _ _ _));
    [discriminate|vm_compute; reflexivity|vm_compute; reflexivity].
Defined.

(** What Hubtel calls back with about a charge. *)
Definition hubtel_callback_of (ref : string) : string :=
  Marshal (JObj [("TransactionId", JStr ("t-" ^^ ref)); ("ClientReference", JStr ref)]).

(** *** Charges without a record *)
Definition wire_of (w : Site) : WireLog := env_wire (store w).
Definition register_at (w : Site) : Register (string * option string) := PgSpec.register_of (tables_of w).
#[export] Instance site_wire_postgres : PostgresFrame wire_of.
Proof. intros A s w. unfold wire_of. simpl. by destruct (s (clock w) (tables_of w)) as [[a t]|e]. Qed.
#[export] Instance site_wire_runtime : RuntimeFrame wire_of.
Proof. by split. Qed.
#[export] Instance site_register_runtime : RuntimeFrame register_at.
Proof. by split. Qed.
#[export] Instance site_register_network : TransportFrame register_at.
Proof. done. Qed.
#[export] Instance site_register_valkey : ValkeyFrame register_at.
Proof. done. Qed.
#[export] Instance site_register_sequence : SequenceFrame register_at.
Proof. done. Qed.
#[export] Instance site_register_adapters : AdaptersFrame (adapters (Charges.svc_router (app_Charges paid_app))) register_at.
Proof. cbn [app_Charges paid_app wire Charges.svc_router adapters NewChargerRouter]. unfold platform_adapters. apply _. Qed.
#[export] Instance site_register_router : RouterFrame (Charges.svc_router (app_Charges paid_app)) register_at.
Proof. intros h [= <-]. apply _. Qed.

(** A process that stops after the exchange has had GHS 5.00 collected and
    nothing of it stored.  Of two charges made at once under one key, both are
    taken by the gateway, and one is answered with an error: no intent has the
    reference it was taken under, and the callback about it is acknowledged as
    none of ours. *)
Lemma charge_taken_without_record_witness :
  (exists k rq, let stopped := (sched (replicate k 0) [Charges.Initiate (app_Charges paid_app) order_7] (site true true)).2 in
     map fst (wire_of stopped) = [rq] /\ carries rq [("Amount", JStr "5.00")]
     /\ register_at stopped = PgSpec.register_of no_tables)
  /\ (let out := sched (concat (replicate 30 [0; 1])) (map body both) (site true true) in
      exists p err rq rq' lost,
        map finished out.1 = [Some (Some (Ok (Pending p))); Some (Some (Err err))]
        /\ map fst (wire_of out.2) = [rq; rq']
        /\ carries rq [("ClientReference", JStr (cp_Ref p))] /\ carries rq' [("ClientReference", JStr lost)]
        /\ map fst (map_to_list (t_intents (tables_of out.2))) = [cp_Ref p] /\ lost <> cp_Ref p
        /\ webhook_answer (run (Process (app_Webhooks paid_app) GatewayHubtel (hubtel_callback_of lost)) out.2).1
           = writeJSON 200 (JObj [("status", JStr "ignored")])).
Proof.
  split.
  - destruct (charge_taken_without_record (app_Charges paid_app) key_scope register_at wire_of order_7 (site true true))
      as (k & Hs & Hr).
    exists k. eexists. split; [rewrite Hs; vm_compute; reflexivity|].
    split; [eexists; split; [vm_compute; reflexivity|]; by repeat constructor|]. rewrite Hr. reflexivity.
  - cbv zeta. eexists _, _, _, _, "optd-shop-hubtel-00000000040G40R40M30E20918".
    split; [vm_compute; reflexivity|]. split; [vm_compute; reflexivity|].
    split; [eexists; split; [vm_compute; reflexivity|]; by repeat constructor|].
    split; [eexists; split; [vm_compute; reflexivity|]; by repeat constructor|].
    split; [vm_compute; reflexivity|]. split; [discriminate|]. vm_compute. reflexivity.
Defined.
