(* ===== verification/Witnesses.v ===== *)
(** * The properties at concrete inputs

    For every property with hypotheses proved over abstract stores, adapters
    or worlds: an instance in the concrete world of [Scenario], with its
    hypotheses discharged and its conclusion evaluated. *)
From S2P Require Import Prelude GoStrings Json Crypto Money Reference Config Ledger Gateway.
From S2P Require Import Router Scenario RouterProofs Charges ChargesSpec Payload Webhooks.
From S2P Require Import WebhooksSpec Worker Payouts Apps MemStore MemStoreProofs AppsProofs.
From S2P Require Import LocksSpec WorkerSpec WorkerLiveness PayoutsSpec System Http Api Handlers HandlersSpec Wire.

(** ** Charges *)
Abbreviation register w := (register_of (mem w)) (only parsing).


Definition charged_pending : ChargePending :=
  match (run (Initiate charge_service (request "shop" "k1")) (start (script_with "pending"))).1 with
  | Ok (Pending p) => p
  | _ => {| cp_Ref := ""; cp_Gateway := ""; cp_ExternalRef := ""; cp_AuthorizationURL := "" |}
  end.

(** Another charge is made in between. *)
Definition meanwhile : MemWorld :=
  (run (Initiate charge_service (request "shop" "k2")) (charged_world (script_with "pending"))).2.

Lemma Initiate_idempotent_witness :
  let again := run (Initiate charge_service (request "shop" "k1")) meanwhile in
  again.1 = replay_of (cp_Ref charged_pending)
  /\ exchanges again.2 = exchanges meanwhile /\ length (exchanges meanwhile) = 2.
Proof.
  cbv zeta.
  destruct (Initiate_idempotent charge_service idem_key (fun w => register_of (mem w)) exchanges
              (request "shop" "k1") charged_pending (start (script_with "pending")))
    as [(first & ulid & _ & [w Hc] & _)|[_ H]].
  - reflexivity.
  - reflexivity.
  - discriminate.
  - vm_compute. reflexivity.
  - discriminate Hc.
  - destruct (H (request "shop" "k1") meanwhile) as (Hans & _ & Hl); [reflexivity..| |reflexivity|].
    { refine (bool_decide_unpack _ _). vm_compute. exact I. }
    split; [exact Hans|]. split; [exact Hl|vm_compute; reflexivity].
Defined.

Lemma Status_correct_witness :
  exists a, exchanges (run (Status charge_service "optd-shop-moolre-01") (start (script_with "failed"))).2
            = [] ++ [XVerify GatewayMoolre "optd-shop-moolre-01" a].
Proof.
  pose proof (Status_correct charge_service exchanges "optd-shop-moolre-01" (start (script_with "failed"))) as H.
  cbv zeta in H.
  assert (Hp : ParseReference "optd-shop-moolre-01" = Some ("shop", GatewayMoolre, "01")) by reflexivity.
  rewrite Hp in H. cbv match in H.
  destruct (adapters (Charges.svc_router charge_service) !! GatewayMoolre) eqn:E; [|vm_compute in E; discriminate E].
  destruct H as (ans & Hl & _). exists ans. exact Hl.
Defined.

(** ** Webhooks *)
Lemma Process_refines_witness :
  let sc := script_with "succeeded" in
  let w := charged_world sc in
  let p := Process webhook_service GatewayPaystack (callback_body "11" (charged_ref sc)) in
  exists ev xs, EventID ev = "charge.success-11" /\ ev_Reference ev = charged_ref sc
    /\ exchanges (run p w).2 = exchanges w ++ xs
    /\ callback ev (books_of (mem w)) xs (run p w).1 (books_of (mem (run p w).2)).
Proof.
  cbv zeta. set (sc := script_with "succeeded"). set (body := callback_body "11" (charged_ref sc)).
  pose proof (Process_refines webhook_service (fun w => books_of (mem w)) exchanges GatewayPaystack body
                (charged_world sc)) as H. cbv zeta beta in H.
  assert (Hp : (run (parsePayload GatewayPaystack body) (charged_world sc)).1
               = Ok {| EventID := "charge.success-11"; ev_Reference := charged_ref sc |})
    by (vm_compute; reflexivity).
  rewrite Hp in H. destruct H as (xs & Hl & Hc).
  exists {| EventID := "charge.success-11"; ev_Reference := charged_ref sc |}, xs. do 2 (split; [reflexivity|]).
  split; [exact Hl|exact Hc].
Defined.

Definition sample_entry : LedgerEntry := {|
  le_ID := 1%N; le_Kind := KindCollection; le_Ref := "r"; le_Amount := New 500 GHS; le_ValueTime := 7%Z;
  le_BookingTime := 9%Z; le_SettlementTime := None; le_Product := "shop"; le_CreatedAt := Time_zero |}.
(** [settled_once], decided. *)
Lemma settled_once_dec b :
  bool_decide (map_Forall (fun ref i => length (collections b ref)
    = if String.eqb (in_Status i) "succeeded" then 1 else 0) (bk_intents b)) = true -> settled_once b.
Proof. intros H%bool_decide_eq_true ref i Hi. exact (H ref i Hi). Qed.

Lemma callbacks_book_once_witness :
  let sc := script_with "succeeded" in
  let calls := [(GatewayPaystack, callback_body "11" (charged_ref sc)); (GatewayHubtel, "not json");
                (GatewayPaystack, callback_body "11" (charged_ref sc));
                (GatewayPaystack, callback_body "12" (charged_ref sc))] in
  settled_once (books_of (mem (run (forM_ calls (deliver webhook_service)) (charged_world sc)).2))
  /\ booked (run (forM_ calls (deliver webhook_service)) (charged_world sc)).2 (charged_ref sc) = 1.
Proof.
  cbv zeta. split; [|vm_compute; reflexivity].
  apply (callbacks_book_once webhook_service (fun w => books_of (mem w)) exchanges).
  apply settled_once_dec. vm_compute. reflexivity.
Defined.

Definition paid_call : Prog MemWorld (result unit) :=
  Process webhook_service GatewayPaystack (callback_body "11" (charged_ref (script_with "succeeded"))).

Lemma Process_books_on_truth_witness :
  (run paid_call (charged_world (script_with "succeeded"))).1 = Ok tt
  /\ booked (run paid_call (charged_world (script_with "succeeded"))).2 (charged_ref (script_with "succeeded")) = 1.
Proof.
  split; [|vm_compute; reflexivity].
  apply (Process_books_on_truth webhook_service (fun w => books_of (mem w)) exchanges GatewayPaystack
           (callback_body "11" (charged_ref (script_with "succeeded")))
           (charged_world (script_with "succeeded")) (charged_ref (script_with "succeeded"))).
  vm_compute. discriminate.
Defined.

Lemma redelivery_is_inert_witness :
  let w1 := (run paid_call (charged_world (script_with "succeeded"))).2 in
  exchanges (run paid_call w1).2 = exchanges w1.
Proof.
  cbv zeta.
  refine (proj1 (proj2 (redelivery_is_inert webhook_service (fun w => books_of (mem w)) exchanges
    GatewayPaystack (callback_body "11" (charged_ref (script_with "succeeded")))
    GatewayPaystack (callback_body "11" (charged_ref (script_with "succeeded")))
    {| EventID := "charge.success-11"; ev_Reference := charged_ref (script_with "succeeded") |}
    {| EventID := "charge.success-11"; ev_Reference := charged_ref (script_with "succeeded") |}
    (charged_world (script_with "succeeded")) _ _ _ _))); vm_compute; reflexivity.
Defined.

(** ** The in-memory store *)
Definition sample_gateway_event (id : UUID) (at_ : Time) (status : string) : GatewayEvent :=
  {| ge_ID := id; ge_Ref := "r"; ge_Gateway := GatewayMoolre; ge_Status := status; ge_CreatedAt := at_ |}.

Definition sample_outbox : MemoryStore :=
  set_outbox (fun _ => list_to_map [(1%N, sample_gateway_event 1 30 "pending");
                                    (2%N, sample_gateway_event 2 10 "pending");
                                    (3%N, sample_gateway_event 3 20 "succeeded");
                                    (4%N, sample_gateway_event 4 20 "pending")]) NewMemoryStore.

Definition world_with (s : MemoryStore) : MemWorld := mkWorld 0 0 0 (script_with "succeeded") [] [] ∅ s.

Lemma ClaimPending_correct_witness :
  mem (run (ClaimPending 2) (world_with sample_outbox)).2 = sample_outbox
  /\ (run (ClaimPending 2) (world_with sample_outbox)).1
     = Ok [sample_gateway_event 2 10 "pending"; sample_gateway_event 4 20 "pending"].
Proof.
  split; [|vm_compute; reflexivity].
  refine (proj1 (ClaimPending_correct 2 (world_with sample_outbox) _ _));
    [discriminate|vm_compute; reflexivity].
Defined.

Definition sample_ledger : MemoryStore := append_ledger "r" [sample_entry] NewMemoryStore.

Lemma ConfirmSettlement_correct_witness :
  (run (ConfirmSettlement mem_LedgerStore "r") (world_with sample_ledger)).1 = Ok tt.
Proof. exact (proj1 (ConfirmSettlement_correct "r" (world_with sample_ledger))). Defined.

(** ** Applications *)
Definition sample_app (id : UUID) (name : string) : App := {|
  app_ID := id; app_Name := name; app_Product := "shop"; app_Prefix := "pay_test";
  app_CreatedAt := 5%Z; app_LastUsedAt := None; app_RevokedAt := None; app_CreatedBy := "" |}.

Definition two_apps : MemoryStore :=
  mkMem ∅ ∅ ∅ ∅ (<[1%N := sample_app 1 "one"]> {[2%N := sample_app 2 "two"]})
        (<["h1" := 1%N]> {["h2" := 2%N]}) (<["one" := 1%N]> {["two" := 2%N]}) ∅ ∅.

Lemma two_apps_index : app_index two_apps.
Proof.
  split; simpl.
  - intros h id. rewrite lookup_insert_Some, lookup_singleton_Some.
    intros [[_ <-]|[_ [_ <-]]]; by eexists.
  - intros h h' id. rewrite !lookup_insert_Some, !lookup_singleton_Some.
    intros [[<- <-]|[_ [<- <-]]] [[<- Hx]|[_ [<- Hx]]]; by try discriminate Hx.
  - intros n id. rewrite lookup_insert_Some, lookup_singleton_Some. split.
    + intros [[<- <-]|[Hn [<- <-]]]; by eexists.
    + intros (a & Ha & <-). apply lookup_insert_Some in Ha as [[<- <-]|[Hn Ha]]; [by left|].
      apply lookup_singleton_Some in Ha as [<- <-]. by right.
Qed.

Lemma world_index : app_index (mem (world_with two_apps)).
Proof. exact two_apps_index. Qed.

Lemma RotateKey_correct_witness :
  is_Ok (run (RotateKey (app_service EnvProduction) 1%N) (world_with two_apps)).1 = true
  /\ appHash (mem (run (RotateKey (app_service EnvProduction) 1%N) (world_with two_apps)).2) !! "h1" = None
  /\ appHash (mem (run (RotateKey (app_service EnvProduction) 1%N) (world_with two_apps)).2) !! "h2" = Some 2%N.
Proof.
  destruct (run (RotateKey (app_service EnvProduction) 1%N) (world_with two_apps)).1 as [r|e] eqn:E;
    [|vm_compute in E; discriminate E].
  destruct (RotateKey_correct EnvProduction 1%N r (world_with two_apps) world_index E) as (_ & Hk & _).
  split; [reflexivity|]. vm_compute in E. injection E as E. subst r.
  rewrite Hk. vm_compute. split; reflexivity.
Defined.

Lemma rotation_conflict_drops_key_witness :
  (run (UpdateAppKeyHash 1 "h2" "pay_test") (world_with two_apps)).1 = Err Apps.ErrConflict
  /\ appHash (mem (run (UpdateAppKeyHash 1 "h2" "pay_test") (world_with two_apps)).2) !! "h1" = None.
Proof.
  split; [|vm_compute; reflexivity].
  apply (rotation_conflict_drops_key 1 2 "h2" "pay_test" (sample_app 1 "one") (world_with two_apps)
           world_index); (reflexivity || discriminate).
Defined.

Lemma InsertApp_correct_witness :
  app_index (mem (run (InsertApp (sample_app 3 "three") "h3") (world_with two_apps)).2)
  /\ (run (InsertApp (sample_app 3 "three") "h3") (world_with two_apps)).1 = Ok tt.
Proof.
  split; [|vm_compute; reflexivity].
  apply (InsertApp_correct (sample_app 3 "three") "h3" (world_with two_apps) world_index). reflexivity.
Defined.

(** ** Worker and payouts *)
Lemma processOne_correct_witness :
  let ev := sample_gateway_event 2 10 "pending" in
  let w := world_with sample_outbox in
  (run (TryAcquire (W:=MemWorld) scripted_locker (row_lock (W:=MemWorld) ev) (60 * Second)) w).1 = Ok true
  /\ given_back (W:=MemWorld) scripted_locker (row_lock (W:=MemWorld) ev) ∅ (lock_table (run (processOne worker ev) w).2).
Proof.
  cbv zeta. split; [reflexivity|].
  pose proof (processOne_correct mem_OutboxStore (fun w => outbox_of (mem w)) (fun _ => True) False exchanges worker
    scripted_locker lock_table clock (sample_gateway_event 2 10 "pending") (world_with sample_outbox)
    eq_refl eq_refl eq_refl) as H.
  exact (proj1 (proj2 H)).
Defined.

Lemma outbox_key_ignores_recipient_witness :
  let e r := {| pe_Recipient := r; pe_Amount := New 1 GHS; pe_Reference := ""; pe_VendorID := "" |} in
  outbox_key "k" 0 (e "024") = outbox_key "k" 0 (e "020") /\ outbox_key "k" 0 (e "024") = "k::1970-01-01".
Proof.
  cbv zeta. split; [|vm_compute; reflexivity].
  refine (proj1 (outbox_key_ignores_recipient "k" 0 _ _ _ _)); reflexivity.
Defined.

(** ** The operator's endpoints *)
Definition posted (ref body : string) : Request := {|
  rq_Method := "POST"; rq_Path := "/v1/charges"; rq_RemoteAddr := ""; rq_Header _ := ""; rq_Cookies := [];
  rq_Query _ := ""; rq_Param p := if String.eqb p "ref" then ref else ""; rq_Body := dq body |}.
Definition charge_post : Request :=
  posted "" "{'product':'shop','amount_pesewas':1800,'currency':'GHS','phone':'0240000001','metadata':{'a':1}}".

Lemma handleCreateCharge_correct_witness :
  exists first ulid att,
    exchanges (run (handleCreateCharge (fun _ => "") charge_service charge_post) (start (script_with "pending"))).2
    = [] ++ map (attempt_exchange (base_request
        {| cr_Product := "shop"; cr_Amount := New 1800 GHS; cr_Wallet := ""; cr_Phone := "0240000001";
           cr_IdempotencyKey := "" |} (BuildReference "shop" first ulid))) att.
Proof.
  pose proof (handleCreateCharge_correct charge_service idem_key (fun w => register_of (mem w)) exchanges
    (fun _ => "") charge_post (start (script_with "pending")) eq_refl) as H.
  cbv zeta in H. destruct (decodeJSON _ _ _ _) as [refused|body] eqn:E; vm_compute in E; [discriminate E|].
  injection E as <-. destruct H as [(ref & Hk & _)|(_ & first & others & gs & ulid & att & _ & _ & _ & Hl & _)].
  - vm_compute in Hk. discriminate Hk.
  - exists first, ulid, att. exact Hl.
Defined.

Definition refund_post : Request := posted "optd-shop-moolre-01" "{'amount_pesewas':500}".
Lemma handleRefundCharge_correct_witness :
  let out := run (handleRefundCharge (fun _ => "") scripted_router refund_post) (start (script_with "pending")) in
  exists res, exchanges out.2 = [] ++ [XRefund GatewayMoolre "optd-shop-moolre-01" (New 500 GHS) res]
    /\ (rs_Status out.1 = 200%Z <-> res = Ok tt).
Proof.
  cbv zeta.
  destruct (handleRefundCharge_correct scripted_router exchanges (fun _ => "") refund_post (start (script_with "pending")))
    as [H _].
  specialize (H {| rb_AmountPesewas := 500; rb_Currency := "" |} "shop" GatewayMoolre "01").
  destruct (adapters (@scripted_router MemoryStore) !! GatewayMoolre) eqn:E; [|vm_compute in E; discriminate E].
  destruct H as (res & Hl & _ & Hs).
  - unfold refund_asked. split_and!; [vm_compute; reflexivity|vm_compute; reflexivity|reflexivity|discriminate|reflexivity|reflexivity].
  - exists res. split; [exact Hl|exact Hs].
Defined.

(** ** The worker's outbox *)
Lemma keyed_dec o : bool_decide (map_Forall (fun id ev => ge_ID ev = id) (ob_rows o)) = true -> keyed o.
Proof. intros H%bool_decide_eq_true. exact H. Qed.
Definition steady_worker (answer : string -> result VerifyResult) : Worker MemWorld :=
  {| wk_store := mem_OutboxStore; wk_ledger := None; wk_router := steady_router answer; wk_locker := Some scripted_locker |}.

(** Fifty charges of a gateway that is not configured, then one that could be settled. *)
Definition waiting (i : nat) : GatewayEvent :=
  {| ge_ID := N.of_nat i; ge_Ref := "r"; ge_Gateway := GatewayPaystack; ge_Status := "pending";
     ge_CreatedAt := Z.of_nat i |}.
Definition page50 : list GatewayEvent := map waiting (seq 0 50).
Definition queued : MemoryStore :=
  foldr (fun i => set_outbox <[N.of_nat i := waiting i]>)
    (set_intents <["r" := {| row_pending := {| cp_Ref := "r"; cp_Gateway := GatewayPaystack; cp_ExternalRef := "r";
                                               cp_AuthorizationURL := "" |};
                             row_status := "pending"; row_product := "shop" |}]> NewMemoryStore) (seq 0 51).
Definition silent_worker : Worker MemWorld := steady_worker (fun _ => Err ErrNotConfigured).
Definition queued_world : MemWorld := mkWorld 0 0 0 (script_with "succeeded") [] [] ∅ queued.

Lemma page50_blocked : blocked silent_worker (outbox_of queued) page50.
Proof.
  split; [refine (bool_decide_unpack _ _); vm_compute; exact I|]. split; [reflexivity|]. split.
  - assert (Hw : Forall (fun ev => outbox queued !! ge_ID ev = Some ev /\ ge_Ref ev = "r" /\ is_waiting ev = true) page50)
      by (refine (bool_decide_unpack _ _); vm_compute; exact I).
    eapply List.Forall_impl; [|exact Hw]. intros ev (Ho & Hr & Hp). split; [done|].
    destruct (adapters (wk_router silent_worker) !! ge_Gateway ev) as [a|] eqn:Ha; [|done].
    apply (steady_inv (W:=MemWorld)) in Ha as ->. rewrite Hr. split; [|done]. eexists. split; [reflexivity|done].
  - intros ev [Ho _].
    assert (Hall : map_Forall (fun _ ev => ev ∈ page50 \/ Forall (fun b => ge_CreatedAt b < ge_CreatedAt ev)%Z page50)
                     (outbox queued)) by (refine (bool_decide_unpack _ _); vm_compute; exact I).
    exact (Hall _ _ Ho).
Qed.

Lemma outbox_starves_witness : outbox_of (mem (drains silent_worker 100 queued_world)) = outbox_of (mem queued_world).
Proof.
  apply (outbox_starves mem_OutboxStore (fun w => outbox_of (mem w)) (fun _ => True) silent_worker scripted_locker page50
           100 queued_world).
  - reflexivity.
  - reflexivity.
  - apply keyed_dec. vm_compute. reflexivity.
  - exact page50_blocked.
  - vm_compute. reflexivity.
Defined.

(** ** The worker after a callback *)
Lemma drain_books_again_witness :
  let ref := charged_ref (script_with "succeeded") in
  booked (charged_world (script_with "succeeded")) ref = 0 /\ booked settled_world ref = 1
  /\ booked (run (DrainOutbox worker) settled_world).2 ref = 2
  /\ ge_Ref settled_row = ref
  /\ exists first again,
       collections (books_of (mem (run (processOne worker settled_row) settled_world).2)) (ge_Ref settled_row)
       = [first; again].
Proof.
  cbv zeta. do 4 (split; [vm_compute; reflexivity|]).
  assert (Hl : locks settled_world = ∅) by (vm_compute; reflexivity).
  assert (Hfree : ~ held_at (lock_table settled_world) (clock settled_world) (row_lock (W:=MemWorld) settled_row))
    by (apply lock_table_free; rewrite Hl; apply not_elem_of_empty).
  assert (Hw : waits (outbox_of (mem settled_world)) settled_row) by (vm_compute; split; reflexivity).
  assert (Ha : is_Some (adapters (wk_router worker) !! ge_Gateway settled_row)) by (vm_compute; eexists; reflexivity).
  assert (E : exists i, bk_intents (books_of (mem settled_world)) !! ge_Ref settled_row = Some i /\ in_Status i = "succeeded")
    by (eexists; split; vm_compute; reflexivity).
  destruct E as (i & Hi & Hs).
  assert (Honce : settled_once (books_of (mem settled_world))) by (apply settled_once_dec; vm_compute; reflexivity).
  destruct (drain_books_again mem_OutboxStore (fun w => outbox_of (mem w)) (fun _ => True) (@exchanges MemoryStore) worker
              scripted_locker lock_table clock settled_row i settled_world
              eq_refl eq_refl (scripted_grants (S:=MemoryStore)) Hfree Hw Ha (fun _ _ _ => I) Hi Hs Honce)
    as (_ & first & again & _ & H).
  exists first, again. exact H.
Defined.
